(* ===== verification/_CoqProject ===== *)
-Q . S2P
Prelude.v
Encoding.v
GoStrings.v
Json.v
JsonStruct.v
JsonIndent.v
JsonPrefix.v
Bucket.v
Store.v
ObjectDB.v
Flags.v
Crypto.v
NodeCrypto.v
ClientCrypto.v
Http.v
SorobanTx.v
Contract.v
RateLimit.v
FileSystem.v
Streaming.v
Keystore.v
Logger.v
Node.v
Middleware.v
Handlers.v
Metrics.v
Release.v
Race.v
Config.v
Pattern.v
Mux.v
Server.v
NodeSpec.v
Shutdown.v
Start.v
Admin.v
Transaction.v
Client.v
Cli.v
Network.v
EndToEnd.v
Allowlist.v
Sdk.v
