(* ===== verification/Prelude.v ===== *)
(** * soroban-encrypt: a verification development

    soroban-encrypt keeps files confidential on Stellar's Soroban.  A client
    encrypts a file under a fresh AES key, splits the key with Shamir's scheme,
    seals each share to a key node (ECIES) and stores it there.  To read the
    file, a caller asks the nodes for their shares; a node releases its share
    only to a caller who signs the request and whose call of [approve] on the
    object's contract succeeds in a simulation at a Soroban RPC node.  The files
    below model the Go programs - node, client, administration client and SDK -
    and the contract, compose them into a network, and prove what holds of them,
    and in places what does not.

    ** Conventions

    The model is a shallow embedding.  [outcome A] is what running Go code gives,
    a value or a run-time panic; [res E A] is a [(value, error)] pair; [M S A] is
    code that changes a state [S].  Go's [int], [int64], [uint32] and [uint64]
    are [Z] with the wrap-around written out ([int64], [uint32], [uint64]).  A Go
    string is a [string], a byte slice a [list ascii], an [option] of one where
    the code tests it against nil.  Loops over data are structural; the loop over
    a file ([encrypt_loop]) takes fuel, one more than the bytes left to read,
    and the JSON reader takes [value_fuel], two for every byte of the input and two
    more; that both are enough is proved ([streaming_roundtrip],
    [parse_value_fuel]).

    What is not code of the repository is a parameter: a class with its
    operations, and a class of laws that state its documented behaviour.
    They are [Crypto]/[CryptoLaws] (ECDH on P-256, AES-GCM, SHA-256, HKDF,
    Ed25519, strkey), [Bolt]/[BoltLaws] (bbolt), [RateLimiter]/[RateLimiterLaws]
    (x/time/rate), [Xdr]/[XdrCodec]/[XdrLaws] (Stellar's XDR), [Shamir]/
    [ShamirLaws], [KeyCodec]/[KeyCodecLaws] (PEM and SEC 1), [GoTime]/[GoTimeLaws]
    (times and their JSON, which reads back as the same instant), [Zerolog],
    [Unicode] (letters and digits beyond ASCII), [Os] (faults of the file system),
    [Net] and [Doer] (HTTP from the client's side).  Each has a concrete instance ([ToyCrypto], [GmapBolt], [ToyRate],
    [ToyXdr], [ToyShamir], [ToyKeys], ...), with its laws proved, in which every
    theorem with hypotheses is applied to a run that satisfies them: the
    theorems named [..._witness].

    ** The Go standard library

    [Encoding] (encoding/hex, base64, little-endian integers), [GoStrings]
    (strings, strconv), [Flags] (flag, strconv.ParseInt), [Json], [JsonStruct],
    [JsonIndent], [JsonPrefix] (encoding/json: the writer with its escaping, the
    reader with its limits and coercions, structs as field tables, a value cut
    short), [FileSystem] (os, io), [Http] (requests, bodies with a cap, response
    writers, handlers), [Pattern] and [Mux] (http.ServeMux as of Go 1.25: patterns
    with methods, hosts and wildcards, their conflicts, the routing tree, path
    cleaning and redirects).

    The mux is modelled in full because HEALTH_CHECK_PATH is passed to it as it
    is.  A value with a method or a host, as [POST /retrieve], is more specific
    than the route of the same path and takes it over ([health_takes_over]);
    theorems on what a route answers therefore ask that it does not
    ([health_takes], [health_apart]), which every value that begins with a slash
    meets ([rooted_takes]).

    ** The node ([src/node])

    - [Bucket], [Store] - store.go, store_interface.go.  The database handle [DB]
      is the package variable [db]; one definition per function.  [ShareStore]
      is the Go interface, [ShareStoreLaws] what a store promises (a finite map);
      the handlers are verified against it and [BoltStore] is proved to keep it
      ([BoltStore_refines]).
    - [Crypto], [NodeCrypto] - crypto.go, hkdf.go.
    - [SorobanTx] - [verifySorobanTx], [simulateSorobanTx] in main.go.
    - [RateLimit] - ratelimit.go.
    - [Keystore] - keystore.go.  [Logger] - logger.go.
    - [Node] - the package's variables as one record, [init] of main.go, and
      keymanager.go; the goroutine of [Rotate] is a job in [goroutines], run by
      [run_goroutine].
    - [Middleware] - middleware.go, tls.go's header, ratelimit.go's middleware.
    - [Handlers] - handlers.go and rotate_handler.go: one [Handler] each, with
      every guard, reply, log line and change of state in the code's order.
    - [Metrics] - metrics.go.  [Config] - config.go and tls.go.
    - [Server] - [buildMux] of server.go, sequences of requests, the state in
      which main.go starts serving.  [Start] - [main], [runServer] and the TLS
      modes.  [Shutdown] - [listenWithGracefulShutdown] as a transition system.
    - [NodeSpec] - the abstract node: its shares and its keys, with one rule per
      thing a request can do to them ([abs_step]).  [refines] relates a handler
      to it, each middleware and each handler has its lemma, and the whole
      server is shown to be one of its runs.
    - [Release] - what /retrieve releases, over several requests and rotations.
    - [Race] - concurrent /store requests: [handleStoreShare] cut in two between
      its two transactions, and the interleavings as a step relation.

    ** The contract ([src/contract/src/lib.rs])

    - [Contract] - its storage, its five entry points and their transactions;
      and [RpcSimulates], the hypothesis on a Soroban RPC node: it answers the
      simulation of an [approve] transaction as [approve] behaves on the ledger.

    ** The client ([src/client], [src/pkg])

    - [ClientCrypto] - crypto.go, hkdf.go.  [Transaction] - transaction.go.
    - [Streaming] - streaming.go.  [ObjectDB] - objectdb.go, objects_schema.go.
    - [Client] - main.go: [handleEncrypt] and [handleDecrypt] on a [World] of a
      file system, a random tape and a network, each exit a constructor of
      [exit_reason].  [Cli] - its [main] and flags, on [Flags] (the flag package).
    - [Network] - the client's network interface instantiated by whole node
      servers, one per base URL, each behind its routes and middleware.
    - [EndToEnd] - encrypt and decrypt on that network and a ledger.
    - [Allowlist] - what the contract's list guarantees of all of them together.
    - [Admin] - admin/admin.go, and its calls served by the node.
    - [Sdk] - pkg/sorobanencrypt, and the programs of examples/.

    ** What is proved

    - End to end: [decrypt_of_encrypt] (a caller on the list reads the file
      back), [decrypt_not_allowed] (with the client, one who is not gets
      nothing), [decrypt_below_threshold], from [ECIES_node_opens] and
      [BuildApproveTransaction_accepted].
    - The node as a whole: [server_refines] (every run of the server is one of
      the abstract node), and from it [node_stays_ok], [released_was_stored] and
      [release_needs_allowlist].
    - Access control: [server_retrieve_200_iff], [retrieve_reply],
      [verifySorobanTx_ok_iff], [simulateSorobanTx_true_iff],
      [allowlist_by_admin]; what it does not give: [allowlist_bypassed],
      [credentials_not_bound].
    - Storage: [store_spec], [BoltStore_refines], [server_write_once],
      [stored_share_stays]; what fails: [store_race], [bad_nonce_panics].
    - Keys: [Rotate_keeps_keys], [LoadOrGenerateKey_persists],
      [RotateKey_outcome]; what fails: [rotation_strands_shares],
      [restart_forgets_rotation].
    - Running: [runServer_modes], [buildMux_panics_iff], [server_body_cap],
      [object_rate_bound], [encrypt_command_line], [shutdown_clean],
      [shutdown_terminates]; what fails: [main_never_ready].
    - Files and registry: [streaming_roundtrip], [saveObject_loadObject],
      [listObjects_spec]; what fails: [streaming_undecryptable],
      [v2_chunks_unordered].

    [decrypt_of_encrypt], [decrypt_not_allowed] and [allowlist_bypassed] differ
    in one thing.  The client names its own account in the [approve] call it
    builds, and then the list decides; the node does not check that it does, and
    an account off the list that names another one is served.

    The laws of [Crypto] are functional (what was sealed opens, what was signed
    verifies); secrecy is not modelled, and no theorem speaks of it.

    ** Not modelled

    Certificate files, accepting connections and timing out on them, a reply
    whose writing fails (the handlers only log it, as [encode error]), the
    Prometheus registry, what the commands of the client print, the text of a
    log line (entries are kept as values), data races on the node's variables
    other than the /store race, and the unused types [StoredShare],
    [StoredShareV2] and [KeyVersion].  Of the contract: the expiry of storage,
    [upgrade], which is no entry point, and per_object.rs and multi_admin.rs,
    which no module declaration names.  The dashboard is an embedded asset and
    the SDK under sdk/ is TypeScript.

    ** This file

    The monads and their notation, machine integers, lengths, and the tactics and
    hint databases the other files share. *)

From Stdlib Require Export ZArith Lia Ascii String.
From stdpp Require Export base gmap strings list.

#[global] Open Scope Z_scope.

(** ** Bytes and strings

    A Go [string] is a sequence of bytes: Rocq's [string] is one too.  A Go
    [[]byte] that cannot be nil is a [list ascii]; where the code tests a slice
    against nil, the slice is an [option] of one ([None] is nil). *)

Abbreviation byte := Ascii.ascii.
Abbreviation bytes := (list Ascii.ascii).

(** [[]byte(s)] and [string(b)]. *)
Abbreviation bytes_of := list_ascii_of_string.
Abbreviation string_of := string_of_list_ascii.

(** A Go slice [[]byte] whose nil-ness is observable. *)
Abbreviation slice := (option (list Ascii.ascii)).

(** Reading a slice's contents: a nil slice has none. *)
Definition slice_bytes (s : slice) : bytes := default [] s.

(** ** Outcomes and errors

    [outcome A] is what running Go code gives: a value, or a run-time panic.
    [res E A] is the [(value, error)] pair of a Go call whose value is
    meaningless when the error is not nil. *)

Inductive outcome (A : Type) : Type :=
| Ret (a : A)
| Panic (msg : string).
Arguments Ret {A} a.
Arguments Panic {A} msg.

Inductive res (E A : Type) : Type :=
| Ok (a : A)
| Err (e : E).
Arguments Ok {E A} a.
Arguments Err {E A} e.

(** The built-in [error] interface, seen through [Error()]. *)
Abbreviation error := string.

#[export] Instance outcome_ret : MRet outcome := λ A a, Ret a.
#[export] Instance outcome_bind : MBind outcome := λ A B f m,
  match m with Ret a => f a | Panic e => Panic e end.

#[export] Instance res_ret E : MRet (res E) := λ A a, Ok a.
#[export] Instance res_bind E : MBind (res E) := λ A B f m,
  match m with Ok a => f a | Err e => Err e end.

Definition is_ok {E A} (r : res E A) : bool :=
  match r with Ok _ => true | Err _ => false end.

Definition res_option {E A} (r : res E A) : option A :=
  match r with Ok a => Some a | Err _ => None end.

(** [fmt.Errorf("ctx: %w", err)]. *)
Definition wrap (ctx : string) (e : error) : error := ctx +:+ ": " +:+ e.

Definition map_err {E F A} (f : E → F) (r : res E A) : res F A :=
  match r with Ok a => Ok a | Err e => Err (f e) end.

(** ** Stateful code

    A Go function that reads and writes the store [S] is a state transformer
    that keeps the state reached when it panics: [net/http] recovers a
    handler's panic, so the writes made before it persist. *)

Definition M (S A : Type) : Type := S → outcome A * S.

#[export] Instance M_ret S : MRet (M S) := λ A a s, (Ret a, s).
#[export] Instance M_bind S : MBind (M S) := λ A B f m s,
  match m s with
  | (Ret a, s') => f a s'
  | (Panic e, s') => (Panic e, s')
  end.

Definition get_st {S} : M S S := λ s, (Ret s, s).
Definition gets {S A} (f : S → A) : M S A := λ s, (Ret (f s), s).
Definition modify {S} (f : S → S) : M S unit := λ s, (Ret tt, f s).
Definition throw {S A} (msg : string) : M S A := λ s, (Panic msg, s).

(** Code with no effect but a panic, run inside stateful code. *)
Definition lift {S A} (o : outcome A) : M S A := λ s, (o, s).

(** Run code that sees only the part [T] of the state [S]. *)
Definition zoom {S T A} (get : S → T) (put : T → S → S) (m : M T A) : M S A :=
  λ s, let '(o, t) := m (get s) in (o, put t s).

(** [for _, x := range l { f(x) }]. *)
Fixpoint for_range {S A} (l : list A) (f : A → M S unit) : M S unit :=
  match l with
  | [] => mret tt
  | x :: l' => _ ← f x; for_range l' f
  end.

Declare Scope go_scope.
Delimit Scope go_scope with go.

(** [x, err := r; if err != nil { h }; k] *)
Notation "'try' x := r 'catch' e => h 'in' k" :=
  (match r with Ok x => k | Err e => h end)
  (at level 10, x pattern, e name, k at level 200, h at level 200,
   format "'[hv' try  x  :=  r  'catch'  e  =>  h  'in'  '//' k ']'") : go_scope.
#[global] Open Scope go_scope.

Section monad_laws.
Context {S : Type}.

Lemma M_bind_ret_l {A B} (a : A) (f : A → M S B) s : (mret a ≫= f) s = f a s.
Proof. reflexivity. Qed.

Lemma M_bind_ret_r {A} (m : M S A) s : (m ≫= mret) s = m s.
Proof. unfold mbind, M_bind. by destruct (m s) as [[]]. Qed.

Lemma M_bind_assoc {A B C} (m : M S A) (f : A → M S B) (g : B → M S C) s :
  ((m ≫= f) ≫= g) s = (m ≫= λ a, f a ≫= g) s.
Proof. unfold mbind, M_bind. by destruct (m s) as [[]]. Qed.

(** What [m] did, when the whole sequence returned. *)
Lemma M_bind_Ret {A B} (m : M S A) (f : A → M S B) s b s' :
  (m ≫= f) s = (Ret b, s') ↔ ∃ a s1, m s = (Ret a, s1) ∧ f a s1 = (Ret b, s').
Proof. unfold mbind, M_bind. destruct (m s) as [[] ?]; naive_solver. Qed.

End monad_laws.

(** ** Fixed-width integers *)

(** Wrap-around of Go's [int64] (and [int] on the 64-bit targets the program
    is built for), [uint64], [uint32] and [uint8] conversions and arithmetic. *)
Definition int64 (z : Z) : Z := (z + 2 ^ 63) mod 2 ^ 64 - 2 ^ 63.
Definition uint64 (z : Z) : Z := z mod 2 ^ 64.
Definition uint32 (z : Z) : Z := z mod 2 ^ 32.

Definition in_int64 (z : Z) : Prop := - 2 ^ 63 ≤ z < 2 ^ 63.

Lemma int64_range z : in_int64 (int64 z).
Proof.
  unfold in_int64, int64. pose proof (Z.mod_pos_bound (z + 2 ^ 63) (2 ^ 64)). lia.
Qed.

Lemma int64_id z : in_int64 z → int64 z = z.
Proof. unfold in_int64, int64. intros ?. rewrite Z.mod_small; lia. Qed.

Lemma uint64_id z : 0 ≤ z < 2 ^ 64 → uint64 z = z.
Proof. intros ?. by apply Z.mod_small. Qed.

Lemma uint32_id z : 0 ≤ z < 2 ^ 32 → uint32 z = z.
Proof. intros ?. by apply Z.mod_small. Qed.

Lemma uint32_range z : 0 ≤ uint32 z < 2 ^ 32.
Proof. apply Z.mod_pos_bound. lia. Qed.

(** The length of a slice, as a Go [int]. *)
Definition len {A} (l : list A) : Z := Z.of_nat (length l).
Definition slen (s : string) : Z := Z.of_nat (String.length s).

Lemma len_nonneg {A} (l : list A) : 0 ≤ len l.
Proof. unfold len. lia. Qed.

Lemma len_app {A} (l k : list A) : len (l ++ k) = len l + len k.
Proof. unfold len. rewrite length_app. lia. Qed.

Lemma len_cons {A} (x : A) l : len (x :: l) = 1 + len l.
Proof. unfold len. simpl length. lia. Qed.

Lemma len_0_nil {A} (l : list A) : len l = 0 → l = [].
Proof. destruct l; [done|]. rewrite len_cons. pose proof (len_nonneg l). lia. Qed.

(** A key listed once has one value. *)
Lemma NoDup_fst_inj {A B} (l : list (A * B)) a b b' :
  NoDup l.*1 → (a, b) ∈ l → (a, b') ∈ l → b = b'.
Proof.
  induction l as [|[a0 b0] l IH]; [by intros _ ?%not_elem_of_nil|]. cbn.
  intros [Hn Hd]%NoDup_cons. rewrite !elem_of_cons.
  assert (∀ x, (a0, x) ∈ l → a0 ∈ l.*1) as Hin by (intros x Hx; apply list_elem_of_fmap; by exists (a0, x)).
  intros [[= -> ->]|H1] [[= E]|H2]; subst; auto; exfalso; eauto.
Qed.

(** ** Splitting a list at an integer position

    [l[:n]] and [l[n:]] for an integer [n] too large to be written in unary. *)

Fixpoint splitZ {A} (n : Z) (l : list A) : list A * list A :=
  match l with
  | [] => ([], [])
  | x :: l' =>
      if n <=? 0 then ([], l) else
      let '(a, b) := splitZ (n - 1) l' in (x :: a, b)
  end.

Lemma splitZ_take_drop {A} (n : Z) (l : list A) :
  splitZ n l = (take (Z.to_nat n) l, drop (Z.to_nat n) l).
Proof.
  revert n; induction l as [|x l IH]; intros n; simpl.
  { by rewrite take_nil, drop_nil. }
  destruct (Z.leb_spec n 0) as [Hn|Hn].
  { by replace (Z.to_nat n) with 0%nat by lia. }
  rewrite IH. replace (Z.to_nat n) with (Datatypes.S (Z.to_nat (n - 1))) by lia. done.
Qed.

Lemma splitZ_app {A} (n : Z) (l : list A) : (splitZ n l).1 ++ (splitZ n l).2 = l.
Proof. rewrite splitZ_take_drop. apply take_drop. Qed.

Lemma splitZ_exact {A} (n : Z) (a b : list A) : n = len a → splitZ n (a ++ b) = (a, b).
Proof.
  intros ->. rewrite splitZ_take_drop. unfold len. rewrite Nat2Z.id.
  by rewrite take_app_length, drop_app_length.
Qed.

Lemma splitZ_len {A} (n : Z) (l : list A) : 0 ≤ n → len (splitZ n l).1 = Z.min n (len l).
Proof. intros ?. rewrite splitZ_take_drop. unfold len. simpl. rewrite length_take. lia. Qed.

Lemma splitZ_len_2 {A} (n : Z) (l : list A) : 0 ≤ n → len (splitZ n l).2 = Z.max 0 (len l - n).
Proof. intros ?. rewrite splitZ_take_drop. unfold len. simpl. rewrite length_drop. lia. Qed.

(** ** Automation *)

Create HintDb go discriminated.
Create Rewrite HintDb go.

#[export] Hint Rewrite @M_bind_ret_l @len_app @len_cons : go.
#[export] Hint Resolve len_nonneg int64_range uint32_range : go.

(** Split the conjunctions, existentials and equations of the context. *)
Ltac crush_hyps :=
  repeat match goal with
  | H : _ ∧ _ |- _ => destruct H
  | H : ∃ _, _ |- _ => destruct H
  | H : (_, _) = (_, _) |- _ => injection H as ? ?; subst
  | H : Ret _ = Ret _ |- _ => injection H as ?; subst
  | H : Ok _ = Ok _ |- _ => injection H as ?; subst
  | H : Err _ = Err _ |- _ => injection H as ?; subst
  | H : Some _ = Some _ |- _ => injection H as ?; subst
  end.

(** Follow one branch of the code: split on what the goal (or a hypothesis)
    branches on, naming the equation. *)
Ltac step_match :=
  match goal with
  | |- context [match ?x with _ => _ end] => let E := fresh "E" in destruct x eqn:E
  end.
Ltac step_match_in H :=
  match type of H with
  | context [match ?x with _ => _ end] => let E := fresh "E" in destruct x eqn:E
  end.

(** Run the state monad's own operations. *)
Ltac unfold_M := unfold mbind, M_bind, mret, M_ret, get_st, gets, modify, throw, lift, zoom in *.

(** ** Facts on bytes *)

Lemma N_of_ascii_lt (a : byte) : (N_of_ascii a < 256)%N.
Proof. apply N_ascii_bounded. Qed.

(** Prove a closed boolean fact about every byte by evaluation. *)
Ltac by_all_ascii :=
  let a := fresh "a" in
  intros a; destruct a as [[] [] [] [] [] [] [] []]; vm_compute; first [reflexivity | done].

(** ** Strings *)

Lemma string_app_cons (a : byte) (s t : string) : String a s +:+ t = String a (s +:+ t).
Proof. reflexivity. Qed.

Lemma string_app_nil_l (s : string) : "" +:+ s = s.
Proof. reflexivity. Qed.

Lemma string_app_nil_r (s : string) : s +:+ "" = s.
Proof. induction s as [|a s IH]; [done|]. by rewrite string_app_cons, IH. Qed.

Lemma string_app_assoc (a b c : string) : a +:+ (b +:+ c) = (a +:+ b) +:+ c.
Proof. induction a as [|x a IH]; [done|]. by rewrite !string_app_cons, IH. Qed.

Lemma string_length_app (a b : string) :
  String.length (a +:+ b) = (String.length a + String.length b)%nat.
Proof. induction a as [|x a IH]; [done|]. rewrite string_app_cons. simpl. by rewrite IH. Qed.

Lemma slen_app (a b : string) : slen (a +:+ b) = slen a + slen b.
Proof. unfold slen. rewrite string_length_app. lia. Qed.

Lemma bytes_of_app (a b : string) : bytes_of (a +:+ b) = bytes_of a ++ bytes_of b.
Proof. induction a as [|x a IH]; [done|]. rewrite string_app_cons. simpl. by rewrite IH. Qed.

Lemma bytes_of_string_of (b : bytes) : bytes_of (string_of b) = b.
Proof. apply list_ascii_of_string_of_list_ascii. Qed.

Lemma string_of_bytes_of (s : string) : string_of (bytes_of s) = s.
Proof. apply string_of_list_ascii_of_string. Qed.

#[export] Instance bytes_of_inj : Inj (=) (=) (list_ascii_of_string).
Proof. intros a b H. by rewrite <- (string_of_bytes_of a), H, string_of_bytes_of. Qed.

Lemma length_bytes_of (s : string) : length (bytes_of s) = String.length s.
Proof. induction s; simpl; congruence. Qed.

Create Rewrite HintDb go_string.
#[export] Hint Rewrite string_app_nil_r bytes_of_app bytes_of_string_of string_of_bytes_of : go_string.
