(* ===== verification/Encoding.v ===== *)
(** * Encodings of the Go standard library the program uses

    [encoding/hex] (every byte string on the wire between client and node),
    [encoding/base64] (how [encoding/json] writes a [[]byte]), and
    [encoding/binary]'s little-endian [uint32] (the header of the v2 [.enc]
    format), with their round trips. *)

From S2P Require Import Prelude.

(** ** encoding/hex *)

Module Hex.

(** [InvalidByteError] and [ErrLength]. *)
Inductive hex_error :=
| InvalidByteError (b : byte)
| ErrLength.

Definition hexdigit (n : N) : byte :=
  ascii_of_N (if (n <? 10)%N then 48 + n else 87 + n)%N.

Fixpoint EncodeToString (b : bytes) : string :=
  match b with
  | [] => ""
  | x :: r =>
      String (hexdigit (N_of_ascii x / 16))
        (String (hexdigit (N_of_ascii x mod 16)) (EncodeToString r))
  end.

Definition fromHexChar (c : byte) : option N :=
  let n := N_of_ascii c in
  if (48 <=? n)%N && (n <=? 57)%N then Some (n - 48)%N
  else if (97 <=? n)%N && (n <=? 102)%N then Some (n - 87)%N
  else if (65 <=? n)%N && (n <=? 70)%N then Some (n - 55)%N
  else None.

(** Pairs are read left to right; a single character left over is reported as
    an invalid byte first, and as a bad length otherwise. *)
Fixpoint DecodeString (s : string) : res hex_error bytes :=
  match s with
  | "" => Ok []
  | String a "" =>
      match fromHexChar a with
      | None => Err (InvalidByteError a)
      | Some _ => Err ErrLength
      end
  | String a (String b r) =>
      match fromHexChar a, fromHexChar b with
      | Some x, Some y => bs ← DecodeString r; mret (ascii_of_N (16 * x + y) :: bs)
      | None, _ => Err (InvalidByteError a)
      | _, None => Err (InvalidByteError b)
      end
  end.

(** The lower-case hexadecimal digits: what [EncodeToString] writes. *)
Definition is_lower_hex (c : byte) : bool :=
  let n := N_of_ascii c in
  ((48 <=? n) && (n <=? 57) || (97 <=? n) && (n <=? 102))%N.

Lemma hexdigit_pair : ∀ a : byte,
  fromHexChar (hexdigit (N_of_ascii a / 16)) = Some (N_of_ascii a / 16)%N ∧
  fromHexChar (hexdigit (N_of_ascii a mod 16)) = Some (N_of_ascii a mod 16)%N.
Proof. by_all_ascii. Qed.

Lemma hexdigit_lower : ∀ a : byte,
  is_lower_hex (hexdigit (N_of_ascii a / 16)) && is_lower_hex (hexdigit (N_of_ascii a mod 16)) = true.
Proof. by_all_ascii. Qed.

Lemma DecodeString_EncodeToString b : DecodeString (EncodeToString b) = Ok b.
Proof.
  induction b as [|x b IH]; [done|]. cbn [EncodeToString DecodeString].
  destruct (hexdigit_pair x) as [-> ->]. rewrite IH. cbn. do 2 f_equal.
  rewrite <- N.Div0.div_mod. apply ascii_N_embedding.
Qed.

#[export] Instance EncodeToString_inj : Inj (=) (=) EncodeToString.
Proof.
  intros a b H. apply (f_equal DecodeString) in H.
  rewrite !DecodeString_EncodeToString in H. by injection H.
Qed.

Lemma length_EncodeToString b : String.length (EncodeToString b) = (2 * length b)%nat.
Proof. induction b as [|x b IH]; [done|]. simpl in *. lia. Qed.

Lemma EncodeToString_empty b : EncodeToString b = "" ↔ b = [].
Proof. by destruct b. Qed.

Lemma EncodeToString_lower b : Forall (λ c, is_lower_hex c = true) (bytes_of (EncodeToString b)).
Proof.
  induction b as [|x b IH]; simpl; [done|].
  pose proof (hexdigit_lower x) as [??]%andb_prop. by repeat constructor.
Qed.

(** A string that decodes has two characters for each byte. *)
Lemma DecodeString_length s b : DecodeString s = Ok b → String.length s = (2 * length b)%nat.
Proof.
  remember (String.length s) as n eqn:Hn. revert s b Hn.
  induction (lt_wf n) as [n _ IH]; intros [|a [|a' r]] b -> H; cbn in H.
  - by injection H as <-.
  - by destruct (fromHexChar a).
  - destruct (fromHexChar a), (fromHexChar a'); try done.
    destruct (DecodeString r) as [bs|] eqn:Hr; [|done]. injection H as <-.
    specialize (IH (String.length r)). simpl in *.
    rewrite (IH ltac:(lia) r bs eq_refl Hr). lia.
Qed.

Lemma DecodeString_nonempty s b : DecodeString s = Ok b → s ≠ "" → b ≠ [].
Proof. intros H%DecodeString_length Hs ->. by destruct s. Qed.

End Hex.

(** ** encoding/base64, [StdEncoding] *)

Module Base64.

(** A base-64 digit: six bits, most significant first. *)
Inductive sextet := Sx (b5 b4 b3 b2 b1 b0 : bool).

Definition sextet_N (x : sextet) : N :=
  let 'Sx b5 b4 b3 b2 b1 b0 := x in
  let bit (b : bool) (w : N) := if b then w else 0%N in
  (bit b5 32 + bit b4 16 + bit b3 8 + bit b2 4 + bit b1 2 + bit b0 1)%N.

Definition N_sextet (n : N) : sextet :=
  Sx (N.testbit n 5) (N.testbit n 4) (N.testbit n 3)
     (N.testbit n 2) (N.testbit n 1) (N.testbit n 0).

(** The standard alphabet, [A-Z a-z 0-9 + /]. *)
Definition sextet_char (x : sextet) : byte :=
  let n := sextet_N x in
  ascii_of_N
    (if n <? 26 then 65 + n else if n <? 52 then 71 + n
     else if n <? 62 then n - 4 else if n =? 62 then 43 else 47)%N.

Definition char_sextet (c : byte) : option sextet :=
  let n := N_of_ascii c in
  if ((65 <=? n) && (n <=? 90))%N then Some (N_sextet (n - 65))
  else if ((97 <=? n) && (n <=? 122))%N then Some (N_sextet (n - 71))
  else if ((48 <=? n) && (n <=? 57))%N then Some (N_sextet (n + 4))
  else if (n =? 43)%N then Some (N_sextet 62)
  else if (n =? 47)%N then Some (N_sextet 63)
  else None.

Definition pad : byte := "="%char.

(** Three bytes as four digits. *)
Definition digit1 (a : byte) : sextet :=
  let 'Ascii a0 a1 a2 a3 a4 a5 a6 a7 := a in Sx a7 a6 a5 a4 a3 a2.
Definition digit2 (a b : byte) : sextet :=
  let 'Ascii a0 a1 a2 a3 a4 a5 a6 a7 := a in
  let 'Ascii b0 b1 b2 b3 b4 b5 b6 b7 := b in Sx a1 a0 b7 b6 b5 b4.
Definition digit3 (b c : byte) : sextet :=
  let 'Ascii b0 b1 b2 b3 b4 b5 b6 b7 := b in
  let 'Ascii c0 c1 c2 c3 c4 c5 c6 c7 := c in Sx b3 b2 b1 b0 c7 c6.
Definition digit4 (c : byte) : sextet :=
  let 'Ascii c0 c1 c2 c3 c4 c5 c6 c7 := c in Sx c5 c4 c3 c2 c1 c0.

Fixpoint EncodeToString (b : bytes) : string :=
  match b with
  | [] => ""
  | [x] =>
      String (sextet_char (digit1 x))
        (String (sextet_char (digit2 x "000"%char)) (String pad (String pad "")))
  | [x; y] =>
      String (sextet_char (digit1 x)) (String (sextet_char (digit2 x y))
        (String (sextet_char (digit3 y "000"%char)) (String pad "")))
  | x :: y :: z :: r =>
      String (sextet_char (digit1 x)) (String (sextet_char (digit2 x y))
        (String (sextet_char (digit3 y z)) (String (sextet_char (digit4 z))
          (EncodeToString r))))
  end.

Definition byte1 (s1 s2 : sextet) : byte :=
  let 'Sx a7 a6 a5 a4 a3 a2 := s1 in
  let 'Sx a1 a0 _ _ _ _ := s2 in Ascii a0 a1 a2 a3 a4 a5 a6 a7.
Definition byte2 (s2 s3 : sextet) : byte :=
  let 'Sx _ _ b7 b6 b5 b4 := s2 in
  let 'Sx b3 b2 b1 b0 _ _ := s3 in Ascii b0 b1 b2 b3 b4 b5 b6 b7.
Definition byte3 (s3 s4 : sextet) : byte :=
  let 'Sx _ _ _ _ c7 c6 := s3 in
  let 'Sx c5 c4 c3 c2 c1 c0 := s4 in Ascii c0 c1 c2 c3 c4 c5 c6 c7.

(** Groups of four characters; padding ends the input.  Left-over bits before
    the padding are not checked, as [StdEncoding] is not strict. *)
Fixpoint decode_groups (s : string) : option bytes :=
  match s with
  | "" => Some []
  | String c1 (String c2 (String c3 (String c4 r))) =>
      x1 ← char_sextet c1; x2 ← char_sextet c2;
      if decide (c3 = pad) then
        if decide (c4 = pad ∧ r = "") then Some [byte1 x1 x2] else None
      else
        x3 ← char_sextet c3;
        if decide (c4 = pad) then
          if decide (r = "") then Some [byte1 x1 x2; byte2 x2 x3] else None
        else
          x4 ← char_sextet c4;
          bs ← decode_groups r;
          Some (byte1 x1 x2 :: byte2 x2 x3 :: byte3 x3 x4 :: bs)
  | _ => None
  end.

(** Line breaks are skipped wherever they stand. *)
Fixpoint drop_newlines (s : string) : string :=
  match s with
  | "" => ""
  | String c r =>
      if decide (c = "010"%char ∨ c = "013"%char) then drop_newlines r
      else String c (drop_newlines r)
  end.

Definition DecodeString (s : string) : option bytes := decode_groups (drop_newlines s).

Lemma char_sextet_char x : char_sextet (sextet_char x) = Some x.
Proof. destruct x as [[] [] [] [] [] []]; reflexivity. Qed.

Lemma sextet_char_plain x :
  sextet_char x ≠ pad ∧ sextet_char x ≠ "010"%char ∧ sextet_char x ≠ "013"%char.
Proof. destruct x as [[] [] [] [] [] []]; vm_compute; repeat split; discriminate. Qed.

Lemma byte_digits (a b c : byte) :
  byte1 (digit1 a) (digit2 a b) = a ∧ byte2 (digit2 a b) (digit3 b c) = b ∧
  byte3 (digit3 b c) (digit4 c) = c.
Proof. by destruct a, b, c. Qed.

(** Induction on a byte string three bytes at a time. *)
Lemma triples_ind (P : bytes → Prop) :
  P [] → (∀ x, P [x]) → (∀ x y, P [x; y]) →
  (∀ x y z r, P r → P (x :: y :: z :: r)) → ∀ b, P b.
Proof.
  intros H0 H1 H2 H3 b. remember (length b) as n eqn:Hn. revert b Hn.
  induction (lt_wf n) as [n _ IH].
  intros [|x [|y [|z r]]] ->; [done..|].
  apply H3, (IH (length r)); [simpl; lia|done].
Qed.

Lemma drop_newlines_char x s :
  drop_newlines (String (sextet_char x) s) = String (sextet_char x) (drop_newlines s).
Proof. cbn. destruct (sextet_char_plain x) as (_&?&?). rewrite decide_False; naive_solver. Qed.

Lemma drop_newlines_encode b : drop_newlines (EncodeToString b) = EncodeToString b.
Proof.
  induction b as [|x|x y|x y z r IH] using triples_ind; cbn [EncodeToString];
    rewrite ?drop_newlines_char; [done..|]. by rewrite IH.
Qed.

Lemma decode_encode b : DecodeString (EncodeToString b) = Some b.
Proof.
  unfold DecodeString. rewrite drop_newlines_encode.
  induction b as [|x|x y|x y z r IH] using triples_ind; [done|..];
    cbn [EncodeToString decode_groups]; rewrite ?char_sextet_char; cbn -[decide];
    repeat (rewrite decide_False by apply sextet_char_plain);
    rewrite ?char_sextet_char; cbn -[decide]; rewrite ?decide_True by done.
  - by destruct (byte_digits x "000"%char "000"%char) as (->&_).
  - by destruct (byte_digits x y "000"%char) as (->&->&_).
  - rewrite IH. cbn. by destruct (byte_digits x y z) as (->&->&->).
Qed.

End Base64.

(** ** encoding/binary, little-endian [uint32] *)

Module LittleEndian.

Definition byte_of_Z (z : Z) : byte := ascii_of_N (Z.to_N (z mod 256)).
Definition Z_of_byte (b : byte) : Z := Z.of_N (N_of_ascii b).

Fixpoint put (n : nat) (z : Z) : bytes :=
  match n with
  | O => []
  | Datatypes.S n' => byte_of_Z z :: put n' (z / 256)
  end.

Fixpoint get (b : bytes) : Z :=
  match b with
  | [] => 0
  | x :: r => Z_of_byte x + 256 * get r
  end.

(** [binary.Write(w, binary.LittleEndian, uint32(z))]. *)
Definition PutUint32 (z : Z) : bytes := put 4 z.

Lemma Z_of_byte_of_Z z : Z_of_byte (byte_of_Z z) = z mod 256.
Proof.
  unfold Z_of_byte, byte_of_Z. pose proof (Z.mod_pos_bound z 256).
  rewrite N_ascii_embedding; lia.
Qed.

Lemma get_put n z : get (put n z) = z mod 256 ^ Z.of_nat n.
Proof.
  revert z; induction n as [|n IH]; intros z; cbn [get put].
  { by rewrite Z.mod_1_r. }
  rewrite Z_of_byte_of_Z, IH, Nat2Z.inj_succ, Z.pow_succ_r by lia.
  rewrite Z.mul_comm. rewrite (Z.mul_comm 256 (256 ^ _)), Z.mul_comm.
  rewrite (Z.mul_comm (256 ^ _) 256), Z.rem_mul_r; lia.
Qed.

Lemma length_put n z : length (put n z) = n.
Proof. revert z; induction n; intros; simpl; congruence. Qed.

Lemma len_PutUint32 z : len (PutUint32 z) = 4.
Proof. unfold len, PutUint32. by rewrite length_put. Qed.

Lemma get_PutUint32 z : get (PutUint32 z) = uint32 z.
Proof. unfold PutUint32. by rewrite get_put. Qed.

End LittleEndian.
