(* ===== verification/GoStrings.v ===== *)
(** * The [strings] and [strconv] functions the program uses

    [strings.Split], [strings.TrimSpace], [strconv.Atoi], [strconv.Itoa], and
    the XOR-accumulating comparison they are used with. *)

From stdpp Require Import pretty sorting.
From S2P Require Import Prelude.

(** ** strings.Split with a one-byte separator *)

(** The first component and the rest of the components. *)
Fixpoint split_on (c : byte) (s : string) : string * list string :=
  match s with
  | "" => ("", [])
  | String a r =>
      let '(h, t) := split_on c r in
      if decide (a = c) then ("", h :: t) else (String a h, t)
  end.

(** [strings.Split(s, c)]: never empty. *)
Definition Split (s : string) (c : byte) : list string :=
  let '(h, t) := split_on c s in h :: t.

(** [strings.Split(s, c)[0]]. *)
Definition Split_0 (s : string) (c : byte) : string := (split_on c s).1.

(** Whether a byte occurs in a string. *)
Fixpoint contains (c : byte) (s : string) : bool :=
  match s with
  | "" => false
  | String a r => bool_decide (a = c) || contains c r
  end.

Lemma Split_length s c : (1 ≤ length (Split s c))%nat.
Proof. unfold Split. destruct (split_on c s). simpl. lia. Qed.

Lemma Split_0_prefix c (a b : string) :
  contains c a = false → Split_0 (a +:+ String c b) c = a.
Proof.
  unfold Split_0. induction a as [|x a IH].
  - intros _. rewrite string_app_nil_l. cbn [split_on].
    destruct (split_on c b). by rewrite decide_True.
  - cbn [contains]. intros [Hx Ha]%orb_false_elim. rewrite string_app_cons. cbn [split_on].
    specialize (IH Ha). destruct (split_on c (a +:+ String c b)) as [h t].
    rewrite decide_False by (by apply bool_decide_eq_false in Hx). simpl in *. by rewrite IH.
Qed.

Lemma Split_0_no_sep c (a : string) : contains c a = false → Split_0 a c = a.
Proof.
  unfold Split_0. induction a as [|x a IH]; [done|].
  cbn [contains]. intros [Hx Ha]%orb_false_elim. cbn [split_on].
  specialize (IH Ha). destruct (split_on c a) as [h t].
  rewrite decide_False by (by apply bool_decide_eq_false in Hx). simpl in *. by rewrite IH.
Qed.

Lemma Split_single c (a : string) : contains c a = false → Split a c = [a].
Proof.
  unfold Split. induction a as [|x a IH]; [done|].
  cbn [contains]. intros [Hx Ha]%orb_false_elim. cbn [split_on].
  specialize (IH Ha). destruct (split_on c a) as [h t]. injection IH as -> ->.
  by rewrite decide_False by (by apply bool_decide_eq_false in Hx).
Qed.

(** Two strings joined by a byte determine the first when it has no such byte. *)
Lemma join_inj c (a a' b b' : string) :
  contains c a = false → contains c a' = false →
  a +:+ String c b = a' +:+ String c b' → a = a' ∧ b = b'.
Proof.
  intros Ha Ha' H. assert (a = a') as <-.
  { by rewrite <- (Split_0_prefix c a b Ha), H, Split_0_prefix. }
  apply (inj (String.append a)) in H. by injection H.
Qed.

(** ** strings.TrimSpace *)

(** The white space of [unicode.IsSpace], as UTF-8 byte sequences. *)
Definition unicode_spaces : list bytes :=
  let b := ascii_of_N in
  [[b 9]; [b 10]; [b 11]; [b 12]; [b 13]; [b 32]; [b 194; b 133]; [b 194; b 160];
   [b 225; b 154; b 128]; [b 226; b 128; b 168]; [b 226; b 128; b 169];
   [b 226; b 128; b 175]; [b 226; b 129; b 159]; [b 227; b 128; b 128];
   [b 226; b 128; b 128]; [b 226; b 128; b 129]; [b 226; b 128; b 130];
   [b 226; b 128; b 131]; [b 226; b 128; b 132]; [b 226; b 128; b 133];
   [b 226; b 128; b 134]; [b 226; b 128; b 135]; [b 226; b 128; b 136];
   [b 226; b 128; b 137]; [b 226; b 128; b 138]]%N.

Definition has_prefix (p l : bytes) : bool := bool_decide (take (length p) l = p).

(** Drop leading occurrences of the sequences of [ps]; the fuel bounds the
    number of sequences dropped. *)
Fixpoint trim_go (fuel : nat) (ps : list bytes) (l : bytes) : bytes :=
  match fuel with
  | O => l
  | Datatypes.S n =>
      match list_find (λ p, has_prefix p l = true) ps with
      | Some (_, p) => trim_go n ps (drop (length p) l)
      | None => l
      end
  end.

Definition TrimSpace (s : string) : string :=
  let l := bytes_of s in
  let l1 := trim_go (length l) unicode_spaces l in
  let l2 := trim_go (length l1) (reverse <$> unicode_spaces) (reverse l1) in
  string_of (reverse l2).

Lemma trim_go_none fuel ps l :
  Forall (λ p, has_prefix p l = false) ps → trim_go fuel ps l = l.
Proof.
  intros H. destruct fuel as [|n]; [done|]. cbn.
  destruct (list_find _ ps) as [[i p]|] eqn:E; [|done].
  apply list_find_Some in E as (Hi & Hp & _).
  by rewrite (Forall_lookup_1 _ _ _ _ H Hi) in Hp.
Qed.

Definition newline : string := String "010"%char "".

(** ** strconv.Itoa and strconv.Atoi *)

Definition Itoa (z : Z) : string := pretty z.

Definition digit_value (c : byte) : option N :=
  let n := N_of_ascii c in
  if ((48 <=? n) && (n <=? 57))%N then Some (n - 48)%N else None.

(** The decimal value of a string of digits, after [acc]. *)
Fixpoint parse_digits (acc : N) (s : string) : option N :=
  match s with
  | "" => Some acc
  | String c r => d ← digit_value c; parse_digits (10 * acc + d)%N r
  end.

Definition parse_uint (s : string) : option N :=
  match s with "" => None | _ => parse_digits 0 s end.

(** A decimal integer with an optional sign, of any size. *)
Definition parse_Z (s : string) : option Z :=
  match s with
  | "" => None
  | String c r =>
      if decide (c = "-"%char) then n ← parse_uint r; Some (- Z.of_N n)
      else if decide (c = "+"%char) then n ← parse_uint r; Some (Z.of_N n)
      else n ← parse_uint s; Some (Z.of_N n)
  end.

(** [strconv.Atoi]: [None] for a syntax error and for a value out of range. *)
Definition Atoi (s : string) : option Z :=
  z ← parse_Z s; if bool_decide (- 2 ^ 63 ≤ z < 2 ^ 63) then Some z else None.

Lemma parse_digits_go x s acc :
  acc = 0%N → parse_digits acc (pretty_N_go x s) = parse_digits x s.
Proof.
  intros ->. revert s. induction (N.lt_wf_0 x) as [x _ IH]. intros s.
  destruct (decide (x = 0)%N) as [->|Hx].
  { by rewrite pretty_N_go_0. }
  rewrite pretty_N_go_step by lia. rewrite IH by (apply N.div_lt; lia).
  cbn [parse_digits].
  assert (digit_value (pretty_N_char (x mod 10)) = Some (x mod 10)%N) as ->.
  { pose proof (N.mod_lt x 10 ltac:(lia)) as Hm. revert Hm. generalize (x mod 10)%N.
    intros n Hn. assert (n = 0 ∨ n = 1 ∨ n = 2 ∨ n = 3 ∨ n = 4 ∨ n = 5 ∨ n = 6 ∨
      n = 7 ∨ n = 8 ∨ n = 9)%N as Hc by lia.
    by repeat destruct Hc as [->|Hc]; subst. }
  cbn. f_equal. rewrite (N.div_mod x 10) at 3 by lia. lia.
Qed.

Lemma pretty_N_go_nonempty x s : s ≠ "" → pretty_N_go x s ≠ "".
Proof.
  revert s. induction (N.lt_wf_0 x) as [x _ IH]. intros s Hs.
  destruct (decide (x = 0)%N) as [->|Hx]; [by rewrite pretty_N_go_0|].
  rewrite pretty_N_go_step by lia. by apply IH; [apply N.div_lt; lia|].
Qed.

Lemma parse_uint_pretty (n : N) : parse_uint (pretty n) = Some n.
Proof.
  unfold pretty, pretty_N. case_decide as Hn; [by subst|].
  unfold parse_uint. rewrite pretty_N_go_step by lia.
  destruct (pretty_N_go (n `div` 10) (String (pretty_N_char (n `mod` 10)) "")) eqn:E.
  { by apply pretty_N_go_nonempty in E. }
  rewrite <- E, <- pretty_N_go_step by lia. by rewrite parse_digits_go.
Qed.

(** The first character of a decimal numeral is a digit. *)
Lemma digit_value_sign c : is_Some (digit_value c) → c ≠ "-"%char ∧ c ≠ "+"%char.
Proof. intros Hc. split; intros ->; by destruct Hc. Qed.

Lemma parse_uint_head s n : parse_uint s = Some n →
  ∃ c r, s = String c r ∧ is_Some (digit_value c).
Proof. destruct s as [|c r]; [done|]. cbn. destruct (digit_value c) eqn:E; [|done]. eauto. Qed.

Lemma parse_Z_Itoa z : parse_Z (Itoa z) = Some z.
Proof.
  destruct z as [|p|p]; [done|..]; unfold Itoa, pretty, pretty_Z.
  - pose proof (parse_uint_pretty (N.pos p)) as H.
    destruct (parse_uint_head _ _ H) as (c & r & E & [??]%digit_value_sign).
    change (pretty p) with (pretty (N.pos p)). rewrite E in *. cbn [parse_Z]. rewrite !decide_False by done. by rewrite H.
  - rewrite string_app_cons, string_app_nil_l. cbn [parse_Z].
    rewrite decide_True by done. change (pretty p) with (pretty (N.pos p)).
    by rewrite parse_uint_pretty.
Qed.

Lemma Atoi_Itoa z : in_int64 z → Atoi (Itoa z) = Some z.
Proof.
  intros Hz. unfold Atoi. rewrite parse_Z_Itoa. cbn. by rewrite bool_decide_eq_true_2.
Qed.

Lemma Atoi_range s z : Atoi s = Some z → in_int64 z.
Proof.
  unfold Atoi. destruct (parse_Z s); [|done]. cbn.
  case_bool_decide; [|done]. by intros [= <-].
Qed.

(** ** The entries of a map, in the order of their keys

    As [encoding/json] writes them, and as a bucket visits them. *)

Definition key_le (x y : string * string) : Prop := String.le x.1 y.1.

#[export] Instance key_le_dec : RelDecision key_le.
Proof. intros x y. unfold key_le. apply _. Defined.

#[export] Instance key_le_total : Total key_le.
Proof. intros x y. apply (total String.le). Qed.

#[export] Instance key_le_trans : Transitive key_le.
Proof. intros x y z. unfold key_le. apply (transitivity (R := String.le)). Qed.

Definition sorted_entries (m : gmap string string) : list (string * string) :=
  merge_sort key_le (map_to_list m).

Lemma StronglySorted_fst l : StronglySorted key_le l → StronglySorted String.le l.*1.
Proof. induction 1 as [|x l Hs IH Hx]; cbn; constructor; [done|]. by apply Forall_fmap. Qed.

Lemma sorted_entries_Permutation m : sorted_entries m ≡ₚ map_to_list m.
Proof. apply merge_sort_Permutation. Qed.

Lemma sorted_entries_sorted m : StronglySorted String.le (sorted_entries m).*1.
Proof. apply StronglySorted_fst, (StronglySorted_merge_sort key_le). Qed.

Lemma sorted_entries_NoDup m : NoDup (sorted_entries m).*1.
Proof. rewrite sorted_entries_Permutation. apply NoDup_fst_map_to_list. Qed.

Lemma elem_of_sorted_entries m k v : (k, v) ∈ sorted_entries m ↔ m !! k = Some v.
Proof. rewrite sorted_entries_Permutation. apply elem_of_map_to_list. Qed.

Lemma list_to_map_sorted_entries m : list_to_map (sorted_entries m) = m.
Proof.
  apply map_eq. intros k. destruct (m !! k) as [v|] eqn:E.
  - apply elem_of_list_to_map_1; [apply sorted_entries_NoDup|]. by apply elem_of_sorted_entries.
  - apply not_elem_of_list_to_map_1. intros ([k' v] & -> & H)%list_elem_of_fmap.
    apply elem_of_sorted_entries in H. cbn in E. congruence.
Qed.
