(* ===== verification/Json.v ===== *)
(** * encoding/json

    The part of Go's [encoding/json] the program's messages go through: the
    writer ([json.Marshal], [Encoder.Encode]) with its HTML-safe escaping, the
    reader ([json.Unmarshal], [Decoder.Decode]) with Go's syntax, UTF-8
    coercion, nesting limit and field matching, and the round trip between
    them ([parse_render]).  [Unmarshal_raw] keeps the string values as they are
    written, for the types that read their own JSON.  Messages are values of [json]; the components give
    each struct its field table. *)

From stdpp Require Import pretty.
From S2P Require Import Prelude GoStrings Encoding.

Inductive json :=
| JNull
| JBool (b : bool)
| JNum (lit : string)
| JStr (s : string)
| JArr (l : list json)
| JObj (kvs : list (string * json)).

(** Induction with the hypothesis for every element and member. *)
Fixpoint json_ind' (P : json → Prop)
    (Hnull : P JNull) (Hbool : ∀ b, P (JBool b)) (Hnum : ∀ n, P (JNum n))
    (Hstr : ∀ s, P (JStr s)) (Harr : ∀ l, Forall P l → P (JArr l))
    (Hobj : ∀ kvs, Forall (λ kv, P kv.2) kvs → P (JObj kvs)) (v : json) : P v :=
  let rec := json_ind' P Hnull Hbool Hnum Hstr Harr Hobj in
  match v with
  | JNull => Hnull
  | JBool b => Hbool b
  | JNum n => Hnum n
  | JStr s => Hstr s
  | JArr l => Harr l
      ((fix go l := match l return Forall P l with
        | [] => Forall_nil_2 _
        | x :: l' => Forall_cons_2 _ _ _ (rec x) (go l') end) l)
  | JObj kvs => Hobj kvs
      ((fix go l := match l return Forall (λ kv, P kv.2) l with
        | [] => Forall_nil_2 _
        | x :: l' => Forall_cons_2 _ _ _ (rec x.2) (go l') end) kvs)
  end.

(** ** Characters *)

Definition ch_quote : byte := "034"%char.
Definition ch_backslash : byte := "092"%char.
Definition str1 (c : byte) : string := String c "".
Definition ord (c : byte) : N := N_of_ascii c.
Definition chr (n : N) : byte := ascii_of_N n.
Definition between (lo n hi : N) : bool := ((lo <=? n) && (n <=? hi))%N.
Definition is_cont (c : byte) : bool := between 128 (ord c) 191.

(** The first UTF-8 sequence of a string and what follows it, as
    [utf8.DecodeRune] delimits it; [None] when the first byte starts no valid
    sequence. *)
Definition utf8_next (s : string) : option (string * string) :=
  match s with
  | "" => None
  | String a r =>
      let n := ord a in
      if (n <? 128)%N then Some (str1 a, r)
      else if between 194 n 223 then
        match r with
        | String b r' =>
            if is_cont b then Some (String a (str1 b), r') else None
        | _ => None
        end
      else if between 224 n 239 then
        match r with
        | String b (String c r') =>
            let lo := if (n =? 224)%N then 160%N else 128%N in
            let hi := if (n =? 237)%N then 159%N else 191%N in
            if between lo (ord b) hi && is_cont c
            then Some (String a (String b (str1 c)), r') else None
        | _ => None
        end
      else if between 240 n 244 then
        match r with
        | String b (String c (String d r')) =>
            let lo := if (n =? 240)%N then 144%N else 128%N in
            let hi := if (n =? 244)%N then 143%N else 191%N in
            if between lo (ord b) hi && is_cont c && is_cont d
            then Some (String a (String b (String c (str1 d))), r') else None
        | _ => None
        end
      else None
  end.

(** Well-formed UTF-8. *)
Inductive Utf8 : string → Prop :=
| Utf8_nil : Utf8 ""
| Utf8_next s ch r : utf8_next s = Some (ch, r) → Utf8 r → Utf8 s.

Fixpoint utf8b (fuel : nat) (s : string) : bool :=
  match s, fuel with
  | "", _ => true
  | _, O => false
  | _, Datatypes.S n =>
      match utf8_next s with Some (_, r) => utf8b n r | None => false end
  end.

(** U+FFFD in UTF-8. *)
Definition replacement : string :=
  String (chr 239) (String (chr 191) (str1 (chr 189))).

(** [utf8.EncodeRune]. *)
Definition encode_rune (n : N) : string :=
  if (n <? 128)%N then str1 (chr n)
  else if (n <? 2048)%N then String (chr (192 + n / 64)) (str1 (chr (128 + n mod 64)))
  else if (n <? 65536)%N then
    String (chr (224 + n / 4096))
      (String (chr (128 + n / 64 mod 64)) (str1 (chr (128 + n mod 64))))
  else
    String (chr (240 + n / 262144)) (String (chr (128 + n / 4096 mod 64))
      (String (chr (128 + n / 64 mod 64)) (str1 (chr (128 + n mod 64))))).

(** ** Writing *)

(** [\u00XX]. *)
Definition u00 (c : byte) : string :=
  String ch_backslash (String "u" (String "0" (String "0" (Hex.EncodeToString [c])))).

(** One byte below 0x80: the characters outside Go's [htmlSafeSet] are escaped. *)
Definition escape_ascii (c : byte) : string :=
  let n := ord c in
  let esc (e : byte) := String ch_backslash (str1 e) in
  if (n =? 34)%N || (n =? 92)%N then esc c
  else if (n =? 8)%N then esc "b"%char else if (n =? 12)%N then esc "f"%char
  else if (n =? 10)%N then esc "n"%char else if (n =? 13)%N then esc "r"%char
  else if (n =? 9)%N then esc "t"%char
  else if (n <? 32)%N || (n =? 60)%N || (n =? 62)%N || (n =? 38)%N then u00 c
  else str1 c.

(** U+2028 and U+2029 are escaped too, other characters copied. *)
Definition line_sep : string := String (chr 226) (String (chr 128) (str1 (chr 168))).
Definition paragraph_sep : string := String (chr 226) (String (chr 128) (str1 (chr 169))).

Definition escape_rune (ch : string) : string :=
  if decide (ch = line_sep) then String ch_backslash "u2028"
  else if decide (ch = paragraph_sep) then String ch_backslash "u2029"
  else ch.

Fixpoint escape_go (fuel : nat) (s : string) : string :=
  match s, fuel with
  | "", _ | _, O => ""
  | String a r, Datatypes.S n =>
      if (ord a <? 128)%N then escape_ascii a +:+ escape_go n r
      else
        match utf8_next s with
        | Some (ch, r') => escape_rune ch +:+ escape_go n r'
        | None => String ch_backslash "ufffd" +:+ escape_go n r
        end
  end.

Definition escape (s : string) : string := escape_go (String.length s) s.

Definition quote (s : string) : string := String ch_quote (escape s +:+ str1 ch_quote).

Fixpoint join (sep : string) (l : list string) : string :=
  match l with
  | [] => ""
  | [x] => x
  | x :: l' => x +:+ sep +:+ join sep l'
  end.

(** [json.Marshal]. *)
Fixpoint render (v : json) : string :=
  match v with
  | JNull => "null"
  | JBool true => "true"
  | JBool false => "false"
  | JNum lit => lit
  | JStr s => quote s
  | JArr l => "[" +:+ join "," (render <$> l) +:+ "]"
  | JObj kvs => "{" +:+ join "," ((λ kv, quote kv.1 +:+ ":" +:+ render kv.2) <$> kvs) +:+ "}"
  end.

(** [json.NewEncoder(w).Encode(v)]: the value and a line feed. *)
Definition Encode (v : json) : string := render v +:+ str1 "010"%char.

(** ** Reading *)

Definition is_space (c : byte) : bool :=
  let n := ord c in ((n =? 32) || (n =? 9) || (n =? 10) || (n =? 13))%N.

Fixpoint skip_ws (s : string) : string :=
  match s with
  | String c r => if is_space c then skip_ws r else s
  | "" => ""
  end.

Definition hex4 (a b c d : byte) : option N :=
  x ← Hex.fromHexChar a; y ← Hex.fromHexChar b;
  z ← Hex.fromHexChar c; w ← Hex.fromHexChar d;
  Some (4096 * x + 256 * y + 16 * z + w)%N.

(** The rune written [\uXXXX] at the head of [s], if there is one. *)
Definition getu4 (s : string) : option (N * string) :=
  match s with
  | String b (String u (String a1 (String a2 (String a3 (String a4 r))))) =>
      if decide (b = ch_backslash ∧ u = "u"%char) then
        n ← hex4 a1 a2 a3 a4; Some (n, r)
      else None
  | _ => None
  end.

(** What a [\uXXXX] escape stands for: surrogate pairs are joined, a lone
    surrogate is U+FFFD. *)
Definition unescape_u (s : string) : option (string * string) :=
  '(n, r) ← getu4 s;
  if between 55296 n 57343 then
    match getu4 r with
    | Some (m, r') =>
        if between 55296 n 56319 && between 56320 m 57343
        then Some (encode_rune (65536 + (n - 55296) * 1024 + (m - 56320))%N, r')
        else Some (replacement, r)
    | None => Some (replacement, r)
    end
  else Some (encode_rune n, r).

(** The next character of a string literal, decoded. *)
Definition unquote_next (s : string) : option (string * string) :=
  match s with
  | "" => None
  | String a r =>
      let n := ord a in
      if (n <? 32)%N then None
      else if decide (a = ch_backslash) then
        match r with
        | String e r1 =>
            if decide (e = ch_quote ∨ e = ch_backslash ∨ e = "/"%char) then Some (str1 e, r1)
            else if decide (e = "b"%char) then Some (str1 "008"%char, r1)
            else if decide (e = "f"%char) then Some (str1 "012"%char, r1)
            else if decide (e = "n"%char) then Some (str1 "010"%char, r1)
            else if decide (e = "r"%char) then Some (str1 "013"%char, r1)
            else if decide (e = "t"%char) then Some (str1 "009"%char, r1)
            else if decide (e = "u"%char) then unescape_u s
            else None
        | "" => None
        end
      else
        match utf8_next s with
        | Some (ch, r') => Some (ch, r')
        | None => Some (replacement, r)
        end
  end.

(** The rest of a string literal after its opening quote. *)
Fixpoint parse_str_go (fuel : nat) (s : string) : option (string * string) :=
  match fuel, s with
  | O, _ | _, "" => None
  | Datatypes.S n, String a r =>
      if decide (a = ch_quote) then Some ("", r)
      else
        '(ch, r1) ← unquote_next s;
        '(t, r2) ← parse_str_go n r1;
        Some (ch +:+ t, r2)
  end.

Definition parse_str (s : string) : option (string * string) :=
  parse_str_go (Datatypes.S (String.length s)) s.

#[global] Arguments utf8_next : simpl never.
#[global] Arguments unquote_next : simpl never.
#[global] Arguments escape_ascii : simpl never.
#[global] Arguments escape_rune : simpl never.

(** ** String literals: progress, and enough fuel *)

Lemma utf8_next_spec s ch r :
  utf8_next s = Some (ch, r) → s = ch +:+ r ∧ (0 < String.length ch)%nat.
Proof.
  unfold utf8_next, str1. intros H.
  repeat case_match; simplify_eq/=; split; try done; lia.
Qed.

Ltac solve_utf8_app :=
  rewrite ?string_app_cons, ?string_app_nil_l; cbv beta iota zeta in *;
  repeat match goal with H : _ = true |- _ => rewrite H | H : _ = false |- _ => rewrite H end;
  done.

(** The first sequence does not depend on what follows it. *)
Lemma utf8_next_app s ch r t : utf8_next s = Some (ch, r) → utf8_next (ch +:+ t) = Some (ch, t).
Proof.
  unfold utf8_next, str1. destruct s as [|a s]; [done|].
  destruct (ord a <? 128)%N eqn:E1; [intros [= <- <-]; solve_utf8_app|].
  destruct (between 194 _ _) eqn:E2.
  { destruct s as [|b s]; [done|]. destruct (is_cont b) eqn:E3; [|done].
    intros [= <- <-]. solve_utf8_app. }
  destruct (between 224 _ _) eqn:E3.
  { destruct s as [|b [|c s]]; [done..|]. destruct (_ && _) eqn:E4; [|done].
    intros [= <- <-]. solve_utf8_app. }
  destruct (between 240 _ _) eqn:E4; [|done].
  destruct s as [|b [|c [|d s]]]; [done..|]. destruct (_ && _ && _) eqn:E5; [|done].
  intros [= <- <-]. solve_utf8_app.
Qed.

Lemma getu4_length s n r : getu4 s = Some (n, r) → (String.length r < String.length s)%nat.
Proof.
  unfold getu4. intros H. repeat case_match; simplify_eq/=; try done.
  destruct (hex4 _ _ _ _); simplify_eq/=. lia.
Qed.

Lemma unescape_u_length s ch r :
  unescape_u s = Some (ch, r) → (String.length r < String.length s)%nat.
Proof.
  unfold unescape_u. destruct (getu4 s) as [[n r1]|] eqn:E1; [|done]. cbn.
  apply getu4_length in E1.
  destruct (between _ _ _); [|intros; simplify_eq/=; lia].
  destruct (getu4 r1) as [[m r2]|] eqn:E2; [|intros; simplify_eq/=; lia].
  apply getu4_length in E2. destruct (_ && _); intros; simplify_eq/=; lia.
Qed.

Lemma unquote_next_length s ch r :
  unquote_next s = Some (ch, r) → (String.length r < String.length s)%nat.
Proof.
  unfold unquote_next. destruct s as [|a s]; [done|].
  destruct (_ <? 32)%N; [done|]. destruct (decide (a = ch_backslash)) as [_|_].
  - destruct s as [|x s']; [done|].
    do 6 (case_decide; [intros Hu; simplify_eq/=; lia|]).
    case_decide; [by intros Hu%unescape_u_length|done].
  - destruct (utf8_next (String a s)) as [[c r']|] eqn:E; intros [= <- <-]; [|simpl; lia].
    apply utf8_next_spec in E as [E ?]. apply (f_equal String.length) in E.
    rewrite string_length_app in E. simpl in *. lia.
Qed.

Lemma parse_str_go_length n s t r :
  parse_str_go n s = Some (t, r) → (String.length r < String.length s)%nat.
Proof.
  revert s t; induction n as [|n IH]; intros [|a s] t H; try done.
  cbn [parse_str_go] in H. case_decide; [simplify_eq/=; lia|].
  destruct (unquote_next (String a s)) as [[ch r1]|] eqn:E1; [|done]. cbn in H.
  destruct (parse_str_go n r1) as [[t' r2]|] eqn:E2; simplify_eq/=.
  apply unquote_next_length in E1. apply IH in E2. simpl in *. lia.
Qed.

(** Fuel beyond the length of the input changes nothing. *)
Lemma parse_str_go_fuel n m s :
  (String.length s < n)%nat → (String.length s < m)%nat → parse_str_go n s = parse_str_go m s.
Proof.
  revert m s; induction n as [|n IH]; intros [|m] s Hn Hm; [lia..|].
  destruct s as [|a s]; [done|]. cbn [parse_str_go]. case_decide; [done|].
  destruct (unquote_next (String a s)) as [[ch r1]|] eqn:E1; [|done]. cbn.
  apply unquote_next_length in E1. simpl in *. by rewrite (IH m r1) by lia.
Qed.

Lemma escape_go_fuel n m s :
  (String.length s ≤ n)%nat → (String.length s ≤ m)%nat → escape_go n s = escape_go m s.
Proof.
  revert m s; induction n as [|n IH]; intros [|m] [|a s] Hn Hm; simpl in *; try done; try lia.
  destruct (_ <? 128)%N; [by rewrite (IH m s) by lia|].
  destruct (utf8_next (String a s)) as [[ch r]|] eqn:E; [|by rewrite (IH m s) by lia].
  apply utf8_next_spec in E as [E ?]. apply (f_equal String.length) in E.
  rewrite string_length_app in E. simpl in E. by rewrite (IH m r) by lia.
Qed.

(** ** String literals: the round trip *)

(** How one well-formed sequence is written. *)
Definition escape_chunk (ch : string) : string :=
  match ch with
  | String a "" => if (ord a <? 128)%N then escape_ascii a else escape_rune ch
  | _ => escape_rune ch
  end.

Lemma utf8_next_head s ch r a s' :
  utf8_next s = Some (ch, r) → s = String a s' →
  if (ord a <? 128)%N then ch = str1 a ∧ r = s' else
    ∃ b t, ch = String a (String b t).
Proof.
  intros H ->. revert H. unfold utf8_next. destruct (ord a <? 128)%N; [by intros [= <- <-]|].
  destruct (between 194 _ _); [destruct s' as [|b s']; [done|]; destruct (is_cont b);
    [|done]; intros [= <- <-]; unfold str1; eauto|].
  destruct (between 224 _ _); [destruct s' as [|b [|c s']]; [done..|]; destruct (_ && _);
    [|done]; intros [= <- <-]; eauto|].
  destruct (between 240 _ _); [|done]. destruct s' as [|b [|c [|d s']]]; [done..|].
  destruct (_ && _ && _); [|done]. intros [= <- <-]. eauto.
Qed.

Lemma escape_step s ch r :
  utf8_next s = Some (ch, r) → escape s = escape_chunk ch +:+ escape r.
Proof.
  intros H. destruct s as [|a s]; [done|].
  pose proof (utf8_next_head _ _ _ _ _ H eq_refl) as Hh.
  pose proof (utf8_next_spec _ _ _ H) as [Hs ?]. apply (f_equal String.length) in Hs.
  rewrite string_length_app in Hs. unfold escape. cbn [String.length escape_go] in *.
  destruct (ord a <? 128)%N eqn:Ha.
  - destruct Hh as [-> ->]. cbn. by rewrite Ha.
  - destruct Hh as (b & t & ->). rewrite H. cbn. f_equal.
    apply escape_go_fuel; simpl in *; lia.
Qed.

Lemma unquote_escape_ascii (a : byte) (t : string) :
  (ord a <? 128)%N = true → unquote_next (escape_ascii a +:+ t) = Some (str1 a, t).
Proof.
  destruct a as [[] [] [] [] [] [] [] []]; intros Ha; try (vm_compute in Ha; discriminate);
    reflexivity.
Qed.

Lemma unquote_escape_rune s a b t r u :
  utf8_next s = Some (String a (String b t), r) →
  unquote_next (escape_rune (String a (String b t)) +:+ u) = Some (String a (String b t), u).
Proof.
  intros H. pose proof (utf8_next_spec _ _ _ H) as [Hs _].
  unfold escape_rune. case_decide as E1; [rewrite E1; reflexivity|].
  case_decide as E2; [rewrite E2; reflexivity|].
  apply (utf8_next_app _ _ _ u) in H. unfold unquote_next.
  rewrite string_app_cons in *. rewrite H.
  assert ((ord a <? 128)%N = false) as Ha.
  { destruct (ord a <? 128)%N eqn:Ha; [|done]. unfold utf8_next in H. by rewrite Ha in H. }
  apply N.ltb_ge in Ha.
  assert ((ord a <? 32)%N = false) as -> by (apply N.ltb_ge; lia).
  rewrite decide_False; [done|]. intros ->. by vm_compute in Ha.
Qed.

Lemma unquote_escape_chunk s ch r u :
  utf8_next s = Some (ch, r) → unquote_next (escape_chunk ch +:+ u) = Some (ch, u).
Proof.
  intros H. destruct s as [|a s]; [done|].
  pose proof (utf8_next_head _ _ _ _ _ H eq_refl) as Hh.
  destruct (ord a <? 128)%N eqn:Ha.
  - destruct Hh as [-> ->]. cbn [escape_chunk str1]. rewrite Ha. by apply unquote_escape_ascii.
  - destruct Hh as (b & t & ->). by eapply unquote_escape_rune.
Qed.

(** A written character is not the closing quote. *)
Lemma escape_chunk_head s ch r :
  utf8_next s = Some (ch, r) → ∃ a t, escape_chunk ch = String a t ∧ a ≠ ch_quote.
Proof.
  intros H. destruct s as [|a s]; [done|].
  pose proof (utf8_next_head _ _ _ _ _ H eq_refl) as Hh.
  destruct (ord a <? 128)%N eqn:Ha.
  - destruct Hh as [-> ->]. cbn [escape_chunk str1]. rewrite Ha.
    clear -Ha. destruct a as [[] [] [] [] [] [] [] []]; try (vm_compute in Ha; discriminate);
      (do 2 eexists; split; [reflexivity|done]).
  - destruct Hh as (b & t & ->). unfold escape_chunk, escape_rune.
    repeat case_decide; do 2 eexists; (split; [reflexivity|]); [done..|].
    intros ->. by vm_compute in Ha.
Qed.

Lemma parse_str_go_escape s t n :
  Utf8 s → (String.length s < n)%nat →
  parse_str_go n (escape s +:+ String ch_quote t) = Some (s, t).
Proof.
  intros Hs. revert n. induction Hs as [|s ch r H Hr IH]; intros n Hn.
  { by destruct n; [lia|]. }
  destruct n as [|n]; [lia|].
  rewrite (escape_step _ _ _ H), <- string_app_assoc.
  pose proof (unquote_escape_chunk _ _ _ (escape r +:+ String ch_quote t) H) as Hu.
  destruct (escape_chunk_head _ _ _ H) as (a & u & E & Ha).
  pose proof (utf8_next_spec _ _ _ H) as [-> ?].
  rewrite string_length_app in Hn.
  rewrite E in *. rewrite string_app_cons in *. cbn [parse_str_go].
  rewrite decide_False by done. rewrite Hu. cbn. by rewrite IH by lia.
Qed.

Lemma parse_str_escape s t : Utf8 s → parse_str (escape s +:+ String ch_quote t) = Some (s, t).
Proof.
  intros Hs. unfold parse_str.
  rewrite (parse_str_go_fuel _ (Datatypes.S (String.length s) + Datatypes.S (String.length (escape s +:+ String ch_quote t)))) by lia.
  apply parse_str_go_escape; [done|lia].
Qed.

(** ** Checking and building well-formed strings *)

Lemma utf8b_sound n s : utf8b n s = true → Utf8 s.
Proof.
  revert s; induction n as [|n IH]; intros [|a s]; try (intros; constructor; done); try done.
  cbn [utf8b]. destruct (utf8_next (String a s)) as [[ch r]|] eqn:E; [|done].
  intros H. econstructor; eauto.
Qed.

Lemma Utf8_cons_ascii a s : (ord a < 128)%N → Utf8 s → Utf8 (String a s).
Proof.
  intros Ha Hs. econstructor; [|exact Hs]. unfold utf8_next.
  by rewrite (proj2 (N.ltb_lt _ _) Ha).
Qed.

Lemma Utf8_app_ascii a b :
  Forall (λ c, (ord c < 128)%N) (bytes_of a) → Utf8 b → Utf8 (a +:+ b).
Proof.
  induction a as [|x a IH]; simpl; [done|]. intros [? ?]%Forall_cons ?.
  rewrite string_app_cons. apply Utf8_cons_ascii; auto.
Qed.

Lemma Utf8_app a b : Utf8 a → Utf8 b → Utf8 (a +:+ b).
Proof.
  intros Ha Hb. induction Ha as [|s ch r H Hr IH]; [done|].
  pose proof (utf8_next_spec _ _ _ H) as [-> _].
  rewrite <- string_app_assoc. econstructor; [by eapply utf8_next_app|done].
Qed.

Lemma Utf8_hex b : Utf8 (Hex.EncodeToString b).
Proof.
  rewrite <- (string_app_nil_r (Hex.EncodeToString b)). apply Utf8_app_ascii; [|constructor].
  eapply Forall_impl; [apply Hex.EncodeToString_lower|]. intros c.
  unfold Hex.is_lower_hex, ord. intros [H|H]%orb_prop;
    apply andb_prop in H as [_ H%N.leb_le]; lia.
Qed.

(** ASCII text without special characters is written as it is. *)
Lemma escape_plain s :
  Forall (λ c, (ord c < 128)%N ∧ escape_ascii c = str1 c) (bytes_of s) → escape s = s.
Proof.
  induction s as [|c s IH]; cbn [bytes_of list_ascii_of_string]; [done|].
  intros [[Hc He] Hs]%Forall_cons. unfold escape in *. cbn [String.length escape_go].
  rewrite (proj2 (N.ltb_lt _ _) Hc), He, IH by done. done.
Qed.

Lemma escape_hex b : escape (Hex.EncodeToString b) = Hex.EncodeToString b.
Proof.
  apply escape_plain. eapply Forall_impl; [apply Hex.EncodeToString_lower|].
  assert (∀ c, implb (Hex.is_lower_hex c) ((ord c <? 128)%N && bool_decide (escape_ascii c = str1 c)) = true)
    as H by by_all_ascii.
  intros c Hc. specialize (H c). rewrite Hc in H. apply andb_prop in H as [H1%N.ltb_lt H2%bool_decide_eq_true].
  done.
Qed.

Create HintDb utf8.
#[export] Hint Resolve Utf8_hex Utf8_nil Utf8_app : utf8.

(** ** Values *)

Fixpoint strip_prefix (p s : string) : option string :=
  match p, s with
  | "", _ => Some s
  | String a p', String b s' => if decide (a = b) then strip_prefix p' s' else None
  | _, "" => None
  end.

Definition is_digit (c : byte) : bool := between 48 (ord c) 57.

Fixpoint span_digits (s : string) : string * string :=
  match s with
  | "" => ("", "")
  | String c r =>
      if is_digit c then let '(d, r') := span_digits r in (String c d, r') else ("", s)
  end.

(** One or more digits. *)
Definition digits1 (s : string) : option (string * string) :=
  let '(d, r) := span_digits s in if decide (d = "") then None else Some (d, r).

Definition scan_int (s : string) : option (string * string) :=
  match strip_prefix "0" s with
  | Some r => Some ("0", r)
  | None => digits1 s
  end.

Definition scan_frac (s : string) : option (string * string) :=
  match strip_prefix "." s with
  | Some r => '(d, r') ← digits1 r; Some ("." +:+ d, r')
  | None => Some ("", s)
  end.

Definition scan_exp (s : string) : option (string * string) :=
  match s with
  | String e r =>
      if decide (e = "e"%char ∨ e = "E"%char) then
        match r with
        | String g r1 =>
            if decide (g = "+"%char ∨ g = "-"%char)
            then '(d, r') ← digits1 r1; Some (String e (String g d), r')
            else '(d, r') ← digits1 r; Some (String e d, r')
        | "" => None
        end
      else Some ("", s)
  | "" => Some ("", s)
  end.

(** The number literal at the head of [s]. *)
Definition scan_number (s : string) : option (string * string) :=
  let '(sg, s1) := match strip_prefix "-" s with Some r => ("-", r) | None => ("", s) end in
  '(i, s2) ← scan_int s1;
  '(f, s3) ← scan_frac s2;
  '(e, s4) ← scan_exp s3;
  Some (sg +:+ i +:+ f +:+ e, s4).

(** The scanner refuses arrays and objects nested deeper than this. *)
Definition maxNestingDepth : N := 10000.

(** The value at the head of [s]; [d] is the number of open arrays and
    objects, [lit] reads a string value behind its opening quote.  Fuel bounds
    the recursion ([parse_value_fuel]: twice the length of the input is
    enough). *)
Fixpoint pvalue_with (lit : string → option (string * string)) (fuel : nat) (d : N) (s : string) :
    option (json * string) :=
  match fuel with
  | O => None
  | Datatypes.S n =>
      match skip_ws s with
      | "" => None
      | String c r =>
          if decide (c = ch_quote) then '(t, r') ← lit r; Some (JStr t, r')
          else if decide (c = "["%char) then
            if (maxNestingDepth <? d + 1)%N then None else
            match strip_prefix "]" (skip_ws r) with
            | Some r' => Some (JArr [], r')
            | None => '(l, r') ← pelems_with lit n (d + 1) r; Some (JArr l, r')
            end
          else if decide (c = "{"%char) then
            if (maxNestingDepth <? d + 1)%N then None else
            match strip_prefix "}" (skip_ws r) with
            | Some r' => Some (JObj [], r')
            | None => '(l, r') ← pmembers_with lit n (d + 1) r; Some (JObj l, r')
            end
          else
            match strip_prefix "true" (String c r), strip_prefix "false" (String c r),
                  strip_prefix "null" (String c r) with
            | Some r', _, _ => Some (JBool true, r')
            | _, Some r', _ => Some (JBool false, r')
            | _, _, Some r' => Some (JNull, r')
            | None, None, None =>
                '(lit, r') ← scan_number (String c r); Some (JNum lit, r')
            end
      end
  end
with pelems_with (lit : string → option (string * string)) (fuel : nat) (d : N) (s : string) :
    option (list json * string) :=
  match fuel with
  | O => None
  | Datatypes.S n =>
      '(v, r) ← pvalue_with lit n d s;
      match strip_prefix "," (skip_ws r), strip_prefix "]" (skip_ws r) with
      | Some r', _ => '(l, r'') ← pelems_with lit n d r'; Some (v :: l, r'')
      | None, Some r' => Some ([v], r')
      | None, None => None
      end
  end
with pmembers_with (lit : string → option (string * string)) (fuel : nat) (d : N) (s : string) :
    option (list (string * json) * string) :=
  match fuel with
  | O => None
  | Datatypes.S n =>
      s1 ← strip_prefix (str1 ch_quote) (skip_ws s);
      '(k, s2) ← parse_str s1;
      s3 ← strip_prefix ":" (skip_ws s2);
      '(v, r) ← pvalue_with lit n d s3;
      match strip_prefix "," (skip_ws r), strip_prefix "}" (skip_ws r) with
      | Some r', _ => '(l, r'') ← pmembers_with lit n d r'; Some ((k, v) :: l, r'')
      | None, Some r' => Some ([(k, v)], r')
      | None, None => None
      end
  end.

Notation pvalue := (pvalue_with parse_str).
Notation pelems := (pelems_with parse_str).
Notation pmembers := (pmembers_with parse_str).

(** A string value as it is written between its quotes: what a type with an
    [UnmarshalJSON] of its own is handed. *)
Definition raw_str (s : string) : option (string * string) :=
  '(_, r) ← parse_str s; Some (substring 0 (String.length s - String.length r - 1) s, r).

Definition value_fuel (s : string) : nat := 2 * String.length s + 2.

(** The value at the head of a stream, and what follows it: the part of
    [Decoder.Decode] that delimits a value. *)
Definition parse_value_with (lit : string → option (string * string)) (s : string) :
    option (json * string) := pvalue_with lit (value_fuel s) 0 s.
Notation parse_value := (parse_value_with parse_str).

(** [json.Unmarshal] wants nothing but white space after the value. *)
Definition Unmarshal_with (lit : string → option (string * string)) (s : string) : option json :=
  '(v, r) ← parse_value_with lit s; if decide (skip_ws r = "") then Some v else None.
Notation Unmarshal := (Unmarshal_with parse_str).

(** The same value with its strings as they are written. *)
Notation Unmarshal_raw := (Unmarshal_with raw_str).

(** ** Enough fuel *)

Lemma skip_ws_length s : (String.length (skip_ws s) ≤ String.length s)%nat.
Proof. induction s as [|c s IH]; [done|]. simpl. destruct (is_space c); simpl; lia. Qed.

Lemma strip_prefix_length p s r :
  strip_prefix p s = Some r → String.length s = (String.length p + String.length r)%nat.
Proof.
  revert s; induction p as [|a p IH]; intros [|b s] H; simplify_eq/=; try done.
  case_decide; [|done]. by rewrite (IH s).
Qed.

#[global] Arguments strip_prefix : simpl never.

Lemma span_digits_length s d r :
  span_digits s = (d, r) → String.length s = (String.length d + String.length r)%nat.
Proof.
  revert d; induction s as [|c s IH]; intros d H; simplify_eq/=; [done|].
  destruct (is_digit c); [|by simplify_eq].
  destruct (span_digits s) as [d' r'] eqn:E. simplify_eq/=. by rewrite (IH d').
Qed.

Lemma digits1_length s d r :
  digits1 s = Some (d, r) → (String.length r < String.length s)%nat.
Proof.
  unfold digits1. destruct (span_digits s) as [d' r'] eqn:E. apply span_digits_length in E.
  case_decide; [done|]. intros [= -> ->]. destruct d; [done|]. simpl in *. lia.
Qed.

Lemma scan_number_length s lit r :
  scan_number s = Some (lit, r) → (String.length r < String.length s)%nat.
Proof.
  unfold scan_number. intros H.
  assert (∃ sg s1, (match strip_prefix "-" s with Some r => ("-", r) | None => ("", s) end) = (sg, s1)
    ∧ (String.length s1 ≤ String.length s)%nat) as (sg & s1 & E & Hs1).
  { destruct (strip_prefix "-" s) as [r1|] eqn:E; [|eauto].
    apply strip_prefix_length in E. simpl in E. do 2 eexists; split; [done|lia]. }
  rewrite E in H.
  destruct (scan_int s1) as [[i s2]|] eqn:E2; [|done].
  assert (String.length s2 < String.length s1)%nat.
  { unfold scan_int in E2. destruct (strip_prefix "0" s1) eqn:E3; simplify_eq/=;
      [apply strip_prefix_length in E3; simpl in E3; lia|by eapply digits1_length]. }
  cbn in H. destruct (scan_frac s2) as [[f s3]|] eqn:E3; [|done].
  assert (String.length s3 ≤ String.length s2)%nat.
  { unfold scan_frac in E3. destruct (strip_prefix "." s2) as [r'|] eqn:E4; simplify_eq/=; [|lia].
    apply strip_prefix_length in E4. destruct (digits1 r') as [[]|] eqn:E5; simplify_eq/=.
    apply digits1_length in E5. lia. }
  cbn in H. destruct (scan_exp s3) as [[e s4]|] eqn:E4; simplify_eq/=.
  enough (String.length r ≤ String.length s3)%nat by lia.
  unfold scan_exp in E4. destruct s3 as [|c s3]; simplify_eq/=; [lia|].
  case_decide; simplify_eq/=; [|lia]. destruct s3 as [|g s3]; [done|].
  case_decide; [destruct (digits1 s3) as [[]|] eqn:E5|destruct (digits1 (String g s3)) as [[]|] eqn:E5];
    simplify_eq/=; apply digits1_length in E5; simpl in *; lia.
Qed.

Lemma parse_str_length s t r : parse_str s = Some (t, r) → (String.length r < String.length s)%nat.
Proof. apply parse_str_go_length. Qed.

#[global] Arguments parse_str : simpl never.
#[global] Arguments scan_number : simpl never.

(** Every read consumes something: each of the three readers, if the ones it
    calls do. *)
Definition shrinks {A} (p : string → option (A * string)) : Prop :=
  ∀ s v r, p s = Some (v, r) → (String.length r < String.length s)%nat.

Section reader.
Context (lit : string → option (string * string)) (lit_length : shrinks lit).

Lemma pvalue_shrinks n d :
  (∀ d, shrinks (pelems_with lit n d)) → (∀ d, shrinks (pmembers_with lit n d)) → shrinks (pvalue_with lit (S n) d).
Proof.
  intros IHe IHm s v r. cbn [pvalue_with]. pose proof (skip_ws_length s) as Hs.
  destruct (skip_ws s) as [|c s']; [done|]. cbn [String.length] in Hs.
  case_decide.
  { destruct (lit s') as [[]|] eqn:E; intros [= <- <-]. apply lit_length in E. lia. }
  pose proof (skip_ws_length s') as Hs'.
  case_decide.
  { destruct (_ <? _)%N; [done|]. destruct (strip_prefix "]" _) as [r'|] eqn:E.
    - intros [= <- <-]. apply strip_prefix_length in E. simpl in E. lia.
    - destruct (pelems_with lit n (d + 1) s') as [[]|] eqn:E'; intros [= <- <-]. apply IHe in E'. lia. }
  case_decide.
  { destruct (_ <? _)%N; [done|]. destruct (strip_prefix "}" _) as [r'|] eqn:E.
    - intros [= <- <-]. apply strip_prefix_length in E. simpl in E. lia.
    - destruct (pmembers_with lit n (d + 1) s') as [[]|] eqn:E'; intros [= <- <-]. apply IHm in E'. lia. }
  destruct (strip_prefix "true" _) eqn:E1;
    [intros [= <- <-]; apply strip_prefix_length in E1; simpl in E1; lia|].
  destruct (strip_prefix "false" _) eqn:E2;
    [intros [= <- <-]; apply strip_prefix_length in E2; simpl in E2; lia|].
  destruct (strip_prefix "null" _) eqn:E3;
    [intros [= <- <-]; apply strip_prefix_length in E3; simpl in E3; lia|].
  destruct (scan_number _) as [[]|] eqn:E4; intros [= <- <-].
  apply scan_number_length in E4. simpl in E4. lia.
Qed.

Lemma pelems_shrinks n d :
  (∀ d, shrinks (pvalue_with lit n d)) → (∀ d, shrinks (pelems_with lit n d)) → shrinks (pelems_with lit (S n) d).
Proof.
  intros IHv IHe s l r. cbn [pelems_with].
  destruct (pvalue_with lit n d s) as [[v r1]|] eqn:E1; [|done]. cbn. apply IHv in E1.
  pose proof (skip_ws_length r1).
  destruct (strip_prefix "," _) as [r2|] eqn:E2.
  { apply strip_prefix_length in E2. simpl in E2.
    destruct (pelems_with lit n d r2) as [[]|] eqn:E3; intros [= <- <-]. apply IHe in E3. lia. }
  destruct (strip_prefix "]" _) as [r2|] eqn:E3; intros [= <- <-].
  apply strip_prefix_length in E3. simpl in E3. lia.
Qed.

Lemma pmembers_shrinks n d :
  (∀ d, shrinks (pvalue_with lit n d)) → (∀ d, shrinks (pmembers_with lit n d)) → shrinks (pmembers_with lit (S n) d).
Proof.
  intros IHv IHm s l r. cbn [pmembers_with]. pose proof (skip_ws_length s).
  destruct (strip_prefix (str1 ch_quote) _) as [s1|] eqn:E0; [|done]. cbn.
  apply strip_prefix_length in E0. simpl in E0.
  destruct (parse_str s1) as [[k s2]|] eqn:E1; [|done]. cbn. apply parse_str_length in E1.
  pose proof (skip_ws_length s2).
  destruct (strip_prefix ":" _) as [s3|] eqn:E2; [|done]. cbn.
  apply strip_prefix_length in E2. simpl in E2.
  destruct (pvalue_with lit n d s3) as [[v r1]|] eqn:E3; [|done]. cbn. apply IHv in E3.
  pose proof (skip_ws_length r1).
  destruct (strip_prefix "," _) as [r2|] eqn:E4.
  { apply strip_prefix_length in E4. simpl in E4.
    destruct (pmembers_with lit n d r2) as [[]|] eqn:E5; intros [= <- <-]. apply IHm in E5. lia. }
  destruct (strip_prefix "}" _) as [r2|] eqn:E5; intros [= <- <-].
  apply strip_prefix_length in E5. simpl in E5. lia.
Qed.

Lemma parse_progress n :
  (∀ d, shrinks (pvalue_with lit n d)) ∧ (∀ d, shrinks (pelems_with lit n d)) ∧ (∀ d, shrinks (pmembers_with lit n d)).
Proof.
  induction n as [|n (IHv & IHe & IHm)]; [done|].
  auto using pvalue_shrinks, pelems_shrinks, pmembers_shrinks.
Qed.

(** Fuel beyond twice the length of the input changes nothing. *)
Lemma parse_fuel n : ∀ m,
  (∀ d s, (2 * String.length s < n)%nat → (2 * String.length s < m)%nat →
    pvalue_with lit n d s = pvalue_with lit m d s) ∧
  (∀ d s, (2 * String.length s + 1 < n)%nat → (2 * String.length s + 1 < m)%nat →
    pelems_with lit n d s = pelems_with lit m d s) ∧
  (∀ d s, (2 * String.length s + 1 < n)%nat → (2 * String.length s + 1 < m)%nat →
    pmembers_with lit n d s = pmembers_with lit m d s).
Proof.
  induction n as [|n IH]; intros [|m]; [split; [|split]; intros; lia..|].
  destruct (IH m) as (IHv & IHe & IHm).
  pose proof (parse_progress n) as (Pv & Pe & Pm). split; [|split].
  - intros d s Hn Hm. cbn [pvalue_with]. pose proof (skip_ws_length s) as Hs.
    destruct (skip_ws s) as [|c s']; [done|]. cbn [String.length] in Hs.
    by rewrite IHe, IHm by lia.
  - intros d s Hn Hm. cbn [pelems_with]. rewrite <- IHv by lia.
    destruct (pvalue_with lit n d s) as [[v r1]|] eqn:E1; [|done]. cbn. apply Pv in E1.
    pose proof (skip_ws_length r1).
    destruct (strip_prefix "," _) as [r2|] eqn:E2; [|done].
    apply strip_prefix_length in E2. simpl in E2. by rewrite IHe by lia.
  - intros d s Hn Hm. cbn [pmembers_with]. pose proof (skip_ws_length s).
    destruct (strip_prefix (str1 ch_quote) _) as [s1|] eqn:E0; [|done]. cbn.
    apply strip_prefix_length in E0. simpl in E0.
    destruct (parse_str s1) as [[k s2]|] eqn:E1; [|done]. cbn. apply parse_str_length in E1.
    pose proof (skip_ws_length s2).
    destruct (strip_prefix ":" _) as [s3|] eqn:E2; [|done]. cbn.
    apply strip_prefix_length in E2. simpl in E2. rewrite <- IHv by lia.
    destruct (pvalue_with lit n d s3) as [[v r1]|] eqn:E3; [|done]. cbn. apply Pv in E3.
    pose proof (skip_ws_length r1).
    destruct (strip_prefix "," _) as [r2|] eqn:E4; [|done].
    apply strip_prefix_length in E4. simpl in E4. by rewrite IHm by lia.
Qed.

Lemma parse_value_fuel n s : (2 * String.length s < n)%nat → pvalue_with lit n 0 s = parse_value_with lit s.
Proof. intros Hn. unfold parse_value_with, value_fuel. apply (parse_fuel n); lia. Qed.

End reader.

(** ** The round trip *)

(** The nesting depth of a value. *)
Fixpoint depth (v : json) : N :=
  match v with
  | JArr l => 1 + foldr (λ v m, N.max (depth v) m) 0 l
  | JObj kvs => 1 + foldr (λ kv m, N.max (depth kv.2) m) 0 kvs
  | _ => 0
  end%N.

(** Values [render] writes faithfully: well-formed strings and keys, and
    integer literals. *)
Fixpoint wf (v : json) : Prop :=
  match v with
  | JNum lit => ∃ z, lit = Itoa z
  | JStr s => Utf8 s
  | JArr l => foldr (λ v P, wf v ∧ P) True l
  | JObj kvs => foldr (λ kv P, Utf8 kv.1 ∧ wf kv.2 ∧ P) True kvs
  | _ => True
  end.

(** What may follow a value: anything that does not continue a number. *)
Definition ends_number (s : string) : Prop :=
  match s with
  | "" => True
  | String c _ => is_digit c = false ∧ c ≠ "."%char ∧ c ≠ "e"%char ∧ c ≠ "E"%char
  end.

Lemma strip_prefix_app p s : strip_prefix p (p +:+ s) = Some s.
Proof.
  induction p as [|a p IH]; [done|]. rewrite string_app_cons. unfold strip_prefix.
  by rewrite decide_True.
Qed.

Lemma span_digits_app d s :
  Forall (λ c, is_digit c = true) (bytes_of d) →
  match s with "" => True | String c _ => is_digit c = false end →
  span_digits (d +:+ s) = (d, s).
Proof.
  intros Hd Hs. induction d as [|c d IH]; simpl in *.
  - rewrite string_app_nil_l. destruct s as [|c s]; [done|]. cbn. by rewrite Hs.
  - apply Forall_cons in Hd as [Hc Hd]. by rewrite Hc, IH.
Qed.

(** A decimal numeral: ["0"], or digits that do not start with [0]. *)
Lemma pretty_N_go_digits x s :
  Forall (λ c, is_digit c = true) (bytes_of s) →
  Forall (λ c, is_digit c = true) (bytes_of (pretty_N_go x s)).
Proof.
  revert s. induction (N.lt_wf_0 x) as [x _ IH]. intros s Hs.
  destruct (decide (x = 0)%N) as [->|Hx]; [by rewrite pretty_N_go_0|].
  rewrite pretty_N_go_step by lia. apply IH; [apply N.div_lt; lia|]. simpl. constructor; [|done].
  pose proof (N.mod_lt x 10 ltac:(lia)) as Hm. revert Hm. generalize (x mod 10)%N. intros n Hn.
  assert (n = 0 ∨ n = 1 ∨ n = 2 ∨ n = 3 ∨ n = 4 ∨ n = 5 ∨ n = 6 ∨ n = 7 ∨ n = 8 ∨ n = 9)%N
    as Hc by lia. by repeat destruct Hc as [->|Hc]; subst.
Qed.

Lemma pretty_N_go_head x s : (0 < x)%N →
  ∃ c r, pretty_N_go x s = String c r ∧ is_digit c = true ∧ c ≠ "0"%char.
Proof.
  revert s. induction (N.lt_wf_0 x) as [x _ IH]. intros s Hx.
  rewrite pretty_N_go_step by lia. destruct (decide (x / 10 = 0)%N) as [E|E].
  - rewrite E, pretty_N_go_0. do 2 eexists; split; [done|].
    apply N.div_small_iff in E; [|lia]. rewrite N.mod_small by lia.
    assert (x = 1 ∨ x = 2 ∨ x = 3 ∨ x = 4 ∨ x = 5 ∨ x = 6 ∨ x = 7 ∨ x = 8 ∨ x = 9)%N
      as Hc by lia. by repeat destruct Hc as [->|Hc]; subst.
  - apply IH; [apply N.div_lt; lia|]. apply N.neq_0_lt_0. done.
Qed.

Lemma scan_int_pretty (n : N) s :
  match s with "" => True | String c _ => is_digit c = false end →
  scan_int (pretty n +:+ s) = Some (pretty n, s).
Proof.
  intros Hs. unfold scan_int, pretty, pretty_N. case_decide as Hn; [by rewrite strip_prefix_app|].
  destruct (pretty_N_go_head n "" ltac:(lia)) as (c & r & E & Hc & H0).
  pose proof (pretty_N_go_digits n "" (Forall_nil_2 _)) as Hd. rewrite E in *.
  assert (strip_prefix "0" (String c r +:+ s) = None) as ->.
  { rewrite string_app_cons. unfold strip_prefix. by rewrite decide_False. }
  unfold digits1. rewrite span_digits_app by done. by rewrite decide_False.
Qed.

Lemma is_digit_plain c : is_digit c = true →
  c ≠ "-"%char ∧ c ≠ ch_quote ∧ c ≠ "["%char ∧ c ≠ "{"%char ∧ c ≠ "t"%char ∧
  c ≠ "f"%char ∧ c ≠ "n"%char ∧ is_space c = false.
Proof. revert c. by_all_ascii. Qed.

Lemma scan_frac_exp_nil s : ends_number s → scan_frac s = Some ("", s) ∧ scan_exp s = Some ("", s).
Proof.
  destruct s as [|c s]; [done|]. intros (_ & H1 & H2 & H3). unfold scan_frac, scan_exp. split.
  - unfold strip_prefix. by rewrite decide_False.
  - rewrite decide_False; naive_solver.
Qed.

Lemma ends_number_digit s : ends_number s →
  match s with "" => True | String c _ => is_digit c = false end.
Proof. destruct s; naive_solver. Qed.

(** An integer literal starts like a number and reads back. *)
Lemma scan_number_Itoa z s :
  ends_number s → scan_number (Itoa z +:+ s) = Some (Itoa z, s).
Proof.
  intros Hs. destruct (scan_frac_exp_nil s Hs) as [Hf He]. unfold scan_number.
  assert (∃ sg n, Itoa z = sg +:+ pretty (n : N) ∧
    match strip_prefix "-" (Itoa z +:+ s) with Some r => ("-", r) | None => ("", Itoa z +:+ s) end
    = (sg, pretty n +:+ s)) as (sg & n & E & ->).
  { destruct z as [|p|p].
    - by exists "", 0%N.
    - exists "", (N.pos p). split; [done|]. change (Itoa (Z.pos p)) with (pretty (N.pos p)).
      unfold pretty, pretty_N. rewrite decide_False by done.
      destruct (pretty_N_go_head (N.pos p) "" ltac:(lia)) as (c & r & -> & [Hc _]%is_digit_plain & _).
      rewrite string_app_cons. unfold strip_prefix. by rewrite decide_False.
    - exists "-", (N.pos p). split; [done|].
      change (Itoa (Z.neg p)) with ("-" +:+ pretty (N.pos p)).
      by rewrite <- string_app_assoc, strip_prefix_app. }
  rewrite scan_int_pretty by (by apply ends_number_digit). cbn. rewrite Hf. cbn. rewrite He. cbn.
  by rewrite !string_app_nil_r, E.
Qed.

(** The first character of a number literal selects the number branch. *)
Lemma Itoa_head z : ∃ c r, Itoa z = String c r ∧ is_space c = false ∧
  c ≠ ch_quote ∧ c ≠ "["%char ∧ c ≠ "{"%char ∧ c ≠ "t"%char ∧ c ≠ "f"%char ∧ c ≠ "n"%char.
Proof.
  destruct z as [|p|p]; [by do 2 eexists| |by do 2 eexists].
  change (Itoa (Z.pos p)) with (pretty (N.pos p)). unfold pretty, pretty_N.
  rewrite decide_False by done.
  destruct (pretty_N_go_head (N.pos p) "" ltac:(lia)) as (c & r & -> & Hc%is_digit_plain & _).
  do 2 eexists; split; [done|]. tauto.
Qed.

Lemma render_head v : wf v →
  ∃ c r, render v = String c r ∧ is_space c = false ∧ c ≠ "]"%char.
Proof.
  destruct v as [|[]|lit|s|l|kvs]; cbn; try (intros; do 2 eexists; done).
  intros [z ->]. destruct (Itoa_head z) as (c & r & E & ? & ?). exists c, r.
  repeat split; try done. intros ->.
  assert (scan_number (Itoa z +:+ "") = Some (Itoa z, "")) as Hz by by apply scan_number_Itoa.
  rewrite string_app_nil_r, E in Hz. by vm_compute in Hz.
Qed.

Lemma skip_ws_head c r s : is_space c = false → skip_ws (String c r +:+ s) = String c r +:+ s.
Proof. intros H. rewrite string_app_cons. cbn. by rewrite H. Qed.

(** A value with its strings, but not its keys, replaced. *)
Fixpoint map_str (f : string → string) (v : json) : json :=
  match v with
  | JStr s => JStr (f s)
  | JArr l => JArr (map_str f <$> l)
  | JObj kvs => JObj ((λ kv, (kv.1, map_str f kv.2)) <$> kvs)
  | _ => v
  end.

Lemma map_str_id v : map_str id v = v.
Proof.
  induction v as [| | | |l IH|kvs IH] using json_ind'; try done; cbn; f_equal.
  - induction IH as [|v l Hv _ IHl]; [done|]. cbn. by rewrite Hv, IHl.
  - induction IH as [|[k v] l Hv _ IHl]; [done|]. cbn in *. by rewrite Hv, IHl.
Qed.

Lemma strip_prefix_ne a b r : a ≠ b → strip_prefix (String a "") (String b r) = None.
Proof. intros. unfold strip_prefix. by rewrite decide_False. Qed.

(** A reader of string values that turns what is written for [s] into [f s]. *)
Section render.
Context (lit : string → option (string * string)) (f : string → string).
Context (lit_escape : ∀ s t, Utf8 s → lit (escape s +:+ String ch_quote t) = Some (f s, t)).

(** What the value parser has to read back from [render v]. *)
Definition reads_as (v : json) : Prop :=
  wf v → ∀ d s, (d + depth v ≤ maxNestingDepth)%N → ends_number s →
  ∃ n0, ∀ n, (n0 ≤ n)%nat → pvalue_with lit n d (render v +:+ s) = Some (map_str f v, s).

Lemma pelems_render l : Forall reads_as l → l ≠ [] → ∀ d s,
  foldr (λ v P, wf v ∧ P) True l →
  (d + foldr (λ v m, N.max (depth v) m) 0 l ≤ maxNestingDepth)%N →
  ∃ n0, ∀ n, (n0 ≤ n)%nat → pelems_with lit n d (join "," (render <$> l) +:+ "]" +:+ s) = Some (map_str f <$> l, s).
Proof.
  induction 1 as [|v l Hv Hl IH]; [done|]. intros _ d s [Wv Wl] Hd. cbn [foldr] in Hd.
  destruct l as [|w l].
  - destruct (Hv Wv d ("]" +:+ s)) as [n0 Hn0]; [lia|done|].
    exists (Datatypes.S n0). intros [|n] Hn; [lia|]. cbn [fmap list_fmap join pelems_with].
    by rewrite Hn0 by lia.
  - destruct (IH ltac:(done) d s Wl ltac:(lia)) as [n1 Hn1].
    destruct (Hv Wv d ("," +:+ join "," (render <$> w :: l) +:+ "]" +:+ s)) as [n0 Hn0]; [lia|done|].
    exists (Datatypes.S (n0 + n1)). intros [|n] Hn; [lia|].
    change (join "," (render <$> v :: w :: l))
      with (render v +:+ "," +:+ join "," (render <$> w :: l)).
    rewrite <- !string_app_assoc. cbn [pelems_with]. rewrite Hn0 by lia.
    cbn [mbind option_bind]. rewrite skip_ws_head by done.
    change (String "," "" +:+ ?x) with ("," +:+ x). rewrite strip_prefix_app.
    rewrite Hn1 by lia. done.
Qed.

Lemma pmembers_render kvs : Forall (λ kv, reads_as kv.2) kvs → kvs ≠ [] → ∀ d s,
  foldr (λ kv P, Utf8 kv.1 ∧ wf kv.2 ∧ P) True kvs →
  (d + foldr (λ kv m, N.max (depth kv.2) m) 0 kvs ≤ maxNestingDepth)%N →
  ∃ n0, ∀ n, (n0 ≤ n)%nat →
    pmembers_with lit n d (join "," ((λ kv, quote kv.1 +:+ ":" +:+ render kv.2) <$> kvs) +:+ "}" +:+ s)
    = Some ((λ kv, (kv.1, map_str f kv.2)) <$> kvs, s).
Proof.
  induction 1 as [|[k v] l Hv Hl IH]; [done|]. intros _ d s (Wk & Wv & Wl) Hd.
  cbn [foldr fst snd] in *.
  assert (∀ t, strip_prefix (str1 ch_quote) (skip_ws (quote k +:+ t))
    = Some (escape k +:+ String ch_quote t)) as Hq.
  { intros t. unfold quote. rewrite skip_ws_head by done. unfold strip_prefix, str1.
    rewrite string_app_cons, decide_True by done. by rewrite <- string_app_assoc. }
  destruct l as [|kv l].
  - destruct (Hv Wv d ("}" +:+ s)) as [n0 Hn0]; [lia|done|].
    exists (Datatypes.S n0). intros [|n] Hn; [lia|]. cbn [fmap list_fmap join pmembers_with fst snd].
    rewrite <- !string_app_assoc, Hq. cbn [mbind option_bind].
    rewrite parse_str_escape by done. cbn [mbind option_bind].
    rewrite skip_ws_head, strip_prefix_app by done. cbn [mbind option_bind].
    by rewrite Hn0 by lia.
  - destruct (IH ltac:(done) d s Wl ltac:(lia)) as [n1 Hn1].
    set (tl := join "," ((λ kv, quote kv.1 +:+ ":" +:+ render kv.2) <$> kv :: l)) in *.
    destruct (Hv Wv d ("," +:+ tl +:+ "}" +:+ s)) as [n0 Hn0]; [lia|done|].
    exists (Datatypes.S (n0 + n1)). intros [|n] Hn; [lia|].
    change (join "," ((λ kv, quote kv.1 +:+ ":" +:+ render kv.2) <$> (k, v) :: kv :: l))
      with ((quote k +:+ ":" +:+ render v) +:+ "," +:+ tl).
    rewrite <- !string_app_assoc. cbn [pmembers_with]. rewrite Hq. cbn [mbind option_bind].
    rewrite parse_str_escape by done. cbn [mbind option_bind].
    rewrite skip_ws_head, strip_prefix_app by done. cbn [mbind option_bind].
    rewrite Hn0 by lia. cbn [mbind option_bind]. rewrite skip_ws_head, strip_prefix_app by done.
    rewrite Hn1 by lia. done.
Qed.

(** Keywords and number literals are told apart by their first character. *)
Lemma strip_keywords c r :
  c ≠ "t"%char → c ≠ "f"%char → c ≠ "n"%char →
  strip_prefix "true" (String c r) = None ∧ strip_prefix "false" (String c r) = None ∧
  strip_prefix "null" (String c r) = None.
Proof. intros. unfold strip_prefix. by rewrite !decide_False. Qed.

Lemma render_join_head (l : list string) s c r :
  head l = Some (String c r) → ∃ r', join "," l +:+ s = String c r'.
Proof. destruct l as [|x [|y l]]; intros [= ->]; cbn; rewrite ?string_app_cons; eauto. Qed.

Lemma pvalue_render_as v : reads_as v.
Proof.
  induction v as [|[]|num|str|l IH|kvs IH] using json_ind'; intros W d s Hd Hs.
  1-3: exists 1%nat; intros [|n] Hn; [lia|]; reflexivity.
  - destruct W as [z ->]. exists 1%nat. intros [|n] Hn; [lia|]. cbn [pvalue_with render].
    destruct (Itoa_head z) as (c & r & E & Hc & H1 & H2 & H3 & H4 & H5 & H6).
    pose proof (scan_number_Itoa z s Hs) as Hz. rewrite E in *.
    rewrite skip_ws_head, string_app_cons, !decide_False by done.
    destruct (strip_keywords c (r +:+ s)) as (-> & -> & ->); [done..|].
    rewrite string_app_cons in Hz. by rewrite Hz.
  - exists 1%nat. intros [|n] Hn; [lia|]. cbn [pvalue_with render]. unfold quote.
    rewrite skip_ws_head, string_app_cons, decide_True by done.
    rewrite <- string_app_assoc. change (str1 ch_quote +:+ s) with (String ch_quote s).
    by rewrite lit_escape.
  - destruct l as [|v l].
    { exists 1%nat. intros [|n] Hn; [lia|]. cbn in Hd |- *. rewrite (proj2 (N.ltb_ge _ _)) by lia.
      reflexivity. }
    cbn [depth] in Hd. destruct (pelems_render _ IH ltac:(done) (d + 1)%N s W) as [n0 Hn0]; [lia|].
    exists (Datatypes.S n0). intros [|n] Hn; [lia|]. cbn [pvalue_with render].
    rewrite <- !string_app_assoc. rewrite skip_ws_head by done.
    rewrite string_app_cons, string_app_nil_l, decide_False, decide_True by done.
    rewrite (proj2 (N.ltb_ge _ _)) by lia.
    destruct W as [Wv _]. destruct (render_head v Wv) as (c & r & E & Hc & Hb).
    destruct (render_join_head (render <$> v :: l) ("]" +:+ s) c r) as [r' E']; [by cbn; rewrite E|].
    rewrite E' in *. cbn [skip_ws]. rewrite Hc, strip_prefix_ne by done. by rewrite Hn0 by lia.
  - destruct kvs as [|[k v] l].
    { exists 1%nat. intros [|n] Hn; [lia|]. cbn in Hd |- *. rewrite (proj2 (N.ltb_ge _ _)) by lia.
      reflexivity. }
    cbn [depth] in Hd. destruct (pmembers_render _ IH ltac:(done) (d + 1)%N s W) as [n0 Hn0]; [lia|].
    exists (Datatypes.S n0). intros [|n] Hn; [lia|]. cbn [pvalue_with render].
    rewrite <- !string_app_assoc. rewrite skip_ws_head by done.
    rewrite string_app_cons, string_app_nil_l, !decide_False, decide_True by done.
    rewrite (proj2 (N.ltb_ge _ _)) by lia.
    destruct (render_join_head ((λ kv, quote kv.1 +:+ ":" +:+ render kv.2) <$> (k, v) :: l)
      ("}" +:+ s) ch_quote (escape k +:+ str1 ch_quote +:+ ":" +:+ render v)) as [r' E'].
    { cbn. unfold quote. by rewrite string_app_cons, <- !string_app_assoc. }
    rewrite E' in *. cbn [skip_ws]. replace (is_space ch_quote) with false by done. rewrite strip_prefix_ne by done. by rewrite Hn0 by lia.
Qed.

Context (lit_length : shrinks lit).

(** Reading back what was written, whatever follows. *)
Lemma parse_render_as v s :
  wf v → (depth v ≤ maxNestingDepth)%N → ends_number s →
  parse_value_with lit (render v +:+ s) = Some (map_str f v, s).
Proof.
  intros W Hd Hs. destruct (pvalue_render_as v W 0%N s) as [n0 Hn0]; [lia|done|].
  rewrite <- (parse_value_fuel lit lit_length (n0 + value_fuel (render v +:+ s))).
  - apply Hn0. lia.
  - unfold value_fuel. lia.
Qed.

Lemma Unmarshal_render_as v :
  wf v → (depth v ≤ maxNestingDepth)%N → Unmarshal_with lit (render v) = Some (map_str f v).
Proof.
  intros W Hd. unfold Unmarshal_with. rewrite <- (string_app_nil_r (render v)).
  by rewrite parse_render_as.
Qed.

End render.

(** *** Strings read as values *)

Definition reads_back (v : json) : Prop :=
  wf v → ∀ d s, (d + depth v ≤ maxNestingDepth)%N → ends_number s →
  ∃ n0, ∀ n, (n0 ≤ n)%nat → pvalue n d (render v +:+ s) = Some (v, s).

Lemma pvalue_render v : reads_back v.
Proof.
  intros W d s Hd Hs. pose proof (pvalue_render_as parse_str id parse_str_escape v W d s Hd Hs) as H.
  by rewrite map_str_id in H.
Qed.

Lemma parse_render v s :
  wf v → (depth v ≤ maxNestingDepth)%N → ends_number s →
  parse_value (render v +:+ s) = Some (v, s).
Proof.
  intros. by rewrite (parse_render_as parse_str id parse_str_escape parse_str_length), map_str_id.
Qed.

Lemma Unmarshal_render v :
  wf v → (depth v ≤ maxNestingDepth)%N → Unmarshal (render v) = Some v.
Proof.
  intros. by rewrite (Unmarshal_render_as parse_str id parse_str_escape parse_str_length), map_str_id.
Qed.

(** *** Strings read as they are written *)

Lemma raw_str_length : shrinks raw_str.
Proof.
  intros s v r. unfold raw_str. destruct (parse_str s) as [[t r']|] eqn:E; [|done].
  intros [= <- <-]. by eapply parse_str_length.
Qed.

Lemma substring_0_app a b : substring 0 (String.length a) (a +:+ b) = a.
Proof.
  induction a as [|c a IH]; [by destruct b|]. rewrite string_app_cons. cbn [String.length substring].
  by rewrite IH.
Qed.

Lemma raw_str_escape s t : Utf8 s → raw_str (escape s +:+ String ch_quote t) = Some (escape s, t).
Proof.
  intros Hs. unfold raw_str. rewrite parse_str_escape by done. cbn [mbind option_bind].
  rewrite string_length_app. cbn [String.length].
  replace (_ - _ - 1)%nat with (String.length (escape s)) by lia. by rewrite substring_0_app.
Qed.

Lemma Unmarshal_raw_render v :
  wf v → (depth v ≤ maxNestingDepth)%N → Unmarshal_raw (render v) = Some (map_str escape v).
Proof. apply (Unmarshal_render_as raw_str escape raw_str_escape raw_str_length). Qed.

#[global] Arguments render : simpl never.
#[global] Arguments parse_value_with : simpl never.
#[global] Arguments Unmarshal_with : simpl never.
