(* ===== verification/JsonStruct.v ===== *)
(** * Reading JSON into Go structs

    How [encoding/json] fills a struct from an object: fields are matched by
    name, exactly or up to letter case; unknown members are skipped; a later
    member of the same name wins; [null] leaves a string or an integer as it
    was; a member of the wrong type is an error.  A struct is described by its
    field table, one setter per field.

    The error of a read is reported as [None]: the program never looks at
    which error it was, nor at a struct that was only partly filled. *)

From S2P Require Import Prelude GoStrings Encoding Json.

(** A setter stores a JSON value in a field of [T], or fails on its type. *)
Definition setter (T : Type) : Type := json → T → option T.
Definition table (T : Type) : Type := list (string * setter T).

(** Upper case, as [foldName] maps names: ASCII letters, and the two other
    characters Unicode folds onto an ASCII letter (U+017F and U+212A). *)
Definition to_upper (c : byte) : byte :=
  if between 97 (ord c) 122 then chr (ord c - 32) else c.

Fixpoint foldName (s : string) : string :=
  match s with
  | "" => ""
  | String a r =>
      match r with
      | String b r' =>
          if decide (a = chr 197 ∧ b = chr 191) then String "S" (foldName r')
          else
            match r' with
            | String c r'' =>
                if decide (a = chr 226 ∧ b = chr 132 ∧ c = chr 170)
                then String "K" (foldName r'')
                else String (to_upper a) (foldName r)
            | "" => String (to_upper a) (foldName r)
            end
      | "" => String (to_upper a) ""
      end
  end.

Definition find_by {T} (p : string → bool) (tbl : table T) : option (setter T) :=
  snd <$> List.find (λ f, p f.1) tbl.

(** The field a member named [k] goes to: the exact name first. *)
Definition find_field {T} (tbl : table T) (k : string) : option (setter T) :=
  match find_by (λ n, bool_decide (n = k)) tbl with
  | Some f => Some f
  | None => find_by (λ n, bool_decide (foldName n = foldName k)) tbl
  end.

Definition set_member {T} (tbl : table T) (acc : option T) (kv : string * json) : option T :=
  t ← acc;
  match find_field tbl kv.1 with
  | Some f => f kv.2 t
  | None => Some t
  end.

Definition decode_struct {T} (tbl : table T) (v : json) (init : T) : option T :=
  match v with
  | JNull => Some init
  | JObj kvs => foldl (set_member tbl) (Some init) kvs
  | _ => None
  end.

(** Look up the fields of a closed table, keeping the setters as they are. *)
Ltac eval_fields :=
  repeat match goal with
  | |- context [find_field ?t ?k] =>
      let x := eval hnf in (find_field t k) in change (find_field t k) with x
  end; cbn [mbind option_bind fst snd fmap option_fmap option_map].

(** ** Field types *)

Definition as_string (v : json) (old : string) : option string :=
  match v with JStr s => Some s | JNull => Some old | _ => None end.

Definition as_int (v : json) (old : Z) : option Z :=
  match v with
  | JNum lit => match parse_Z lit with
                | Some z => if bool_decide (- 2 ^ 63 ≤ z < 2 ^ 63) then Some z else None
                | None => None
                end
  | JNull => Some old
  | _ => None
  end.

Definition as_uint8 (v : json) : option byte :=
  match v with
  | JNum lit => match parse_uint lit with
                | Some n => if (n <? 256)%N then Some (chr n) else None
                | None => None
                end
  | JNull => Some (chr 0)
  | _ => None
  end.

(** [[]byte]: a base64 string; [null] is nil; an array of small integers is
    accepted too. *)
Definition as_bytes (v : json) (old : slice) : option slice :=
  match v with
  | JStr s => Some <$> Base64.DecodeString s
  | JNull => Some None
  | JArr l => Some <$> mapM as_uint8 l
  | _ => None
  end.

(** A slice of structs or of strings. *)
Definition as_list {A} (f : json → option A) (v : json) (old : list A) : option (list A) :=
  match v with
  | JNull => Some []
  | JArr l => mapM f l
  | _ => None
  end.

(** A [map[string]string]: members are added to the map that is there. *)
Definition add_entry (acc : option (gmap string string)) (kv : string * json) :
    option (gmap string string) :=
  m ← acc; s ← as_string kv.2 ""; Some (<[kv.1 := s]> m).

Definition as_string_map (v : json) (old : gmap string string) : option (gmap string string) :=
  match v with
  | JNull => Some ∅
  | JObj kvs => foldl add_entry (Some old) kvs
  | _ => None
  end.

(** Its JSON form: the members in the order of their keys. *)
Definition of_string_map (m : gmap string string) : json :=
  JObj (prod_map id JStr <$> sorted_entries m).

(** [[]byte] as a value: base64, [null] for nil. *)
Definition of_bytes (b : slice) : json :=
  match b with Some b => JStr (Base64.EncodeToString b) | None => JNull end.

(** ** Reading a request or a response body *)

(** The end of a stream: at its end, or cut off by a read error. *)
Inductive stream_end := AtEOF | ReadError.

(** Arrays and objects end at their closing bracket; any other value is only
    known to be complete when the byte after it, or the end, has been seen. *)
Definition self_delimiting (v : json) : bool :=
  match v with JArr _ | JObj _ => true | _ => false end.

(** [json.NewDecoder(r).Decode(&t)]: the first value of the stream; what
    follows it is not looked at. *)
Definition decode_stream (s : string) (e : stream_end) : option json :=
  '(v, r) ← parse_value s;
  match e with
  | AtEOF => Some v
  | ReadError =>
      if self_delimiting v || negb (bool_decide (r = "")) then Some v else None
  end.

Lemma decode_stream_Encode v e :
  wf v → (depth v ≤ maxNestingDepth)%N →
  decode_stream (Encode v) e = Some v ∧ decode_stream (render v) AtEOF = Some v.
Proof.
  intros W Hd. unfold decode_stream, Encode. split.
  - rewrite parse_render by done. cbn. destruct e; [done|].
    by rewrite orb_true_r.
  - rewrite <- (string_app_nil_r (render v)), parse_render by done. done.
Qed.

(** ** Round trips of the field types *)

Lemma as_bytes_of_bytes b old : as_bytes (of_bytes b) old = Some b.
Proof.
  destruct b as [b|]; [|done]. cbn. by rewrite Base64.decode_encode.
Qed.

Lemma as_int_Itoa z old : in_int64 z → as_int (JNum (Itoa z)) old = Some z.
Proof. intros Hz. cbn. rewrite parse_Z_Itoa. by rewrite bool_decide_eq_true_2. Qed.

Lemma add_entries l m : NoDup l.*1 → (∀ k, k ∈ l.*1 → m !! k = None) →
  foldl add_entry (Some m) (prod_map id JStr <$> l) = Some (list_to_map l ∪ m).
Proof.
  revert m; induction l as [|[k v] l IH]; intros m Hd Hm; cbn in *.
  { by rewrite (left_id_L ∅ (∪)). }
  apply NoDup_cons in Hd as [Hk Hd]. rewrite IH; [|done|].
  - f_equal. rewrite <- insert_union_r by (by apply not_elem_of_list_to_map_1).
    by rewrite insert_union_l.
  - intros k' Hk'. rewrite lookup_insert_ne by (by intros ->). apply Hm. by right.
Qed.

Lemma as_string_map_of m : as_string_map (of_string_map m) ∅ = Some m.
Proof.
  cbn. rewrite add_entries.
  - by rewrite list_to_map_sorted_entries, (right_id_L ∅ (∪)).
  - apply sorted_entries_NoDup.
  - intros k _. apply lookup_empty.
Qed.

Lemma wf_of_string_map m :
  map_Forall (λ k v, Utf8 k ∧ Utf8 v) m → wf (of_string_map m).
Proof.
  intros Hm. cbn. assert (Forall (λ kv, Utf8 kv.1 ∧ Utf8 kv.2) (sorted_entries m)) as H.
  { apply Forall_forall. intros [k v] Hk. by apply Hm, elem_of_sorted_entries. }
  induction H as [|[k v] l [Hk Hv] _ IH]; cbn; auto.
Qed.

Lemma depth_of_string_map m : depth (of_string_map m) = 1%N.
Proof.
  cbn. assert (∀ l, foldr (λ kv k, depth kv.2 `max` k)%N 0%N
    ((prod_map id JStr <$> l) : list (string * json)) = 0%N) as ->; [|done].
  induction l as [|[k v] l IH]; [done|]. cbn. by rewrite IH.
Qed.

Lemma mapM_as_string l : mapM (λ x, as_string x "") (JStr <$> l) = Some l.
Proof. induction l as [|x l IH]; [done|]. cbn. by rewrite IH. Qed.

(** Base64 text is ASCII. *)
Lemma Utf8_base64 b : Utf8 (Base64.EncodeToString b).
Proof.
  rewrite <- (string_app_nil_r (Base64.EncodeToString b)). apply Utf8_app_ascii; [|constructor].
  assert (∀ x, (ord (Base64.sextet_char x) < 128)%N) as Hx.
  { intros [[] [] [] [] [] []]; vm_compute; reflexivity. }
  induction b as [|x|x y|x y z r IH] using Base64.triples_ind; simpl; repeat constructor; auto.
Qed.

(** What decodes from base64 is ASCII too. *)
Lemma char_sextet_ascii c x : Base64.char_sextet c = Some x → (ord c < 128)%N.
Proof.
  unfold Base64.char_sextet. fold (ord c). cbv zeta. intros H.
  repeat match type of H with
  | (if ?b then _ else _) = _ => destruct b eqn:?; [clear H|]
  end; try done; rewrite ?andb_true_iff, ?N.leb_le, ?N.eqb_eq in *; lia.
Qed.

Definition ascii_only (s : string) : Prop := Forall (λ c, (ord c < 128)%N) (bytes_of s).

Lemma Utf8_ascii_only s : ascii_only s → Utf8 s.
Proof.
  intros Hs. rewrite <- (string_app_nil_r s). apply Utf8_app_ascii; [exact Hs|constructor].
Qed.

Lemma decode_groups_ascii s b : Base64.decode_groups s = Some b → ascii_only s.
Proof.
  unfold ascii_only. remember (String.length s) as k eqn:Hk. revert s b Hk.
  induction (Nat.lt_wf_0 k) as [k _ IH].
  intros [|c1 [|c2 [|c3 [|c4 r]]]] b Hk H; try done. cbn [Base64.decode_groups] in H.
  destruct (Base64.char_sextet c1) as [x1|] eqn:E1; [|done].
  destruct (Base64.char_sextet c2) as [x2|] eqn:E2; [|done]. cbn [mbind option_bind] in H.
  apply char_sextet_ascii in E1, E2. case_decide as Hc3.
  { case_decide as Hp; [|done]. destruct Hp as [-> ->]. subst c3. by repeat constructor. }
  destruct (Base64.char_sextet c3) as [x3|] eqn:E3; [|done]. cbn [mbind option_bind] in H.
  apply char_sextet_ascii in E3. case_decide as Hc4.
  { case_decide as Hp; [|done]. subst c4 r. by repeat constructor. }
  destruct (Base64.char_sextet c4) as [x4|] eqn:E4; [|done]. cbn [mbind option_bind] in H.
  apply char_sextet_ascii in E4. destruct (Base64.decode_groups r) as [bs|] eqn:Er; [|done].
  repeat (constructor; [done|]). by apply (IH (String.length r) ltac:(cbn in Hk; lia) r bs).
Qed.

Lemma drop_newlines_ascii s : ascii_only (Base64.drop_newlines s) → ascii_only s.
Proof.
  unfold ascii_only. induction s as [|c s IH]; [done|]. cbn. case_decide as Hc.
  - intros Hs. constructor; [by destruct Hc as [-> | ->]|by apply IH].
  - intros [? ?]%Forall_cons. constructor; [done|by apply IH].
Qed.

Lemma Utf8_of_base64 s b : Base64.DecodeString s = Some b → Utf8 s.
Proof. intros H. by eapply Utf8_ascii_only, drop_newlines_ascii, decode_groups_ascii. Qed.

Lemma wf_of_bytes b : wf (of_bytes b).
Proof. destruct b; [apply Utf8_base64|done]. Qed.

Lemma depth_of_bytes b : depth (of_bytes b) = 0%N.
Proof. by destruct b. Qed.

#[export] Hint Resolve Utf8_base64 wf_of_bytes : utf8.
#[export] Hint Rewrite as_bytes_of_bytes depth_of_bytes : go.
