(* ===== verification/JsonIndent.v ===== *)
(** * Indented JSON ([json.MarshalIndent] with an indent of two spaces)

    The client writes its metadata file in this form; it reads back as the
    same value. *)

From S2P Require Import Prelude GoStrings Json.

(** A new line at indentation level [d]. *)
Definition nl (d : nat) : string :=
  String "010" (string_of (replicate (2 * d) " "%char)).

Fixpoint render_indent (d : nat) (v : json) : string :=
  match v with
  | JArr ((_ :: _) as l) =>
      "[" +:+ nl (Datatypes.S d) +:+
      join ("," +:+ nl (Datatypes.S d)) (render_indent (Datatypes.S d) <$> l) +:+ nl d +:+ "]"
  | JObj ((_ :: _) as kvs) =>
      "{" +:+ nl (Datatypes.S d) +:+
      join ("," +:+ nl (Datatypes.S d))
        ((λ kv, quote kv.1 +:+ ": " +:+ render_indent (Datatypes.S d) kv.2) <$> kvs) +:+ nl d +:+ "}"
  | v => render v
  end.

(** [json.MarshalIndent(v, "", "  ")]. *)
Definition MarshalIndent (v : json) : string := render_indent 0 v.

(** ** White space *)

Definition blank (w : string) : Prop := Forall (λ c, is_space c = true) (bytes_of w).

Lemma skip_ws_blank w s : blank w → skip_ws (w +:+ s) = skip_ws s.
Proof.
  unfold blank. induction w as [|c w IH]; [done|]. cbn [list_ascii_of_string].
  intros [Hc Hw]%Forall_cons. rewrite string_app_cons. cbn [skip_ws]. rewrite Hc. by apply IH.
Qed.

Lemma nl_blank d : blank (nl d).
Proof.
  unfold blank, nl. cbn [list_ascii_of_string]. rewrite bytes_of_string_of. constructor; [done|].
  apply Forall_replicate. done.
Qed.

Lemma pvalue_blank w n d s : blank w → pvalue n d (w +:+ s) = pvalue n d s.
Proof. intros Hw. destruct n as [|n]; [done|]. cbn [pvalue_with]. by rewrite skip_ws_blank. Qed.

Lemma pmembers_blank w n d s : blank w → pmembers n d (w +:+ s) = pmembers n d s.
Proof. intros Hw. destruct n as [|n]; [done|]. cbn [pmembers_with]. by rewrite skip_ws_blank. Qed.

Lemma pelems_blank w n d s : blank w → pelems n d (w +:+ s) = pelems n d s.
Proof. intros Hw. destruct n as [|n]; [done|]. cbn [pelems_with]. by rewrite pvalue_blank. Qed.

Lemma nl_ends_number d s : ends_number (nl d +:+ s).
Proof. unfold nl. rewrite string_app_cons. done. Qed.

(** ** The round trip *)

Definition reads_back_indent (v : json) : Prop :=
  wf v → ∀ i d s, (d + depth v ≤ maxNestingDepth)%N → ends_number s →
  ∃ n0, ∀ n, (n0 ≤ n)%nat → pvalue n d (render_indent i v +:+ s) = Some (v, s).

Lemma pelems_indent i i' l : Forall reads_back_indent l → l ≠ [] → ∀ d s,
  foldr (λ v P, wf v ∧ P) True l →
  (d + foldr (λ v m, N.max (depth v) m) 0 l ≤ maxNestingDepth)%N →
  ∃ n0, ∀ n, (n0 ≤ n)%nat →
    pelems n d (join ("," +:+ nl i) (render_indent i <$> l) +:+ nl i' +:+ "]" +:+ s) = Some (l, s).
Proof.
  induction 1 as [|v l Hv Hl IH]; [done|]. intros _ d s [Wv Wl] Hd. cbn [foldr] in Hd.
  destruct l as [|w l].
  - destruct (Hv Wv i d (nl i' +:+ "]" +:+ s)) as [n0 Hn0]; [lia|apply nl_ends_number|].
    exists (Datatypes.S n0). intros [|n] Hn; [lia|]. cbn [fmap list_fmap join pelems_with].
    rewrite Hn0 by lia. cbn [mbind option_bind]. by rewrite skip_ws_blank by apply nl_blank.
  - destruct (IH ltac:(done) d s Wl ltac:(lia)) as [n1 Hn1].
    set (tl := join ("," +:+ nl i) (render_indent i <$> w :: l)) in *.
    destruct (Hv Wv i d ("," +:+ nl i +:+ tl +:+ nl i' +:+ "]" +:+ s)) as [n0 Hn0]; [lia|done|].
    exists (Datatypes.S (n0 + n1)). intros [|n] Hn; [lia|].
    change (join ("," +:+ nl i) (render_indent i <$> v :: w :: l))
      with (render_indent i v +:+ ("," +:+ nl i) +:+ tl).
    rewrite <- !string_app_assoc. cbn [pelems_with]. rewrite Hn0 by lia.
    cbn [mbind option_bind]. rewrite skip_ws_head by done.
    change (String "," "" +:+ ?x) with ("," +:+ x). rewrite strip_prefix_app.
    by rewrite pelems_blank, Hn1 by (apply nl_blank || lia).
Qed.

Lemma pmembers_indent i i' kvs : Forall (λ kv, reads_back_indent kv.2) kvs → kvs ≠ [] → ∀ d s,
  foldr (λ kv P, Utf8 kv.1 ∧ wf kv.2 ∧ P) True kvs →
  (d + foldr (λ kv m, N.max (depth kv.2) m) 0 kvs ≤ maxNestingDepth)%N →
  ∃ n0, ∀ n, (n0 ≤ n)%nat →
    pmembers n d (join ("," +:+ nl i)
      ((λ kv, quote kv.1 +:+ ": " +:+ render_indent i kv.2) <$> kvs) +:+ nl i' +:+ "}" +:+ s)
    = Some (kvs, s).
Proof.
  induction 1 as [|[k v] l Hv Hl IH]; [done|]. intros _ d s (Wk & Wv & Wl) Hd.
  cbn [foldr fst snd] in *.
  assert (∀ t, strip_prefix (str1 ch_quote) (skip_ws (quote k +:+ t))
    = Some (escape k +:+ String ch_quote t)) as Hq.
  { intros t. unfold quote. rewrite skip_ws_head by done. unfold strip_prefix, str1.
    rewrite string_app_cons, decide_True by done. by rewrite <- string_app_assoc. }
  assert (∀ t, strip_prefix ":" (skip_ws (": " +:+ t)) = Some (" " +:+ t)) as Hc by done.
  assert (blank " ") as Hb by by repeat constructor.
  destruct l as [|kv l].
  - destruct (Hv Wv i d (nl i' +:+ "}" +:+ s)) as [n0 Hn0]; [lia|apply nl_ends_number|].
    exists (Datatypes.S n0). intros [|n] Hn; [lia|]. cbn [fmap list_fmap join pmembers_with fst snd].
    rewrite <- !string_app_assoc, Hq. cbn [mbind option_bind].
    rewrite parse_str_escape by done. cbn [mbind option_bind].
    rewrite Hc. cbn [mbind option_bind]. rewrite pvalue_blank, Hn0 by (done || lia).
    cbn [mbind option_bind]. by rewrite skip_ws_blank by apply nl_blank.
  - destruct (IH ltac:(done) d s Wl ltac:(lia)) as [n1 Hn1].
    set (tl := join _ ((λ kv, _) <$> kv :: l)) in *.
    destruct (Hv Wv i d ("," +:+ nl i +:+ tl +:+ nl i' +:+ "}" +:+ s)) as [n0 Hn0]; [lia|done|].
    exists (Datatypes.S (n0 + n1)). intros [|n] Hn; [lia|].
    change (join ("," +:+ nl i)
        ((λ kv, quote kv.1 +:+ ": " +:+ render_indent i kv.2) <$> (k, v) :: kv :: l))
      with ((quote k +:+ ": " +:+ render_indent i v) +:+ ("," +:+ nl i) +:+ tl).
    rewrite <- !string_app_assoc. cbn [pmembers_with]. rewrite Hq. cbn [mbind option_bind].
    rewrite parse_str_escape by done. cbn [mbind option_bind].
    rewrite Hc. cbn [mbind option_bind]. rewrite pvalue_blank, Hn0 by (done || lia).
    cbn [mbind option_bind]. rewrite skip_ws_head, strip_prefix_app by done.
    by rewrite pmembers_blank, Hn1 by (apply nl_blank || lia).
Qed.

Lemma render_indent_head i v : wf v →
  ∃ c r, render_indent i v = String c r ∧ is_space c = false ∧ c ≠ "]"%char.
Proof. intros W. destruct v as [| | | |[|]|[|]]; try (by apply render_head); by do 2 eexists. Qed.

(** The first character of a joined list, behind white space. *)
Lemma skip_ws_join (sep w : string) (l : list string) s c r :
  blank w → head l = Some (String c r) → is_space c = false →
  ∃ r', skip_ws (w +:+ join sep l +:+ s) = String c r'.
Proof.
  intros Hw Hl Hc. rewrite skip_ws_blank by done.
  destruct l as [|x [|y l]]; [done|..]; injection Hl as ->; cbn [join]; rewrite <- ?string_app_assoc,
    skip_ws_head by done; rewrite string_app_cons; eauto.
Qed.

Lemma pvalue_render_indent v : reads_back_indent v.
Proof.
  induction v as [|[]|lit|str|l IH|kvs IH] using json_ind'; intros W i d s Hd Hs;
    try (by apply pvalue_render).
  - destruct l as [|v l]; [by apply (pvalue_render (JArr []))|]. cbn [depth] in Hd.
    destruct (pelems_indent (Datatypes.S i) i _ IH ltac:(done) (d + 1)%N s W) as [n0 Hn0]; [lia|].
    exists (Datatypes.S n0). intros [|n] Hn; [lia|]. cbn [pvalue_with render_indent].
    rewrite <- !string_app_assoc. rewrite skip_ws_head by done.
    rewrite string_app_cons, string_app_nil_l, decide_False, decide_True by done.
    rewrite (proj2 (N.ltb_ge _ _)) by lia.
    destruct W as [Wv _]. destruct (render_indent_head (Datatypes.S i) v Wv) as (c & r & E & Hc & Hb).
    edestruct (skip_ws_join ("," +:+ nl (Datatypes.S i)) (nl (Datatypes.S i))
      (render_indent (Datatypes.S i) <$> v :: l)) as [r' E'];
      [apply nl_blank|cbn; by rewrite E|done|].
    rewrite E', strip_prefix_ne by done. by rewrite pelems_blank, Hn0 by (apply nl_blank || lia).
  - destruct kvs as [|[k v] l]; [by apply (pvalue_render (JObj []))|]. cbn [depth] in Hd.
    destruct (pmembers_indent (Datatypes.S i) i _ IH ltac:(done) (d + 1)%N s W) as [n0 Hn0]; [lia|].
    exists (Datatypes.S n0). intros [|n] Hn; [lia|]. cbn [pvalue_with render_indent].
    rewrite <- !string_app_assoc. rewrite skip_ws_head by done.
    rewrite string_app_cons, string_app_nil_l, !decide_False, decide_True by done.
    rewrite (proj2 (N.ltb_ge _ _)) by lia.
    edestruct (skip_ws_join ("," +:+ nl (Datatypes.S i)) (nl (Datatypes.S i))
      ((λ kv, quote kv.1 +:+ ": " +:+ render_indent (Datatypes.S i) kv.2) <$> (k, v) :: l)) as [r' E'];
      [apply nl_blank|reflexivity|done|].
    rewrite E', strip_prefix_ne by done. by rewrite pmembers_blank, Hn0 by (apply nl_blank || lia).
Qed.

(** Reading an indented value back. *)
Lemma Unmarshal_MarshalIndent v :
  wf v → (depth v ≤ maxNestingDepth)%N → Unmarshal (MarshalIndent v) = Some v.
Proof.
  intros W Hd. destruct (pvalue_render_indent v W 0%nat 0%N "") as [n0 Hn0]; [lia|done|].
  unfold Unmarshal_with. rewrite <- (string_app_nil_r (MarshalIndent v)).
  rewrite <- (parse_value_fuel parse_str parse_str_length (n0 + value_fuel (MarshalIndent v +:+ ""))).
  - unfold MarshalIndent. by rewrite Hn0 by lia.
  - unfold value_fuel. lia.
Qed.

#[global] Arguments MarshalIndent : simpl never.
