(* ===== verification/JsonPrefix.v ===== *)
(** * Reading JSON from a stream that is cut off

    A decoder that has read a value from the head of a stream reads the same
    value however the stream goes on, unless the value is a number that ends
    with the stream ([parse_value_extend]).  Hence a proper prefix of a value
    is refused when the end of the stream is never seen: what becomes of a
    request body that is longer than the cap ([decode_stream_prefix]). *)

From S2P Require Import Prelude GoStrings Encoding Json JsonStruct.

(** [p] reads the same value when more input follows. *)
Definition extends {A} (p : string → option (A * string)) : Prop :=
  ∀ s v r t, p s = Some (v, r) → p (s +:+ t) = Some (v, r +:+ t).

(** The same, when what is left is not empty. *)
Definition extends_ne {A} (p : string → option (A * string)) : Prop :=
  ∀ s v r t, p s = Some (v, r) → r ≠ "" → p (s +:+ t) = Some (v, r +:+ t).

(** ** String literals *)

(** A quote occurs in [s]. *)
Definition has_quote (s : string) : Prop := ch_quote ∈ bytes_of s.

Lemma getu4_extend s n r t : getu4 s = Some (n, r) → getu4 (s +:+ t) = Some (n, r +:+ t).
Proof.
  unfold getu4. do 6 (destruct s as [|? s]; [done|]). rewrite !string_app_cons.
  case_decide; [|done]. destruct (hex4 _ _ _ _); [|done]. cbn. by intros [= <- <-].
Qed.

Lemma getu4_suffix s n r : getu4 s = Some (n, r) → ∃ p, s = p +:+ r.
Proof.
  unfold getu4. do 6 (destruct s as [|? s]; [done|]).
  case_decide; [|done]. destruct (hex4 _ _ _ _); [|done]. cbn. intros [= <- <-].
  match goal with |- context [String ?a (String ?b (String ?c (String ?d (String ?e (String ?f s)))))] =>
    by exists (String a (String b (String c (String d (String e (str1 f)))))) end.
Qed.

Lemma unescape_u_suffix s ch r : unescape_u s = Some (ch, r) → ∃ p, s = p +:+ r.
Proof.
  unfold unescape_u. destruct (getu4 s) as [[n r1]|] eqn:E1; [|done]. cbn.
  apply getu4_suffix in E1 as [p ->]. destruct (between _ _ _); [|intros [= _ <-]; eauto].
  destruct (getu4 r1) as [[m r2]|] eqn:E2; [|intros [= _ <-]; eauto].
  apply getu4_suffix in E2 as [p2 ->]. destruct (_ && _); intros [= _ <-]; [|eauto].
  exists (p +:+ p2). by rewrite string_app_assoc.
Qed.

Lemma unquote_next_suffix s ch r : unquote_next s = Some (ch, r) → ∃ p, s = p +:+ r.
Proof.
  unfold unquote_next. destruct s as [|a s]; [done|]. destruct (_ <? 32)%N; [done|].
  case_decide.
  - destruct s as [|x s']; [done|].
    do 6 (case_decide; [intros [= _ <-]; by exists (String a (str1 x))|]).
    case_decide; [apply unescape_u_suffix|done].
  - destruct (utf8_next (String a s)) as [[c r']|] eqn:E; intros [= _ <-].
    + apply utf8_next_spec in E as [-> _]. eauto.
    + by exists (str1 a).
Qed.

Lemma has_quote_app_r p s : has_quote s → has_quote (p +:+ s).
Proof. unfold has_quote. rewrite bytes_of_app. set_solver. Qed.

(** A literal that is read holds its closing quote. *)
Lemma parse_str_go_quote n s x r : parse_str_go n s = Some (x, r) → has_quote s.
Proof.
  revert s x r. induction n as [|n IH]; intros [|a s] x r H; try done. cbn [parse_str_go] in H.
  case_decide; [subst; left|].
  destruct (unquote_next (String a s)) as [[ch r1]|] eqn:E; [|done]. cbn in H.
  destruct (parse_str_go n r1) as [[y r2]|] eqn:E2; [|done].
  apply IH in E2. apply unquote_next_suffix in E as [p ->]. by apply has_quote_app_r.
Qed.

(** A quote is no byte of a longer sequence. *)
Lemma quote_not_second lo hi : (128 <= lo)%N → between lo (ord ch_quote) hi = false.
Proof. intros H. unfold between. change (ord ch_quote) with 34%N. rewrite (proj2 (N.leb_gt _ _)); [done|lia]. Qed.

Lemma quote_not_cont : is_cont ch_quote = false.
Proof. reflexivity. Qed.

(** Whether a UTF-8 sequence starts here is decided before the next quote. *)
Lemma utf8_next_None_extend a s t :
  has_quote s → utf8_next (String a s) = None → utf8_next (String a (s +:+ t)) = None.
Proof.
  intros Hq. unfold utf8_next. unfold has_quote in Hq.
  destruct (ord a <? 128)%N; [done|].
  destruct (between 194 _ _).
  { destruct s as [|b s]; [by apply not_elem_of_nil in Hq|].
    rewrite string_app_cons. by destruct (is_cont b). }
  destruct (between 224 _ _).
  { destruct s as [|b [|c s]]; [by apply not_elem_of_nil in Hq| |].
    2: { rewrite !string_app_cons. by destruct (_ && _). }
    apply list_elem_of_singleton in Hq as <-. intros _. rewrite string_app_cons, string_app_nil_l.
    destruct t as [|c t]; [done|]. cbv zeta. rewrite quote_not_second; [done|].
    destruct (_ =? _)%N; done. }
  destruct (between 240 _ _); [|done].
  destruct s as [|b [|c [|d s]]]; [by apply not_elem_of_nil in Hq| | |];
    [| |rewrite !string_app_cons; by destruct (_ && _)];
    rewrite ?string_app_cons, string_app_nil_l; intros _.
  - apply list_elem_of_singleton in Hq as <-. destruct t as [|c [|d t]]; [done..|]. cbv zeta.
    rewrite quote_not_second; [done|]. destruct (_ =? _)%N; done.
  - destruct t as [|d t]; [done|]. cbv zeta. apply elem_of_cons in Hq as [<-|Hq].
    + rewrite quote_not_second; [done|]. destruct (_ =? _)%N; done.
    + apply list_elem_of_singleton in Hq as <-. by rewrite quote_not_cont, andb_false_r.
Qed.

(** An escape that only the rest of the stream completes is not read before. *)
Lemma getu4_cut_off n r t x y :
  getu4 r = None → getu4 (r +:+ t) = Some y → parse_str_go n r = Some x → False.
Proof.
  intros E1 E2 Hp. destruct n as [|n]; [done|]. destruct r as [|b r]; [done|].
  assert (b = ch_backslash) as ->.
  { unfold getu4 in E2. rewrite string_app_cons in E2. repeat case_match; naive_solver. }
  cbn [parse_str_go] in Hp. rewrite decide_False in Hp by done. unfold unquote_next in Hp.
  rewrite decide_True in Hp by done. change (ord ch_backslash <? 32)%N with false in Hp.
  destruct r as [|u r]; [done|].
  assert (u = "u"%char) as ->.
  { unfold getu4 in E2. rewrite !string_app_cons in E2. repeat case_match; naive_solver. }
  do 6 (rewrite decide_False in Hp by (by intros [|[]] || done)).
  rewrite decide_True in Hp by done. unfold unescape_u in Hp. by rewrite E1 in Hp.
Qed.

Lemma unescape_u_extend n s ch r t x :
  parse_str_go n r = Some x → unescape_u s = Some (ch, r) →
  unescape_u (s +:+ t) = Some (ch, r +:+ t).
Proof.
  intros Hp. unfold unescape_u. destruct (getu4 s) as [[u r1]|] eqn:E1; [|done].
  rewrite (getu4_extend _ _ _ _ E1). cbn. destruct (between _ _ _); [|by intros [= <- <-]].
  destruct (getu4 r1) as [[m r2]|] eqn:E2.
  { rewrite (getu4_extend _ _ _ _ E2). destruct (_ && _); by intros [= <- <-]. }
  intros [= <- <-]. destruct (getu4 (r1 +:+ t)) as [[m r2]|] eqn:E3; [|done].
  by destruct (getu4_cut_off _ _ _ _ _ E2 E3 Hp).
Qed.

Lemma unquote_next_extend n s ch r t x :
  parse_str_go n r = Some x → unquote_next s = Some (ch, r) →
  unquote_next (s +:+ t) = Some (ch, r +:+ t).
Proof.
  intros Hp. unfold unquote_next at 1. destruct s as [|a s]; [done|].
  unfold unquote_next. rewrite string_app_cons.
  destruct (_ <? 32)%N; [done|]. case_decide.
  - destruct s as [|y s']; [done|]. rewrite string_app_cons.
    do 6 (case_decide; [by intros [= <- <-]|]). case_decide; [|done].
    intros E. rewrite <- !string_app_cons. by eapply unescape_u_extend.
  - destruct (utf8_next (String a s)) as [[c r']|] eqn:E; intros [= <- <-].
    + pose proof (utf8_next_spec _ _ _ E) as [Es _].
      rewrite <- string_app_cons, Es, <- string_app_assoc.
      by rewrite (utf8_next_app _ _ _ (r' +:+ t) E).
    + destruct x as [x r2]. rewrite (utf8_next_None_extend a s t); [done| |done].
      by eapply parse_str_go_quote.
Qed.

Lemma parse_str_go_extend n s x r t :
  parse_str_go n s = Some (x, r) → parse_str_go n (s +:+ t) = Some (x, r +:+ t).
Proof.
  revert s x r. induction n as [|n IH]; intros [|a s] x r H; try done. rewrite string_app_cons.
  cbn [parse_str_go] in *. case_decide; [by simplify_eq|].
  destruct (unquote_next (String a s)) as [[ch r1]|] eqn:E; [|done]. cbn in H.
  destruct (parse_str_go n r1) as [[y r2]|] eqn:E2; [|done]. cbn in H. simplify_eq.
  rewrite <- string_app_cons. rewrite (unquote_next_extend n _ _ _ t _ E2 E). cbn.
  by rewrite (IH _ _ _ E2).
Qed.

Lemma parse_str_extend : extends parse_str.
Proof.
  intros s x r t H. unfold parse_str in *. apply parse_str_go_extend.
  rewrite <- H. apply parse_str_go_fuel; rewrite ?string_length_app; lia.
Qed.

(** ** White space, punctuation and numbers *)

Lemma skip_ws_extend s t : skip_ws s ≠ "" → skip_ws (s +:+ t) = skip_ws s +:+ t.
Proof.
  induction s as [|c s IH]; [done|]. rewrite string_app_cons. cbn. destruct (is_space c); auto.
Qed.

Lemma strip_prefix_cons a p b s :
  strip_prefix (String a p) (String b s) = if decide (a = b) then strip_prefix p s else None.
Proof. reflexivity. Qed.

Lemma strip_prefix_extend p s r t :
  strip_prefix p s = Some r → strip_prefix p (s +:+ t) = Some (r +:+ t).
Proof.
  revert s. induction p as [|a p IH]; intros [|b s] H; [by injection H as <-..|done|].
  rewrite string_app_cons. rewrite strip_prefix_cons in *.
  case_decide; [by apply IH|done].
Qed.

(** One character is there or not as soon as anything is. *)
Lemma strip_one_None_extend a s t :
  s ≠ "" → strip_prefix (String a "") s = None → strip_prefix (String a "") (s +:+ t) = None.
Proof.
  destruct s as [|b s]; [done|]. rewrite string_app_cons, !strip_prefix_cons. by case_decide.
Qed.

Lemma strip_nonempty a s r : strip_prefix (String a "") s = Some r → s ≠ "".
Proof. by intros H ->. Qed.

Lemma span_digits_extend s d r t :
  span_digits s = (d, r) → r ≠ "" → span_digits (s +:+ t) = (d, r +:+ t).
Proof.
  revert d. induction s as [|c s IH]; intros d H Hr; [by simplify_eq/=|]. rewrite string_app_cons.
  cbn in *. destruct (is_digit c); [|by simplify_eq].
  destruct (span_digits s) as [d' r'] eqn:E. simplify_eq. by rewrite (IH d').
Qed.

Lemma digits1_extend : extends_ne digits1.
Proof.
  intros s d r t. unfold digits1. destruct (span_digits s) as [d' r'] eqn:E.
  case_decide; [done|]. intros [= -> ->] Hr. rewrite (span_digits_extend _ _ _ t E Hr).
  by rewrite decide_False.
Qed.

Lemma scan_int_extend : extends_ne scan_int.
Proof.
  intros s d r t. unfold scan_int. destruct (strip_prefix "0" s) as [r'|] eqn:E.
  - intros [= <- <-] _. by rewrite (strip_prefix_extend _ _ _ t E).
  - intros H Hr. rewrite strip_one_None_extend; [by apply digits1_extend|by intros ->|done].
Qed.

Lemma scan_frac_extend : extends_ne scan_frac.
Proof.
  intros s d r t. unfold scan_frac. destruct (strip_prefix "." s) as [r'|] eqn:E.
  - rewrite (strip_prefix_extend _ _ _ t E). destruct (digits1 r') as [[d' r1]|] eqn:E1; [|done].
    cbn. intros [= <- <-] Hr. by rewrite (digits1_extend _ _ _ t E1 Hr).
  - intros [= <- <-] Hr. by rewrite strip_one_None_extend.
Qed.

Lemma scan_exp_extend : extends_ne scan_exp.
Proof.
  intros s d r t. unfold scan_exp. destruct s as [|c s]; [by intros [= <- <-]|].
  rewrite string_app_cons. case_decide; [|by intros [= <- <-]].
  destruct s as [|g s]; [done|]. rewrite string_app_cons.
  case_decide; [|rewrite <- string_app_cons];
    (destruct (digits1 _) as [[d' r1]|] eqn:E; [|done]; cbn; intros [= <- <-] Hr;
     by rewrite (digits1_extend _ _ _ t E Hr)).
Qed.

(** What is left after a part was there before it. *)
Lemma scan_frac_rest s f r : scan_frac s = Some (f, r) → r ≠ "" → s ≠ "".
Proof. intros H Hr ->. by injection H as <- <-. Qed.

Lemma scan_exp_rest s f r : scan_exp s = Some (f, r) → r ≠ "" → s ≠ "".
Proof. intros H Hr ->. by injection H as <- <-. Qed.

Lemma scan_number_extend : extends_ne scan_number.
Proof.
  intros s lit r t H Hr.
  assert (∃ sg s1,
    match strip_prefix "-" s with Some r => ("-", r) | None => ("", s) end = (sg, s1) ∧
    match strip_prefix "-" (s +:+ t) with Some r => ("-", r) | None => ("", s +:+ t) end
      = (sg, s1 +:+ t)) as (sg & s1 & E1 & E2).
  { destruct (strip_prefix "-" s) as [r'|] eqn:E.
    - rewrite (strip_prefix_extend _ _ _ t E). eauto.
    - rewrite strip_one_None_extend; [eauto| |done]. by intros ->. }
  unfold scan_number in *. rewrite E1 in H. rewrite E2.
  destruct (scan_int s1) as [[i s2]|] eqn:Ei; [|done]. cbn in H.
  destruct (scan_frac s2) as [[f s3]|] eqn:Ef; [|done]. cbn in H.
  destruct (scan_exp s3) as [[e s4]|] eqn:Ee; [|done]. cbn in H. simplify_eq.
  pose proof (scan_exp_rest _ _ _ Ee Hr) as H3. pose proof (scan_frac_rest _ _ _ Ef H3) as H2.
  rewrite (scan_int_extend _ _ _ t Ei H2). cbn. rewrite (scan_frac_extend _ _ _ t Ef H3). cbn.
  by rewrite (scan_exp_extend _ _ _ t Ee Hr).
Qed.

(** A number starts with a digit or a minus sign. *)
Lemma scan_number_head c s x :
  scan_number (String c s) = Some x → c ≠ "t"%char ∧ c ≠ "f"%char ∧ c ≠ "n"%char.
Proof. intros H. split_and!; intros ->; discriminate H. Qed.

(** ** Values

    A value is known to be complete at its closing bracket, or once something
    follows it. *)
Definition extends_value (p : string → option (json * string)) : Prop :=
  ∀ s v r t, p s = Some (v, r) → (self_delimiting v = true ∨ r ≠ "") →
    p (s +:+ t) = Some (v, r +:+ t).

(** A reader that reads something does not start at the end of the input. *)
Lemma pvalue_skip_ws n d s x : pvalue n d s = Some x → skip_ws s ≠ "".
Proof. destruct n as [|n]; [done|]. intros H E. cbn [pvalue_with] in H. by rewrite E in H. Qed.

Lemma pelems_skip_ws n d s x : pelems n d s = Some x → skip_ws s ≠ "".
Proof.
  destruct n as [|n]; [done|]. cbn [pelems_with]. intros H.
  destruct (pvalue n d s) eqn:E; [|done]. by eapply pvalue_skip_ws.
Qed.

Lemma pmembers_skip_ws n d s x : pmembers n d s = Some x → skip_ws s ≠ "".
Proof. destruct n as [|n]; [done|]. intros H E. cbn [pmembers_with] in H. by rewrite E in H. Qed.

Lemma skip_ws_nonempty s : skip_ws s ≠ "" → s ≠ "".
Proof. by intros H ->. Qed.

Lemma strip_skip_extend p s r t :
  strip_prefix p (skip_ws s) = Some r → skip_ws s ≠ "" →
  strip_prefix p (skip_ws (s +:+ t)) = Some (r +:+ t).
Proof. intros H Hs. rewrite skip_ws_extend by done. by apply strip_prefix_extend. Qed.

Lemma strip_skip_None_extend a s t :
  skip_ws s ≠ "" → strip_prefix (String a "") (skip_ws s) = None →
  strip_prefix (String a "") (skip_ws (s +:+ t)) = None.
Proof. intros Hs H. rewrite skip_ws_extend by done. by apply strip_one_None_extend. Qed.

Lemma pvalue_extend n d :
  (∀ d, extends (pelems n d)) → (∀ d, extends (pmembers n d)) → extends_value (pvalue (S n) d).
Proof.
  intros IHe IHm s v r t H Hr. pose proof (pvalue_skip_ws _ _ _ _ H) as Hs.
  cbn [pvalue_with] in *. rewrite skip_ws_extend by done. destruct (skip_ws s) as [|c s']; [done|].
  rewrite string_app_cons. case_decide.
  { destruct (parse_str s') as [[x r']|] eqn:E; [|done]. rewrite (parse_str_extend _ _ _ t E).
    by injection H as <- <-. }
  case_decide.
  { destruct (_ <? _)%N; [done|]. destruct (strip_prefix "]" _) as [r'|] eqn:E.
    - injection H as <- <-. by rewrite (strip_skip_extend _ _ _ t E (strip_nonempty _ _ _ E)).
    - destruct (pelems n (d + 1) s') as [[l r']|] eqn:E'; [|done].
      rewrite strip_skip_None_extend by eauto using pelems_skip_ws.
      rewrite (IHe _ _ _ _ t E'). by injection H as <- <-. }
  case_decide.
  { destruct (_ <? _)%N; [done|]. destruct (strip_prefix "}" _) as [r'|] eqn:E.
    - injection H as <- <-. by rewrite (strip_skip_extend _ _ _ t E (strip_nonempty _ _ _ E)).
    - destruct (pmembers n (d + 1) s') as [[l r']|] eqn:E'; [|done].
      rewrite strip_skip_None_extend by eauto using pmembers_skip_ws.
      rewrite (IHm _ _ _ _ t E'). by injection H as <- <-. }
  rewrite <- string_app_cons.
  destruct (strip_prefix "true" (String c s')) as [r'|] eqn:E1.
  { injection H as <- <-. by rewrite (strip_prefix_extend _ _ _ t E1). }
  destruct (strip_prefix "false" (String c s')) as [r'|] eqn:E2.
  { injection H as <- <-. assert (c = "f"%char) as ->.
    { rewrite strip_prefix_cons in E2. by case_decide. }
    by rewrite (strip_prefix_extend _ _ _ t E2). }
  destruct (strip_prefix "null" (String c s')) as [r'|] eqn:E3.
  { injection H as <- <-. assert (c = "n"%char) as ->.
    { rewrite strip_prefix_cons in E3. by case_decide. }
    by rewrite (strip_prefix_extend _ _ _ t E3). }
  destruct (scan_number (String c s')) as [[lit r']|] eqn:E4; [|done]. injection H as <- <-.
  destruct (scan_number_head _ _ _ E4) as (Ht & Hf & Hn). rewrite string_app_cons.
  destruct (strip_keywords c (s' +:+ t) Ht Hf Hn) as (-> & -> & ->).
  rewrite <- string_app_cons. destruct Hr as [|Hr]; [done|].
  by rewrite (scan_number_extend _ _ _ t E4 Hr).
Qed.

Lemma pelems_extend n d :
  (∀ d, extends_value (pvalue n d)) → (∀ d, extends (pelems n d)) → extends (pelems (S n) d).
Proof.
  intros IHv IHe s l r t H. cbn [pelems_with] in *.
  destruct (pvalue n d s) as [[v r1]|] eqn:E1; [|done]. cbn in H.
  assert (skip_ws r1 ≠ "") as Hs by (intros E; by rewrite E in H).
  rewrite (IHv _ _ _ _ t E1) by auto using skip_ws_nonempty. cbn.
  destruct (strip_prefix "," (skip_ws r1)) as [r2|] eqn:E2.
  - destruct (pelems n d r2) as [[l' r3]|] eqn:E3; [|done]. injection H as <- <-.
    rewrite (strip_skip_extend _ _ _ t E2 Hs). by rewrite (IHe _ _ _ _ t E3).
  - destruct (strip_prefix "]" (skip_ws r1)) as [r2|] eqn:E3; [|done]. injection H as <- <-.
    by rewrite (strip_skip_None_extend _ _ t Hs E2), (strip_skip_extend _ _ _ t E3 Hs).
Qed.

Lemma pmembers_extend n d :
  (∀ d, extends_value (pvalue n d)) → (∀ d, extends (pmembers n d)) → extends (pmembers (S n) d).
Proof.
  intros IHv IHm s l r t H. pose proof (pmembers_skip_ws _ _ _ _ H) as Hs0. cbn [pmembers_with] in *.
  destruct (strip_prefix (str1 ch_quote) (skip_ws s)) as [s1|] eqn:E0; [|done]. cbn in H.
  rewrite (strip_skip_extend _ _ _ t E0 Hs0). cbn.
  destruct (parse_str s1) as [[k s2]|] eqn:E1; [|done]. cbn in H.
  rewrite (parse_str_extend _ _ _ t E1). cbn.
  destruct (strip_prefix ":" (skip_ws s2)) as [s3|] eqn:E2; [|done]. cbn in H.
  rewrite (strip_skip_extend _ _ _ t E2 (strip_nonempty _ _ _ E2)). cbn.
  destruct (pvalue n d s3) as [[v r1]|] eqn:E3; [|done]. cbn in H.
  assert (skip_ws r1 ≠ "") as Hs by (intros E; by rewrite E in H).
  rewrite (IHv _ _ _ _ t E3) by auto using skip_ws_nonempty. cbn.
  destruct (strip_prefix "," (skip_ws r1)) as [r2|] eqn:E4.
  - destruct (pmembers n d r2) as [[l' r3]|] eqn:E5; [|done]. injection H as <- <-.
    rewrite (strip_skip_extend _ _ _ t E4 Hs). by rewrite (IHm _ _ _ _ t E5).
  - destruct (strip_prefix "}" (skip_ws r1)) as [r2|] eqn:E5; [|done]. injection H as <- <-.
    by rewrite (strip_skip_None_extend _ _ t Hs E4), (strip_skip_extend _ _ _ t E5 Hs).
Qed.

Lemma parse_extend n :
  (∀ d, extends_value (pvalue n d)) ∧ (∀ d, extends (pelems n d)) ∧ (∀ d, extends (pmembers n d)).
Proof.
  induction n as [|n (IHv & IHe & IHm)]; [done|].
  auto using pvalue_extend, pelems_extend, pmembers_extend.
Qed.

Lemma parse_value_extend : extends_value parse_value.
Proof.
  intros s v r t H Hr.
  assert (pvalue (value_fuel (s +:+ t)) 0 s = Some (v, r)) as E.
  { rewrite (parse_value_fuel parse_str parse_str_length); [done|].
    unfold value_fuel. rewrite string_length_app. lia. }
  by apply (proj1 (parse_extend (value_fuel (s +:+ t)))).
Qed.

(** ** Bodies that are cut off *)

(** A value a decoder finds in a stream whose end it never sees is the value it
    finds in every continuation of it. *)
Lemma decode_stream_cut_off s v t :
  decode_stream s ReadError = Some v → ∃ r, parse_value (s +:+ t) = Some (v, r +:+ t).
Proof.
  unfold decode_stream. destruct (parse_value s) as [[v' r]|] eqn:E; [|done]. cbn.
  destruct (_ || _) eqn:Eb; [|done]. intros [= <-]. exists r. apply parse_value_extend; [done|].
  apply orb_true_iff in Eb as [|Hr]; [auto|right]. by apply negb_true_iff, bool_decide_eq_false in Hr.
Qed.

(** A proper prefix of a value that was written is refused. *)
Lemma decode_stream_prefix v p t :
  wf v → (depth v ≤ maxNestingDepth)%N → render v = p +:+ t → t ≠ "" →
  decode_stream p ReadError = None.
Proof.
  intros W Hd E Ht. destruct (decode_stream p ReadError) as [v'|] eqn:Hp; [|done]. exfalso.
  apply (decode_stream_cut_off _ _ t) in Hp as [r Hr]. rewrite <- E in Hr.
  rewrite <- (string_app_nil_r (render v)), parse_render in Hr by done.
  injection Hr as <- Hr. destruct r; [|done]. by rewrite string_app_nil_l in Hr; subst.
Qed.
