(* ===== verification/Bucket.v ===== *)
(** * BoltDB ([go.etcd.io/bbolt])

    The engine both programs keep their records in is a third-party package: it
    is the interface [Bolt] with its documented behaviour [BoltLaws].  On top of
    it, the transactions the code writes, and the general facts about a bucket
    whose entries are the encodings of values of one type: such a bucket is a
    finite map of these values. *)

From stdpp Require Import sorting.
From S2P Require Import Prelude GoStrings.

(** ** The BoltDB interface

    A key-value store of named buckets.  [Put] and [Delete] stand for an
    [Update] transaction around that one call: an error leaves the database
    as it was. *)

Class Bolt := {
  bolt_db : Type;
  bolt_has_bucket : string → bolt_db → bool;
  bolt_CreateBucketIfNotExists : string → bolt_db → res error bolt_db;
  bolt_Put : string → string → string → bolt_db → res error bolt_db;
  bolt_Get : string → string → bolt_db → option string;
  bolt_Delete : string → string → bolt_db → res error bolt_db;
  bolt_ForEach : string → bolt_db → list (string * string);
}.

Class BoltLaws (B : Bolt) : Prop := {
  bolt_Create_has b db db' :
    bolt_CreateBucketIfNotExists b db = Ok db' → bolt_has_bucket b db' = true;
  bolt_Create_Get b b' k db db' :
    bolt_CreateBucketIfNotExists b db = Ok db' → bolt_Get b' k db' = bolt_Get b' k db;
  bolt_Put_has b b' k v db db' :
    bolt_Put b k v db = Ok db' → bolt_has_bucket b' db' = bolt_has_bucket b' db;
  bolt_Put_Get b k v db db' : bolt_Put b k v db = Ok db' → bolt_Get b k db' = Some v;
  bolt_Put_Get_ne b k k' v db db' :
    bolt_Put b k v db = Ok db' → k ≠ k' → bolt_Get b k' db' = bolt_Get b k' db;
  bolt_Delete_has b b' k db db' :
    bolt_Delete b k db = Ok db' → bolt_has_bucket b' db' = bolt_has_bucket b' db;
  bolt_Delete_Get b k db db' : bolt_Delete b k db = Ok db' → bolt_Get b k db' = None;
  bolt_Delete_Get_ne b k k' db db' :
    bolt_Delete b k db = Ok db' → k ≠ k' → bolt_Get b k' db' = bolt_Get b k' db;
  (** Keys are visited in byte-sorted order, each once. *)
  bolt_ForEach_sorted b db : StronglySorted String.le (bolt_ForEach b db).*1;
  bolt_ForEach_NoDup b db : NoDup (bolt_ForEach b db).*1;
  bolt_ForEach_Get b k v db : (k, v) ∈ bolt_ForEach b db ↔ bolt_Get b k db = Some v;
}.

(** ** Transactions on one bucket

    A package variable of type [*bolt.DB]: [None] is nil.  A method of a nil
    handle, or of the nil bucket [tx.Bucket] returns for a missing one,
    dereferences nil. *)

Definition nil_deref : string :=
  "runtime error: invalid memory address or nil pointer dereference".

Section operations.
Context {B : Bolt}.

Definition DB : Type := option bolt_db.

(** Run a transaction body on the bucket [b]. *)
Definition with_bucket {A} (b : string) (f : bolt_db → A * bolt_db) : M DB A := λ db,
  match db with
  | None => (Panic nil_deref, db)
  | Some d =>
      if bolt_has_bucket b d
      then let '(a, d') := f d in (Ret a, Some d')
      else (Panic nil_deref, db)
  end.

(** The error and the database after an update. *)
Definition updated (d : bolt_db) (r : res error bolt_db) : option error * bolt_db :=
  match r with Ok d' => (None, d') | Err e => (Some e, d) end.

End operations.

(** ** A bucket of encoded values *)

Section typed_bucket.
Context {B : Bolt} {BL : BoltLaws B}.

(** The bucket, and how its values are read back. *)
Context (b : string) {A : Type} (dec : string → option A) (zero : A).

(** The database is open, has the bucket, and every entry can be read. *)
Definition bucket_usable (db : DB) : Prop :=
  match db with
  | None => False
  | Some d => bolt_has_bucket b d = true ∧ ∀ k v, bolt_Get b k d = Some v → is_Some (dec v)
  end.

Definition decode_entry (kv : string * string) : string * A := (kv.1, default zero (dec kv.2)).

(** The abstract value: the finite map of the bucket's entries. *)
Definition bucket_contents (db : DB) : gmap string A :=
  match db with
  | None => ∅
  | Some d => list_to_map (decode_entry <$> bolt_ForEach b d)
  end.

Lemma decode_entry_keys d : (decode_entry <$> bolt_ForEach b d).*1 = (bolt_ForEach b d).*1.
Proof. rewrite <- list_fmap_compose. by apply list_fmap_ext. Qed.

Lemma bucket_contents_lookup d k :
  bucket_contents (Some d) !! k = (λ v, default zero (dec v)) <$> bolt_Get b k d.
Proof.
  pose proof (bolt_ForEach_NoDup b d) as ND. rewrite <- decode_entry_keys in ND.
  cbn [bucket_contents]. destruct (bolt_Get b k d) as [v|] eqn:E; cbn.
  - apply elem_of_list_to_map_1; [done|]. apply list_elem_of_fmap.
    exists (k, v). split; [done|]. by apply bolt_ForEach_Get.
  - apply not_elem_of_list_to_map_1. rewrite decode_entry_keys.
    intros ([k' v] & -> & Hkv)%list_elem_of_fmap.
    apply bolt_ForEach_Get in Hkv. cbn in E. congruence.
Qed.

Lemma bucket_contents_Put d d' k v x :
  dec v = Some x → bolt_Put b k v d = Ok d' →
  bucket_contents (Some d') = <[k := x]> (bucket_contents (Some d)).
Proof.
  intros Hx H. apply map_eq. intros k'. rewrite lookup_insert, !bucket_contents_lookup.
  case_decide as E; [subst k'|].
  - rewrite (bolt_Put_Get _ _ _ _ _ H). cbn. by rewrite Hx.
  - by rewrite (bolt_Put_Get_ne _ _ _ _ _ _ H E).
Qed.

Lemma bucket_contents_Delete d d' k :
  bolt_Delete b k d = Ok d' →
  bucket_contents (Some d') = delete k (bucket_contents (Some d)).
Proof.
  intros H. apply map_eq. intros k'. rewrite lookup_delete, !bucket_contents_lookup.
  case_decide as E; [subst k'|].
  - by rewrite (bolt_Delete_Get _ _ _ _ H).
  - by rewrite (bolt_Delete_Get_ne _ _ _ _ _ H E).
Qed.

Lemma bucket_usable_Put d d' k v x :
  dec v = Some x → bucket_usable (Some d) → bolt_Put b k v d = Ok d' → bucket_usable (Some d').
Proof.
  intros Hx [Hb Hd] H. split; [by rewrite (bolt_Put_has _ _ _ _ _ _ H)|].
  intros k' w. destruct (decide (k = k')) as [<-|E].
  - rewrite (bolt_Put_Get _ _ _ _ _ H). intros [= <-]. eauto.
  - rewrite (bolt_Put_Get_ne _ _ _ _ _ _ H E). apply Hd.
Qed.

Lemma bucket_usable_Delete d d' k :
  bucket_usable (Some d) → bolt_Delete b k d = Ok d' → bucket_usable (Some d').
Proof.
  intros [Hb Hd] H. split; [by rewrite (bolt_Delete_has _ _ _ _ _ H)|].
  intros k' v. destruct (decide (k = k')) as [<-|E].
  - by rewrite (bolt_Delete_Get _ _ _ _ H).
  - rewrite (bolt_Delete_Get_ne _ _ _ _ _ H E). apply Hd.
Qed.

Lemma bucket_contents_size d : size (bucket_contents (Some d)) = length (bolt_ForEach b d).
Proof.
  cbn [bucket_contents].
  rewrite map_size_list_to_map by (rewrite decode_entry_keys; apply bolt_ForEach_NoDup).
  apply length_fmap.
Qed.

(** Storing a text that reads as [x], and deleting an entry, on the abstract
    value. *)
Lemma bucket_save_spec k v x db : dec v = Some x → bucket_usable db →
  (∃ db', with_bucket b (λ d, updated d (bolt_Put b k v d)) db = (Ret None, db') ∧
    bucket_usable db' ∧ bucket_contents db' = <[k := x]> (bucket_contents db)) ∨
  (∃ e, with_bucket b (λ d, updated d (bolt_Put b k v d)) db = (Ret (Some e), db)).
Proof.
  destruct db as [d|]; [|done]. intros Hx Hu. unfold with_bucket. rewrite (proj1 Hu).
  destruct (bolt_Put _ _ _ _) as [d'|e] eqn:E; cbn; [left|eauto].
  exists (Some d'). eauto using bucket_usable_Put, bucket_contents_Put.
Qed.

Lemma bucket_delete_spec k db : bucket_usable db →
  (∃ db', with_bucket b (λ d, updated d (bolt_Delete b k d)) db = (Ret None, db') ∧
    bucket_usable db' ∧ bucket_contents db' = delete k (bucket_contents db)) ∨
  (∃ e, with_bucket b (λ d, updated d (bolt_Delete b k d)) db = (Ret (Some e), db)).
Proof.
  destruct db as [d|]; [|done]. intros Hu. unfold with_bucket. rewrite (proj1 Hu).
  destruct (bolt_Delete _ _ _) as [d'|e] eqn:E; cbn; [left|eauto].
  exists (Some d'). eauto using bucket_usable_Delete, bucket_contents_Delete.
Qed.

End typed_bucket.

(** ** A concrete database

    Buckets as finite maps, with the engine's documented limits on keys; the
    witnesses and examples run on it. *)

Module GmapBolt.

Abbreviation db_t := (gmap string (gmap string string)).

Definition put (b k v : string) (db : db_t) : res error db_t :=
  match db !! b with
  | None => Err "bucket not found"
  | Some m =>
      if decide (k = "") then Err "key required"
      else if 32768 <? slen k then Err "key too large"
      else Ok (<[b := <[k := v]> m]> db)
  end.

Definition create (b : string) (db : db_t) : res error db_t :=
  Ok (match db !! b with Some _ => db | None => <[b := ∅]> db end).

Definition del (b k : string) (db : db_t) : res error db_t :=
  match db !! b with
  | None => Err "bucket not found"
  | Some m => Ok (<[b := delete k m]> db)
  end.

Definition bucket (b : string) (db : db_t) : gmap string string := default ∅ (db !! b).

Definition entries (b : string) (db : db_t) : list (string * string) :=
  sorted_entries (bucket b db).

#[export] Instance bolt : Bolt := {|
  bolt_db := db_t;
  bolt_has_bucket b db := bool_decide (is_Some (db !! b));
  bolt_CreateBucketIfNotExists := create;
  bolt_Put := put;
  bolt_Get b k db := bucket b db !! k;
  bolt_Delete := del;
  bolt_ForEach := entries;
|}.

#[export] Instance bolt_laws : BoltLaws bolt.
Proof.
  split; cbn; unfold create, put, del, bucket.
  - intros b db db' [= <-]. case_match eqn:E; apply bool_decide_eq_true_2;
      [by rewrite E|by rewrite lookup_insert_eq].
  - intros b b' k db db' [= <-]. destruct (db !! b) eqn:E; [done|].
    rewrite lookup_insert. case_decide; [|done]. subst. by rewrite E.
  - intros b b' k v db db' H. repeat case_match; simplify_eq.
    apply bool_decide_ext. rewrite lookup_insert. destruct (decide (b = b')) as [<-|]; naive_solver.
  - intros b k v db db' H. repeat case_match; simplify_eq.
    by rewrite lookup_insert_eq; cbn; rewrite lookup_insert_eq.
  - intros b k k' v db db' H Hk. repeat case_match; simplify_eq.
    rewrite lookup_insert_eq. cbn. rewrite lookup_insert_ne by done. by simplify_option_eq.
  - intros b b' k db db' H. case_match eqn:E; simplify_eq.
    apply bool_decide_ext. rewrite lookup_insert. destruct (decide (b = b')) as [<-|]; naive_solver.
  - intros b k db db' H. case_match; simplify_eq.
    rewrite lookup_insert_eq. cbn. by rewrite lookup_delete_eq.
  - intros b k k' db db' H Hk. case_match eqn:E; simplify_eq.
    rewrite lookup_insert_eq. cbn. by rewrite lookup_delete_ne.
  - intros b db. apply sorted_entries_sorted.
  - intros b db. apply sorted_entries_NoDup.
  - intros b k v db. apply elem_of_sorted_entries.
Qed.

End GmapBolt.
