(* ===== verification/Store.v ===== *)
(** * Share persistence ([node/store.go], [node/store_interface.go])

    The code's functions on the share bucket; the Go interface [ShareStore] as a
    class, with the promise its clients rely on ([ShareStoreLaws]: a store is a
    finite map of shares); and the proof that [BoltStore] keeps that promise. *)

From S2P Require Import Prelude GoStrings Encoding Json JsonStruct.
From S2P Require Import Bucket.

(** ** Data *)

Definition shareBucket : string := "shares".
Definition dataDir : string := "./data".

(** [StoredShareDB]; a field is [None] when it is a nil slice. *)
Record StoredShareDB := mkShare {
  EphemeralPubKey : slice;
  Ciphertext : slice;
  Nonce : slice;
}.

Definition zero_share : StoredShareDB := mkShare None None None.

#[export] Instance StoredShareDB_eq_dec : EqDecision StoredShareDB.
Proof. solve_decision. Defined.

(** The struct's JSON form. *)
Definition json_of_share (s : StoredShareDB) : json :=
  JObj [("ephemeral_pubkey", of_bytes (EphemeralPubKey s));
        ("ciphertext", of_bytes (Ciphertext s));
        ("nonce", of_bytes (Nonce s))].

Definition share_table : table StoredShareDB :=
  [("ephemeral_pubkey", λ v t, b ← as_bytes v (EphemeralPubKey t);
      Some (mkShare b (Ciphertext t) (Nonce t)));
   ("ciphertext", λ v t, b ← as_bytes v (Ciphertext t);
      Some (mkShare (EphemeralPubKey t) b (Nonce t)));
   ("nonce", λ v t, b ← as_bytes v (Nonce t);
      Some (mkShare (EphemeralPubKey t) (Ciphertext t) b))].

Definition Unmarshal_share (data : string) : option StoredShareDB :=
  v ← Unmarshal data; decode_struct share_table v zero_share.

#[global] Arguments json_of_share : simpl never.
#[global] Arguments Unmarshal_share : simpl never.

(** ** The handle

    The package variable [db] as [closeDB] sees it: [nil], open or closed. *)
Inductive DbHandle := DbNil | DbOpen | DbClosed.

(** [closeDB]: an error of [Close] is only printed. *)
Definition closeDB (h : DbHandle) : DbHandle :=
  match h with DbNil => DbNil | DbOpen | DbClosed => DbClosed end.

(** ** Operations on the package variable [db] *)

(** The text of a [json.Unmarshal] error is not modelled. *)
Definition json_error : error := "json: cannot unmarshal".

Section operations.
Context {B : Bolt}.

(** [initDB]: the environment, the file system and [bolt.Open] are given.  A
    failed [bolt.Open] returns a nil handle, and it is assigned to [db]. *)
Definition initDB (Getenv : string → string) (MkdirAll : string → option error)
    (Open : string → res error bolt_db) : M DB (option error) := λ db,
  let dir := if decide (Getenv "DATA_DIR" = "") then dataDir else Getenv "DATA_DIR" in
  match MkdirAll dir with
  | Some e => (Ret (Some (wrap ("failed to create data directory " +:+ dir) e)), db)
  | None =>
      match Open (dir +:+ "/shares.db") with
      | Err e => (Ret (Some (wrap "failed to open BoltDB" e)), None)
      | Ok d =>
          match bolt_CreateBucketIfNotExists shareBucket d with
          | Ok d' => (Ret None, Some d')
          | Err e => (Ret (Some (wrap "failed to create shares bucket" e)), Some d)
          end
      end
  end.

Definition saveShare (key : string) (share : StoredShareDB) : M DB (option error) :=
  let data := render (json_of_share share) in
  with_bucket shareBucket (λ d, updated d (bolt_Put shareBucket key data d)).

Definition loadShare (key : string) : M DB (StoredShareDB * bool * option error) :=
  with_bucket shareBucket (λ d,
    let '(share, err) :=
      match bolt_Get shareBucket key d with
      | None => (zero_share, None)
      | Some v =>
          match Unmarshal_share v with
          | Some share => (share, None)
          | None => (zero_share, Some json_error)
          end
      end in
    match err with
    | Some e => ((share, false, Some e), d)
    | None =>
        match Ciphertext share with
        | None => ((share, false, None), d)
        | Some _ => ((share, true, None), d)
        end
    end).

Definition countShares : M DB (Z * option error) :=
  with_bucket shareBucket (λ d, ((len (bolt_ForEach shareBucket d), None), d)).

Definition deleteShare (key : string) : M DB (option error) :=
  with_bucket shareBucket (λ d, updated d (bolt_Delete shareBucket key d)).

Definition listShareKeys : M DB (list string * option error) :=
  with_bucket shareBucket (λ d, (((bolt_ForEach shareBucket d).*1, None), d)).

End operations.

(** ** The [ShareStore] interface *)

Class ShareStore (St : Type) := {
  Save : string → StoredShareDB → M St (option error);
  Load : string → M St (StoredShareDB * bool * option error);
  Delete : string → M St (option error);
  Count : M St (Z * option error);
}.

(** What [Load] answers for a key whose entry is [o]: an entry without a
    ciphertext counts as absent. *)
Definition load_result (o : option StoredShareDB) : StoredShareDB * bool * option error :=
  match o with
  | None => (zero_share, false, None)
  | Some share => (share, bool_decide (is_Some (Ciphertext share)), None)
  end.

(** The promise of a store to its clients: in a usable state it is a finite
    map of shares, no operation panics, and a failed update changes nothing. *)
Class ShareStoreLaws (St : Type) `{ShareStore St} := {
  usable : St → Prop;
  contents : St → gmap string StoredShareDB;
  Load_spec k s : usable s → Load k s = (Ret (load_result (contents s !! k)), s);
  Save_spec k sh s : usable s →
    (∃ s', Save k sh s = (Ret None, s') ∧ usable s' ∧ contents s' = <[k := sh]> (contents s)) ∨
    (∃ e, Save k sh s = (Ret (Some e), s));
  Delete_spec k s : usable s →
    (∃ s', Delete k s = (Ret None, s') ∧ usable s' ∧ contents s' = delete k (contents s)) ∨
    (∃ e, Delete k s = (Ret (Some e), s));
  Count_spec s : usable s → Count s = (Ret (Z.of_nat (size (contents s)), None), s);
}.

(** [BoltStore]: the interface implemented by the functions above. *)
#[export] Instance BoltStore {B : Bolt} : ShareStore DB := {|
  Save := saveShare;
  Load := loadShare;
  Delete := deleteShare;
  Count := countShares;
|}.

(** ** [BoltStore] keeps the promise *)

Lemma Unmarshal_share_render sh : Unmarshal_share (render (json_of_share sh)) = Some sh.
Proof.
  unfold Unmarshal_share. rewrite Unmarshal_render; unfold json_of_share.
  - cbn -[as_bytes of_bytes]. eval_fields.
    repeat (rewrite as_bytes_of_bytes; cbn -[as_bytes of_bytes]). by destruct sh.
  - cbn -[of_bytes]. repeat split; eauto using wf_of_bytes; apply (utf8b_sound 20); reflexivity.
  - cbn -[of_bytes]. by rewrite !depth_of_bytes.
Qed.

Section bolt_store.
Context {B : Bolt} {BL : BoltLaws B}.

(** The database is open, has the share bucket, and every entry is the JSON of
    a share: the state [initDB] leaves and the operations maintain. *)
Definition db_usable : DB → Prop := bucket_usable shareBucket Unmarshal_share.

(** The finite map of the bucket's shares. *)
Definition db_contents : DB → gmap string StoredShareDB :=
  bucket_contents shareBucket Unmarshal_share zero_share.

Lemma loadShare_spec k db :
  db_usable db → loadShare k db = (Ret (load_result (db_contents db !! k)), db).
Proof.
  destruct db as [d|]; [|done]. intros [Hb Hd]. unfold loadShare, with_bucket.
  unfold db_contents. rewrite Hb, bucket_contents_lookup.
  destruct (bolt_Get shareBucket k d) as [v|] eqn:E; [|done].
  destruct (Hd k v E) as [sh Hsh]. rewrite Hsh. cbn. rewrite Hsh. cbn. by destruct (Ciphertext sh).
Qed.

Lemma saveShare_spec k sh db : db_usable db →
  (∃ db', saveShare k sh db = (Ret None, db') ∧ db_usable db' ∧
    db_contents db' = <[k := sh]> (db_contents db)) ∨
  (∃ e, saveShare k sh db = (Ret (Some e), db)).
Proof.
  apply (bucket_save_spec shareBucket Unmarshal_share zero_share), Unmarshal_share_render.
Qed.

Lemma deleteShare_spec k db : db_usable db →
  (∃ db', deleteShare k db = (Ret None, db') ∧ db_usable db' ∧
    db_contents db' = delete k (db_contents db)) ∨
  (∃ e, deleteShare k db = (Ret (Some e), db)).
Proof. apply bucket_delete_spec. Qed.

Lemma countShares_spec db : db_usable db →
  countShares db = (Ret (Z.of_nat (size (db_contents db)), None), db).
Proof.
  destruct db as [d|]; [|done]. intros [Hb Hd]. unfold countShares, with_bucket.
  unfold db_contents. by rewrite Hb, bucket_contents_size.
Qed.

#[export] Instance BoltStore_laws : ShareStoreLaws DB := {|
  usable := db_usable;
  contents := db_contents;
  Load_spec := loadShare_spec;
  Save_spec := saveShare_spec;
  Delete_spec := deleteShare_spec;
  Count_spec := countShares_spec;
|}.

End bolt_store.

(** ** Refinement: runs of a store are runs of a finite map *)

Inductive store_op :=
| OpSave (k : string) (sh : StoredShareDB)
| OpLoad (k : string)
| OpDelete (k : string)
| OpCount.

Inductive store_reply :=
| Updated (err : option error)
| Loaded (r : StoredShareDB * bool * option error)
| Counted (r : Z * option error).

Definition run_op {St} `{ShareStore St} (op : store_op) : M St store_reply :=
  match op with
  | OpSave k sh => e ← Save k sh; mret (Updated e)
  | OpLoad k => r ← Load k; mret (Loaded r)
  | OpDelete k => e ← Delete k; mret (Updated e)
  | OpCount => r ← Count; mret (Counted r)
  end.

Fixpoint run_ops {St} `{ShareStore St} (ops : list store_op) : M St (list store_reply) :=
  match ops with
  | [] => mret []
  | op :: ops => r ← run_op op; rs ← run_ops ops; mret (r :: rs)
  end.

(** The specification: a finite map of shares, in which an update may fail
    without effect. *)
Inductive spec_step (m : gmap string StoredShareDB) :
    store_op → store_reply → gmap string StoredShareDB → Prop :=
| spec_save k sh : spec_step m (OpSave k sh) (Updated None) (<[k := sh]> m)
| spec_save_fails k sh e : spec_step m (OpSave k sh) (Updated (Some e)) m
| spec_load k : spec_step m (OpLoad k) (Loaded (load_result (m !! k))) m
| spec_delete k : spec_step m (OpDelete k) (Updated None) (delete k m)
| spec_delete_fails k e : spec_step m (OpDelete k) (Updated (Some e)) m
| spec_count : spec_step m OpCount (Counted (Z.of_nat (size m), None)) m.

Inductive spec_run : gmap string StoredShareDB → list store_op → list store_reply →
    gmap string StoredShareDB → Prop :=
| spec_done m : spec_run m [] [] m
| spec_more m op r m' ops rs m'' :
    spec_step m op r m' → spec_run m' ops rs m'' → spec_run m (op :: ops) (r :: rs) m''.

Lemma run_op_refines {St} `{L : ShareStoreLaws St} op s :
  usable s → ∃ r s', run_op op s = (Ret r, s') ∧ usable s' ∧
    spec_step (contents s) op r (contents s').
Proof.
  intros Hu. destruct op as [k sh|k|k|]; cbn [run_op]; unfold_M.
  - destruct (Save_spec k sh s Hu) as [(s' & -> & Hu' & Hc)|(e & ->)];
      do 2 eexists; (split; [done|]); (split; [done|]); [rewrite Hc|]; constructor.
  - rewrite (Load_spec k s Hu). do 2 eexists. split; [done|]. split; [done|]. constructor.
  - destruct (Delete_spec k s Hu) as [(s' & -> & Hu' & Hc)|(e & ->)];
      do 2 eexists; (split; [done|]); (split; [done|]); [rewrite Hc|]; constructor.
  - rewrite (Count_spec s Hu). do 2 eexists. split; [done|]. split; [done|]. constructor.
Qed.

Lemma run_ops_refines {St} `{L : ShareStoreLaws St} ops s :
  usable s → ∃ rs s', run_ops ops s = (Ret rs, s') ∧ usable s' ∧
    spec_run (contents s) ops rs (contents s').
Proof.
  revert s; induction ops as [|op ops IH]; intros s Hu; cbn [run_ops]; unfold_M.
  { do 2 eexists. split; [done|]. split; [done|]. constructor. }
  destruct (run_op_refines op s Hu) as (r & s1 & Hr & Hu1 & Hs1). unfold_M. rewrite Hr.
  destruct (IH s1 Hu1) as (rs & s2 & Hrs & Hu2 & Hs2). rewrite Hrs.
  do 2 eexists. split; [done|]. split; [done|]. by econstructor.
Qed.

(** The database of a new file: [initDB] leaves an empty share bucket. *)
Lemma initDB_new {B : Bolt} {BL : BoltLaws B} Getenv MkdirAll Open d0 d db :
  (∀ p, MkdirAll p = None) → (∀ p, Open p = Ok d0) →
  bolt_CreateBucketIfNotExists shareBucket d0 = Ok d →
  (∀ k, bolt_Get shareBucket k d0 = None) →
  initDB Getenv MkdirAll Open db = (Ret None, Some d) ∧ db_usable (Some d) ∧
  db_contents (Some d) = ∅.
Proof.
  intros Hm Ho Hc Hd. split; [unfold initDB; by rewrite Hm, Ho, Hc|].
  assert (∀ k, bolt_Get shareBucket k d = None) as Hn
    by (intros k; by rewrite (bolt_Create_Get _ _ _ _ _ Hc)).
  split.
  - split; [by eapply bolt_Create_has|]. intros k v. by rewrite Hn.
  - apply map_eq. intros k. unfold db_contents. by rewrite bucket_contents_lookup, Hn, lookup_empty.
Qed.

(** C16: the BoltDB store refines a finite map.  From a new database file, once
    [initDB] has run, every sequence of [Save], [Load], [Delete] and [Count]
    runs without panic, and its replies are those of some run of the finite map
    from the empty one - in which an update either takes effect or reports an
    error and changes nothing. *)
Theorem BoltStore_refines {B : Bolt} {BL : BoltLaws B} Getenv MkdirAll Open d0 d db ops :
  (∀ p, MkdirAll p = None) → (∀ p, Open p = Ok d0) →
  bolt_CreateBucketIfNotExists shareBucket d0 = Ok d →
  (∀ k, bolt_Get shareBucket k d0 = None) →
  ∃ rs db', (_ ← initDB Getenv MkdirAll Open; run_ops ops) db = (Ret rs, db') ∧
    db_usable db' ∧ spec_run ∅ ops rs (db_contents db').
Proof.
  intros Hm Ho Hc Hd. destruct (initDB_new Getenv MkdirAll Open d0 d db Hm Ho Hc Hd) as (Hi & Hu & He).
  unfold_M. rewrite Hi. rewrite <- He. apply (run_ops_refines (L := BoltStore_laws) ops (Some d) Hu).
Qed.

(** A database with an empty share bucket, as [initDB] leaves a new file. *)
Definition fresh_db : @DB GmapBolt.bolt := Some {[shareBucket := ∅]}.

#[local] Existing Instances GmapBolt.bolt GmapBolt.bolt_laws.

Lemma BoltStore_refines_witness : ∃ rs db',
  (_ ← initDB (λ _, "") (λ _, None) (λ _, Ok ∅);
   run_ops [OpSave "k" zero_share; OpLoad "k"; OpSave "" zero_share; OpDelete "k"; OpCount]) None =
    (Ret rs, db') ∧ db_usable db' ∧
  spec_run ∅ [OpSave "k" zero_share; OpLoad "k"; OpSave "" zero_share; OpDelete "k"; OpCount] rs
    (db_contents db').
Proof.
  apply (BoltStore_refines (B := GmapBolt.bolt) (λ _, "") (λ _, None) (λ _, Ok ∅) (∅ : GmapBolt.db_t)
    ({[shareBucket := ∅]} : GmapBolt.db_t)); [done..|]. intros k. cbn.
  unfold GmapBolt.bucket. by rewrite lookup_empty.
Defined.
