(* ===== verification/ObjectDB.v ===== *)
(** * The client's object registry ([client/objectdb.go], [client/objects_schema.go])

    Records of the objects a user has encrypted, kept as JSON in a bucket of
    their own and listed by tag.  [time.Time] and its text form (RFC 3339) are
    the interface [GoTime].  A time does not come back from JSON as it was - the
    monotonic reading of [time.Now] is dropped, and the location is a fixed
    offset - but as a time that denotes the same instant ([t.Equal]); records
    are therefore compared up to [≡], which is equality of instants on times. *)

From stdpp Require Import sorting.
From S2P Require Import Prelude GoStrings Encoding Json JsonStruct Bucket Store.

Class GoTime := {
  Time : Type;
  zero_Time : Time;
  (** [MarshalJSON]'s text between the quotes; it fails on a year that is not of
      four digits and on an offset of a day or more. *)
  Time_MarshalText : Time → option string;
  (** [UnmarshalJSON] on a JSON string, given the bytes between its quotes. *)
  Time_UnmarshalText : string → option Time;
  (** [t.Format("2006-01-02")]. *)
  Time_Format_day : Time → string;
  (** [t.Equal(u)]: the same instant, whatever the locations and the monotonic
      readings. *)
  Time_Equal : Equiv Time;
  (** The offset of the time's zone is a whole number of minutes: RFC 3339 has
      no seconds there, and drops them. *)
  whole_minutes : Time → Prop;
}.
#[export] Existing Instance Time_Equal.

(** RFC 3339 text, which JSON need not escape, reads back; as the same instant,
    when no seconds of the offset were dropped. *)
Class GoTimeLaws (T : GoTime) : Prop := {
  Time_Equal_equivalence : Equivalence (≡@{Time});
  Time_roundtrip t s : Time_MarshalText t = Some s →
    Utf8 s ∧ escape s = s ∧
    ∃ t', Time_UnmarshalText s = Some t' ∧ (whole_minutes t → t' ≡ t);
}.
#[export] Existing Instance Time_Equal_equivalence.

(** ** Data *)

Definition objBucket : string := "objects".

Section registry.
Context {T : GoTime}.

(** [ObjectRecord]; [None] is a nil slice of nodes.  A nil map of tags and an
    empty one behave alike. *)
Record ObjectRecord := mkObject {
  o_ObjectID : string;
  o_ContractID : string;
  o_Nodes : option (list string);
  o_Threshold : Z;
  o_EncFile : string;
  o_Tags : gmap string string;
  o_CreatedAt : Time;
  o_UpdatedAt : Time;
}.

Definition zero_object : ObjectRecord := mkObject "" "" None 0 "" ∅ zero_Time zero_Time.

Definition nodes_json (l : option (list string)) : json :=
  match l with Some l => JArr (JStr <$> l) | None => JNull end.

(** The document of a record whose times are written [c] and [u]: no member for
    empty tags. *)
Definition object_json (r : ObjectRecord) (c u : string) : json :=
  JObj ([("object_id", JStr (o_ObjectID r)); ("contract_id", JStr (o_ContractID r));
     ("nodes", nodes_json (o_Nodes r)); ("threshold", JNum (Itoa (o_Threshold r)));
     ("enc_file", JStr (o_EncFile r))] ++
    (if decide (o_Tags r = ∅) then [] else [("tags", of_string_map (o_Tags r))]) ++
    [("created_at", JStr c); ("updated_at", JStr u)]).

(** [json.Marshal(rec)]; a time that has no text form fails. *)
Definition Marshal_object (r : ObjectRecord) : option string :=
  c ← Time_MarshalText (o_CreatedAt r);
  u ← Time_MarshalText (o_UpdatedAt r);
  Some (render (object_json r c u)).

(** [UnmarshalJSON] is given the value as it is written: [v] is a string with
    its escapes. *)
Definition as_time (v : json) (old : Time) : option Time :=
  match v with JStr s => Time_UnmarshalText s | JNull => Some old | _ => None end.

Definition as_nodes (v : json) : option (option (list string)) :=
  match v with
  | JNull => Some None
  | JArr l => Some <$> mapM (λ x, as_string x "") l
  | _ => None
  end.

Definition object_table : table ObjectRecord :=
  [("object_id", λ v r, s ← as_string v (o_ObjectID r);
      Some (mkObject s (o_ContractID r) (o_Nodes r) (o_Threshold r) (o_EncFile r) (o_Tags r)
              (o_CreatedAt r) (o_UpdatedAt r)));
   ("contract_id", λ v r, s ← as_string v (o_ContractID r);
      Some (mkObject (o_ObjectID r) s (o_Nodes r) (o_Threshold r) (o_EncFile r) (o_Tags r)
              (o_CreatedAt r) (o_UpdatedAt r)));
   ("nodes", λ v r, l ← as_nodes v;
      Some (mkObject (o_ObjectID r) (o_ContractID r) l (o_Threshold r) (o_EncFile r) (o_Tags r)
              (o_CreatedAt r) (o_UpdatedAt r)));
   ("threshold", λ v r, z ← as_int v (o_Threshold r);
      Some (mkObject (o_ObjectID r) (o_ContractID r) (o_Nodes r) z (o_EncFile r) (o_Tags r)
              (o_CreatedAt r) (o_UpdatedAt r)));
   ("enc_file", λ v r, s ← as_string v (o_EncFile r);
      Some (mkObject (o_ObjectID r) (o_ContractID r) (o_Nodes r) (o_Threshold r) s (o_Tags r)
              (o_CreatedAt r) (o_UpdatedAt r)));
   ("tags", λ v r, m ← as_string_map v (o_Tags r);
      Some (mkObject (o_ObjectID r) (o_ContractID r) (o_Nodes r) (o_Threshold r) (o_EncFile r) m
              (o_CreatedAt r) (o_UpdatedAt r)))].

(** The fields whose type has an [UnmarshalJSON]. *)
Definition object_times : table ObjectRecord :=
  [("created_at", λ v r, t ← as_time v (o_CreatedAt r);
      Some (mkObject (o_ObjectID r) (o_ContractID r) (o_Nodes r) (o_Threshold r) (o_EncFile r)
              (o_Tags r) t (o_UpdatedAt r)));
   ("updated_at", λ v r, t ← as_time v (o_UpdatedAt r);
      Some (mkObject (o_ObjectID r) (o_ContractID r) (o_Nodes r) (o_Threshold r) (o_EncFile r)
              (o_Tags r) (o_CreatedAt r) t))].

(** [json.Unmarshal(v, &rec)]: the times are read from the strings as they are
    written, the other fields from what they stand for. *)
Definition Unmarshal_object (data : string) : option ObjectRecord :=
  v ← Unmarshal data;
  rec ← decode_struct object_table v zero_object;
  raw ← Unmarshal_raw data;
  decode_struct object_times raw rec.

(** The text of a JSON error is not modelled. *)
Definition object_json_error : error := "json".

(** [closeObjectDB], on the handle [objDB]; an error of [Close] is dropped. *)
Definition closeObjectDB (h : DbHandle) : DbHandle :=
  match h with DbNil => DbNil | DbOpen | DbClosed => DbClosed end.

(** ** Operations on the package variable [objDB] *)

Context {B : Bolt}.

(** [initObjectDB]: [bolt.Open] is given; a nil handle it returns with an error
    is assigned. *)
Definition initObjectDB (Open : string → res error bolt_db) (path : string) :
    M DB (option error) := λ db,
  match Open path with
  | Err e => (Ret (Some e), None)
  | Ok d =>
      match bolt_CreateBucketIfNotExists objBucket d with
      | Ok d' => (Ret None, Some d')
      | Err e => (Ret (Some e), Some d)
      end
  end.

Definition saveObject (rec : ObjectRecord) : M DB (option error) :=
  match Marshal_object rec with
  | None => mret (Some object_json_error)
  | Some data =>
      with_bucket objBucket (λ d, updated d (bolt_Put objBucket (o_ObjectID rec) data d))
  end.

(** The record, and whether it has an ID.  (What a failed read leaves in the
    record is not modelled.) *)
Definition loadObject (id : string) : M DB (res error (ObjectRecord * bool)) :=
  with_bucket objBucket (λ d,
    (match bolt_Get objBucket id d with
     | None => Ok (zero_object, false)
     | Some v =>
         match Unmarshal_object v with
         | None => Err object_json_error
         | Some rec => Ok (rec, bool_decide (o_ObjectID rec ≠ ""))
         end
     end, d)).

(** One turn of the loop of [matchesTags]; a missing tag reads as empty. *)
Definition tag_matches (tags : gmap string string) (kv : string * string) : bool :=
  if decide (kv.2 = "") then bool_decide (is_Some (tags !! kv.1))
  else bool_decide (default "" (tags !! kv.1) = kv.2).

(** The loop, on the entries of the filter in the order they are visited. *)
Fixpoint matches_entries (tags : gmap string string) (l : list (string * string)) : bool :=
  match l with
  | [] => true
  | kv :: l => if negb (tag_matches tags kv) then false else matches_entries tags l
  end.

(** Go visits a map in any order; [map_to_list] is one. *)
Definition matchesTags (rec : ObjectRecord) (tagFilter : gmap string string) : bool :=
  matches_entries (o_Tags rec) (map_to_list tagFilter).

(** [b.ForEach]: the first entry that can not be read ends the walk; the
    records collected so far are returned with the error. *)
Fixpoint list_loop (tagFilter : gmap string string) (kvs : list (string * string))
    (records : list ObjectRecord) : list ObjectRecord * option error :=
  match kvs with
  | [] => (records, None)
  | kv :: kvs =>
      match Unmarshal_object kv.2 with
      | None => (records, Some object_json_error)
      | Some rec =>
          list_loop tagFilter kvs (if matchesTags rec tagFilter then records ++ [rec] else records)
      end
  end.

Definition listObjects (tagFilter : gmap string string) :
    M DB (list ObjectRecord * option error) :=
  with_bucket objBucket (λ d, (list_loop tagFilter (bolt_ForEach objBucket d) [], d)).

Definition deleteObject (id : string) : M DB (option error) :=
  with_bucket objBucket (λ d, updated d (bolt_Delete objBucket id d)).

(** ** Printing *)

(** [utf8.RuneCountInString]: a byte that starts no rune counts as one. *)
Fixpoint rune_count (fuel : nat) (s : string) : nat :=
  match s, fuel with
  | "", _ | _, O => 0
  | String _ r, S n =>
      S (rune_count n match utf8_next s with Some (_, r') => r' | None => r end)
  end.
Definition RuneCountInString (s : string) : nat := rune_count (String.length s) s.

Definition spaces (n : nat) : string := String.concat "" (replicate n " ").
(** [fmt]'s [%-ws]. *)
Definition pad_right (w : nat) (s : string) : string := s +:+ spaces (w - RuneCountInString s).

(** [fmt.Printf] with the format of the rows. *)
Definition object_row (id created thr file : string) : string :=
  pad_right 36 id +:+ "  " +:+ pad_right 12 created +:+ "  " +:+ pad_right 3 thr +:+ "  " +:+
  file +:+ newline.

(** What [printObjects] writes to the standard output. *)
Definition printObjects (records : list ObjectRecord) : string :=
  if decide (len records = 0) then "No encrypted objects found." +:+ newline
  else
    object_row "OBJECT ID" "CREATED" "THR" "FILE" +:+
    String.concat "" (replicate 80 "-") +:+ newline +:+
    String.concat "" ((λ r, object_row (o_ObjectID r) (Time_Format_day (o_CreatedAt r))
                              (Itoa (o_Threshold r)) (o_EncFile r)) <$> records).

(** A column does not align when its text is wider: the identifiers the client
    makes, 64 characters, are wider than the 36 of their column. *)
Lemma pad_right_wide w s : (w ≤ RuneCountInString s)%nat → pad_right w s = s.
Proof.
  intros Hw. unfold pad_right. replace (w - _)%nat with 0%nat by lia. apply string_app_nil_r.
Qed.

(** [os.Getenv] is given. *)
Definition homeDir (Getenv : string → string) : string :=
  let h := Getenv "HOME" in if decide (h ≠ "") then h else ".".

(** ** Reading a record back *)

(** Records that read back as they were, times as the same instants. *)
Definition object_ok (r : ObjectRecord) : Prop :=
  Utf8 (o_ObjectID r) ∧ Utf8 (o_ContractID r) ∧ Utf8 (o_EncFile r) ∧ in_int64 (o_Threshold r) ∧
  (∀ l, o_Nodes r = Some l → Forall Utf8 l) ∧ map_Forall (λ k v, Utf8 k ∧ Utf8 v) (o_Tags r) ∧
  whole_minutes (o_CreatedAt r) ∧ whole_minutes (o_UpdatedAt r) ∧ is_Some (Marshal_object r).

#[export] Instance object_equiv : Equiv ObjectRecord := λ r r',
  o_ObjectID r = o_ObjectID r' ∧ o_ContractID r = o_ContractID r' ∧ o_Nodes r = o_Nodes r' ∧
  o_Threshold r = o_Threshold r' ∧ o_EncFile r = o_EncFile r' ∧ o_Tags r = o_Tags r' ∧
  o_CreatedAt r ≡ o_CreatedAt r' ∧ o_UpdatedAt r ≡ o_UpdatedAt r'.

Context {TL : GoTimeLaws T}.

#[export] Instance object_equivalence : Equivalence (≡@{ObjectRecord}).
Proof.
  split.
  - intros r. by repeat split.
  - intros r r' (? & ? & ? & ? & ? & ? & ? & ?). by repeat split.
  - intros r r' r'' (? & ? & ? & ? & ? & ? & ? & ?) (? & ? & ? & ? & ? & ? & ? & ?).
    repeat split; by etrans.
Qed.

(** What the registry looks at in a record does not depend on how its times are
    represented. *)
#[export] Instance o_ObjectID_proper : Proper ((≡) ==> (=)) o_ObjectID.
Proof. by intros r r' []. Qed.

#[export] Instance matchesTags_proper : Proper ((≡) ==> (=) ==> (=)) matchesTags.
Proof.
  intros r r' (_ & _ & _ & _ & _ & E & _) f _ <-. unfold matchesTags. by rewrite E.
Qed.

Lemma depth_nodes l : depth (nodes_json l) = 0%N ∨ depth (nodes_json l) = 1%N.
Proof.
  destruct l as [l|]; [right|by left]. cbn.
  assert (foldr (λ v k, depth v `max` k)%N 0%N (JStr <$> l) = 0%N) as ->; [|done].
  induction l as [|x l IH]; [done|]. cbn. by rewrite IH.
Qed.

Lemma wf_nodes l : (∀ k, l = Some k → Forall Utf8 k) → wf (nodes_json l).
Proof.
  destruct l as [l|]; [|done]. intros H. specialize (H l eq_refl). induction H; cbn; auto.
Qed.

Lemma as_nodes_json l : as_nodes (nodes_json l) = Some l.
Proof. destruct l as [l|]; [|done]. cbn. by rewrite mapM_as_string. Qed.

Lemma object_json_ok r c u : object_ok r → Utf8 c → Utf8 u →
  wf (object_json r c u) ∧ (depth (object_json r c u) ≤ maxNestingDepth)%N.
Proof.
  intros (H1 & H2 & H3 & H4 & H5 & H6 & _) Hc Hu.
  assert (∀ x, utf8b 20 x = true → Utf8 x) as Hk by (intros x; apply (utf8b_sound 20)).
  unfold object_json. split.
  - case_decide; cbn -[of_string_map nodes_json]; split_and!; eauto using wf_nodes, wf_of_string_map.
    all: try (apply Hk; reflexivity).
  - case_decide; cbn -[of_string_map nodes_json]; rewrite ?depth_of_string_map;
      by destruct (depth_nodes (o_Nodes r)) as [->| ->].
Qed.

Lemma object_table_json r c u : object_ok r →
  decode_struct object_table (object_json r c u) zero_object =
  Some (mkObject (o_ObjectID r) (o_ContractID r) (o_Nodes r) (o_Threshold r) (o_EncFile r)
          (o_Tags r) zero_Time zero_Time).
Proof.
  intros (_ & _ & _ & H4 & _). unfold decode_struct, object_json, set_member.
  destruct r as [o ct n th f tg cr up].
  cbn [o_ObjectID o_ContractID o_Nodes o_Threshold o_EncFile o_Tags] in *.
  case_decide as Ht; cbn [app foldl fst snd]; eval_fields; cbn [as_string mbind option_bind];
    rewrite as_nodes_json; cbn [mbind option_bind]; rewrite as_int_Itoa by done;
    cbn [mbind option_bind o_ObjectID o_ContractID o_Nodes o_Threshold o_EncFile o_Tags
         o_CreatedAt o_UpdatedAt zero_object].
  - by subst tg.
  - by rewrite as_string_map_of.
Qed.

Lemma object_times_json r c u (f : string → string) rec :
  decode_struct object_times (map_str f (object_json r c u)) rec =
  (tc ← Time_UnmarshalText (f c); tu ← Time_UnmarshalText (f u);
   Some (mkObject (o_ObjectID rec) (o_ContractID rec) (o_Nodes rec) (o_Threshold rec)
           (o_EncFile rec) (o_Tags rec) tc tu)).
Proof.
  unfold decode_struct, object_json, set_member.
  case_decide; cbn [map_str app foldl fmap list_fmap fst snd]; eval_fields; cbn [as_time];
    destruct (Time_UnmarshalText (f c)); cbn; by try destruct (Time_UnmarshalText (f u)).
Qed.

Lemma Unmarshal_object_Marshal r s : object_ok r → Marshal_object r = Some s →
  ∃ r', Unmarshal_object s = Some r' ∧ r' ≡ r.
Proof.
  intros Hr. pose proof Hr as (_ & _ & _ & _ & _ & _ & Hc & Hu & _). unfold Marshal_object.
  destruct (Time_MarshalText (o_CreatedAt r)) as [c|] eqn:Ec; [|done].
  destruct (Time_MarshalText (o_UpdatedAt r)) as [u|] eqn:Eu; [|done].
  cbn [mbind option_bind]. intros [= <-].
  apply Time_roundtrip in Ec as (Uc & Pc & tc & Ec & Tc), Eu as (Uu & Pu & tu & Eu & Tu).
  destruct (object_json_ok r c u Hr Uc Uu) as [W D]. unfold Unmarshal_object.
  rewrite Unmarshal_render by done. cbn [mbind option_bind].
  rewrite object_table_json by done. cbn [mbind option_bind].
  rewrite Unmarshal_raw_render by done. cbn [mbind option_bind].
  rewrite object_times_json, Pc, Pu, Ec, Eu. cbn [mbind option_bind].
  eexists. split; [done|]. by repeat split; cbn; auto.
Qed.

(** ** The registry as a finite map *)

Context {BL : BoltLaws B}.

Definition objects_usable : DB → Prop := bucket_usable objBucket Unmarshal_object.
Definition objects : DB → gmap string ObjectRecord :=
  bucket_contents objBucket Unmarshal_object zero_object.

Lemma saveObject_spec r db : object_ok r → objects_usable db →
  (∃ db' r', saveObject r db = (Ret None, db') ∧ objects_usable db' ∧
    objects db' = <[o_ObjectID r := r']> (objects db) ∧ r' ≡ r) ∨
  (∃ e, saveObject r db = (Ret (Some e), db)).
Proof.
  intros Hr Hu. unfold saveObject. pose proof Hr as (_ & _ & _ & _ & _ & _ & _ & _ & [s Hs]).
  destruct (Unmarshal_object_Marshal r s Hr Hs) as (r' & Hd & He). rewrite Hs.
  destruct (bucket_save_spec objBucket Unmarshal_object zero_object (o_ObjectID r) s r' db Hd Hu)
    as [(db' & ? & ? & ?)|?]; [left|by right]. by exists db', r'.
Qed.

Lemma loadObject_spec id db : objects_usable db →
  loadObject id db =
  (Ret (Ok match objects db !! id with
           | Some r => (r, bool_decide (o_ObjectID r ≠ ""))
           | None => (zero_object, false)
           end), db).
Proof.
  destruct db as [d|]; [|done]. intros [Hb Hd]. unfold loadObject, with_bucket, objects.
  rewrite Hb, bucket_contents_lookup. destruct (bolt_Get objBucket id d) as [v|] eqn:E; [|done].
  cbn. destruct (Hd id v E) as [r ->]. done.
Qed.

(** C39: the registry keeps what is saved.  After a save that succeeded,
    [loadObject] returns, for the record's ID, a record that is the one saved in
    every field, its two times as the same instants (JSON keeps no more of a
    time); every other ID reads as it did before; and a save that fails changes
    nothing. *)
Theorem saveObject_loadObject r db :
  object_ok r → objects_usable db → o_ObjectID r ≠ "" →
  (∃ db' r', saveObject r db = (Ret None, db') ∧ objects_usable db' ∧
    loadObject (o_ObjectID r) db' = (Ret (Ok (r', true)), db') ∧ r' ≡ r ∧
    ∀ id, id ≠ o_ObjectID r → (loadObject id db').1 = (loadObject id db).1) ∨
  (∃ e, saveObject r db = (Ret (Some e), db)).
Proof.
  intros Hr Hu Hid.
  destruct (saveObject_spec r db Hr Hu) as [(db' & r' & Hs & Hu' & Hc & He)|He]; [left|by right].
  exists db', r'. split_and!; try done.
  - rewrite loadObject_spec by done. rewrite Hc, lookup_insert_eq.
    rewrite bool_decide_eq_true_2; [done|by rewrite He].
  - intros id Hne. rewrite !loadObject_spec by done. by rewrite Hc, lookup_insert_ne.
Qed.

(** ** Tags *)

(** What a filter asks of a record's tags: the tag, with the value given if
    there is one. *)
Definition tags_satisfy (tags tagFilter : gmap string string) : Prop :=
  ∀ k v, tagFilter !! k = Some v → if decide (v = "") then is_Some (tags !! k) else tags !! k = Some v.

Lemma tag_matches_iff tags k v :
  tag_matches tags (k, v) = true ↔ if decide (v = "") then is_Some (tags !! k) else tags !! k = Some v.
Proof.
  unfold tag_matches. cbn [fst snd]. case_decide as Hv; rewrite bool_decide_eq_true; [done|].
  destruct (tags !! k) as [x|]; cbn; [|naive_solver]. split; congruence.
Qed.

Lemma matches_entries_iff tags l :
  matches_entries tags l = true ↔ Forall (λ kv, tag_matches tags kv = true) l.
Proof.
  induction l as [|kv l IH]; cbn [matches_entries]; [by split|].
  rewrite Forall_cons. destruct (tag_matches tags kv); cbn [negb]; [tauto|].
  split; [done|]. by intros [? _].
Qed.

Lemma matchesTags_iff rec tagFilter :
  matchesTags rec tagFilter = true ↔ tags_satisfy (o_Tags rec) tagFilter.
Proof.
  unfold matchesTags, tags_satisfy. rewrite matches_entries_iff, Forall_forall. split.
  - intros H k v Hk. apply tag_matches_iff, H. by apply elem_of_map_to_list.
  - intros H [k v] Hk. apply tag_matches_iff, H. by apply elem_of_map_to_list.
Qed.

(** tag filtering does not depend on the order in which Go visits the
    filter, and accepts exactly the records that have every tag the filter
    names, with the value it gives where it gives one. *)
Theorem matchesTags_spec rec tagFilter l :
  l ≡ₚ map_to_list tagFilter →
  matches_entries (o_Tags rec) l = matchesTags rec tagFilter ∧
  (matchesTags rec tagFilter = true ↔ tags_satisfy (o_Tags rec) tagFilter).
Proof.
  intros Hl. split; [|apply matchesTags_iff]. unfold matchesTags. apply eq_true_iff_eq.
  rewrite !matches_entries_iff. by rewrite Hl.
Qed.

(** ** Listing *)

Lemma filter_snd {A V} (P : V → Prop) `{∀ x, Decision (P x)} (l : list (A * V)) :
  (filter (λ kv, P kv.2) l).*2 = filter P l.*2.
Proof.
  induction l as [|[k v] l IH]; [done|]. cbn [fmap list_fmap snd]. rewrite !filter_cons. cbn [snd].
  case_decide; cbn; congruence.
Qed.

Lemma sorted_filter {A V} (R : A → A → Prop) (P : A * V → Prop) `{∀ x, Decision (P x)} l :
  StronglySorted R l.*1 → StronglySorted R (filter P l).*1.
Proof.
  induction l as [|[k v] l IH]; [done|]. cbn [fmap list_fmap fst]. intros [Hs Hk]%StronglySorted_inv.
  rewrite filter_cons. case_decide; [|by apply IH]. cbn. constructor; [by apply IH|].
  apply Forall_fmap, Forall_forall. intros x [_ Hx]%list_elem_of_filter.
  rewrite Forall_forall in Hk. apply Hk. by apply list_elem_of_fmap_2.
Qed.

Lemma list_loop_app tagFilter kvs acc :
  Forall (λ kv, is_Some (Unmarshal_object kv.2)) kvs →
  list_loop tagFilter kvs acc =
  (acc ++ filter (λ r, matchesTags r tagFilter = true)
     (snd <$> (decode_entry Unmarshal_object zero_object <$> kvs)), None).
Proof.
  intros H. revert acc. induction H as [|kv kvs [r Hr] _ IH]; intros acc; cbn [list_loop fmap list_fmap].
  { by rewrite app_nil_r. }
  rewrite Hr, IH. cbn [snd decode_entry]. rewrite Hr. cbn [default from_option id].
  rewrite filter_cons. destruct (matchesTags r tagFilter) eqn:Em.
  - rewrite decide_True by done. by rewrite <- app_assoc.
  - by rewrite decide_False by done.
Qed.

(** C40: [listObjects] returns, without error, exactly the stored records that
    have the tags asked for, each once, in the order of their IDs, and leaves
    the registry as it is. *)
Theorem listObjects_spec tagFilter db :
  objects_usable db →
  ∃ l, (listObjects tagFilter db = (Ret (l.*2, None), db)) ∧
    StronglySorted String.le l.*1 ∧ NoDup l.*1 ∧
    ∀ id r, (id, r) ∈ l ↔ objects db !! id = Some r ∧ tags_satisfy (o_Tags r) tagFilter.
Proof.
  destruct db as [d|]; [|done]. intros [Hb Hd].
  set (l := decode_entry Unmarshal_object zero_object <$> bolt_ForEach objBucket d).
  exists (filter (λ kr, matchesTags kr.2 tagFilter = true) l).
  assert (StronglySorted String.le l.*1 ∧ NoDup l.*1) as [Hs Hn].
  { subst l. rewrite decode_entry_keys. split; [apply bolt_ForEach_sorted|apply bolt_ForEach_NoDup]. }
  split; [|split; [|split]].
  - unfold listObjects, with_bucket. rewrite Hb, list_loop_app.
    + cbn [app]. by rewrite <- (filter_snd (λ r, matchesTags r tagFilter = true)).
    + apply Forall_forall. intros [k v] Hk%bolt_ForEach_Get. cbn. by eapply Hd.
  - by apply sorted_filter.
  - eapply sublist_NoDup; [exact Hn|]. apply fmap_sublist, sublist_filter.
  - intros id r. rewrite list_elem_of_filter, matchesTags_iff. cbn [snd].
    assert ((id, r) ∈ l ↔ objects (Some d) !! id = Some r) as ->; [|tauto].
    split; [by apply elem_of_list_to_map_1|apply elem_of_list_to_map_2].
Qed.

End registry.

(** ** Runs *)

Module DemoObjects.

(** A wall clock, as its text, and the monotonic reading of a time that came
    from [time.Now]: the text does not have it. *)
Definition clock : Type := bytes * option Z.
#[export] Instance clock_equiv : Equiv clock := λ t u, t.1 = u.1.

#[export] Instance time : GoTime := {|
  Time := clock;
  zero_Time := ([], None);
  Time_MarshalText t := Some (Hex.EncodeToString t.1);
  Time_UnmarshalText s := (λ b, (b, None)) <$> res_option (Hex.DecodeString s);
  Time_Format_day t := Hex.EncodeToString t.1;
  Time_Equal := clock_equiv;
  whole_minutes _ := True;
|}.

#[export] Instance time_laws : GoTimeLaws time.
Proof.
  split.
  - split; [by intros ?|by intros ???|by intros ???; apply eq_trans].
  - intros t s [= <-]. split_and!; [auto with utf8|apply escape_hex|]. cbn.
    rewrite Hex.DecodeString_EncodeToString. by eexists.
Qed.

#[local] Existing Instances GmapBolt.bolt GmapBolt.bolt_laws.

Definition empty_db : DB := Some {[objBucket := ∅]}.

Definition photo : ObjectRecord :=
  mkObject "0b" "CA" (Some ["http://a"; "http://b"]) 2 "photo.enc"
    {["env" := "prod"; "owner" := "alice"]} (bytes_of "t0", Some 17) (bytes_of "t1", Some 42).

Lemma empty_usable : objects_usable empty_db.
Proof.
  split; [done|]. intros k v Hk.
  change (GmapBolt.bucket objBucket {[objBucket := ∅]} !! k = Some v) in Hk.
  unfold GmapBolt.bucket in Hk. rewrite lookup_singleton_eq in Hk. done.
Qed.

Lemma photo_ok : object_ok photo.
Proof.
  assert (∀ s, utf8b 20 s = true → Utf8 s) as Hu by apply (utf8b_sound 20).
  split_and!; try (apply Hu; reflexivity); [done|intros l [= <-]; repeat constructor; by apply Hu| |done|done|by eexists].
  cbn [o_Tags photo]. apply map_Forall_insert_2; [by split; apply Hu|].
  apply map_Forall_singleton. by split; apply Hu.
Qed.

Lemma saveObject_loadObject_witness :
  (∃ db' r', saveObject photo empty_db = (Ret None, db') ∧ objects_usable db' ∧
    loadObject "0b" db' = (Ret (Ok (r', true)), db') ∧ r' ≡ photo ∧
    ∀ id, id ≠ "0b" → (loadObject id db').1 = (loadObject id empty_db).1) ∨
  (∃ e, saveObject photo empty_db = (Ret (Some e), empty_db)).
Proof. by apply (saveObject_loadObject photo); [apply photo_ok|apply empty_usable|]. Defined.

(** The save succeeds here, and what comes back is not the very record. *)
Example photo_comes_back :
  match loadObject "0b" (saveObject photo empty_db).2 with
  | (Ret (Ok (r, b)), _) => (o_Tags r, o_CreatedAt r, b)
  | _ => (∅, zero_Time, false)
  end = (o_Tags photo, (bytes_of "t0", None), true).
Proof. vm_compute. reflexivity. Qed.

(** A time is read from its bytes as they are written: the same text written
    with escapes is refused. *)
Definition entry (created : string) : string :=
  "{" +:+ quote "created_at" +:+ ":" +:+ str1 ch_quote +:+ created +:+ str1 ch_quote +:+ "}".

Example time_with_escapes :
  o_CreatedAt <$> Unmarshal_object (entry "74") = Some (bytes_of "t", None) ∧
  Unmarshal_object (entry "\u0037\u0034") = None ∧
  is_Some (Unmarshal (entry "\u0037\u0034")).
Proof. vm_compute. eauto. Qed.

Lemma matchesTags_spec_witness :
  matches_entries (o_Tags photo) [("owner", ""); ("env", "prod")] =
    matchesTags photo {["env" := "prod"; "owner" := ""]} ∧
  (matchesTags photo {["env" := "prod"; "owner" := ""]} = true ↔
   tags_satisfy (o_Tags photo) {["env" := "prod"; "owner" := ""]}).
Proof.
  apply matchesTags_spec. rewrite map_to_list_insert by (by rewrite lookup_singleton_ne).
  rewrite map_to_list_singleton. apply Permutation_swap.
Defined.

Lemma listObjects_spec_witness : ∃ l,
  listObjects {["env" := ""]} (saveObject photo empty_db).2 =
    (Ret (l.*2, None), (saveObject photo empty_db).2) ∧
  StronglySorted String.le l.*1 ∧ NoDup l.*1 ∧
  ∀ id r, (id, r) ∈ l ↔ objects (saveObject photo empty_db).2 !! id = Some r ∧
    tags_satisfy (o_Tags r) {["env" := ""]}.
Proof.
  apply listObjects_spec.
  destruct (saveObject_spec photo empty_db photo_ok empty_usable) as [(db' & r' & -> & Hu & _)|[e ->]];
    [exact Hu|exact empty_usable].
Defined.

End DemoObjects.
