(* ===== verification/Flags.v ===== *)
(** * Command-line flags (the [flag] package and [strconv.ParseInt])

    What [FlagSet.Parse] makes of an argument list: flags with one or two
    dashes, values after [=] or in the next argument, the terminator [--], and
    the errors.  Integers are read as Go reads literals: a base prefix, a leading
    zero for octal, and underscores between digits. *)

From stdpp Require Import pretty.
From S2P Require Import Prelude GoStrings.

(** ** strconv.ParseInt(s, 0, 64) *)

Definition lower (c : byte) : byte := ascii_of_N (N.lor (N_of_ascii c) 32).

Definition is_dec (c : byte) : bool := let n := N_of_ascii c in ((48 <=? n) && (n <=? 57))%N.

(** The value of a digit in bases up to 36. *)
Definition any_digit (c : byte) : option N :=
  let n := N_of_ascii c in let l := N_of_ascii (lower c) in
  if is_dec c then Some (n - 48)%N
  else if ((97 <=? l) && (l <=? 122))%N then Some (l - 97 + 10)%N
  else None.

(** The digits of a numeral in base [b]; underscores are skipped. *)
Fixpoint digits_of (b acc : N) (s : string) : option N :=
  match s with
  | "" => Some acc
  | String c r =>
      if decide (c = "_"%char) then digits_of b acc r
      else d ← any_digit c; if (d <? b)%N then digits_of b (acc * b + d)%N r else None
  end.

(** The base and the digits after the prefix. *)
Definition base_of (s : string) : N * string :=
  match s with
  | String z r =>
      if decide (z = "0"%char) then
        match r with
        | String p (String _ _ as ds) =>
            if decide (lower p = "b"%char) then (2%N, ds)
            else if decide (lower p = "o"%char) then (8%N, ds)
            else if decide (lower p = "x"%char) then (16%N, ds)
            else (8%N, r)
        | _ => (8%N, r)
        end
      else (10%N, s)
  | "" => (10%N, s)
  end.

(** [underscoreOK], after the sign: where the underscores may be.  [prev] is the
    last character's class: the beginning, a digit, an underscore, other. *)
Inductive last_char := AtStart | SawDigit | SawUnderscore | SawOther.

Fixpoint underscores (hex : bool) (prev : last_char) (s : string) : bool :=
  match s with
  | "" => match prev with SawUnderscore => false | _ => true end
  | String c r =>
      let l := N_of_ascii (lower c) in
      if is_dec c || (hex && ((97 <=? l) && (l <=? 102))%N) then underscores hex SawDigit r
      else if decide (c = "_"%char) then
        match prev with SawDigit => underscores hex SawUnderscore r | _ => false end
      else match prev with SawUnderscore => false | _ => underscores hex SawOther r end
  end.

Definition underscoreOK (s : string) : bool :=
  match s with
  | String z (String p r) =>
      if decide (z = "0"%char ∧ lower p ∈ ["b"%char; "o"%char; "x"%char])
      then underscores (bool_decide (lower p = "x"%char)) SawDigit r
      else underscores false AtStart s
  | _ => underscores false AtStart s
  end.

Definition ParseUint0 (s : string) : option N :=
  if decide (s = "") then None
  else
  let '(b, ds) := base_of s in
  n ← digits_of b 0 ds;
  if contains "_"%char s && negb (underscoreOK s) then None else Some n.

Definition ParseInt0 (s : string) : option Z :=
  let signed (neg : bool) (u : string) :=
    n ← ParseUint0 u;
    let z := if neg then - Z.of_N n else Z.of_N n in
    if bool_decide (- 2 ^ 63 ≤ z < 2 ^ 63) then Some z else None in
  match s with
  | "" => None
  | String c r =>
      if decide (c = "-"%char) then signed true r
      else if decide (c = "+"%char) then signed false r
      else signed false s
  end.

(** ** Flag sets *)

(** A flag stores its value into the command's options. *)
Inductive flag_value (T : Type) :=
| StringVar (set : string → T → T)
| IntVar (set : Z → T → T).
Arguments StringVar {T}.
Arguments IntVar {T}.

Definition FlagSet (T : Type) : Type := list (string * flag_value T).

Inductive flag_error :=
| BadFlagSyntax (arg : string)
| NotDefined (name : string)
| NeedsArgument (name : string)
| InvalidValue (value name : string)
| ErrHelp.

(** What one argument is. *)
Inductive arg := Positional | Terminator | BadArg | Named (name : string) (value : option string).

(** The text before and after the first [=]. *)
Fixpoint cut_eq (s : string) : string * option string :=
  match s with
  | "" => ("", None)
  | String c r =>
      if decide (c = "="%char) then ("", Some r)
      else let '(n, v) := cut_eq r in (String c n, v)
  end.

Definition named (name : string) : arg :=
  match name with
  | "" => BadArg
  | String c _ =>
      if decide (c = "-"%char ∨ c = "="%char) then BadArg
      else let '(n, v) := cut_eq name in Named n v
  end.

Definition read_arg (s : string) : arg :=
  match s with
  | String c (String c2 r as name) =>
      if decide (c = "-"%char) then
        if decide (c2 = "-"%char) then (if decide (r = "") then Terminator else named r)
        else named name
      else Positional
  | _ => Positional
  end.

Definition find_flag {T} (fs : FlagSet T) (name : string) : option (flag_value T) :=
  snd <$> List.find (λ f, bool_decide (f.1 = name)) fs.

Definition set_flag {T} (name value : string) (f : flag_value T) (v : T) : res flag_error T :=
  match f with
  | StringVar set => Ok (set value v)
  | IntVar set =>
      match ParseInt0 value with
      | Some z => Ok (set z v)
      | None => Err (InvalidValue value name)
      end
  end.

(** [FlagSet.Parse]: the options, and the arguments that are not flags. *)
Fixpoint flag_Parse {T} (fs : FlagSet T) (args : list string) (v : T) : res flag_error (T * list string) :=
  match args with
  | [] => Ok (v, [])
  | s :: rest =>
      match read_arg s with
      | Positional => Ok (v, args)
      | Terminator => Ok (v, rest)
      | BadArg => Err (BadFlagSyntax s)
      | Named name value =>
          match find_flag fs name with
          | None => if decide (name = "help" ∨ name = "h") then Err ErrHelp else Err (NotDefined name)
          | Some f =>
              match value, rest with
              | Some x, _ => try v := set_flag name x f v catch e => Err e in flag_Parse fs rest v
              | None, x :: rest =>
                  try v := set_flag name x f v catch e => Err e in flag_Parse fs rest v
              | None, [] => Err (NeedsArgument name)
              end
          end
      end
  end.

(** ** Properties *)

(** A decimal numeral without a leading zero reads as itself. *)
Definition decimal (s : string) : Prop := Forall (λ c, is_dec c = true) (bytes_of s).

Lemma is_dec_value c : is_dec c = true → ∃ d, digit_value c = Some d ∧ any_digit c = Some d ∧ (d < 10)%N.
Proof.
  intros H. unfold digit_value, any_digit. rewrite H. unfold is_dec in H. rewrite H.
  exists (N_of_ascii c - 48)%N. apply andb_prop in H as [H1%N.leb_le H2%N.leb_le]. repeat split; lia.
Qed.

Lemma digits_of_decimal s acc n :
  decimal s → parse_digits acc s = Some n → digits_of 10 acc s = Some n.
Proof.
  revert acc. induction s as [|c s IH]; intros acc H; [done|]. inversion_clear H as [|?? Hc Hs].
  destruct (is_dec_value c Hc) as (d & Hd & Ha & Hlt). cbn [parse_digits digits_of]. rewrite Hd, Ha.
  cbn. rewrite decide_False by (intros ->; by vm_compute in Hc).
  rewrite (proj2 (N.ltb_lt _ _) Hlt). rewrite N.mul_comm. by apply IH.
Qed.

Lemma decimal_no_underscore s : decimal s → contains "_"%char s = false.
Proof.
  induction s as [|c s IH]; intros H; [done|]. inversion_clear H as [|?? Hc Hs]. cbn [contains].
  rewrite IH by done. rewrite bool_decide_eq_false_2; [done|]. intros ->. by vm_compute in Hc.
Qed.

(** The digits of [pretty]. *)
Lemma pretty_N_char_dec d : (d < 10)%N → is_dec (pretty_N_char d) = true.
Proof.
  intros H. assert (d = 0 ∨ d = 1 ∨ d = 2 ∨ d = 3 ∨ d = 4 ∨ d = 5 ∨ d = 6 ∨ d = 7 ∨ d = 8 ∨ d = 9)%N
    as Hd by lia.
  by repeat destruct Hd as [->|Hd]; subst.
Qed.

Lemma pretty_N_go_decimal n s : decimal s → decimal (pretty_N_go n s).
Proof.
  revert s. induction (N.lt_wf_0 n) as [n _ IH]. intros s Hs.
  destruct (decide (n = 0)%N) as [->|Hn]; [by rewrite pretty_N_go_0|].
  rewrite pretty_N_go_step by lia. apply IH; [apply N.div_lt; lia|].
  constructor; [|done]. apply pretty_N_char_dec. apply N.mod_lt. lia.
Qed.

(** The first digit of a positive number is not zero. *)
Lemma pretty_N_go_nonzero n s : (0 < n)%N →
  ∃ d r, (0 < d < 10)%N ∧ pretty_N_go n s = String (pretty_N_char d) r.
Proof.
  revert s. induction (N.lt_wf_0 n) as [n _ IH]. intros s Hn. rewrite pretty_N_go_step by lia.
  destruct (decide (n < 10)%N) as [Hlt|Hge].
  - rewrite N.div_small by done. rewrite pretty_N_go_0. rewrite N.mod_small by done. eauto.
  - apply IH; [apply N.div_lt; lia|]. apply N.div_str_pos. lia.
Qed.

Lemma ParseUint0_pretty n : ParseUint0 (pretty n) = Some n.
Proof.
  destruct (decide (n = 0)%N) as [->|Hn]; [done|].
  pose proof (parse_uint_pretty n) as Hp. revert Hp. unfold pretty, pretty_N. rewrite decide_False by done.
  destruct (pretty_N_go_nonzero n "" ltac:(lia)) as (d & r & Hd & E).
  assert (decimal (pretty_N_go n "")) as Hdec by (apply pretty_N_go_decimal; constructor).
  rewrite E in *. intros Hp. unfold ParseUint0. rewrite decide_False by done.
  unfold base_of. rewrite decide_False.
  2:{ assert (d = 1 ∨ d = 2 ∨ d = 3 ∨ d = 4 ∨ d = 5 ∨ d = 6 ∨ d = 7 ∨ d = 8 ∨ d = 9)%N as Hd' by lia.
      by repeat destruct Hd' as [->|Hd']; subst. }
  rewrite (digits_of_decimal _ _ n) by done. cbn [mbind option_bind].
  by rewrite decimal_no_underscore.
Qed.

Lemma ParseInt0_Itoa z : in_int64 z → ParseInt0 (Itoa z) = Some z.
Proof.
  intros Hz. destruct z as [|p|p]; [done|..]; unfold Itoa, pretty, pretty_Z.
  - pose proof (ParseUint0_pretty (N.pos p)) as H.
    destruct (parse_uint_head _ _ (parse_uint_pretty (N.pos p))) as (c & r & E & [??]%digit_value_sign).
    change (pretty p) with (pretty (N.pos p)). rewrite E in *. unfold ParseInt0.
    rewrite !decide_False by done. rewrite H. cbn [mbind option_bind].
    by rewrite bool_decide_eq_true_2.
  - rewrite string_app_cons, string_app_nil_l. unfold ParseInt0. rewrite decide_True by done.
    change (pretty p) with (pretty (N.pos p)). rewrite ParseUint0_pretty. cbn [mbind option_bind].
    by rewrite bool_decide_eq_true_2.
Qed.

(** A flag given as two arguments is stored, whatever its value looks like, and
    the rest is parsed. *)
Lemma flag_Parse_cons {T} (fs : FlagSet T) s name f x rest v v' :
  read_arg s = Named name None → find_flag fs name = Some f → set_flag name x f v = Ok v' →
  flag_Parse fs (s :: x :: rest) v = flag_Parse fs rest v'.
Proof. intros Hs Hf Hv. cbn [flag_Parse]. by rewrite Hs, Hf, Hv. Qed.
