(* ===== verification/Crypto.v ===== *)
(** * Cryptographic primitives

    The elliptic-curve, AEAD, hash, signature and address-encoding packages
    the program calls ([crypto/ecdh], [crypto/aes] with [crypto/cipher],
    [crypto/sha256], [crypto/ed25519], [golang.org/x/crypto/hkdf], Stellar's
    [strkey] and [keypair]) are the interface [Crypto]; [CryptoLaws] states
    their documented behaviour.  What the packages do around the mathematics -
    which lengths they accept, when they return an error and when they
    panic - is defined here.

    A random source is the list of bytes still to be read from it. *)

From S2P Require Import Prelude GoStrings Encoding Json.

(** The [strkey] version bytes the program uses. *)
Inductive VersionByte := VersionByteAccountID | VersionByteContract.

Class Crypto := {
  (** crypto/ecdh, curve P-256 *)
  privkey : Type;
  pubkey : Type;
  P256_GenerateKey : bytes → res error (privkey * bytes);
  P256_NewPublicKey : bytes → res error pubkey;
  PublicKey : privkey → pubkey;
  pub_Bytes : pubkey → bytes;
  ECDH : privkey → pubkey → res error bytes;
  (** AES-GCM under a key of a valid length and a nonce of 12 bytes *)
  gcm_Seal : bytes → bytes → bytes → bytes;
  gcm_Open : bytes → bytes → bytes → option bytes;
  sha256_Sum : bytes → bytes;
  (** crypto/ed25519, under a key of 32 bytes *)
  ed25519_Verify : bytes → bytes → bytes → bool;
  (** golang.org/x/crypto/hkdf over SHA-256: secret, salt, info, bytes wanted *)
  hkdf_SHA256 : bytes → bytes → bytes → Z → res error bytes;
  (** Stellar strkey and keypair *)
  strkey_Decode : VersionByte → string → res error bytes;
  strkey_Encode : VersionByte → bytes → res error string;
  keypair : Type;
  keypair_ParseFull : string → res error keypair;
  keypair_Sign : keypair → bytes → res error bytes;
  keypair_Address : keypair → string;
}.

Class CryptoLaws (C : Crypto) : Prop := {
  P256_NewPublicKey_Bytes p : P256_NewPublicKey (pub_Bytes p) = Ok p;
  pub_Bytes_nonempty p : pub_Bytes p ≠ [];
  (** Key agreement: both sides get the same 32 bytes. *)
  ECDH_agree a b : ∃ s, ECDH a (PublicKey b) = Ok s ∧ ECDH b (PublicKey a) = Ok s ∧ len s = 32;
  gcm_Open_Seal k n p : len k = 32 → len n = 12 → gcm_Open k n (gcm_Seal k n p) = Some p;
  len_gcm_Seal k n p : len (gcm_Seal k n p) = len p + 16;
  gcm_Open_len k n c p : gcm_Open k n c = Some p → len c = len p + 16;
  len_sha256_Sum b : len (sha256_Sum b) = 32;
  (** HKDF can expand to 255 hash lengths. *)
  hkdf_SHA256_len s salt info n : 0 ≤ n ≤ 255 * 32 →
    ∃ k, hkdf_SHA256 s salt info n = Ok k ∧ len k = n;
  (** A strkey is base-32 text: it has no underscore. *)
  strkey_Encode_plain v b s : strkey_Encode v b = Ok s → contains "_" s = false;
  strkey_Encode_Decode v b s : strkey_Encode v b = Ok s → strkey_Decode v s = Ok b;
  strkey_Decode_Encode v b s : strkey_Decode v s = Ok b → strkey_Encode v b = Ok s;
  (** What a key pair signs verifies under its address. *)
  keypair_Address_Decode seed kp : keypair_ParseFull seed = Ok kp →
    ∃ pk, strkey_Decode VersionByteAccountID (keypair_Address kp) = Ok pk ∧ len pk = 32 ∧
      ∀ m sig, keypair_Sign kp m = Ok sig → ed25519_Verify pk m sig = true;
}.

(** ** crypto/aes and crypto/cipher *)

Definition gcmNonceSize : Z := 12.

(** The longest plaintext GCM accepts. *)
Definition gcmMaxPlain : Z := (2 ^ 32 - 2) * 16.

(** [aes.NewCipher]: the key must have 16, 24 or 32 bytes. *)
Definition aes_NewCipher (key : bytes) : res error bytes :=
  if decide (len key = 16 ∨ len key = 24 ∨ len key = 32) then Ok key
  else Err ("crypto/aes: invalid key size " +:+ Itoa (len key)).

Section gcm.
Context {C : Crypto}.

(** [gcm.Seal(nil, nonce, plaintext, nil)]. *)
Definition Seal (key nonce plaintext : bytes) : outcome bytes :=
  if decide (len nonce = gcmNonceSize) then
    if decide (len plaintext ≤ gcmMaxPlain) then Ret (gcm_Seal key nonce plaintext)
    else Panic "crypto/cipher: message too large for GCM"
  else Panic "crypto/cipher: incorrect nonce length given to GCM".

(** [gcm.Open(nil, nonce, ciphertext, nil)]. *)
Definition Open (key nonce ciphertext : bytes) : outcome (res error bytes) :=
  if decide (len nonce = gcmNonceSize) then
    match gcm_Open key nonce ciphertext with
    | Some p => Ret (Ok p)
    | None => Ret (Err "cipher: message authentication failed")
    end
  else Panic "crypto/cipher: incorrect nonce length given to GCM".

(** [io.ReadFull(rand.Reader, make([]byte, n))]. *)
Definition rand_ReadFull (n : Z) : M bytes (res error bytes) := λ rnd,
  let '(b, rnd') := splitZ n rnd in
  if decide (len b = n) then (Ret (Ok b), rnd')
  else (Ret (Err (if decide (b = []) then "EOF" else "unexpected EOF")), rnd').

(** [ecdh.P256().GenerateKey(rand.Reader)]. *)
Definition rand_GenerateKey : M bytes (res error privkey) := λ rnd,
  match P256_GenerateKey rnd with
  | Ok (k, rnd') => (Ret (Ok k), rnd')
  | Err e => (Ret (Err e), rnd)
  end.

Lemma rand_ReadFull_Ok n rnd b rnd' :
  0 ≤ n → rand_ReadFull n rnd = (Ret (Ok b), rnd') → len b = n ∧ rnd = b ++ rnd'.
Proof.
  unfold rand_ReadFull. intros Hn. pose proof (splitZ_app n rnd).
  destruct (splitZ n rnd) as [a c]. case_decide; naive_solver.
Qed.

Lemma rand_ReadFull_enough n rnd : 0 ≤ n ≤ len rnd →
  ∃ b rnd', rand_ReadFull n rnd = (Ret (Ok b), rnd') ∧ len b = n ∧ rnd = b ++ rnd'.
Proof.
  intros Hn. unfold rand_ReadFull. pose proof (splitZ_app n rnd).
  pose proof (splitZ_len n rnd ltac:(lia)). destruct (splitZ n rnd) as [a c]. cbn in *.
  rewrite decide_True by lia. exists a, c. split; [done|]. split; [lia|done].
Qed.

Context {CL : CryptoLaws C}.

Lemma Open_Seal key nonce p c :
  len key = 32 → Seal key nonce p = Ret c → Open key nonce c = Ret (Ok p).
Proof.
  unfold Seal, Open. intros Hk. repeat case_decide; try done. intros [= <-].
  by rewrite gcm_Open_Seal.
Qed.

Lemma Seal_len key nonce p c : Seal key nonce p = Ret c → len c = len p + 16.
Proof. unfold Seal. repeat case_decide; try done. intros [= <-]. apply len_gcm_Seal. Qed.

Lemma Seal_ok key nonce p : len nonce = 12 → len p ≤ gcmMaxPlain →
  Seal key nonce p = Ret (gcm_Seal key nonce p).
Proof. intros. unfold Seal. by rewrite !decide_True. Qed.

End gcm.

(** ** Toy primitives

    Definitions with the laws and no secrecy, on which witnesses and examples
    evaluate. *)

Module ToyCrypto.

Definition pad32 (b : bytes) : bytes := take 32 (b ++ replicate 32 "000"%char).

Definition xor_byte (a b : byte) : byte := ascii_of_N (N.lxor (N_of_ascii a) (N_of_ascii b)).

Definition tag (k : bytes) : bytes := take 16 (pad32 k).

Definition gcm_open (k n c : bytes) : option bytes :=
  let i := (length c - 16)%nat in
  if decide (drop i c = tag k) then Some (take i c) else None.

Definition prefix_of (v : VersionByte) : byte :=
  match v with VersionByteAccountID => "G"%char | VersionByteContract => "C"%char end.

Definition strkey_enc (v : VersionByte) (b : bytes) : res error string :=
  if decide (len b = 32) then Ok (String (prefix_of v) (Hex.EncodeToString b))
  else Err "invalid payload".

Definition strkey_dec (v : VersionByte) (s : string) : res error bytes :=
  match s with
  | String c r =>
      match Hex.DecodeString r with
      | Ok b => if decide (c = prefix_of v ∧ Hex.EncodeToString b = r ∧ len b = 32)
                then Ok b else Err "invalid strkey"
      | Err _ => Err "invalid strkey"
      end
  | "" => Err "invalid strkey"
  end.

#[export] Instance crypto : Crypto := {|
  privkey := bytes;
  pubkey := bytes;
  P256_GenerateKey rnd :=
    if decide (32 ≤ len rnd) then Ok (splitZ 32 rnd) else Err "EOF";
  P256_NewPublicKey b :=
    match b with
    | c :: r => if decide (c = chr 4) then Ok r else Err "invalid point"
    | [] => Err "invalid point"
    end;
  PublicKey p := p;
  pub_Bytes p := chr 4 :: p;
  ECDH a b := Ok (zip_with xor_byte (pad32 a) (pad32 b));
  gcm_Seal k n p := p ++ tag k;
  gcm_Open := gcm_open;
  sha256_Sum := pad32;
  ed25519_Verify pk m sig := bool_decide (sig = pk ++ m);
  hkdf_SHA256 s salt info n :=
    if decide (0 ≤ n ≤ 255 * 32) then Ok (replicate (Z.to_nat n) "000"%char)
    else Err "hkdf: entropy limit reached";
  strkey_Decode := strkey_dec;
  strkey_Encode := strkey_enc;
  keypair := bytes;
  keypair_ParseFull s := if decide (s = "") then Err "invalid seed" else Ok (pad32 (bytes_of s));
  keypair_Sign k m := Ok (k ++ m);
  keypair_Address k := String "G" (Hex.EncodeToString k);
|}.

(** Any bytes are a private key here. *)
Definition priv (b : bytes) : @privkey crypto := b.

Lemma length_pad32 b : length (pad32 b) = 32%nat.
Proof. unfold pad32. rewrite length_take, length_app, length_replicate. lia. Qed.

Lemma length_tag k : length (tag k) = 16%nat.
Proof. unfold tag. rewrite length_take, length_pad32. done. Qed.

Lemma zip_xor_comm a b : zip_with xor_byte b a = zip_with xor_byte a b.
Proof.
  revert b; induction a as [|x a IH]; intros [|y b]; cbn; [done..|].
  rewrite IH. unfold xor_byte. by rewrite N.lxor_comm.
Qed.

Lemma hex_plain b : contains "_" (Hex.EncodeToString b) = false.
Proof.
  induction b as [|x b IH]; [done|]. simpl.
  pose proof (Hex.hexdigit_lower x) as [H1 H2]%andb_prop.
  assert (∀ c, Hex.is_lower_hex c = true → bool_decide (c = "_"%char) = false) as Hu
    by by_all_ascii.
  by rewrite (Hu _ H1), (Hu _ H2), IH.
Qed.

Lemma strkey_enc_dec v b s : strkey_enc v b = Ok s → strkey_dec v s = Ok b.
Proof.
  unfold strkey_enc. case_decide; [|done]. intros [= <-]. cbn.
  rewrite Hex.DecodeString_EncodeToString. by rewrite decide_True.
Qed.

Lemma strkey_dec_enc v b s : strkey_dec v s = Ok b → strkey_enc v b = Ok s.
Proof.
  unfold strkey_dec, strkey_enc. destruct s as [|c r]; [done|].
  destruct (Hex.DecodeString r); [|done]. case_decide as E; [|done].
  intros [= <-]. destruct E as (-> & -> & ?). by rewrite decide_True.
Qed.

#[export] Instance crypto_laws : CryptoLaws crypto.
Proof.
  split; cbn -[gcm_open splitZ pad32].
  - intros p. done.
  - done.
  - intros a b. exists (zip_with xor_byte (pad32 a) (pad32 b)). split; [done|]. split.
    + f_equal. apply zip_xor_comm.
    + unfold len. rewrite length_zip_with, !length_pad32. done.
  - intros k n p _ _. unfold gcm_open. rewrite length_app, length_tag.
    replace (length p + 16 - 16)%nat with (length p) by lia.
    by rewrite drop_app_length, take_app_length, decide_True.
  - intros k n p. rewrite len_app. unfold len at 2. by rewrite length_tag.
  - intros k n c p. unfold gcm_open. case_decide as E; [|done]. intros [= <-].
    apply (f_equal length) in E. rewrite length_tag, length_drop in E.
    unfold len. rewrite length_take. lia.
  - intros b. unfold len. by rewrite length_pad32.
  - intros s salt info n Hn. rewrite decide_True by done. eexists; split; [done|].
    unfold len. rewrite length_replicate. lia.
  - intros v b s. unfold strkey_enc. case_decide; [|done]. intros [= <-]. cbn.
    rewrite hex_plain. by destruct v.
  - apply strkey_enc_dec.
  - apply strkey_dec_enc.
  - intros seed kp. case_decide; [done|]. intros [= <-]. exists (pad32 (bytes_of seed)).
    assert (len (pad32 (bytes_of seed)) = 32) as Hl by (unfold len; by rewrite length_pad32).
    split; [|split; [done|]].
    + rewrite Hex.DecodeString_EncodeToString. by rewrite decide_True.
    + intros m sig [= <-]. by rewrite bool_decide_eq_true_2.
Qed.

End ToyCrypto.
