(* ===== verification/NodeCrypto.v ===== *)
(** * The node's cryptography ([node/crypto.go], [node/hkdf.go])

    Opening a share with the node's static key, checking a caller's signature,
    and the helpers the node declares but does not call ([BuildAAD],
    [DeriveAESKey], [GenerateNodeKey]). *)

From S2P Require Import Prelude GoStrings Encoding Json Crypto.

Section node_crypto.
Context {C : Crypto}.

Definition GenerateNodeKey : M bytes (res error privkey) :=
  r ← rand_GenerateKey;
  mret (map_err (wrap "failed to generate P-256 key") r).

(** [DecryptShare]; [cipher.NewGCM] does not fail on an AES block. *)
Definition DecryptShare (nodePriv : privkey) (ephemeralPubKeyBytes ciphertext nonce : bytes) :
    outcome (res error bytes) :=
  try ephemeralPub := P256_NewPublicKey ephemeralPubKeyBytes
    catch err => Ret (Err (wrap "invalid ephemeral public key" err)) in
  try sharedSecret := ECDH nodePriv ephemeralPub
    catch err => Ret (Err (wrap "ECDH key agreement failed" err)) in
  try block := aes_NewCipher sharedSecret
    catch err => Ret (Err (wrap "failed to initialize AES block cipher" err)) in
  match Open block nonce ciphertext with
  | Panic e => Panic e
  | Ret (Err err) => Ret (Err (wrap "decryption failed (invalid ciphertext/nonce/key)" err))
  | Ret (Ok plaintext) => Ret (Ok plaintext)
  end.

(** [EncryptShareForTesting]: the ephemeral public key and the ciphertext. *)
Definition EncryptShareForTesting (nodePub : pubkey) (plaintext nonce : bytes) :
    M bytes (res error (bytes * bytes)) :=
  r ← rand_GenerateKey;
  try ephemeralPriv := r
    catch err => mret (Err (wrap "failed to generate ephemeral key" err)) in
  let ephemeralPubBytes := pub_Bytes (PublicKey ephemeralPriv) in
  try sharedSecret := ECDH ephemeralPriv nodePub
    catch err => mret (Err (wrap "ECDH failed" err)) in
  try block := aes_NewCipher sharedSecret catch err => mret (Err err) in
  ciphertext ← lift (Seal block nonce plaintext);
  mret (Ok (ephemeralPubBytes, ciphertext)).

(** [ed25519.PublicKeySize]. *)
Definition PublicKeySize : Z := 32.

Definition VerifyStellarSignature (stellarAddress : string) (message signature : bytes) :
    res error bool :=
  try pubKeyBytes := strkey_Decode VersionByteAccountID stellarAddress
    catch err => Err (wrap "invalid Stellar address" err) in
  if decide (len pubKeyBytes ≠ PublicKeySize) then
    Err ("invalid public key size: expected " +:+ Itoa PublicKeySize +:+ " bytes, got "
         +:+ Itoa (len pubKeyBytes))
  else Ok (ed25519_Verify pubKeyBytes message signature).

Definition BuildAAD (contractID objectID : string) : bytes :=
  bytes_of ("soroban-encrypt|" +:+ contractID +:+ "|" +:+ objectID).

Definition hkdfInfo : string := "soroban-encrypt-share".

Definition DeriveAESKey (sharedSecret : bytes) : res error bytes :=
  hkdf_SHA256 sharedSecret [] (bytes_of hkdfInfo) 32.

(** ** Properties *)

(** When the ephemeral key parses and a secret is agreed on, what [DecryptShare]
    does depends on the AEAD alone. *)
Lemma DecryptShare_unfold priv e pub s c n :
  P256_NewPublicKey e = Ok pub → ECDH priv pub = Ok s → len s = 32 →
  DecryptShare priv e c n =
  if decide (len n = gcmNonceSize) then
    match gcm_Open s n c with
    | Some p => Ret (Ok p)
    | None => Ret (Err (wrap "decryption failed (invalid ciphertext/nonce/key)"
                          "cipher: message authentication failed"))
    end
  else Panic "crypto/cipher: incorrect nonce length given to GCM".
Proof.
  intros He Hs Hl. unfold DecryptShare. rewrite He, Hs. unfold aes_NewCipher.
  rewrite decide_True by auto. unfold Open. case_decide; [|done]. by destruct (gcm_Open s n c).
Qed.

Context {CL : CryptoLaws C}.

(** a share sealed to a node's public key, as the client seals it (fresh
    ephemeral key, ECDH, AES-256-GCM), is opened by that node's [DecryptShare]. *)
Theorem DecryptShare_EncryptShare priv p nonce rnd e c rnd' :
  EncryptShareForTesting (PublicKey priv) p nonce rnd = (Ret (Ok (e, c)), rnd') →
  DecryptShare priv e c nonce = Ret (Ok p).
Proof.
  unfold EncryptShareForTesting. unfold_M.
  destruct (rand_GenerateKey rnd) as [[[k|]|] r1]; [|done..].
  destruct (ECDH_agree k priv) as (s & H1 & H2 & Hl). rewrite H1.
  unfold aes_NewCipher. rewrite decide_True by auto.
  destruct (Seal s nonce p) as [ct|] eqn:Es; [|done]. intros [= <- <- <-].
  unfold DecryptShare. rewrite P256_NewPublicKey_Bytes, H2.
  unfold aes_NewCipher. rewrite decide_True by auto. by rewrite (Open_Seal _ _ _ _ Hl Es).
Qed.

(** [DecryptShare] panics, rather than returning its "invalid
    ciphertext/nonce/key" error, exactly when the ephemeral key is a valid point
    and the nonce does not have 12 bytes. *)
Theorem DecryptShare_panics_iff priv e c n :
  (∀ pub, ∃ s, ECDH priv pub = Ok s ∧ len s = 32) →
  (∃ msg, DecryptShare priv e c n = Panic msg) ↔
  is_ok (P256_NewPublicKey e) = true ∧ len n ≠ 12.
Proof.
  intros Hecdh. destruct (P256_NewPublicKey e) as [pub|err] eqn:He.
  - destruct (Hecdh pub) as (s & Hs & Hl).
    rewrite (DecryptShare_unfold _ _ _ _ _ _ He Hs Hl). unfold gcmNonceSize.
    case_decide; [|naive_solver]. destruct (gcm_Open s n c); naive_solver.
  - unfold DecryptShare. rewrite He. naive_solver.
Qed.

(** what a key pair signs is accepted by the node's signature check for
    the key pair's own address. *)
Theorem VerifyStellarSignature_accepts seed kp m sig :
  keypair_ParseFull seed = Ok kp → keypair_Sign kp m = Ok sig →
  VerifyStellarSignature (keypair_Address kp) m sig = Ok true.
Proof.
  intros Hk Hs. destruct (keypair_Address_Decode seed kp Hk) as (pk & Hd & Hl & Hv).
  unfold VerifyStellarSignature. rewrite Hd. unfold PublicKeySize.
  rewrite decide_False by tauto. by rewrite (Hv m sig Hs).
Qed.

Lemma VerifyStellarSignature_true a m sig :
  VerifyStellarSignature a m sig = Ok true ↔
  ∃ pk, strkey_Decode VersionByteAccountID a = Ok pk ∧ len pk = 32 ∧
    ed25519_Verify pk m sig = true.
Proof.
  unfold VerifyStellarSignature, PublicKeySize.
  destruct (strkey_Decode _ a) as [pk|]; [|split; [done|by intros (?&?&_)]].
  case_decide as E.
  - split; [done|]. by intros (pk' & [= <-] & ? & _).
  - split; [|by intros (pk' & [= <-] & _ & ->)].
    intros [= H1]. exists pk. split; [done|]. split; [lia|done].
Qed.

(** the associated data binds a contract and an object: for contract IDs
    without a ['|'] (every strkey), equal data means equal IDs. *)
Theorem BuildAAD_inj c o c' o' :
  contains "|" c = false → contains "|" c' = false →
  BuildAAD c o = BuildAAD c' o' → c = c' ∧ o = o'.
Proof.
  intros Hc Hc' H. apply (inj list_ascii_of_string) in H. apply (inj (String.append _)) in H.
  by apply (join_inj "|").
Qed.

End node_crypto.

(** ** Runs *)

#[local] Existing Instances ToyCrypto.crypto ToyCrypto.crypto_laws.

Definition key_k : @privkey ToyCrypto.crypto := ToyCrypto.priv (bytes_of "k").
Definition zero_nonce : bytes := replicate 12 "000"%char.

Lemma DecryptShare_EncryptShare_witness : ∃ e c,
  DecryptShare key_k e c zero_nonce = Ret (Ok (bytes_of "share")).
Proof.
  eexists _, _. eapply (DecryptShare_EncryptShare key_k (bytes_of "share") zero_nonce
    (replicate 32 "r"%char)). vm_compute. reflexivity.
Defined.

Lemma DecryptShare_panics_iff_witness :
  (∃ msg, DecryptShare key_k (pub_Bytes (PublicKey key_k)) [] (bytes_of "short") = Panic msg) ↔
  is_ok (P256_NewPublicKey (pub_Bytes (PublicKey key_k))) = true ∧ len (bytes_of "short") ≠ 12.
Proof.
  apply DecryptShare_panics_iff. intros pub.
  destruct (ECDH_agree key_k pub) as (s & H & _ & Hl). eauto.
Defined.

Lemma BuildAAD_inj_witness : "CA" = "CA" ∧ "x|y" = "x|y".
Proof. by apply (BuildAAD_inj "CA" "x|y" "CA" "x|y"). Defined.
