(* ===== verification/ClientCrypto.v ===== *)
(** * The client's cryptography ([client/crypto.go], [client/hkdf.go])

    Generating and using the file key, sealing a share to a node (ECIES), and
    signing with the caller's Stellar seed. *)

From S2P Require Import Prelude GoStrings Encoding Json Crypto NodeCrypto.

Section client_crypto.
Context {C : Crypto}.

Definition GenerateAESKey : M bytes (res error bytes) :=
  r ← rand_ReadFull 32;
  mret (map_err (wrap "failed to generate symmetric key") r).

(** The ciphertext and the nonce. *)
Definition SymmetricEncrypt (key plaintext : bytes) : M bytes (res error (bytes * bytes)) :=
  try block := aes_NewCipher key catch err => mret (Err err) in
  r ← rand_ReadFull gcmNonceSize;
  try nonce := r catch err => mret (Err err) in
  ciphertext ← lift (Seal block nonce plaintext);
  mret (Ok (ciphertext, nonce)).

Definition SymmetricDecrypt (key ciphertext nonce : bytes) : outcome (res error bytes) :=
  try block := aes_NewCipher key catch err => Ret (Err err) in
  Open block nonce ciphertext.

(** [ECIESEncrypt]: the ephemeral public key, the ciphertext and the nonce. *)
Definition ECIESEncrypt (nodePubKeyBytes plaintext : bytes) :
    M bytes (res error (bytes * bytes * bytes)) :=
  try nodePub := P256_NewPublicKey nodePubKeyBytes
    catch err => mret (Err (wrap "invalid node public key" err)) in
  r ← rand_GenerateKey;
  try ephemeralPriv := r
    catch err => mret (Err (wrap "failed to generate ephemeral key" err)) in
  let ephemeralPubBytes := pub_Bytes (PublicKey ephemeralPriv) in
  try sharedSecret := ECDH ephemeralPriv nodePub
    catch err => mret (Err (wrap "ECDH failed" err)) in
  try block := aes_NewCipher sharedSecret catch err => mret (Err err) in
  rn ← rand_ReadFull gcmNonceSize;
  try nonce := rn catch err => mret (Err err) in
  ciphertext ← lift (Seal block nonce plaintext);
  mret (Ok (ephemeralPubBytes, ciphertext, nonce)).

Definition SignPayload (stellarSeed : string) (payload : bytes) : res error bytes :=
  try kp := keypair_ParseFull stellarSeed
    catch err => Err (wrap "invalid Stellar seed" err) in
  try sigBytes := keypair_Sign kp payload
    catch err => Err (wrap "failed to sign payload" err) in
  Ok sigBytes.

Definition GetAddressFromSeed (stellarSeed : string) : res error string :=
  try kp := keypair_ParseFull stellarSeed catch err => Err err in
  Ok (keypair_Address kp).

(** The client's copy of the node's derivation. *)
Definition client_hkdfInfo : string := "soroban-encrypt-share".

Definition client_DeriveAESKey (sharedSecret : bytes) : res error bytes :=
  hkdf_SHA256 sharedSecret [] (bytes_of client_hkdfInfo) 32.

(** ** Properties *)

Context {CL : CryptoLaws C}.

Lemma ECIESEncrypt_inv pkb p rnd e c n rnd' :
  ECIESEncrypt pkb p rnd = (Ret (Ok (e, c, n)), rnd') →
  ∃ pub k s, P256_NewPublicKey pkb = Ok pub ∧ e = pub_Bytes (PublicKey k) ∧
    ECDH k pub = Ok s ∧ Seal s n p = Ret c ∧ len n = 12 ∧ is_ok (aes_NewCipher s) = true.
Proof.
  unfold ECIESEncrypt. destruct (P256_NewPublicKey pkb) as [pub|]; [|done]. unfold_M.
  destruct (rand_GenerateKey rnd) as [[[k|]|] r1]; [|done..].
  destruct (ECDH k pub) as [s|] eqn:E1; [|done].
  destruct (aes_NewCipher s) as [blk|] eqn:E2; [|done].
  destruct (rand_ReadFull gcmNonceSize r1) as [[[n0|]|] r2] eqn:E3; [|done..].
  destruct (Seal blk n0 p) as [ct|] eqn:E4; [|done]. intros [= <- <- <- <-].
  apply rand_ReadFull_Ok in E3 as [Hl _]; [|by unfold gcmNonceSize].
  assert (blk = s) as -> by (unfold aes_NewCipher in E2; case_decide; congruence).
  exists pub, k, s. by rewrite E2.
Qed.

Lemma ECIESEncrypt_opens priv p rnd e c n rnd' :
  ECIESEncrypt (pub_Bytes (PublicKey priv)) p rnd = (Ret (Ok (e, c, n)), rnd') →
  DecryptShare priv e c n = Ret (Ok p).
Proof.
  intros (pub & k & s & Hp & -> & Hs & Hc & Hn & _)%ECIESEncrypt_inv.
  rewrite P256_NewPublicKey_Bytes in Hp. injection Hp as <-.
  destruct (ECDH_agree k priv) as (s' & H1 & H2 & Hl).
  rewrite H1 in Hs. injection Hs as <-.
  rewrite (DecryptShare_unfold _ _ _ _ _ _ (P256_NewPublicKey_Bytes _) H2 Hl).
  rewrite decide_True by done. unfold Seal in Hc. repeat case_decide; try done.
  injection Hc as <-. by rewrite gcm_Open_Seal.
Qed.

(** C17: client and node agree: the share the client seals for a node's
    published public key is what that node's [DecryptShare] gives back. *)
Theorem ECIES_node_opens priv p rnd e c n rnd' :
  ECIESEncrypt (pub_Bytes (PublicKey priv)) p rnd = (Ret (Ok (e, c, n)), rnd') →
  DecryptShare priv e c n = Ret (Ok p).
Proof. apply ECIESEncrypt_opens. Qed.

(** With 12 bytes of randomness after the ephemeral key, sealing succeeds. *)
Lemma ECIESEncrypt_ok priv p rnd k rnd1 :
  P256_GenerateKey rnd = Ok (k, rnd1) → 12 ≤ len rnd1 → len p ≤ gcmMaxPlain →
  ∃ e c n rnd', ECIESEncrypt (pub_Bytes (PublicKey priv)) p rnd = (Ret (Ok (e, c, n)), rnd') ∧
    e ≠ [] ∧ c ≠ [] ∧ len n = 12.
Proof.
  intros Hk Hr Hp. unfold ECIESEncrypt. rewrite P256_NewPublicKey_Bytes. unfold_M.
  unfold rand_GenerateKey. rewrite Hk.
  destruct (ECDH_agree k priv) as (s & -> & _ & Hl).
  unfold aes_NewCipher. rewrite decide_True by auto.
  destruct (rand_ReadFull_enough gcmNonceSize rnd1) as (n & r2 & -> & Hn & _);
    [unfold gcmNonceSize; lia|].
  rewrite Seal_ok by (unfold gcmNonceSize in *; done).
  do 4 eexists; split; [done|]. split; [apply pub_Bytes_nonempty|]. split; [|done].
  intros Hc. pose proof (len_gcm_Seal s n p) as Hs. rewrite Hc in Hs.
  pose proof (len_nonneg p). cbn in Hs. unfold len at 1 in Hs. simpl in Hs. lia.
Qed.

Lemma SymmetricDecrypt_of_Encrypt key p rnd c n rnd' :
  len key = 32 →
  SymmetricEncrypt key p rnd = (Ret (Ok (c, n)), rnd') →
  SymmetricDecrypt key c n = Ret (Ok p) ∧ len n = 12 ∧ len c = len p + 16.
Proof.
  intros Hk. unfold SymmetricEncrypt, SymmetricDecrypt, aes_NewCipher.
  rewrite decide_True by auto. unfold_M.
  destruct (rand_ReadFull gcmNonceSize rnd) as [[[n0|]|] r2] eqn:E3; [|done..].
  destruct (Seal key n0 p) as [ct|] eqn:E4; [|done]. intros [= <- <- <-].
  apply rand_ReadFull_Ok in E3 as [Hl _]; [|by unfold gcmNonceSize].
  split; [by eapply Open_Seal|]. split; [done|]. by eapply Seal_len.
Qed.

(** decrypting with the same key and nonce gives the file back. *)
Theorem SymmetricDecrypt_Encrypt key p rnd c n rnd' :
  len key = 32 →
  SymmetricEncrypt key p rnd = (Ret (Ok (c, n)), rnd') →
  SymmetricDecrypt key c n = Ret (Ok p) ∧ len n = 12 ∧ len c = len p + 16.
Proof. apply SymmetricDecrypt_of_Encrypt. Qed.

Lemma SymmetricEncrypt_ok key p rnd :
  len key = 32 → 12 ≤ len rnd → len p ≤ gcmMaxPlain →
  ∃ c n rnd', SymmetricEncrypt key p rnd = (Ret (Ok (c, n)), rnd').
Proof.
  intros Hk Hr Hp. unfold SymmetricEncrypt, aes_NewCipher. rewrite decide_True by auto. unfold_M.
  destruct (rand_ReadFull_enough gcmNonceSize rnd) as (n & r2 & -> & Hn & _);
    [unfold gcmNonceSize; lia|].
  rewrite Seal_ok by (unfold gcmNonceSize in *; done). eauto.
Qed.

(** a request signed with a seed passes the node's signature check under
    the address the client derives from that seed. *)
Theorem SignPayload_verifies seed m sig addr :
  SignPayload seed m = Ok sig → GetAddressFromSeed seed = Ok addr →
  VerifyStellarSignature addr m sig = Ok true.
Proof.
  unfold SignPayload, GetAddressFromSeed.
  destruct (keypair_ParseFull seed) as [kp|] eqn:Hk; [|done].
  destruct (keypair_Sign kp m) as [s|] eqn:Hs; [|done]. intros [= <-] [= <-].
  by eapply VerifyStellarSignature_accepts.
Qed.

(** Both copies of the key derivation agree, and give an AES-256 key. *)
Lemma DeriveAESKey_agree s :
  client_DeriveAESKey s = DeriveAESKey s ∧ ∃ k, DeriveAESKey s = Ok k ∧ len k = 32.
Proof. split; [done|]. by apply hkdf_SHA256_len. Qed.

End client_crypto.

(** ** Runs *)

#[local] Existing Instances ToyCrypto.crypto ToyCrypto.crypto_laws.

Lemma ECIES_node_opens_witness : ∃ e c n,
  ECIESEncrypt (pub_Bytes (PublicKey key_k)) (bytes_of "share") (replicate 44 "r"%char) =
    (Ret (Ok (e, c, n)), []) ∧
  DecryptShare key_k e c n = Ret (Ok (bytes_of "share")).
Proof.
  eexists _, _, _. split; [vm_compute; reflexivity|].
  eapply (ECIES_node_opens key_k (bytes_of "share") (replicate 44 "r"%char)).
  vm_compute. reflexivity.
Defined.

Lemma SymmetricDecrypt_Encrypt_witness : ∃ c n,
  SymmetricDecrypt (replicate 32 "k"%char) c n = Ret (Ok (bytes_of "file")) ∧ len n = 12 ∧
  len c = len (bytes_of "file") + 16.
Proof.
  eexists _, _. eapply (SymmetricDecrypt_Encrypt _ _ (replicate 12 "r"%char)); [reflexivity|].
  vm_compute. reflexivity.
Defined.
