(* ===== verification/Http.v ===== *)
(** * net/http

    The requests, response writers and handlers of the node's HTTP server, as
    far as the code touches them. *)

From S2P Require Import Prelude GoStrings Encoding Json JsonStruct JsonPrefix.

(** ** Requests *)

(** A request body: what is left to read, and the cap [MaxBytesReader] puts on
    it, if one is installed. *)
Record Body := mkBody { body_data : string; body_limit : option Z }.

(** [r.Header] is keyed by canonical names; a name may have several values. *)
Record Request := mkRequest {
  r_Method : string;
  r_Path : string;
  r_Host : string;
  r_RequestURI : string;
  r_Header : gmap string (list string);
  r_RemoteAddr : string;
  r_Body : option Body;
}.

(** [Header.Get]: the first value, or the empty string. *)
Definition Header_Get (h : gmap string (list string)) (k : string) : string :=
  default "" (h !! k ≫= head).

Definition MethodGet : string := "GET".
Definition MethodPost : string := "POST".
Definition MethodDelete : string := "DELETE".

(** The bytes a reader of the body sees, and how the stream ends.  A negative
    cap counts as zero. *)
Definition Body_read (b : Body) : string * stream_end :=
  match body_limit b with
  | None => (body_data b, AtEOF)
  | Some n =>
      let n := Z.max 0 n in
      if slen (body_data b) <=? n then (body_data b, AtEOF)
      else (string_of (splitZ n (bytes_of (body_data b))).1, ReadError)
  end.

(** [http.MaxBytesReader(w, r.Body, n)]; nested caps keep the smaller. *)
Definition MaxBytesReader (b : Body) (n : Z) : Body :=
  mkBody (body_data b)
    (Some (match body_limit b with None => n | Some m => Z.min (Z.max 0 m) (Z.max 0 n) end)).

(** [json.NewDecoder(r.Body).Decode(&t)]; the server always gives a handler a
    body, possibly empty. *)
Definition decode_body (b : option Body) : option json :=
  match b with
  | None => None
  | Some b => let '(s, e) := Body_read b in decode_stream s e
  end.

(** ** Responses *)

(** [rw_code] is the status once the header is written; the headers sent are
    those of that moment.  [rw_last] is the argument of the last call of
    [WriteHeader], which is what a wrapper of the writer sees. *)
Record RespWriter := mkResp {
  rw_header : gmap string string;
  rw_code : option Z;
  rw_sent : gmap string string;
  rw_body : string;
  rw_last : option Z;
}.

Definition new_resp : RespWriter := mkResp ∅ None ∅ "" None.

Definition Header_Set (k v : string) (w : RespWriter) : RespWriter :=
  mkResp (<[k := v]> (rw_header w)) (rw_code w) (rw_sent w) (rw_body w) (rw_last w).

Definition Header_Del (k : string) (w : RespWriter) : RespWriter :=
  mkResp (delete k (rw_header w)) (rw_code w) (rw_sent w) (rw_body w) (rw_last w).

Definition set_last (c : option Z) (w : RespWriter) : RespWriter :=
  mkResp (rw_header w) (rw_code w) (rw_sent w) (rw_body w) c.

(** The header goes out once. *)
Definition send_header (code : Z) (w : RespWriter) : RespWriter :=
  match rw_code w with
  | Some _ => w
  | None => mkResp (rw_header w) (Some code) (rw_header w) (rw_body w) (rw_last w)
  end.

(** A second [WriteHeader] is ignored. *)
Definition WriteHeader (code : Z) (w : RespWriter) : RespWriter :=
  set_last (Some code) (send_header code w).

(** Writing before [WriteHeader] sends status 200. *)
Definition Write (s : string) (w : RespWriter) : RespWriter :=
  let w := send_header 200 w in
  mkResp (rw_header w) (rw_code w) (rw_sent w) (rw_body w +:+ s) (rw_last w).

(** [http.Error]. *)
Definition http_Error (msg : string) (code : Z) (w : RespWriter) : RespWriter :=
  let w := Header_Del "Content-Length" w in
  let w := Header_Set "Content-Type" "text/plain; charset=utf-8" w in
  let w := Header_Set "X-Content-Type-Options" "nosniff" w in
  Write (msg +:+ str1 "010"%char) (WriteHeader code w).

Definition StatusOK : Z := 200.
Definition StatusMovedPermanently : Z := 301.
Definition StatusBadRequest : Z := 400.
Definition StatusUnauthorized : Z := 401.
Definition StatusForbidden : Z := 403.
Definition StatusNotFound : Z := 404.
Definition StatusMethodNotAllowed : Z := 405.
Definition StatusConflict : Z := 409.
Definition StatusTooManyRequests : Z := 429.
Definition StatusInternalServerError : Z := 500.
Definition StatusServiceUnavailable : Z := 503.
Definition StatusLoopDetected : Z := 508.

(** The status the client sees once the handler has returned: a handler that
    wrote nothing answers 200. *)
Definition final_code (w : RespWriter) : Z := default 200 (rw_code w).

(** ** Handlers

    A handler runs on the program's state and a response writer. *)

Definition Handler (S : Type) : Type := Request → M (S * RespWriter) unit.

(** Middleware: [func(http.Handler) http.Handler]. *)
Abbreviation Middleware S := (Handler S → Handler S).

Section handler_code.
Context {S : Type}.

Definition on_state {A} (m : M S A) : M (S * RespWriter) A :=
  zoom fst (λ s st, (s, st.2)) m.

Definition on_resp (f : RespWriter → RespWriter) : M (S * RespWriter) unit :=
  modify (λ st, (st.1, f st.2)).

(** [http.Error(w, msg, code); return]. *)
Definition fail_with (msg : string) (code : Z) : M (S * RespWriter) unit :=
  on_resp (http_Error msg code).

(** [json.NewEncoder(w).Encode(v)]: writing to a response does not fail here. *)
Definition encode_json (v : json) : M (S * RespWriter) unit := on_resp (Write (Encode v)).

(** One request served from state [s]: what became of the handler, the state
    after it, and the response.  [net/http] recovers a panic and drops the
    connection; the state keeps what was written before it. *)
Definition serve (h : Handler S) (r : Request) (s : S) : outcome unit * S * RespWriter :=
  let '(o, (s', w)) := h r (s, new_resp) in (o, s', w).

(** The status of the reply; [None] when the connection was dropped. *)
Definition reply_code (h : Handler S) (r : Request) (s : S) : option Z :=
  match serve h r s with
  | (Ret _, _, w) => Some (final_code w)
  | (Panic _, _, _) => None
  end.

Definition state_after (h : Handler S) (r : Request) (s : S) : S := (serve h r s).1.2.

(** Requests served one after the other. *)
Fixpoint serve_all (h : Handler S) (rs : list Request) (s : S) : S :=
  match rs with
  | [] => s
  | r :: rs' => serve_all h rs' (state_after h r s)
  end.

(** Running the first statement of a handler. *)
Lemma bind_on_state {A B} (m : M S A) (f : A → M (S * RespWriter) B) s w a s' :
  m s = (Ret a, s') → (on_state m ≫= f) (s, w) = f a (s', w).
Proof. intros H. unfold on_state. unfold_M. cbn [fst snd]. by rewrite H. Qed.

Lemma bind_get_state {B} (f : S → M (S * RespWriter) B) s w :
  (on_state get_st ≫= f) (s, w) = f s (s, w).
Proof. reflexivity. Qed.

Lemma bind_on_resp {B} g (f : unit → M (S * RespWriter) B) s w :
  (on_resp g ≫= f) (s, w) = f tt (s, g w).
Proof. reflexivity. Qed.

Lemma fail_with_eq msg code s w :
  fail_with msg code (s, w) = (Ret tt, (s, http_Error msg code w)).
Proof. reflexivity. Qed.

Lemma on_state_eq {A} (m : M S A) s w o s' :
  m s = (o, s') → on_state m (s, w) = (o, (s', w)).
Proof. intros H. unfold on_state, zoom. cbn [fst snd]. by rewrite H. Qed.

Lemma serve_all_app h rs rs' s :
  serve_all h (rs ++ rs') s = serve_all h rs' (serve_all h rs s).
Proof. revert s; induction rs as [|r rs IH]; intros s; cbn; [done|]. apply IH. Qed.

(** An invariant kept by every request is kept by every sequence of them. *)
Lemma serve_all_invariant (P : S → Prop) h rs s :
  (∀ r s, P s → P (state_after h r s)) → P s → P (serve_all h rs s).
Proof. intros Hh. revert s; induction rs as [|r rs IH]; intros s Hs; cbn; auto. Qed.

End handler_code.

Lemma http_Error_code msg code w :
  rw_code w = None → final_code (http_Error msg code w) = code.
Proof. unfold http_Error, Write, WriteHeader, send_header, final_code. cbn. by intros ->. Qed.

Lemma Body_read_complete b s :
  Body_read b = (s, AtEOF) → s = body_data b.
Proof. unfold Body_read. repeat case_match; naive_solver. Qed.

(** A cap that the body does not exceed changes nothing. *)
Lemma MaxBytesReader_read d n :
  slen d ≤ n → Body_read (MaxBytesReader (mkBody d None) n) = (d, AtEOF).
Proof.
  intros Hn. unfold Body_read, MaxBytesReader. cbn.
  rewrite (proj2 (Z.leb_le _ _)); [done|]. lia.
Qed.

Lemma decode_body_render v :
  wf v → (depth v ≤ maxNestingDepth)%N → decode_body (Some (mkBody (render v) None)) = Some v.
Proof. intros W Hd. cbn. by apply (decode_stream_Encode v AtEOF). Qed.

(** A written value is decoded from a capped body when it fits, and refused
    when it does not: what is left of it is no value. *)
Lemma decode_body_capped v n :
  wf v → (depth v ≤ maxNestingDepth)%N →
  decode_body (Some (MaxBytesReader (mkBody (render v) None) n)) =
    if decide (slen (render v) ≤ Z.max 0 n) then Some v else None.
Proof.
  intros W Hd. unfold decode_body, Body_read, MaxBytesReader. cbn [body_limit body_data].
  destruct (Z.leb_spec (slen (render v)) (Z.max 0 n)) as [Hn|Hn].
  - rewrite decide_True by done. by apply (decode_stream_Encode v AtEOF).
  - rewrite decide_False by lia.
    apply (decode_stream_prefix v _ (string_of (splitZ (Z.max 0 n) (bytes_of (render v))).2)); try done.
    + apply (inj bytes_of). by rewrite bytes_of_app, !bytes_of_string_of, splitZ_app.
    + intros H. apply (f_equal bytes_of) in H. rewrite bytes_of_string_of in H.
      pose proof (splitZ_len (Z.max 0 n) (bytes_of (render v)) ltac:(lia)) as Hl.
      assert (len (bytes_of (render v)) = slen (render v)) as Hb
        by (unfold len, slen; by rewrite length_bytes_of).
      pose proof (splitZ_app (Z.max 0 n) (bytes_of (render v))) as Ha. rewrite H, app_nil_r in Ha.
      rewrite Ha, Hb in Hl. lia.
Qed.
