(* ===== verification/SorobanTx.v ===== *)
(** * Transaction checks of [/retrieve] ([node/main.go])

    [verifySorobanTx] checks that the caller's transaction envelope is one
    call of [approve] on the object's contract, sent by the caller;
    [simulateSorobanTx] asks the Soroban RPC node whether it would succeed.

    Stellar's [xdr] package is third-party: the structs appear here with the
    fields the code reads or builds, and decoding an envelope and rendering an
    address are the interface [Xdr]. *)

From S2P Require Import Prelude GoStrings Encoding Json JsonStruct Crypto.

(** ** XDR data *)

Inductive EnvelopeType := EnvelopeTypeTx | EnvelopeTypeOther (name : string).
Inductive ScAddressType :=
| ScAddressTypeContract
| ScAddressTypeAccount
| ScAddressTypeOther (name : string).

Class Xdr := {
  MuxedAccount : Type;
  AccountId : Type;
  Muxed_GetAddress : MuxedAccount → res error string;
  AccountId_GetAddress : AccountId → res error string;
  (** Constructors the client uses: the account of an address or of a key. *)
  Muxed_of_address : string → MuxedAccount;
  AccountId_of_ed25519 : bytes → AccountId;
}.

Section xdr_data.
Context {X : Xdr}.

Record ScAddress := mkScAddress {
  sa_Type : ScAddressType;
  sa_ContractId : option bytes;
  sa_AccountId : option AccountId;
}.

(** The [ScVal] shapes the client builds; any other value is opaque. *)
Inductive ScVal :=
| ScvBytes (b : bytes)
| ScvAddress (a : ScAddress)
| ScvOther (xdr : bytes).

Record InvokeContractArgs := mkInvoke {
  ic_ContractAddress : ScAddress;
  ic_FunctionName : string;
  ic_Args : list ScVal;
}.

(** [hf_is_invoke]: the type is [HostFunctionTypeInvokeContract]. *)
Record HostFunction := mkHostFunction {
  hf_is_invoke : bool;
  hf_InvokeContract : option InvokeContractArgs;
}.

(** An operation body is an invocation of a host function or something else. *)
Inductive Operation :=
| OpInvokeHostFunction (f : HostFunction)
| OpOther (xdr : bytes).

Definition GetInvokeHostFunctionOp (op : Operation) : option HostFunction :=
  match op with OpInvokeHostFunction f => Some f | OpOther _ => None end.

Record Transaction := mkTx {
  tx_SourceAccount : MuxedAccount;
  tx_Operations : list Operation;
}.

Record TransactionEnvelope := mkEnvelope {
  env_Type : EnvelopeType;
  env_V1 : option Transaction;
}.

End xdr_data.

Class XdrCodec (X : Xdr) := {
  SafeUnmarshalBase64 : string → res error TransactionEnvelope;
  (** [txnbuild.NewTransaction] of one operation, and [tx.Base64] *)
  txnbuild_Transaction : Type;
  NewTransaction : string → Operation → res error txnbuild_Transaction;
  tx_Base64 : txnbuild_Transaction → res error string;
}.

Class XdrLaws (C : Crypto) (X : Xdr) (XC : XdrCodec X) : Prop := {
  (** An account's address is the strkey of its key. *)
  Muxed_GetAddress_of a k :
    strkey_Decode VersionByteAccountID a = Ok k → Muxed_GetAddress (Muxed_of_address a) = Ok a;
  AccountId_GetAddress_of a k :
    strkey_Decode VersionByteAccountID a = Ok k → len k = 32 →
    AccountId_GetAddress (AccountId_of_ed25519 k) = Ok a;
  (** The base64 form of a built transaction decodes to it. *)
  Base64_Unmarshal src op tx s : NewTransaction src op = Ok tx → tx_Base64 tx = Ok s →
    SafeUnmarshalBase64 s =
    Ok (mkEnvelope EnvelopeTypeTx (Some (mkTx (Muxed_of_address src) [op])));
  (** Only base64 text decodes. *)
  Unmarshal_Utf8 s env : SafeUnmarshalBase64 s = Ok env → Utf8 s;
}.

(** ** verifySorobanTx *)

Section verify.
Context {C : Crypto} {X : Xdr} {XC : XdrCodec X}.

Definition EnvelopeType_string (t : EnvelopeType) : string :=
  match t with EnvelopeTypeTx => "EnvelopeTypeEnvelopeTypeTx" | EnvelopeTypeOther n => n end.

Definition ScAddressType_string (t : ScAddressType) : string :=
  match t with
  | ScAddressTypeContract => "ScAddressTypeScAddressTypeContract"
  | ScAddressTypeAccount => "ScAddressTypeScAddressTypeAccount"
  | ScAddressTypeOther n => n
  end.

Definition getTxSourceAndOps (env : TransactionEnvelope) :
    res error (MuxedAccount * list Operation) :=
  match env_Type env with
  | EnvelopeTypeTx =>
      match env_V1 env with
      | None => Err "V1 envelope is nil"
      | Some tx => Ok (tx_SourceAccount tx, tx_Operations tx)
      end
  | t => Err ("unsupported transaction envelope type (only V1 Tx is supported for Soroban): "
              +:+ EnvelopeType_string t)
  end.

(** The contract address of an invocation, as a strkey. *)
Definition contract_address (a : ScAddress) : res error string :=
  match sa_Type a with
  | ScAddressTypeContract =>
      match sa_ContractId a with
      | None => Err "contract ID is nil"
      | Some cId => map_err (wrap "failed to encode contract address")
                      (strkey_Encode VersionByteContract cId)
      end
  | ScAddressTypeAccount =>
      match sa_AccountId a with
      | None => Err "account ID is nil"
      | Some accId => map_err (wrap "failed to get account address") (AccountId_GetAddress accId)
      end
  | t => Err ("unknown ScAddress type: " +:+ ScAddressType_string t)
  end.

(** [verifySorobanTx]: [Ok tt] is a nil error. *)
Definition verifySorobanTx (txXdr contractID expectedFunc sourceAccount : string) :
    res error unit :=
  try env := SafeUnmarshalBase64 txXdr
    catch err => Err (wrap "failed to unmarshal transaction XDR" err) in
  try so := getTxSourceAndOps env
    catch err => Err (wrap "failed to extract transaction details" err) in
  let '(sourceMuxed, operations) := so in
  try sourceAddr := Muxed_GetAddress sourceMuxed
    catch err => Err (wrap "failed to get source address" err) in
  if decide (sourceAddr ≠ sourceAccount) then
    Err ("transaction source account " +:+ sourceAddr +:+ " does not match expected caller "
         +:+ sourceAccount)
  else
  match operations with
  | [op] =>
      match GetInvokeHostFunctionOp op with
      | None => Err "operation is not a Soroban InvokeHostFunction operation"
      | Some fn =>
          if negb (hf_is_invoke fn) then Err "host function is not an InvokeContract type"
          else
          match hf_InvokeContract fn with
          | None => Err "invoke contract arguments are nil"
          | Some invokeArgs =>
              try contractAddr := contract_address (ic_ContractAddress invokeArgs)
                catch err => Err err in
              if decide (contractAddr ≠ contractID) then
                Err ("contract address " +:+ contractAddr +:+ " does not match expected contract "
                     +:+ contractID)
              else if decide (ic_FunctionName invokeArgs ≠ expectedFunc) then
                Err ("function " +:+ ic_FunctionName invokeArgs
                     +:+ " does not match expected function " +:+ expectedFunc)
              else Ok tt
          end
      end
  | _ => Err "transaction must contain exactly one operation"
  end.

(** What an accepted envelope is: one invocation of [f] on [c] from [src]. *)
Definition calls (env : TransactionEnvelope) (c f src : string) : Prop :=
  ∃ m fn args,
    env_Type env = EnvelopeTypeTx ∧
    env_V1 env = Some (mkTx m [OpInvokeHostFunction fn]) ∧
    Muxed_GetAddress m = Ok src ∧
    hf_is_invoke fn = true ∧ hf_InvokeContract fn = Some args ∧
    contract_address (ic_ContractAddress args) = Ok c ∧
    ic_FunctionName args = f.

Lemma verifySorobanTx_calls txXdr c f src :
  verifySorobanTx txXdr c f src = Ok tt ↔
  ∃ env, SafeUnmarshalBase64 txXdr = Ok env ∧ calls env c f src.
Proof.
  unfold verifySorobanTx, calls. split.
  - destruct (SafeUnmarshalBase64 txXdr) as [env|] eqn:E1; [|done].
    unfold getTxSourceAndOps. destruct (env_Type env) eqn:E2; [|done].
    destruct (env_V1 env) as [[m ops]|] eqn:E3; [|done]. cbn [tx_SourceAccount tx_Operations].
    destruct (Muxed_GetAddress m) as [a|] eqn:E4; [|done].
    case_decide as E5; [done|]. destruct ops as [|[fn|] [|]]; try done. cbn.
    destruct (hf_is_invoke fn) eqn:E6; [|done]. cbn.
    destruct (hf_InvokeContract fn) as [args|] eqn:E7; [|done].
    destruct (contract_address _) as [ca|] eqn:E8; [|done].
    case_decide as E9; [done|]. case_decide as E10; [done|]. intros _.
    exists env. split; [done|]. exists m, fn, args. by subst.
  - intros (env & -> & m & fn & args & H1 & H2 & H3 & H4 & H5 & H6 & H7).
    unfold getTxSourceAndOps. rewrite H1, H2. cbn [tx_SourceAccount tx_Operations].
    rewrite H3, decide_False by tauto. cbn. rewrite H4, H5. cbn.
    rewrite H6, H7. by rewrite !decide_False by tauto.
Qed.

(** C11: [verifySorobanTx] accepts exactly the envelopes that decode to a
    V1 transaction from the expected account with a single operation, the
    invocation of the expected function of the expected contract.  (The
    arguments of the call are no part of it.) *)
Theorem verifySorobanTx_ok_iff txXdr c f src :
  verifySorobanTx txXdr c f src = Ok tt ↔
  ∃ env, SafeUnmarshalBase64 txXdr = Ok env ∧ calls env c f src.
Proof. apply verifySorobanTx_calls. Qed.

End verify.

(** ** simulateSorobanTx *)

(** A reply of the RPC node; reading its body may fail. *)
Record HttpResponse := mkHttpResponse {
  resp_StatusCode : Z;
  resp_Body : res error string;
}.

(** [http.Post]: URL, content type, body. *)
Definition Post : Type := string → string → string → res error HttpResponse.

Record SimulateResult := mkSimResult { sim_res_Error : string; sim_res_XDR : string }.
Record RPCError := mkRPCError { rpc_Code : Z; rpc_Message : string }.

(** [SimulateResponse], its nested structs by field. *)
Record SimulateResponse := mkSimulate {
  sim_Error : string;
  sim_Results : list SimulateResult;
  sim_RPCError : option RPCError;
}.

Definition sim_result_table : table SimulateResult :=
  [("error", λ v t, e ← as_string v (sim_res_Error t); Some (mkSimResult e (sim_res_XDR t)));
   ("xdr", λ v t, x ← as_string v (sim_res_XDR t); Some (mkSimResult (sim_res_Error t) x))].

Definition rpc_error_table : table RPCError :=
  [("code", λ v t, c ← as_int v (rpc_Code t); Some (mkRPCError c (rpc_Message t)));
   ("message", λ v t, m ← as_string v (rpc_Message t); Some (mkRPCError (rpc_Code t) m))].

(** The fields of the anonymous [Result] struct. *)
Definition sim_inner_table : table SimulateResponse :=
  [("error", λ v t, e ← as_string v (sim_Error t);
      Some (mkSimulate e (sim_Results t) (sim_RPCError t)));
   ("results", λ v t,
      l ← as_list (λ x, decode_struct sim_result_table x (mkSimResult "" "")) v (sim_Results t);
      Some (mkSimulate (sim_Error t) l (sim_RPCError t)))].

Definition sim_table : table SimulateResponse :=
  [("result", λ v t, decode_struct sim_inner_table v t);
   ("error", λ v t,
      match v with
      | JNull => Some (mkSimulate (sim_Error t) (sim_Results t) None)
      | _ => e ← decode_struct rpc_error_table v (default (mkRPCError 0 "") (sim_RPCError t));
             Some (mkSimulate (sim_Error t) (sim_Results t) (Some e))
      end)].

Definition Unmarshal_simulate (s : string) : option SimulateResponse :=
  v ← Unmarshal s; decode_struct sim_table v (mkSimulate "" [] None).

(** The JSON-RPC request: struct fields in order, then the parameter map. *)
Definition simulate_request (txXdr : string) : json :=
  JObj [("jsonrpc", JStr "2.0"); ("id", JNum (Itoa 1));
        ("method", JStr "simulateTransaction");
        ("params", JObj [("transaction", JStr txXdr)])].

(** The verdict on a parsed reply. *)
Definition simulate_verdict (rpcResp : SimulateResponse) : res error bool :=
  match sim_RPCError rpcResp with
  | Some e => Err ("Soroban RPC returned error: " +:+ rpc_Message e +:+ " (code "
                   +:+ Itoa (rpc_Code e) +:+ ")")
  | None =>
      if decide (sim_Error rpcResp ≠ "") then Ok false
      else if 0 <? len (sim_Results rpcResp) then
        if existsb (λ r, negb (bool_decide (sim_res_Error r = ""))) (sim_Results rpcResp)
        then Ok false else Ok true
      else Err "simulation returned no results"
  end.

Definition simulateSorobanTx (post : Post) (sorobanRPCURL txXdr : string) : res error bool :=
  let reqBody := render (simulate_request txXdr) in
  try resp := post sorobanRPCURL "application/json" reqBody
    catch err => Err (wrap "Soroban RPC call failed" err) in
  try body := resp_Body resp catch err => Err err in
  match Unmarshal_simulate body with
  | None => Err (wrap "failed to parse RPC response" "json")
  | Some rpcResp => simulate_verdict rpcResp
  end.

Lemma simulate_verdict_true r :
  simulate_verdict r = Ok true ↔
  sim_RPCError r = None ∧ sim_Error r = "" ∧ sim_Results r ≠ [] ∧
  Forall (λ x, sim_res_Error x = "") (sim_Results r).
Proof.
  unfold simulate_verdict. destruct (sim_RPCError r); [naive_solver|].
  case_decide as E; [naive_solver|].
  destruct (sim_Results r) as [|x l] eqn:El; [cbn; naive_solver|].
  rewrite (proj2 (Z.ltb_lt _ _)) by (rewrite len_cons; pose proof (len_nonneg l); lia).
  rewrite <- El. destruct (existsb _ _) eqn:Ex.
  - split; [done|]. intros (_ & _ & _ & Hf). apply existsb_exists in Ex as (y & Hy & Hn).
    rewrite Forall_forall in Hf. apply list_elem_of_In in Hy. apply Hf in Hy.
    by rewrite bool_decide_eq_true_2 in Hn.
  - split; [|done]. intros _. split; [done|]. split; [done|]. split; [by rewrite El|].
    apply Forall_forall. intros y Hy%list_elem_of_In.
    destruct (decide (sim_res_Error y = "")) as [|Hn]; [done|].
    assert (existsb (λ r, negb (bool_decide (sim_res_Error r = ""))) (sim_Results r) = true)
      as Hc; [|congruence].
    apply existsb_exists. exists y. split; [done|]. by rewrite bool_decide_eq_false_2.
Qed.

(** C12: a simulation counts as success exactly when the RPC node's reply
    parses, reports no RPC error, no execution error, and at least one result,
    none of which has an error.  (The HTTP status of the reply is not looked
    at.) *)
Theorem simulateSorobanTx_true_iff post url txXdr :
  simulateSorobanTx post url txXdr = Ok true ↔
  ∃ code body r,
    post url "application/json" (render (simulate_request txXdr)) = Ok (mkHttpResponse code (Ok body)) ∧
    Unmarshal_simulate body = Some r ∧
    sim_RPCError r = None ∧ sim_Error r = "" ∧ sim_Results r ≠ [] ∧
    Forall (λ x, sim_res_Error x = "") (sim_Results r).
Proof.
  unfold simulateSorobanTx.
  destruct (post _ _ _) as [[code [body|e]]|e]; cbn; [|split; [done|naive_solver]..].
  destruct (Unmarshal_simulate body) as [r|] eqn:E.
  - rewrite simulate_verdict_true. split; [intros; by exists code, body, r|].
    intros (? & ? & ? & [= <- <-] & Hr & ?). by simplify_eq.
  - split; [done|]. intros (? & ? & ? & [= <- <-] & Hr & ?). congruence.
Qed.

(** ** A concrete codec

    Envelopes of [approve]-shaped calls as JSON arrays of base64 text; the
    witnesses and examples run on it. *)

Module ToyXdr.

#[export] Instance xdr : Xdr := {|
  MuxedAccount := string;
  AccountId := bytes;
  Muxed_GetAddress a := Ok a;
  AccountId_GetAddress := ToyCrypto.strkey_enc VersionByteAccountID;
  Muxed_of_address a := a;
  AccountId_of_ed25519 k := k;
|}.

Definition b64 (s : bytes) : json := JStr (Base64.EncodeToString s).

Definition call_op (cid : bytes) (f : string) (oid k : bytes) : Operation :=
  OpInvokeHostFunction (mkHostFunction true (Some (mkInvoke
    (mkScAddress ScAddressTypeContract (Some cid) None) f
    [ScvBytes oid; ScvAddress (mkScAddress ScAddressTypeAccount None (Some k))]))).

Definition build (src : string) (op : Operation) : res error string :=
  match op with
  | OpInvokeHostFunction (mkHostFunction true (Some (mkInvoke
      (mkScAddress ScAddressTypeContract (Some cid) None) f
      [ScvBytes oid; ScvAddress (mkScAddress ScAddressTypeAccount None (Some k))]))) =>
      Ok (render (JArr [b64 (bytes_of src); b64 cid; b64 (bytes_of f); b64 oid; b64 k]))
  | _ => Err "unsupported"
  end.

Definition unb64 (v : json) : option bytes :=
  match v with JStr s => Base64.DecodeString s | _ => None end.

Definition unmarshal (s : string) : res error TransactionEnvelope :=
  match v ← Unmarshal s; match v with JArr l => mapM unb64 l | _ => None end with
  | Some [src; cid; f; oid; k] =>
      Ok (mkEnvelope EnvelopeTypeTx
            (Some (mkTx (string_of src) [call_op cid (string_of f) oid k])))
  | _ => Err "xdr: cannot decode"
  end.

#[export] Instance codec : XdrCodec xdr := {|
  SafeUnmarshalBase64 s :=
    match Base64.DecodeString s with
    | Some b => unmarshal (string_of b)
    | None => Err "base64: cannot decode"
    end;
  txnbuild_Transaction := string;
  NewTransaction := build;
  tx_Base64 s := Ok (Base64.EncodeToString (bytes_of s));
|}.

Lemma unmarshal_build src cid f oid k :
  unmarshal (render (JArr [b64 (bytes_of src); b64 cid; b64 (bytes_of f); b64 oid; b64 k])) =
  Ok (mkEnvelope EnvelopeTypeTx (Some (mkTx src [call_op cid f oid k]))).
Proof.
  unfold unmarshal. rewrite Unmarshal_render.
  - cbn -[Base64.DecodeString]. rewrite !Base64.decode_encode. cbn.
    by rewrite !string_of_bytes_of.
  - unfold b64. cbn. repeat split; auto using Utf8_base64.
  - vm_compute. done.
Qed.

#[export] Instance laws : XdrLaws ToyCrypto.crypto xdr codec.
Proof.
  split; [done|intros a k Hk _; by apply ToyCrypto.strkey_dec_enc| |].
  2: { intros s env. cbn. destruct (Base64.DecodeString s) as [b|] eqn:E; [|done]. intros _.
       by eapply Utf8_of_base64. }
  intros src op tx s H [= <-]. cbn -[Base64.DecodeString Base64.EncodeToString].
  rewrite Base64.decode_encode, string_of_bytes_of. cbn in H. unfold build in H.
  repeat case_match; simplify_eq. apply unmarshal_build.
Qed.

End ToyXdr.
