(* ===== verification/Contract.v ===== *)
(** * The allowlist contract ([contract/src/lib.rs])

    The Soroban contract the nodes ask about a caller: its storage, its five
    entry points, and the transactions of a ledger that call them.  An address
    is its text form (strkey); a panic rolls the transaction back.  Who has
    authorised a transaction is given. *)

From S2P Require Import Prelude GoStrings Encoding Json JsonStruct Crypto SorobanTx.

Definition Address : Type := string.

(** ** Storage *)

Inductive DataKey := Admin | AllowedUser (a : Address) | Name.

#[export] Instance DataKey_eq_dec : EqDecision DataKey.
Proof. solve_decision. Defined.

#[export] Instance DataKey_countable : Countable DataKey.
Proof.
  refine (inj_countable'
    (λ k, match k with Admin => inl tt | AllowedUser a => inr (Some a) | Name => inr None end)
    (λ x, match x with inl _ => Admin | inr (Some a) => AllowedUser a | inr None => Name end) _).
  by intros [].
Defined.

Inductive StoredVal := VAddress (a : Address) | VBytes (b : bytes) | VBool (b : bool).

(** [env.storage().instance()] and [env.storage().persistent()]. *)
Record Storage := mkStorage {
  instance : gmap DataKey StoredVal;
  persistent : gmap DataKey StoredVal;
}.

Definition empty_storage : Storage := mkStorage ∅ ∅.

Definition set_instance (k : DataKey) (v : StoredVal) : M Storage unit :=
  modify (λ s, mkStorage (<[k := v]> (instance s)) (persistent s)).
Definition set_persistent (k : DataKey) (v : StoredVal) : M Storage unit :=
  modify (λ s, mkStorage (instance s) (<[k := v]> (persistent s))).
Definition remove_persistent (k : DataKey) : M Storage unit :=
  modify (λ s, mkStorage (instance s) (delete k (persistent s))).

(** ** Entry points *)

Definition init_contract (admin : Address) (name : bytes) : M Storage unit :=
  s ← get_st;
  if decide (is_Some (instance s !! Admin)) then throw "Already initialized"
  else
    _ ← set_instance Admin (VAddress admin);
    set_instance Name (VBytes name).

(** [get(&DataKey::Admin).expect("Not initialized")]; a value of another type
    does not convert. *)
Definition get_admin : M Storage Address :=
  s ← get_st;
  match instance s !! Admin with
  | Some (VAddress a) => mret a
  | Some _ => throw "ConversionError"
  | None => throw "Not initialized"
  end.

Section authorised.
(** Who has authorised the transaction. *)
Context (signed : Address → bool).

Definition require_auth (a : Address) : M Storage unit :=
  if signed a then mret tt else throw "Error(Auth, InvalidAction)".

Definition add (account : Address) : M Storage unit :=
  admin ← get_admin;
  _ ← require_auth admin;
  set_persistent (AllowedUser account) (VBool true).

Definition remove (account : Address) : M Storage unit :=
  admin ← get_admin;
  _ ← require_auth admin;
  remove_persistent (AllowedUser account).

End authorised.

Definition is_allowed (account : Address) : M Storage bool :=
  s ← get_st;
  mret (bool_decide (is_Some (persistent s !! AllowedUser account))).

Definition approve (_id : bytes) (caller : Address) : M Storage unit :=
  ok ← is_allowed caller;
  if negb ok then throw "ENoAccess" else mret tt.

(** ** Transactions *)

Inductive contract_call :=
| CallInit (admin : Address) (name : bytes)
| CallAdd (account : Address)
| CallRemove (account : Address)
| CallIsAllowed (account : Address)
| CallApprove (id : bytes) (caller : Address).

Definition run_call (signed : Address → bool) (c : contract_call) : M Storage unit :=
  match c with
  | CallInit admin name => init_contract admin name
  | CallAdd account => add signed account
  | CallRemove account => remove signed account
  | CallIsAllowed account => _ ← is_allowed account; mret tt
  | CallApprove id caller => approve id caller
  end.

(** A transaction that panics leaves the ledger as it was. *)
Definition exec (tx : (Address → bool) * contract_call) (s : Storage) : Storage :=
  match run_call tx.1 tx.2 s with
  | (Ret _, s') => s'
  | (Panic _, _) => s
  end.

Definition exec_all (txs : list ((Address → bool) * contract_call)) (s : Storage) : Storage :=
  foldl (λ s tx, exec tx s) s txs.

(** ** Properties *)

(** The accounts on the list, and the admin. *)
Definition allowed (s : Storage) (a : Address) : Prop := is_Some (persistent s !! AllowedUser a).
Definition admin_of (s : Storage) (a : Address) : Prop := instance s !! Admin = Some (VAddress a).

#[export] Instance allowed_dec s a : Decision (allowed s a).
Proof. unfold allowed. apply _. Defined.

Lemma approve_eq id a s :
  approve id a s = (if decide (allowed s a) then Ret tt else Panic "ENoAccess", s).
Proof.
  unfold approve, is_allowed. unfold_M. unfold allowed.
  destruct (decide (is_Some (persistent s !! AllowedUser a))) as [H|H].
  - by rewrite bool_decide_eq_true_2.
  - by rewrite bool_decide_eq_false_2.
Qed.

Lemma get_admin_eq s a : admin_of s a → get_admin s = (Ret a, s).
Proof. unfold get_admin, admin_of. unfold_M. by intros ->. Qed.

(** What one transaction does to a contract whose admin is [a]. *)
Lemma exec_cases a tx s :
  admin_of s a →
  admin_of (exec tx s) a ∧
  (exec tx s = s ∨
   tx.1 a = true ∧
   ((∃ u, tx.2 = CallAdd u ∧ persistent (exec tx s) = <[AllowedUser u := VBool true]> (persistent s)) ∨
    (∃ u, tx.2 = CallRemove u ∧ persistent (exec tx s) = delete (AllowedUser u) (persistent s)))).
Proof.
  intros Ha. destruct tx as [signed [admin name|u|u|u|id u]]; unfold exec, run_call; cbn [fst snd].
  - unfold init_contract. unfold_M. rewrite decide_True by (by eexists). auto.
  - unfold add. unfold_M. rewrite (get_admin_eq _ _ Ha). unfold require_auth.
    destruct (signed a) eqn:E; [|auto]. cbn. split; [done|]. right. split; [done|]. left. eauto.
  - unfold remove. unfold_M. rewrite (get_admin_eq _ _ Ha). unfold require_auth.
    destruct (signed a) eqn:E; [|auto]. cbn. split; [done|]. right. split; [done|]. right. eauto.
  - auto.
  - rewrite approve_eq. case_decide; auto.
Qed.

(** Once there is an admin it stays. *)
Lemma exec_all_admin a txs s : admin_of s a → admin_of (exec_all txs s) a.
Proof.
  revert s. induction txs as [|tx txs IH]; intros s Ha; [done|]. cbn. apply IH.
  by apply exec_cases.
Qed.

(** C13: only the admin changes the list.  Whatever transactions follow, an
    account that is on the list at the end was on it at the start or was added
    in a transaction that the admin authorised, and one that has gone was
    removed in such a transaction; the admin stays the same. *)
Theorem allowlist_by_admin a txs s u :
  admin_of s a →
  admin_of (exec_all txs s) a ∧
  (allowed (exec_all txs s) u → ¬ allowed s u → ∃ signed, (signed, CallAdd u) ∈ txs ∧ signed a = true) ∧
  (¬ allowed (exec_all txs s) u → allowed s u →
     ∃ signed, (signed, CallRemove u) ∈ txs ∧ signed a = true).
Proof.
  intros Ha. split; [by apply exec_all_admin|]. revert s Ha.
  induction txs as [|[signed c] txs IH]; intros s Ha; [done|]. cbn [exec_all foldl].
  destruct (exec_cases a (signed, c) s Ha) as [Ha' Hc]. cbn [fst snd] in Hc. destruct (IH _ Ha') as [IH1 IH2].
  split; intros H1 H2.
  - destruct (decide (allowed (exec (signed, c) s) u)) as [Hu|Hu].
    + destruct Hc as [Hc|(Hs & [(v & -> & Hp)|(v & -> & Hp)])]; cbn [fst snd] in *.
      * by rewrite Hc in Hu.
      * exists signed. split; [|done]. unfold allowed in Hu. rewrite Hp in Hu.
        apply lookup_insert_is_Some in Hu as [[= ->]|[_ Hu]]; [by left|done].
      * unfold allowed in Hu. rewrite Hp in Hu. by apply lookup_delete_is_Some in Hu as [_ ?].
    + destruct (IH1 H1 Hu) as (sg & Hin & ?). exists sg. by split; [right|].
  - destruct (decide (allowed (exec (signed, c) s) u)) as [Hu|Hu].
    + destruct (IH2 H1 Hu) as (sg & Hin & ?). exists sg. by split; [right|].
    + destruct Hc as [Hc|(Hs & [(v & -> & Hp)|(v & -> & Hp)])]; cbn [fst snd] in *.
      * by rewrite Hc in Hu.
      * exfalso. apply Hu. unfold allowed. rewrite Hp. apply lookup_insert_is_Some'. by right.
      * exists signed. split; [|done]. destruct (decide (AllowedUser u = AllowedUser v)) as [[= ->]|Hne];
          [by left|]. exfalso. apply Hu. unfold allowed. rewrite Hp.
        by rewrite lookup_delete_ne by congruence.
Qed.

(** the first call of [init] decides the admin, and nobody's authorisation is
    asked for it. *)
Theorem init_unauthenticated signed a name :
  admin_of (exec (signed, CallInit a name) empty_storage) a.
Proof. reflexivity. Qed.

(** ** The contract behind an RPC node *)

(** The contracts of a ledger, by address. *)
Abbreviation Ledger := (gmap string Storage).

Section rpc.
Context {C : Crypto} {X : Xdr} {XC : XdrCodec X}.

(** A call of [approve] with XDR arguments: they have to convert. *)
Definition approve_call (args : list ScVal) (s : Storage) : outcome unit :=
  match args with
  | [ScvBytes id; ScvAddress a] =>
      match contract_address a with
      | Ok addr => (approve id addr s).1
      | Err _ => Panic "ConversionError"
      end
  | _ => Panic "Error(WasmVm, InvalidAction)"
  end.

(** What a simulation of an envelope finds, when it is one call of [approve]:
    whether there is the contract and the call succeeds on it. *)
Definition approves (ledger : Ledger) (env : TransactionEnvelope) (ok : bool) : Prop :=
  ∃ m fn args c,
    env_Type env = EnvelopeTypeTx ∧ env_V1 env = Some (mkTx m [OpInvokeHostFunction fn]) ∧
    hf_is_invoke fn = true ∧ hf_InvokeContract fn = Some args ∧
    contract_address (ic_ContractAddress args) = Ok c ∧ ic_FunctionName args = "approve" ∧
    ok = match approve_call (ic_Args args) <$> ledger !! c with Some (Ret _) => true | _ => false end.

(** The Soroban RPC node at [url] simulates against [ledger]: asked to simulate
    a call of [approve], it replies with the result of the call, or with the
    error of the execution. *)
Record RpcSimulates (post : Post) (url : string) (ledger : Ledger) : Prop := {
  rpc_reply txXdr env ok :
    SafeUnmarshalBase64 txXdr = Ok env → approves ledger env ok →
    ∃ code body r,
      post url "application/json" (render (simulate_request txXdr)) = Ok (mkHttpResponse code (Ok body)) ∧
      Unmarshal_simulate body = Some r ∧ sim_RPCError r = None ∧
      if ok then sim_Error r = "" ∧ ∃ x, sim_Results r = [x] ∧ sim_res_Error x = ""
      else sim_Error r ≠ "";
}.

(** The node's verdict on such a simulation is the contract's. *)
Lemma simulateSorobanTx_approve post url ledger txXdr env ok :
  RpcSimulates post url ledger → SafeUnmarshalBase64 txXdr = Ok env →
  approves ledger env ok → simulateSorobanTx post url txXdr = Ok ok.
Proof.
  intros Hr He Ha. destruct (rpc_reply _ _ _ Hr _ _ _ He Ha) as (code & body & r & Hp & Hb & Hn & H).
  unfold simulateSorobanTx. rewrite Hp. cbn. rewrite Hb. unfold simulate_verdict. rewrite Hn.
  destruct ok.
  - destruct H as (He' & x & Hx & Hxe). rewrite decide_False, Hx by tauto. cbn [existsb].
    by rewrite bool_decide_eq_true_2.
  - by rewrite decide_True.
Qed.

(** The account for which a transaction calls [approve]. *)
Definition asks_for (txXdr : string) (u : Address) : Prop :=
  ∃ env m fn args id a,
    SafeUnmarshalBase64 txXdr = Ok env ∧ env_V1 env = Some (mkTx m [OpInvokeHostFunction fn]) ∧
    hf_InvokeContract fn = Some args ∧ ic_Args args = [ScvBytes id; ScvAddress a] ∧
    contract_address a = Ok u.

(** A transaction that passes the node's check is such a call, and one that is
    approved names an account of the list. *)
Lemma verified_approves ledger txXdr c src :
  verifySorobanTx txXdr c "approve" src = Ok tt →
  ∃ env ok, SafeUnmarshalBase64 txXdr = Ok env ∧ approves ledger env ok ∧
    (ok = true → ∃ st u, ledger !! c = Some st ∧ asks_for txXdr u ∧ allowed st u).
Proof.
  intros (env & He & m & fn & args & H1 & H2 & _ & H4 & H5 & H6 & H7)%verifySorobanTx_calls.
  exists env. eexists. split; [done|]. split; [by exists m, fn, args, c|].
  destruct (ledger !! c) as [st|] eqn:El; [|done]. cbn [fmap option_fmap option_map].
  unfold approve_call. destruct (ic_Args args) as [|[id| |] [|[|a|] [|]]] eqn:Ea; try done.
  destruct (contract_address a) as [u|] eqn:Eu; [|done]. rewrite approve_eq. cbn [fst].
  case_decide; [|done]. intros _. exists st, u. split; [done|]. split; [|done].
  by exists env, m, fn, args, id, a.
Qed.

End rpc.

(** ** A run *)

Lemma allowlist_by_admin_witness :
  let txs := [(λ a : Address, bool_decide (a = "GADMIN"), CallAdd "GUSER"); (λ _, false, CallRemove "GUSER")] in
  let s := exec (λ _, false, CallInit "GADMIN" []) empty_storage in
  admin_of (exec_all txs s) "GADMIN" ∧
  (allowed (exec_all txs s) "GUSER" → ¬ allowed s "GUSER" →
     ∃ signed, (signed, CallAdd "GUSER") ∈ txs ∧ signed "GADMIN" = true) ∧
  (¬ allowed (exec_all txs s) "GUSER" → allowed s "GUSER" →
     ∃ signed, (signed, CallRemove "GUSER") ∈ txs ∧ signed "GADMIN" = true).
Proof. intros txs s. by apply (allowlist_by_admin "GADMIN" txs s "GUSER"). Defined.
