(* ===== verification/RateLimit.v ===== *)
(** * Rate limiting ([node/ratelimit.go])

    The token bucket of [golang.org/x/time/rate] is the interface
    [RateLimiter]; on top of it, the per-IP limiter store and the per-object
    limiter map, each a finite map that grows by one bucket for every key seen
    and never shrinks.  Times are nanoseconds. *)

From S2P Require Import Prelude GoStrings.

(** ** golang.org/x/time/rate *)

(** [Allow t] is [lim.Allow()] at time [t].  A [float64] is only parsed and
    passed on. *)
Class RateLimiter := {
  float64 : Type;
  float64_of_Z : Z → float64;
  strconv_ParseFloat : string → option float64;
  Limit : Type;
  rate_Limit : float64 → Limit;
  rate_Every : Z → Limit;
  limiter : Type;
  NewLimiter : Limit → Z → limiter;
  Allow : Z → limiter → bool * limiter;
}.

(** The answers of a limiter at a sequence of times, counted. *)
Fixpoint granted {R : RateLimiter} (ts : list Z) (l : limiter) : Z :=
  match ts with
  | [] => 0
  | t :: ts' => let '(ok, l') := Allow t l in (if ok then 1 else 0) + granted ts' l'
  end.

(** Times in order, none before [t0]. *)
Fixpoint ordered (t0 : Z) (ts : list Z) : Prop :=
  match ts with
  | [] => True
  | t :: ts' => t0 ≤ t ∧ ordered t ts'
  end.

(** The documented behaviour: a bucket of [b] tokens, full at first, refilled
    by one token per period. *)
Class RateLimiterLaws (R : RateLimiter) : Prop := {
  granted_bound p b t ts : 0 < p → 0 ≤ b → ordered t (t :: ts) →
    granted (t :: ts) (NewLimiter (rate_Every p) b) ≤ b + (List.last ts t - t) `div` p;
  granted_burst p b t ts : 0 < p → ordered t ts → len ts ≤ b →
    granted ts (NewLimiter (rate_Every p) b) = len ts;
}.

(** ** The limiters *)

Section limiters.
Context {R : RateLimiter}.

(** [ipLimiterStore]. *)
Record ipLimiterStore := mkIPLimiterStore {
  limiters : gmap string limiter;
  lim_r : Limit;
  lim_b : Z;
}.

Definition newIPLimiterStore (r : float64) (b : Z) : ipLimiterStore :=
  mkIPLimiterStore ∅ (rate_Limit r) b.

(** [get(ip)] returns a pointer into the map: the limiter is updated there. *)
Definition get (ip : string) : M ipLimiterStore limiter := λ l,
  match limiters l !! ip with
  | Some lim => (Ret lim, l)
  | None =>
      let lim := NewLimiter (lim_r l) (lim_b l) in
      (Ret lim, mkIPLimiterStore (<[ip := lim]> (limiters l)) (lim_r l) (lim_b l))
  end.

(** [globalIPLimiter.get(ip).Allow()] at time [now]. *)
Definition ip_Allow (now : Z) (ip : string) : M ipLimiterStore bool :=
  lim ← get ip;
  let '(ok, lim') := Allow now lim in
  _ ← modify (λ l, mkIPLimiterStore (<[ip := lim']> (limiters l)) (lim_r l) (lim_b l));
  mret ok.

(** The key a remote address is limited under. *)
Definition remote_ip (RemoteAddr : string) : string := Split_0 RemoteAddr ":".

Definition objectLimit : Z := 10 ^ 9.
Definition objectBurst : Z := 5.

(** [checkObjectRateLimit(objectID)] at time [now], on [objectLimiters], a
    [sync.Map]. *)
Definition checkObjectRateLimit (now : Z) (objectID : string) : M (gmap string limiter) bool := λ m,
  let key := "obj:" +:+ objectID in
  let lim := default (NewLimiter (rate_Every objectLimit) objectBurst) (m !! key) in
  let '(ok, lim') := Allow now lim in
  (Ret ok, <[key := lim']> m).

(** ** Properties *)

(** Calls to [checkObjectRateLimit] at the given times, and how many of those
    for the object [o] were allowed. *)
Fixpoint object_calls (o : string) (calls : list (Z * string)) (m : (gmap string limiter)) : Z :=
  match calls with
  | [] => 0
  | (t, o') :: cs =>
      match checkObjectRateLimit t o' m with
      | (Ret ok, m') =>
          (if decide (o' = o) then if ok then 1 else 0 else 0) + object_calls o cs m'
      | (Panic _, m') => object_calls o cs m'
      end
  end.

(** The times at which [o] was asked for. *)
Definition times_of (o : string) (calls : list (Z * string)) : list Z :=
  (filter (λ c, c.2 = o) calls).*1.

Lemma times_of_cons o t o' cs :
  times_of o ((t, o') :: cs) = if decide (o' = o) then t :: times_of o cs else times_of o cs.
Proof. unfold times_of, filter. cbn. by case_decide. Qed.

(** Objects do not share tokens: what an object is granted depends on the calls
    for it alone. *)
Lemma object_calls_granted o calls m :
  object_calls o calls m =
  granted (times_of o calls)
    (default (NewLimiter (rate_Every objectLimit) objectBurst) (m !! ("obj:" +:+ o))).
Proof.
  revert m; induction calls as [|[t o'] cs IH]; intros m; [done|].
  cbn [object_calls]. unfold checkObjectRateLimit.
  destruct (Allow t _) as [ok lim'] eqn:EA. rewrite IH.
  rewrite times_of_cons. case_decide as E.
  - subst o'. cbn [granted]. rewrite EA, lookup_insert_eq. done.
  - rewrite lookup_insert_ne; [done|]. intros H. apply E. by apply (inj (String.append _)) in H.
Qed.

Lemma times_of_ordered o calls t0 :
  ordered t0 calls.*1 → ordered t0 (times_of o calls).
Proof.
  revert t0; induction calls as [|[t o'] cs IH]; intros t0; [done|].
  rewrite times_of_cons. intros [Ht Hcs]. case_decide; cbn.
  - split; [done|]. by apply IH.
  - apply IH. clear IH. destruct cs as [|[t' ?] ?]; cbn in *; [done|]. split; [lia|tauto].
Qed.

Lemma checkObjectRateLimit_Ret now o m :
  ∃ ok m', checkObjectRateLimit now o m = (Ret ok, m') ∧
    dom m' = {["obj:" +:+ o]} ∪ dom m.
Proof.
  unfold checkObjectRateLimit. destruct (Allow _ _) as [ok l]. do 2 eexists. split; [done|].
  apply dom_insert_L.
Qed.

Lemma ip_Allow_Ret now ip l :
  ∃ ok l', ip_Allow now ip l = (Ret ok, l') ∧
    dom (limiters l') = {[ip]} ∪ dom (limiters l).
Proof.
  unfold ip_Allow, get. unfold_M. destruct (limiters l !! ip) as [lim|] eqn:E.
  - destruct (Allow now lim) as [ok l']. do 2 eexists. split; [done|]. apply dom_insert_L.
  - destruct (Allow now _) as [ok l']. do 2 eexists. split; [done|]. cbn.
    rewrite !dom_insert_L. set_solver.
Qed.

(** an IPv6 remote address is limited under the text before its first
    colon, so that all addresses with the same first group share one bucket. *)
Theorem remote_ip_IPv6 g rest rest' :
  contains ":" g = false →
  remote_ip ("[" +:+ g +:+ ":" +:+ rest) = remote_ip ("[" +:+ g +:+ ":" +:+ rest').
Proof.
  intros Hg. unfold remote_ip. rewrite !(string_app_assoc "[" g).
  change (":" +:+ ?r) with (String ":" r).
  rewrite !(Split_0_prefix ":"); [done|..]; by cbn.
Qed.

Context {RL : RateLimiterLaws R}.

(** C28: over any run of requests in time order, one object is granted at
    most its burst of 5 and then one request per second, whatever is asked for
    other objects. *)
Theorem object_rate_bound o calls t0 t ts :
  ordered t0 calls.*1 → times_of o calls = t :: ts →
  object_calls o calls ∅ ≤ 5 + (List.last ts t - t) `div` 10 ^ 9.
Proof.
  intros Ho Ht. rewrite object_calls_granted, lookup_empty, Ht.
  pose proof (times_of_ordered o _ _ Ho) as Hs. rewrite Ht in Hs. cbn in Hs.
  apply granted_bound; [done..|]. cbn. split; [lia|tauto].
Qed.

(** the first 5 requests for an object are all granted. *)
Theorem object_rate_burst o calls t0 :
  ordered t0 calls.*1 → len (times_of o calls) ≤ 5 →
  object_calls o calls ∅ = len (times_of o calls).
Proof.
  intros Ho Hl. rewrite object_calls_granted, lookup_empty.
  by apply (granted_burst _ _ t0); [|apply times_of_ordered|].
Qed.

End limiters.

(** ** A concrete limiter

    A token bucket in whole nanoseconds of credit: [period] of it buys one
    event, and there are never more than [burst] periods of it. *)

Module ToyRate.

Record bucket := mkBucket { period : Z; burst : Z; credit : Z; last : option Z }.

Definition allow (t : Z) (l : bucket) : bool * bucket :=
  let elapsed := match last l with None => 0 | Some t0 => Z.max 0 (t - t0) end in
  let c := Z.min (burst l * period l) (credit l + elapsed) in
  if period l <=? c then (true, mkBucket (period l) (burst l) (c - period l) (Some t))
  else (false, mkBucket (period l) (burst l) c (Some t)).

#[export] Instance limiter_impl : RateLimiter := {|
  float64 := Z;
  float64_of_Z z := z;
  strconv_ParseFloat := Atoi;
  Limit := Z;
  rate_Limit r := 10 ^ 9 `div` Z.max 1 r;
  rate_Every p := p;
  limiter := bucket;
  NewLimiter p b := mkBucket p b (b * p) None;
  Allow := allow;
|}.

Lemma last_cons_default (t t0 : Z) ts : List.last (t :: ts) t0 = List.last ts t.
Proof.
  revert t t0. induction ts as [|x ts IH]; intros t t0; [done|].
  transitivity (List.last ts x); [apply (IH x t0)|symmetry; apply (IH x t)].
Qed.

Lemma granted_credit p b c t0 ts :
  0 < p → 0 ≤ c → 0 ≤ b → ordered t0 ts →
  p * granted ts (mkBucket p b c (Some t0)) ≤ c + (List.last ts t0 - t0).
Proof.
  intros Hp Hc Hb. revert c t0 Hc. induction ts as [|t ts IH]; intros c t0 Hc; [cbn; lia|].
  intros [Ht Ho]. rewrite last_cons_default.
  cbn [granted Allow limiter_impl]. unfold allow. cbn [last period burst credit].
  destruct (Z.leb_spec p (Z.min (b * p) (c + Z.max 0 (t - t0)))).
  - specialize (IH (Z.min (b * p) (c + Z.max 0 (t - t0)) - p) t ltac:(lia) Ho). lia.
  - specialize (IH (Z.min (b * p) (c + Z.max 0 (t - t0))) t ltac:(nia) Ho). nia.
Qed.

Lemma granted_all p b c o t0 ts :
  0 < p → len ts * p ≤ c → len ts ≤ b → ordered t0 ts →
  granted ts (mkBucket p b c o) = len ts.
Proof.
  intros Hp. revert c o t0. induction ts as [|t ts IH]; intros c o t0; [done|].
  rewrite !len_cons. intros Hc Hb [Ht Ho]. pose proof (len_nonneg ts).
  cbn [granted Allow limiter_impl]. unfold allow. cbn [last period burst credit].
  set (e := match o with None => 0 | Some _ => _ end).
  assert (0 ≤ e) by (subst e; destruct o; lia).
  rewrite (proj2 (Z.leb_le _ _)) by nia.
  rewrite (IH _ _ t); [done|nia|lia|done].
Qed.

#[export] Instance laws : RateLimiterLaws limiter_impl.
Proof.
  split.
  - intros p b t ts Hp Hb [_ Ho]. apply Z.le_sub_le_add_l, Z.div_le_lower_bound; [done|].
    cbn [granted NewLimiter Allow rate_Every limiter_impl]. unfold allow.
    cbn [last period burst credit]. rewrite Z.add_0_r, Z.min_id.
    destruct (Z.leb_spec p (b * p)).
    + pose proof (granted_credit p b (b * p - p) t ts Hp ltac:(lia) Hb Ho). lia.
    + pose proof (granted_credit p b (b * p) t ts Hp ltac:(nia) Hb Ho). lia.
  - intros p b t ts Hp Ho Hl. cbn [NewLimiter rate_Every limiter_impl].
    eapply granted_all; [done|apply Z.mul_le_mono_nonneg_r; lia|done..].
Qed.

End ToyRate.

#[local] Existing Instance ToyRate.limiter_impl.
#[local] Existing Instance ToyRate.laws.

(** Eight requests within two seconds, seven of them for one object. *)
Lemma object_rate_bound_witness :
  object_calls "o" [(0, "o"); (0, "p"); (0, "o"); (1, "o"); (1, "o"); (1, "o");
                    (2, "o"); (2000000000, "o")] ∅ ≤ 5 + (2000000000 - 0) `div` 10 ^ 9.
Proof.
  apply (object_rate_bound "o" _ 0 0 [0; 1; 1; 1; 2; 2000000000]); [|reflexivity].
  cbn. lia.
Defined.

Lemma object_rate_burst_witness :
  object_calls "o" [(0, "o"); (0, "p"); (0, "o"); (1, "o")] ∅ = 3.
Proof.
  apply (object_rate_burst "o" [(0, "o"); (0, "p"); (0, "o"); (1, "o")] 0); [cbn; lia|].
  vm_compute. discriminate.
Defined.

Lemma remote_ip_IPv6_witness :
  remote_ip "[2001:db8::1]:4000" = remote_ip "[2001:beef::2]:80".
Proof.
  apply (remote_ip_IPv6 "2001" "db8::1]:4000" "beef::2]:80"). reflexivity.
Defined.
