(* ===== verification/FileSystem.v ===== *)
(** * Files ([os], [io])

    The files the program reads and writes: a finite map from paths to
    contents, shared by every open handle, so that two handles on one path see
    each other's writes.  What can go wrong outside the program (a directory
    that cannot be made, a file that cannot be opened, a disk that fills up) is
    the interface [Os]. *)

From S2P Require Import Prelude.

Class Os := {
  (** [Some e]: the call fails with [e]. *)
  MkdirAll_err : string → option error;
  Open_err : string → option error;
  Create_err : string → option error;
  (** A write to a path may stop after some bytes with an error. *)
  Write_err : string → bytes → option (Z * error);
}.

(** Nothing fails. *)
Definition healthy : Os := {|
  MkdirAll_err _ := None;
  Open_err _ := None;
  Create_err _ := None;
  Write_err _ _ := None;
|}.

Abbreviation FS := (gmap string bytes).

(** An open file: its path and the position of the next read or write. *)
Record File := mkFile { f_path : string; f_off : Z }.

(** Code that uses the files and the random source. *)
Definition on_fs {A} (m : M FS A) : M (FS * bytes) A := zoom fst (λ fs st, (fs, st.2)) m.
Definition on_rnd {A} (m : M bytes A) : M (FS * bytes) A := zoom snd (λ r st, (st.1, r)) m.

Section files.
Context {O : Os}.

Definition not_exist (path : string) : error := "open " +:+ path +:+ ": no such file or directory".

Definition os_MkdirAll (dir : string) : M FS (option error) := λ fs, (Ret (MkdirAll_err dir), fs).

Definition os_Open (path : string) : M FS (res error File) := λ fs,
  match Open_err path with
  | Some e => (Ret (Err e), fs)
  | None =>
      match fs !! path with
      | None => (Ret (Err (not_exist path)), fs)
      | Some _ => (Ret (Ok (mkFile path 0)), fs)
      end
  end.

(** [os.Create] truncates an existing file. *)
Definition os_Create (path : string) : M FS (res error File) := λ fs,
  match Create_err path with
  | Some e => (Ret (Err e), fs)
  | None => (Ret (Ok (mkFile path 0)), <[path := []]> fs)
  end.

(** [os.OpenFile] with O_APPEND, O_CREATE and O_WRONLY: an existing file is
    kept, and written at its end. *)
Definition os_OpenAppend (path : string) : M FS (res error File) := λ fs,
  match Create_err path with
  | Some e => (Ret (Err e), fs)
  | None =>
      let old := default [] (fs !! path) in
      (Ret (Ok (mkFile path (len old))), <[path := old]> fs)
  end.

(** [b] stored at offset [off] of [old]; a gap reads as zeros. *)
Definition overwrite (old : bytes) (off : Z) (b : bytes) : bytes :=
  let '(a, r) := splitZ off old in
  a ++ replicate (Z.to_nat (off - len a)) "000"%char ++ b ++ (splitZ (len b) r).2.

(** [f.Write(b)]: the error, the handle after it. *)
Definition os_Write (f : File) (b : bytes) : M FS (option error * File) := λ fs,
  let old := default [] (fs !! f_path f) in
  let '(b', err) :=
    match Write_err (f_path f) b with
    | Some (n, e) => ((splitZ n b).1, Some e)
    | None => (b, None)
    end in
  (Ret (err, mkFile (f_path f) (f_off f + len b')),
   <[f_path f := overwrite old (f_off f) b']> fs).

(** What is left to read. *)
Definition unread (f : File) (fs : FS) : bytes :=
  (splitZ (f_off f) (default [] (fs !! f_path f))).2.

Inductive ReadEnd := ReadFullOK | ReadEOF | ReadUnexpectedEOF.

(** [io.ReadFull(f, buf)] with [len(buf) = n]: the bytes read and the error. *)
Definition io_ReadFull (f : File) (n : Z) : M FS (bytes * ReadEnd * File) := λ fs,
  let b := (splitZ n (unread f fs)).1 in
  let e := if decide (len b = Z.max 0 n) then ReadFullOK
           else if decide (b = []) then ReadEOF else ReadUnexpectedEOF in
  (Ret (b, e, mkFile (f_path f) (f_off f + len b)), fs).

(** [io.ReadAll(f)]: reading an open file does not fail here. *)
Definition io_ReadAll (f : File) : M FS bytes := λ fs, (Ret (unread f fs), fs).

Definition ReadEnd_string (e : ReadEnd) : error :=
  match e with ReadFullOK => "" | ReadEOF => "EOF" | ReadUnexpectedEOF => "unexpected EOF" end.

Definition os_ReadFile (path : string) : M FS (res error bytes) :=
  r ← os_Open path;
  match r with
  | Err e => mret (Err e)
  | Ok f => b ← io_ReadAll f; mret (Ok b)
  end.

Definition os_WriteFile (path : string) (data : bytes) : M FS (option error) :=
  r ← os_Create path;
  match r with
  | Err e => mret (Some e)
  | Ok f => '(e, _) ← os_Write f data; mret e
  end.

Lemma overwrite_end old b : overwrite old (len old) b = old ++ b.
Proof.
  unfold overwrite. assert (splitZ (len old) old = (old, [])) as ->.
  { rewrite <- (app_nil_r old) at 2. by rewrite splitZ_exact. }
  rewrite Z.sub_diag. cbn. by rewrite app_nil_r.
Qed.

Lemma os_WriteFile_ok path data fs fs' :
  os_WriteFile path data fs = (Ret None, fs') → fs' = <[path := data]> fs.
Proof.
  unfold os_WriteFile, os_Create, os_Write. unfold_M.
  destruct (Create_err path); [done|]. cbn [f_path f_off].
  destruct (Write_err path data) as [[n e]|]; [done|]. intros [= <-].
  rewrite lookup_insert_eq. change (overwrite _ 0 data) with (overwrite [] (len (A := byte) []) data).
  by rewrite overwrite_end, insert_insert_eq.
Qed.

Lemma os_ReadFile_spec path fs :
  os_ReadFile path fs =
  (Ret match Open_err path with
       | Some e => Err e
       | None => match fs !! path with Some b => Ok b | None => Err (not_exist path) end
       end, fs).
Proof.
  unfold os_ReadFile, os_Open, io_ReadAll, unread. unfold_M.
  destruct (Open_err path); [done|]. destruct (fs !! path) as [b|] eqn:E; [|done].
  cbn. rewrite E. cbn. by rewrite splitZ_take_drop.
Qed.

(** Writes appended to a file that is being written sequentially. *)
Lemma os_Write_append f b fs :
  f_off f = len (default [] (fs !! f_path f)) → Write_err (f_path f) b = None →
  os_Write f b fs =
  (Ret (None, mkFile (f_path f) (f_off f + len b)),
   <[f_path f := default [] (fs !! f_path f) ++ b]> fs).
Proof. intros Ho Hw. unfold os_Write. rewrite Hw, Ho. by rewrite overwrite_end. Qed.

Lemma os_WriteFile_eq path data fs :
  Create_err path = None → (∀ b, Write_err path b = None) →
  os_WriteFile path data fs = (Ret None, <[path := data]> fs).
Proof.
  intros Hc Hw. unfold os_WriteFile, os_Create. unfold_M. rewrite Hc.
  rewrite os_Write_append; cbn [f_path f_off]; [|by rewrite lookup_insert_eq|done].
  by rewrite lookup_insert_eq, insert_insert_eq.
Qed.

End files.
