(* ===== verification/Streaming.v ===== *)
(** * The encrypted file format ([client/streaming.go])

    [EncryptFileStreaming] writes a v2 file: the magic, the number of chunks,
    the length of every chunk, the chunks (nonce and ciphertext of one block of
    at most 4 MiB each).  [DecryptFileStreaming] reads v1 and v2 files. *)

From S2P Require Import Prelude Encoding GoStrings Json Bucket Store Crypto FileSystem.

Definition v1Magic : string := "SE01".
Definition v2Magic : string := "SE02".
Definition chunkSize : Z := 4 * 1024 * 1024.

(** The errors of the two functions, one constructor for each return. *)
Inductive stream_error :=
| OpenSource (e : error)
| CreateDest (e : error)
| WriteDest (e : error)
| BadKey (e : error)
| NoRandom (e : error)
| OpenEnc (e : error)
| ReadMagic (e : ReadEnd)
| UnknownFormat (magic : bytes)
| V1TooShort
| V1Failed (e : error)
| ReadCount (e : ReadEnd)
| InvalidChunkCount (n : Z)
| ReadSize (i : Z) (e : ReadEnd)
| ReadChunk (i : Z) (e : ReadEnd)
| ChunkTooShort (i : Z)
| DecryptChunk (i : Z) (e : error)
| OutOfFuel.

Section streaming.
Context {C : Crypto} {O : Os}.

(** ** Encryption *)

(** The read loop with a buffer of [n] bytes.  The fuel bounds the number of
    blocks read; a source of [k] bytes has at most [k + 1] of them. *)
Fixpoint encrypt_loop (fuel : nat) (n : Z) (block : bytes) (src : File) (chunks : list bytes) :
    M (FS * bytes) (res stream_error (list bytes)) :=
  match fuel with
  | Datatypes.O => mret (Err OutOfFuel)
  | Datatypes.S fuel =>
      '(buf, err, src) ← on_fs (io_ReadFull src n);
      r ← (if 0 <? len buf then
             rn ← on_rnd (rand_ReadFull gcmNonceSize);
             try nonce := rn catch e => mret (Err (NoRandom e)) in
             ct ← lift (Seal block nonce buf);
             mret (Ok (chunks ++ [nonce ++ ct]))
           else mret (Ok chunks));
      try chunks := r catch e => mret (Err e) in
      match err with
      | ReadEOF | ReadUnexpectedEOF => mret (Ok chunks)
      | ReadFullOK => encrypt_loop fuel n block src chunks
      end
  end.

(** Sequential writes to the destination, up to the first error. *)
Fixpoint write_all (dst : File) (bs : list bytes) : M FS (option stream_error) :=
  match bs with
  | [] => mret None
  | b :: bs =>
      '(err, dst) ← os_Write dst b;
      match err with
      | Some e => mret (Some (WriteDest e))
      | None => write_all dst bs
      end
  end.

(** The header and the chunks, as they are written. *)
Definition v2_writes (chunks : list bytes) : list bytes :=
  LittleEndian.PutUint32 (uint32 (len chunks)) ::
  ((λ c : bytes, LittleEndian.PutUint32 (uint32 (len c))) <$> chunks) ++ chunks.

(** [EncryptFileStreaming]; the compression flag is not used. *)
Definition EncryptFileStreaming (srcPath dstPath : string) (key : bytes) (compress : bool) :
    M (FS * bytes) (option stream_error) :=
  rs ← on_fs (os_Open srcPath);
  try src := rs catch err => mret (Some (OpenSource err)) in
  rd ← on_fs (os_Create dstPath);
  try dst := rd catch err => mret (Some (CreateDest err)) in
  '(err, dst) ← on_fs (os_Write dst (bytes_of v2Magic));
  match err with
  | Some e => mret (Some (WriteDest e))
  | None =>
      try block := aes_NewCipher key catch err => mret (Some (BadKey err)) in
      fs ← gets fst;
      rc ← encrypt_loop (Datatypes.S (length (unread src fs))) chunkSize block src [];
      try chunks := rc catch err => mret (Some err) in
      on_fs (write_all dst (v2_writes chunks))
  end.

(** ** Decryption *)

(** [cipher.NewGCM] of a nil block dereferences it. *)
Definition NewGCM_of (key : bytes) : outcome bytes :=
  match aes_NewCipher key with Ok block => Ret block | Err _ => Panic nil_deref end.

Definition decryptV1 (r : File) (dstPath : string) (key : bytes) : M FS (option stream_error) :=
  ct ← io_ReadAll r;
  block ← lift (NewGCM_of key);
  if len ct <? gcmNonceSize then mret (Some V1TooShort) else
  let '(nonce, ct) := splitZ gcmNonceSize ct in
  rp ← lift (Open block nonce ct);
  try pt := rp catch err => mret (Some (V1Failed err)) in
  err ← os_WriteFile dstPath pt;
  mret (WriteDest <$> err).

(** [binary.Read] of a [uint32]. *)
Definition read_uint32 (r : File) : M FS (res ReadEnd Z * File) :=
  '(b, e, r) ← io_ReadFull r 4;
  match e with
  | ReadFullOK => mret (Ok (LittleEndian.get b), r)
  | _ => mret (Err e, r)
  end.

(** The sizes table; [i] counts the entries read. *)
Fixpoint read_sizes (n : nat) (i : Z) (r : File) : M FS (res stream_error (list Z) * File) :=
  match n with
  | Datatypes.O => mret (Ok [], r)
  | Datatypes.S n =>
      '(v, r) ← read_uint32 r;
      try sz := v catch e => mret (Err (ReadSize i e), r) in
      '(rest, r) ← read_sizes n (i + 1) r;
      try l := rest catch e => mret (Err e, r) in
      mret (Ok (sz :: l), r)
  end.

Fixpoint decrypt_chunks (sizes : list Z) (i : Z) (block : bytes) (r dst : File) :
    M FS (option stream_error) :=
  match sizes with
  | [] => mret None
  | sz :: sizes =>
      '(ct, e, r) ← io_ReadFull r sz;
      match e with
      | ReadEOF | ReadUnexpectedEOF => mret (Some (ReadChunk i e))
      | ReadFullOK =>
          if len ct <? gcmNonceSize then mret (Some (ChunkTooShort i)) else
          let '(nonce, ct) := splitZ gcmNonceSize ct in
          rp ← lift (Open block nonce ct);
          try pt := rp catch err => mret (Some (DecryptChunk i err)) in
          '(err, dst) ← os_Write dst pt;
          match err with
          | Some e => mret (Some (WriteDest e))
          | None => decrypt_chunks sizes (i + 1) block r dst
          end
      end
  end.

Definition maxChunks : Z := 10000.

Definition decryptV2 (r : File) (dstPath : string) (key : bytes) : M FS (option stream_error) :=
  '(rc, r) ← read_uint32 r;
  try chunkCount := rc catch e => mret (Some (ReadCount e)) in
  if (chunkCount =? 0) || (maxChunks <? chunkCount) then mret (Some (InvalidChunkCount chunkCount))
  else
  '(rsz, r) ← read_sizes (Z.to_nat chunkCount) 0 r;
  try sizes := rsz catch e => mret (Some e) in
  rd ← os_Create dstPath;
  try dst := rd catch err => mret (Some (CreateDest err)) in
  block ← lift (NewGCM_of key);
  decrypt_chunks sizes 0 block r dst.

Definition DecryptFileStreaming (srcPath dstPath : string) (key : bytes) :
    M FS (option stream_error) :=
  rs ← os_Open srcPath;
  try src := rs catch err => mret (Some (OpenEnc err)) in
  '(magic, e, src) ← io_ReadFull src 4;
  match e with
  | ReadFullOK =>
      if decide (string_of magic = v1Magic) then decryptV1 src dstPath key
      else if decide (string_of magic = v2Magic) then decryptV2 src dstPath key
      else mret (Some (UnknownFormat magic))
  | _ => mret (Some (ReadMagic e))
  end.

Definition ChecksumFile (path : string) : M FS (res error bytes) :=
  r ← os_Open path;
  try f := r catch err => mret (Err err) in
  b ← io_ReadAll f;
  mret (Ok (sha256_Sum b)).

(** ** Properties *)

(** A chunk that holds the block [p]. *)
Definition sealed (key p c : bytes) : Prop :=
  ∃ nonce, len nonce = gcmNonceSize ∧ c = nonce ++ gcm_Seal key nonce p.

Lemma sealed_intro key p nonce :
  len nonce = gcmNonceSize → sealed key p (nonce ++ gcm_Seal key nonce p).
Proof. intros H. exists nonce. done. Qed.

(** The blocks [ps] cut [data] into full blocks of [n] bytes and a last one
    that may be shorter. *)
Definition cut (n : Z) (data : bytes) (ps : list bytes) : Prop :=
  concat ps = data ∧ Forall (λ p : bytes, 0 < len p ≤ n) ps ∧ len ps = (len data + n - 1) `div` n.

Lemma unread_at path off fs (a b : bytes) :
  fs !! path = Some (a ++ b) → off = len a → unread (mkFile path off) fs = b.
Proof.
  intros Hf ->. unfold unread. cbn [f_path f_off]. rewrite Hf. cbn [default from_option id].
  by rewrite splitZ_exact.
Qed.

Lemma io_ReadFull_at path off n fs (a b c : bytes) :
  fs !! path = Some (a ++ b ++ c) → off = len a → n = len b →
  io_ReadFull (mkFile path off) n fs = (Ret (b, ReadFullOK, mkFile path (off + n)), fs).
Proof.
  intros Hf Ho ->. unfold io_ReadFull. rewrite (unread_at _ _ _ a (b ++ c) Hf Ho).
  rewrite splitZ_exact by done. cbn [fst]. pose proof (len_nonneg b).
  by rewrite decide_True by lia.
Qed.

(** Reading a whole buffer leaves the rest. *)
Lemma unread_drop src n fs :
  0 ≤ f_off src →
  unread (mkFile (f_path src) (f_off src + len (splitZ n (unread src fs)).1)) fs =
  (splitZ n (unread src fs)).2.
Proof.
  intros Ho. unfold unread. cbn [f_path f_off]. set (d := default [] _).
  rewrite !splitZ_take_drop. cbn [fst snd]. set (u := drop (Z.to_nat (f_off src)) d).
  rewrite Z2Nat.inj_add by (auto with go). rewrite <- drop_drop. fold u.
  unfold len. rewrite Nat2Z.id, length_take.
  destruct (decide (Z.to_nat n ≤ length u)%nat); [by rewrite Nat.min_l|].
  by rewrite !drop_ge by lia.
Qed.

(** The read loop leaves the files alone and seals every block of the source,
    as long as there are nonces for all of them. *)
Lemma encrypt_loop_spec fuel n key src chunks fs rnd :
  0 < n ≤ gcmMaxPlain → 0 ≤ f_off src → (length (unread src fs) < fuel)%nat →
  gcmNonceSize * ((len (unread src fs) + n - 1) `div` n) ≤ len rnd →
  ∃ ps cs rnd', encrypt_loop fuel n key src chunks (fs, rnd) = (Ret (Ok (chunks ++ cs)), (fs, rnd')) ∧
    cut n (unread src fs) ps ∧ Forall2 (sealed key) ps cs.
Proof.
  intros Hn. revert src chunks rnd. induction fuel as [|fuel IH]; intros src chunks rnd Ho Hf Hr; [lia|].
  cbn [encrypt_loop]. unfold on_fs, on_rnd, io_ReadFull. unfold_M. cbn [fst snd].
  pose proof (unread_drop src n fs Ho) as Hu. pose proof (splitZ_app n (unread src fs)) as Ha.
  pose proof (splitZ_len n (unread src fs) ltac:(lia)) as Hl.
  pose proof (splitZ_len_2 n (unread src fs) ltac:(lia)) as Hl2.
  set (d := unread src fs) in *. destruct (splitZ n d) as [b r]. cbn [fst snd] in *.
  rewrite Z.max_r by lia. pose proof (len_nonneg b). pose proof (len_nonneg d).
  destruct (Z.ltb_spec 0 (len b)) as [Hb|Hb].
  2: { assert (d = []) as Hd by (apply len_0_nil; lia).
       assert (b = []) as -> by (apply len_0_nil; lia).
       rewrite decide_False by (unfold len; cbn; lia). rewrite decide_True by done. exists [], [], rnd.
       rewrite app_nil_r, Hd. split; [done|]. split; [|done]. split; [done|]. split; [done|].
       unfold len; cbn. symmetry. apply Z.div_small. lia. }
  assert (1 ≤ (len d + n - 1) `div` n) by (apply Z.div_le_lower_bound; lia).
  cbn [fst snd]. destruct (rand_ReadFull_enough gcmNonceSize rnd) as (nonce & rnd1 & -> & Hnl & Hrnd);
    [unfold gcmNonceSize in *; lia|].
  rewrite Seal_ok by (unfold gcmNonceSize in *; lia).
  destruct (decide (len b = n)) as [Hfull|Hpart].
  - assert ((len d + n - 1) `div` n = 1 + (len r + n - 1) `div` n) as E.
    { rewrite Hl2. replace (len d + n - 1) with (Z.max 0 (len d - n) + n - 1 + 1 * n) by lia.
      rewrite Z.div_add by lia. lia. }
    destruct (IH (mkFile (f_path src) (f_off src + len b))
                (chunks ++ [nonce ++ gcm_Seal key nonce b]) rnd1) as (ps & cs & rnd' & -> & Hc & Hs);
      [cbn; lia|rewrite Hu; unfold len in *; rewrite <- Ha, length_app in Hf; lia| |].
    { rewrite Hu. rewrite E in Hr. rewrite Hrnd, len_app in Hr. unfold gcmNonceSize in *. lia. }
    rewrite Hu in Hc. exists (b :: ps), ((nonce ++ gcm_Seal key nonce b) :: cs), rnd'.
    rewrite <- app_assoc. split; [done|]. split; [|constructor; [by apply sealed_intro|done]].
    destruct Hc as (Hc & Hp & Hlen). split; [cbn; by rewrite Hc|].
    split; [constructor; [lia|done]|].
    rewrite len_cons. lia.
  - assert (len r = 0) by lia. assert (r = []) as -> by (by apply len_0_nil).
    rewrite app_nil_r in Ha. subst b.
    exists [d], [nonce ++ gcm_Seal key nonce d], rnd1.
    assert (∃ e, (if decide (d = []) then ReadEOF else ReadUnexpectedEOF) = e) as [e He] by eauto.
    split; [by destruct (decide (d = []))|]. split; [|constructor; [by apply sealed_intro|done]].
    split; [apply app_nil_r|]. split; [constructor; [lia|done]|].
    replace (len d + n - 1) with (len d - 1 + 1 * n) by lia. rewrite Z.div_add by lia.
    by rewrite Z.div_small by lia.
Qed.

(** The bytes of a v2 file. *)
Definition v2_file (chunks : list bytes) : bytes := bytes_of v2Magic ++ concat (v2_writes chunks).

Lemma write_all_spec p off bs old fs :
  (∀ b, Write_err p b = None) → fs !! p = Some old → off = len old →
  write_all (mkFile p off) bs fs = (Ret None, <[p := old ++ concat bs]> fs).
Proof.
  intros Hw. revert off old fs. induction bs as [|b bs IH]; intros off old fs Hf ->.
  { cbn. by rewrite app_nil_r, insert_id. }
  cbn [write_all concat]. unfold_M. rewrite os_Write_append; cbn [f_path f_off];
    [|by rewrite Hf|done]. rewrite Hf. cbn [default from_option id].
  rewrite (IH _ (old ++ b)); [|by rewrite lookup_insert_eq|by rewrite len_app].
  by rewrite insert_insert_eq, app_assoc.
Qed.

(** What a run does, given a readable source, a key of a valid length and
    enough nonces: it seals what the source holds once the destination has been
    truncated and has got its magic. *)
Lemma EncryptFileStreaming_gen src dst key compress fs rnd data1 :
  Open_err src = None → Create_err dst = None → (∀ b, Write_err dst b = None) →
  is_Some (fs !! src) → is_ok (aes_NewCipher key) = true →
  <[dst := bytes_of v2Magic]> fs !! src = Some data1 →
  gcmNonceSize * ((len data1 + chunkSize - 1) `div` chunkSize) ≤ len rnd →
  ∃ ps cs rnd',
    EncryptFileStreaming src dst key compress (fs, rnd) =
      (Ret None, (<[dst := v2_file cs]> fs, rnd')) ∧
    cut chunkSize data1 ps ∧ Forall2 (sealed key) ps cs.
Proof.
  intros Ho Hc Hw [data Hf] Hk Hd Hr. unfold EncryptFileStreaming, os_Open, os_Create, on_fs.
  unfold_M. cbn [fst snd]. rewrite Ho, Hf. cbn [fst snd]. rewrite Hc. cbn [fst snd].
  rewrite os_Write_append; cbn [f_path f_off fst snd];
    [|by rewrite lookup_insert_eq|done].
  rewrite lookup_insert_eq, insert_insert_eq. cbn [default from_option id app].
  destruct (aes_NewCipher key) as [block|] eqn:Ek; [|done].
  assert (block = key) as -> by (unfold aes_NewCipher in Ek; case_decide; congruence).
  cbn [fst snd]. set (fs1 := <[dst := _]> fs) in *.
  assert (unread (mkFile src 0) fs1 = data1) as Hu by (by apply (unread_at _ _ _ [])).
  destruct (encrypt_loop_spec (Datatypes.S (length (unread (mkFile src 0) fs1))) chunkSize key
              (mkFile src 0) [] fs1 rnd) as (ps & cs & rnd' & -> & Hcut & Hs);
    [unfold chunkSize, gcmMaxPlain; lia|done|lia|by rewrite Hu|].
  rewrite Hu in Hcut. exists ps, cs, rnd'. split; [|done]. cbn [fst snd app].
  rewrite (write_all_spec _ _ _ (bytes_of v2Magic)); [|done|by subst fs1; rewrite lookup_insert_eq|done].
  subst fs1. by rewrite insert_insert_eq.
Qed.

Lemma EncryptFileStreaming_spec src dst key compress data fs rnd :
  src ≠ dst → Open_err src = None → Create_err dst = None → (∀ b, Write_err dst b = None) →
  fs !! src = Some data → is_ok (aes_NewCipher key) = true →
  gcmNonceSize * ((len data + chunkSize - 1) `div` chunkSize) ≤ len rnd →
  ∃ ps cs rnd',
    EncryptFileStreaming src dst key compress (fs, rnd) =
      (Ret None, (<[dst := v2_file cs]> fs, rnd')) ∧
    cut chunkSize data ps ∧ Forall2 (sealed key) ps cs.
Proof.
  intros Hne Ho Hc Hw Hf Hk Hr. apply EncryptFileStreaming_gen; try done.
  by rewrite lookup_insert_ne.
Qed.

Lemma read_uint32_at path off fs a z c :
  fs !! path = Some (a ++ LittleEndian.PutUint32 z ++ c) → off = len a → 0 ≤ z < 2 ^ 32 →
  read_uint32 (mkFile path off) fs = (Ret (Ok z, mkFile path (off + 4)), fs).
Proof.
  intros Hf Ho Hz. unfold read_uint32. unfold_M.
  rewrite (io_ReadFull_at _ _ 4 _ _ _ _ Hf Ho) by (by rewrite LittleEndian.len_PutUint32).
  by rewrite LittleEndian.get_PutUint32, uint32_id.
Qed.

Lemma read_sizes_at path off fs a szs c i :
  fs !! path = Some (a ++ concat (LittleEndian.PutUint32 <$> szs) ++ c) → off = len a →
  Forall (λ z, 0 ≤ z < 2 ^ 32) szs →
  read_sizes (length szs) i (mkFile path off) fs =
  (Ret (Ok szs, mkFile path (off + 4 * len szs)), fs).
Proof.
  intros Hf Ho Hs. revert off a i Hf Ho. induction Hs as [|z szs Hz Hs IH]; intros off a i Hf Ho.
  { cbn. unfold len; cbn. by rewrite Z.add_0_r. }
  cbn [read_sizes length]. cbn [fmap list_fmap concat] in Hf. rewrite <- app_assoc in Hf.
  unfold_M. rewrite (read_uint32_at _ _ _ _ _ _ Hf Ho Hz).
  rewrite (IH _ (a ++ LittleEndian.PutUint32 z)); [|by rewrite <- app_assoc|].
  - rewrite len_cons. do 4 f_equal. lia.
  - rewrite len_app, LittleEndian.len_PutUint32. lia.
Qed.

Context {CL : CryptoLaws C}.

Lemma decrypt_chunks_at key path dst off doff fs a ps cs rest old i :
  len key = 32 → path ≠ dst → (∀ b, Write_err dst b = None) → Forall2 (sealed key) ps cs →
  fs !! path = Some (a ++ concat cs ++ rest) → off = len a →
  fs !! dst = Some old → doff = len old →
  decrypt_chunks (len <$> cs) i key (mkFile path off) (mkFile dst doff) fs =
  (Ret None, <[dst := old ++ concat ps]> fs).
Proof.
  intros Hk Hne Hw Hs. revert off doff fs a old i.
  induction Hs as [|p c ps cs (nonce & Hn & ->) Hs IH]; intros off doff fs a old i Hf Ho Hd ->.
  { cbn. by rewrite app_nil_r, insert_id. }
  cbn [decrypt_chunks fmap list_fmap concat]. cbn [concat] in Hf. rewrite <- app_assoc in Hf.
  unfold_M. rewrite (io_ReadFull_at _ _ _ _ _ _ _ Hf Ho eq_refl).
  pose proof (len_nonneg (gcm_Seal key nonce p)).
  rewrite (proj2 (Z.ltb_ge _ _)) by (rewrite len_app; lia).
  rewrite splitZ_exact by done. unfold Open. rewrite decide_True, gcm_Open_Seal by done.
  rewrite os_Write_append; cbn [f_path f_off]; [|by rewrite Hd|done].
  rewrite Hd. cbn [default from_option id].
  rewrite (IH _ _ _ (a ++ nonce ++ gcm_Seal key nonce p) (old ++ p)).
  - by rewrite insert_insert_eq, <- app_assoc.
  - rewrite lookup_insert_ne by done. by rewrite Hf, !app_assoc.
  - rewrite Ho, !len_app. lia.
  - by rewrite lookup_insert_eq.
  - by rewrite len_app.
Qed.

Lemma sealed_sizes key ps cs :
  Forall (λ p : bytes, len p ≤ chunkSize) ps → Forall2 (sealed key) ps cs →
  Forall (λ z, 0 ≤ z < 2 ^ 32) (len <$> cs).
Proof.
  intros Hp Hs. induction Hs as [|p c ps cs (nonce & Hl & ->) Hs IH]; [done|].
  apply Forall_cons in Hp as [Hp Hps]. cbn. constructor; [|by apply IH].
  rewrite len_app, len_gcm_Seal, Hl. unfold gcmNonceSize, chunkSize in *.
  pose proof (len_nonneg p). lia.
Qed.

Lemma len_sizes szs : len (concat (LittleEndian.PutUint32 <$> szs)) = 4 * len szs.
Proof.
  induction szs as [|z szs IH]; [done|]. cbn [fmap list_fmap concat].
  rewrite len_app, LittleEndian.len_PutUint32, len_cons, IH. lia.
Qed.

(** The sizes table of a v2 file. *)
Definition v2_sizes (cs : list bytes) : bytes := concat (LittleEndian.PutUint32 <$> (len <$> cs)).

Lemma v2_file_eq cs :
  Forall (λ z, 0 ≤ z < 2 ^ 32) (len <$> cs) →
  v2_file cs =
  bytes_of v2Magic ++ LittleEndian.PutUint32 (uint32 (len cs)) ++ v2_sizes cs ++ concat cs.
Proof.
  intros Hz. unfold v2_file, v2_writes, v2_sizes. cbn [concat].
  rewrite concat_app, <- list_fmap_compose. do 4 f_equal. apply list_fmap_ext.
  intros i c Hi. cbn. rewrite uint32_id; [done|].
  rewrite Forall_fmap, Forall_lookup in Hz. by apply (Hz i).
Qed.

(** The part of the file before the chunks. *)
Definition v2_header (cs : list bytes) : bytes :=
  bytes_of v2Magic ++ LittleEndian.PutUint32 (uint32 (len cs)) ++ v2_sizes cs.

(** Reading a v2 file of 1 to 10000 chunks, up to its first chunk. *)
Lemma DecryptFileStreaming_open src dst key cs fs :
  Open_err src = None → Create_err dst = None →
  Forall (λ z, 0 ≤ z < 2 ^ 32) (len <$> cs) →
  0 < len cs ≤ maxChunks → fs !! src = Some (v2_file cs) →
  DecryptFileStreaming src dst key fs =
  (block ← lift (NewGCM_of key);
   decrypt_chunks (len <$> cs) 0 block (mkFile src (len (v2_header cs))) (mkFile dst 0))
  (<[dst := []]> fs).
Proof.
  intros Ho Hc Hz Hn Hf. rewrite v2_file_eq in Hf by done.
  unfold DecryptFileStreaming, os_Open. unfold_M. rewrite Ho, Hf. cbn [fst snd].
  rewrite (io_ReadFull_at src 0 4 fs [] (bytes_of v2Magic) _ Hf eq_refl eq_refl).
  cbn [string_of_list_ascii]. rewrite decide_False by done. rewrite decide_True by done.
  unfold decryptV2. unfold_M. pose proof (uint32_id (len cs)) as Hu. unfold maxChunks in *.
  rewrite (read_uint32_at src (0 + 4) fs (bytes_of v2Magic) (uint32 (len cs)) _ Hf eq_refl
             (uint32_range _)). rewrite Hu by lia.
  rewrite (proj2 (Z.eqb_neq _ _)), (proj2 (Z.ltb_ge _ _)) by lia. cbn [orb].
  replace (Z.to_nat (len cs)) with (length (len <$> cs))
    by (rewrite length_fmap; unfold len; lia).
  rewrite app_assoc in Hf.
  rewrite (read_sizes_at _ _ _ _ (len <$> cs) (concat cs) _ Hf); [|done|done].
  unfold os_Create. rewrite Hc. unfold v2_header.
  replace (len (_ ++ _ ++ v2_sizes cs)) with (0 + 4 + 4 + 4 * len (len <$> cs)); [done|].
  rewrite !len_app, LittleEndian.len_PutUint32. unfold v2_sizes. rewrite len_sizes.
  change (len (bytes_of v2Magic)) with 4. lia.
Qed.

Lemma DecryptFileStreaming_v2 src dst key ps cs fs :
  src ≠ dst → Open_err src = None → Create_err dst = None → (∀ b, Write_err dst b = None) →
  len key = 32 → Forall (λ p : bytes, len p ≤ chunkSize) ps → Forall2 (sealed key) ps cs →
  0 < len cs ≤ maxChunks → fs !! src = Some (v2_file cs) →
  DecryptFileStreaming src dst key fs = (Ret None, <[dst := concat ps]> fs).
Proof.
  intros Hne Ho Hc Hw Hk Hps Hs Hn Hf. pose proof (sealed_sizes _ _ _ Hps Hs) as Hz.
  rewrite (DecryptFileStreaming_open _ _ _ cs) by done. unfold NewGCM_of, aes_NewCipher. unfold_M.
  rewrite decide_True by auto.
  rewrite (decrypt_chunks_at _ _ _ _ _ _ (v2_header cs) ps cs [] []);
    [by rewrite insert_insert_eq|done..|rewrite lookup_insert_ne by done|done|by rewrite lookup_insert_eq|done].
  rewrite Hf, app_nil_r, v2_file_eq by done. unfold v2_header. by rewrite <- !app_assoc.
Qed.

(** Nothing goes wrong with the file outside the program. *)
Definition fault_free (p : string) : Prop :=
  Open_err p = None ∧ Create_err p = None ∧ ∀ b, Write_err p b = None.

(** The number of chunks of a file of [n] bytes. *)
Definition chunk_count (n : Z) : Z := (n + chunkSize - 1) `div` chunkSize.

Lemma cut_len_chunks key n data ps cs :
  cut n data ps → Forall2 (sealed key) ps cs → len cs = (len data + n - 1) `div` n.
Proof. intros (_ & _ & <-) Hs. unfold len. by rewrite (Forall2_length _ _ _ Hs). Qed.

(** C18: streaming encryption round-trips.  A file of 1 byte to 10000 chunks
    (39 GiB) is encrypted without error, given nonces for its chunks; the
    source is left as it was; decrypting the result under the same key succeeds
    and writes the original bytes. *)
Theorem streaming_roundtrip src dst out key compress data fs rnd :
  src ≠ dst → dst ≠ out → fault_free src → fault_free dst → fault_free out →
  len key = 32 → fs !! src = Some data → 0 < chunk_count (len data) ≤ maxChunks →
  gcmNonceSize * chunk_count (len data) ≤ len rnd →
  ∃ fs' rnd', EncryptFileStreaming src dst key compress (fs, rnd) = (Ret None, (fs', rnd')) ∧
    fs' !! src = Some data ∧
    DecryptFileStreaming dst out key fs' = (Ret None, <[out := data]> fs').
Proof.
  intros Hne Hne' (Ho & _) (Ho1 & Hc1 & Hw1) (_ & Hc2 & Hw2) Hk Hf Hn Hr.
  destruct (EncryptFileStreaming_spec src dst key compress data fs rnd)
    as (ps & cs & rnd' & He & Hcut & Hs); try done.
  { unfold aes_NewCipher. by rewrite decide_True by auto. }
  exists (<[dst := v2_file cs]> fs), rnd'. split; [done|]. split; [by rewrite lookup_insert_ne|].
  pose proof (cut_len_chunks _ _ _ _ _ Hcut Hs) as Hl. destruct Hcut as (<- & Hp & _).
  apply (DecryptFileStreaming_v2 dst out key ps cs); try done.
  - eapply Forall_impl; [exact Hp|]. cbn. lia.
  - unfold chunk_count in Hn. lia.
  - by rewrite lookup_insert_eq.
Qed.

(** C38: outside that range the encryption still reports success, and what it
    wrote is refused by [DecryptFileStreaming]: an empty file (no chunks) and a
    file of more than 10000 chunks cannot be decrypted. *)
Theorem streaming_undecryptable src dst out key key' compress data fs rnd :
  src ≠ dst → fault_free src → fault_free dst → is_ok (aes_NewCipher key) = true →
  fs !! src = Some data → len data = 0 ∨ maxChunks < chunk_count (len data) < 2 ^ 32 →
  gcmNonceSize * chunk_count (len data) ≤ len rnd →
  ∃ fs' rnd', EncryptFileStreaming src dst key compress (fs, rnd) = (Ret None, (fs', rnd')) ∧
    DecryptFileStreaming dst out key' fs' =
      (Ret (Some (InvalidChunkCount (chunk_count (len data)))), fs').
Proof.
  intros Hne (Ho & _) (Ho1 & Hc1 & Hw1) Hk Hf Hn Hr.
  destruct (EncryptFileStreaming_spec src dst key compress data fs rnd)
    as (ps & cs & rnd' & He & Hcut & Hs); try done.
  exists (<[dst := v2_file cs]> fs), rnd'. split; [done|].
  pose proof (cut_len_chunks _ _ _ _ _ Hcut Hs) as Hl. fold (chunk_count (len data)) in Hl.
  assert (0 ≤ len cs < 2 ^ 32 ∧ (len cs = 0 ∨ maxChunks < len cs)) as [Hb Hn'].
  { pose proof (len_nonneg cs). destruct Hn as [Hn|Hn]; [|lia].
    rewrite Hn in Hl. change (chunk_count 0) with 0 in Hl. lia. }
  rewrite <- Hl. set (fs' := <[dst := _]> fs).
  assert (fs' !! dst = Some ([] ++ bytes_of v2Magic ++ concat (v2_writes cs))) as Hf'
    by (subst fs'; by rewrite lookup_insert_eq).
  unfold DecryptFileStreaming, os_Open. unfold_M. rewrite Ho1, Hf'. cbn [fst snd].
  rewrite (io_ReadFull_at dst 0 4 fs' [] (bytes_of v2Magic) _ Hf' eq_refl eq_refl).
  cbn [string_of_list_ascii]. rewrite decide_False by done. rewrite decide_True by done.
  unfold decryptV2. unfold_M.
  erewrite (read_uint32_at _ _ _ (bytes_of v2Magic) (uint32 (len cs)));
    [|exact Hf'|done|apply uint32_range]. rewrite (uint32_id _ Hb).
  destruct Hn' as [->|Hn']; [done|]. by rewrite (proj2 (Z.ltb_lt _ _) Hn'), orb_true_r.
Qed.

(** C30: the chunks of a v2 file are authenticated one by one and not
    together: every file made of chunks sealed under the key - a file's own
    chunks reordered, repeated or left out - decrypts without error to the
    blocks in the order found. *)
Theorem v2_chunks_unordered src out key ps cs fs (σ : list nat) ps' cs' :
  src ≠ out → fault_free src → fault_free out → len key = 32 →
  Forall (λ p : bytes, len p ≤ chunkSize) ps → Forall2 (sealed key) ps cs →
  mapM (ps !!.) σ = Some ps' → mapM (cs !!.) σ = Some cs' → 0 < len σ ≤ maxChunks →
  fs !! src = Some (v2_file cs') →
  DecryptFileStreaming src out key fs = (Ret None, <[out := concat ps']> fs).
Proof.
  intros Hne (Ho & _) (_ & Hc & Hw) Hk Hp Hs Hps Hcs Hn Hf.
  apply mapM_Some in Hps, Hcs. pose proof (Forall2_length _ _ _ Hcs) as Hl.
  apply (DecryptFileStreaming_v2 src out key ps' cs'); try done.
  - apply Forall_forall. intros p (i & Hi)%list_elem_of_lookup.
    destruct (Forall2_lookup_r _ _ _ _ _ Hps Hi) as (j & _ & Hj). cbn in Hj.
    rewrite Forall_lookup in Hp. by apply (Hp j).
  - apply Forall2_same_length_lookup_2; [by rewrite <- Hl, <- (Forall2_length _ _ _ Hps)|].
    intros i p c Hi Hci.
    destruct (Forall2_lookup_r _ _ _ _ _ Hps Hi) as (j & Hj1 & Hj2).
    destruct (Forall2_lookup_r _ _ _ _ _ Hcs Hci) as (j' & Hj1' & Hj2'). cbn in *.
    simplify_eq. by apply (Forall2_lookup_lr _ _ _ _ _ _ Hs Hj2 Hj2').
  - unfold len in *. by rewrite <- Hl.
Qed.

(** with the destination equal to the source the encryption reports
    success and destroys the file: what it seals is the magic it has just
    written, whatever the file held. *)
Theorem streaming_in_place p key compress data fs rnd :
  fault_free p → is_ok (aes_NewCipher key) = true → fs !! p = Some data →
  gcmNonceSize ≤ len rnd →
  ∃ c rnd', sealed key (bytes_of v2Magic) c ∧
    EncryptFileStreaming p p key compress (fs, rnd) = (Ret None, (<[p := v2_file [c]]> fs, rnd')).
Proof.
  intros (Ho & Hc & Hw) Hk Hf Hr.
  destruct (EncryptFileStreaming_gen p p key compress fs rnd (bytes_of v2Magic))
    as (ps & cs & rnd' & He & (Hd & _ & Hl) & Hs); try done.
  { by rewrite lookup_insert_eq. }
  change ((len (bytes_of v2Magic) + chunkSize - 1) `div` chunkSize) with 1 in Hl.
  destruct Hs as [|q c ps cs Hq Hs]; [done|]. rewrite len_cons in Hl.
  destruct Hs as [|]; [|rewrite len_cons in Hl; pose proof (len_nonneg l); lia].
  cbn in Hd. rewrite app_nil_r in Hd. subst q. by exists c, rnd'.
Qed.

(** a key of a wrong length is not reported as an error: decrypting a
    well-formed v2 file panics, and the destination has been truncated. *)
Theorem DecryptFileStreaming_bad_key src dst key cs fs :
  fault_free src → fault_free dst → is_ok (aes_NewCipher key) = false →
  Forall (λ c : bytes, len c < 2 ^ 32) cs → 0 < len cs ≤ maxChunks →
  fs !! src = Some (v2_file cs) →
  DecryptFileStreaming src dst key fs = (Panic nil_deref, <[dst := []]> fs).
Proof.
  intros (Ho & _) (_ & Hc & _) Hk Hz Hn Hf.
  rewrite (DecryptFileStreaming_open _ _ _ cs); [|done..| |done|done].
  - unfold NewGCM_of. by destruct (aes_NewCipher key).
  - apply Forall_fmap. eapply Forall_impl; [exact Hz|]. cbn. intros c Hlt.
    pose proof (len_nonneg c). lia.
Qed.

(** a v1 file, the magic followed by a nonce and one sealed block, is
    decrypted to the block. *)
Theorem decryptV1_sealed src dst key p c fs :
  fault_free src → fault_free dst → len key = 32 → sealed key p c →
  fs !! src = Some (bytes_of v1Magic ++ c) →
  DecryptFileStreaming src dst key fs = (Ret None, <[dst := p]> fs).
Proof.
  intros (Ho & _) (_ & Hc & Hw) Hk (nonce & Hn & ->) Hf.
  unfold DecryptFileStreaming, os_Open. unfold_M. rewrite Ho, Hf.
  rewrite (io_ReadFull_at src 0 4 fs [] (bytes_of v1Magic) _ Hf eq_refl eq_refl).
  cbn [string_of_list_ascii]. rewrite decide_True by done.
  unfold decryptV1, io_ReadAll, NewGCM_of, aes_NewCipher. unfold_M.
  rewrite decide_True by auto. rewrite (unread_at src (0 + 4) fs (bytes_of v1Magic) _ Hf eq_refl).
  rewrite (proj2 (Z.ltb_ge _ _)) by (rewrite len_app, Hn; pose proof (len_nonneg (gcm_Seal key nonce p)); lia).
  rewrite splitZ_exact by done. unfold Open. rewrite decide_True, gcm_Open_Seal by done.
  unfold os_WriteFile, os_Create. unfold_M. rewrite Hc. rewrite os_Write_append; cbn [f_path f_off];
    [|by rewrite lookup_insert_eq|done].
  by rewrite lookup_insert_eq, insert_insert_eq.
Qed.

(** a file that does not start with one of the two magics is refused
    before anything is written. *)
Theorem DecryptFileStreaming_unknown src dst key data fs :
  fault_free src → fs !! src = Some data →
  take 4 data ≠ bytes_of v1Magic → take 4 data ≠ bytes_of v2Magic →
  ∃ e, DecryptFileStreaming src dst key fs = (Ret (Some e), fs) ∧
    (e = UnknownFormat (take 4 data) ∨ e = ReadMagic ReadEOF ∨ e = ReadMagic ReadUnexpectedEOF).
Proof.
  intros (Ho & _) Hf H1 H2. unfold DecryptFileStreaming, os_Open, io_ReadFull. unfold_M.
  rewrite Ho, Hf. rewrite (unread_at src 0 fs [] data Hf eq_refl).
  rewrite splitZ_take_drop. cbn [fst]. change (Z.to_nat 4) with 4%nat.
  destruct (decide (len (take 4 data) = _)); [|destruct (decide _); eauto].
  rewrite !decide_False; [eauto|intros H; revert H2|intros H; revert H1];
    rewrite <- (bytes_of_string_of (take 4 data)), H; done.
Qed.

End streaming.

(** ** Runs on concrete files *)

#[local] Existing Instance ToyCrypto.crypto.
#[local] Existing Instance ToyCrypto.crypto_laws.
#[local] Existing Instance healthy.

Definition demo_key : bytes := replicate 32 "k"%char.
Definition demo_rnd : bytes := replicate 24 "r"%char.
Definition demo_block (s : string) : bytes :=
  replicate 12 "r"%char ++ gcm_Seal demo_key (replicate 12 "r"%char) (bytes_of s).

Lemma healthy_fault_free p : fault_free p.
Proof. done. Qed.

Lemma demo_block_sealed s : sealed demo_key (bytes_of s) (demo_block s).
Proof. by apply sealed_intro. Qed.

Lemma streaming_roundtrip_witness :
  ∃ fs' rnd',
    EncryptFileStreaming "a" "b" demo_key false ({["a" := bytes_of "hello"]}, demo_rnd) =
      (Ret None, (fs', rnd')) ∧
    fs' !! "a" = Some (bytes_of "hello") ∧
    DecryptFileStreaming "b" "c" demo_key fs' = (Ret None, <["c" := bytes_of "hello"]> fs').
Proof.
  apply streaming_roundtrip; try apply healthy_fault_free; try done;
    vm_compute; intuition discriminate.
Defined.

Lemma streaming_undecryptable_witness :
  ∃ fs' rnd',
    EncryptFileStreaming "a" "b" demo_key false ({["a" := []]}, demo_rnd) =
      (Ret None, (fs', rnd')) ∧
    DecryptFileStreaming "b" "c" demo_key fs' = (Ret (Some (InvalidChunkCount 0)), fs').
Proof.
  apply (streaming_undecryptable "a" "b" "c" demo_key demo_key false []);
    try apply healthy_fault_free; try done. by left.
Defined.

Lemma v2_chunks_unordered_witness :
  DecryptFileStreaming "b" "c" demo_key {["b" := v2_file (demo_block <$> ["y"; "x"; "y"])]} =
  (Ret None, <["c" := bytes_of "yxy"]> {["b" := v2_file (demo_block <$> ["y"; "x"; "y"])]}).
Proof.
  apply (v2_chunks_unordered "b" "c" demo_key [bytes_of "x"; bytes_of "y"]
           [demo_block "x"; demo_block "y"] _ [1; 0; 1]%nat
           [bytes_of "y"; bytes_of "x"; bytes_of "y"] (demo_block <$> ["y"; "x"; "y"]));
    try apply healthy_fault_free; try done.
  - repeat constructor; vm_compute; discriminate.
  - repeat constructor; apply demo_block_sealed.
Defined.

Lemma streaming_in_place_witness :
  ∃ c rnd', sealed demo_key (bytes_of v2Magic) c ∧
    EncryptFileStreaming "a" "a" demo_key false ({["a" := bytes_of "hello"]}, demo_rnd) =
      (Ret None, (<["a" := v2_file [c]]> {["a" := bytes_of "hello"]}, rnd')).
Proof.
  eapply streaming_in_place; try apply healthy_fault_free; try done; vm_compute; discriminate.
Defined.

Lemma DecryptFileStreaming_bad_key_witness :
  DecryptFileStreaming "b" "c" (bytes_of "short") {["b" := v2_file [demo_block "x"]]} =
  (Panic nil_deref, <["c" := []]> {["b" := v2_file [demo_block "x"]]}).
Proof.
  eapply (DecryptFileStreaming_bad_key _ _ _ [demo_block "x"]); try apply healthy_fault_free;
    try done; repeat constructor.
Defined.

Lemma decryptV1_sealed_witness :
  DecryptFileStreaming "b" "c" demo_key {["b" := bytes_of v1Magic ++ demo_block "x"]} =
  (Ret None, <["c" := bytes_of "x"]> {["b" := bytes_of v1Magic ++ demo_block "x"]}).
Proof.
  eapply decryptV1_sealed; try apply healthy_fault_free; try done. apply demo_block_sealed.
Defined.

Lemma DecryptFileStreaming_unknown_witness :
  ∃ e, DecryptFileStreaming "b" "c" demo_key {["b" := bytes_of "PK34"]} =
         (Ret (Some e), {["b" := bytes_of "PK34"]}) ∧
    (e = UnknownFormat (bytes_of "PK34") ∨ e = ReadMagic ReadEOF ∨ e = ReadMagic ReadUnexpectedEOF).
Proof.
  apply (DecryptFileStreaming_unknown "b" "c" demo_key (bytes_of "PK34"));
    try apply healthy_fault_free; done.
Defined.
