(* ===== verification/Keystore.v ===== *)
(** * The node's key file ([node/keystore.go])

    Loading the node's P-256 key from [node_key.pem], or generating one and
    writing it there.  The PEM and SEC 1 encodings ([encoding/pem],
    [crypto/x509], [crypto/ecdsa]) are the interface [KeyCodec]. *)

From S2P Require Import Prelude Encoding GoStrings Json Crypto FileSystem.

Class KeyCodec {C : Crypto} := {
  ecdsa_key : Type;
  (** The block's type and bytes. *)
  pem_Decode : bytes → option (string * bytes);
  pem_EncodeToMemory : string → bytes → bytes;
  x509_ParseECPrivateKey : bytes → res error ecdsa_key;
  x509_MarshalECPrivateKey : ecdsa_key → res error bytes;
  ecdsa_ECDH : ecdsa_key → res error privkey;
  priv_Bytes : privkey → bytes;
  (** The P-256 key of a scalar, with its public point. *)
  ecdsa_of_scalar : bytes → ecdsa_key;
}.
Arguments KeyCodec : clear implicits.

Class KeyCodecLaws (C : Crypto) (K : KeyCodec C) : Prop := {
  pem_Decode_Encode b :
    pem_Decode (pem_EncodeToMemory "EC PRIVATE KEY" b) = Some ("EC PRIVATE KEY", b);
  x509_Parse_Marshal p : ∃ der,
    x509_MarshalECPrivateKey (ecdsa_of_scalar (priv_Bytes p)) = Ok der ∧
    x509_ParseECPrivateKey der = Ok (ecdsa_of_scalar (priv_Bytes p));
  ecdsa_ECDH_of p : ecdsa_ECDH (ecdsa_of_scalar (priv_Bytes p)) = Ok p;
}.

Section keystore.
Context {C : Crypto} {K : KeyCodec C} {O : Os}.

Definition keyFileName : string := "node_key.pem".
Definition keyPath (dataDir : string) : string := dataDir +:+ "/" +:+ keyFileName.
Definition pemType : string := "EC PRIVATE KEY".

Definition privToEC (priv : privkey) : res error ecdsa_key :=
  Ok (ecdsa_of_scalar (priv_Bytes priv)).

Definition saveKeyToDisk (priv : privkey) (path : string) : M FS (option error) :=
  try ecKey := privToEC priv catch err => mret (Some err) in
  try derBytes := x509_MarshalECPrivateKey ecKey
    catch err => mret (Some (wrap "failed to marshal EC key" err)) in
  os_WriteFile path (pem_EncodeToMemory pemType derBytes).

(** What the file's contents give: [None] when they are not a key, and a new
    one is to be generated. *)
Definition parse_key_file (data : bytes) : option (res error privkey) :=
  match pem_Decode data with
  | Some (t, b) =>
      if decide (t = pemType) then
        match x509_ParseECPrivateKey b with
        | Ok key => Some (ecdsa_ECDH key)
        | Err _ => None
        end
      else None
  | None => None
  end.

Definition generate_key (path : string) : M (FS * bytes) (res error privkey) :=
  r ← on_rnd rand_GenerateKey;
  try priv := r catch err => mret (Err (wrap "failed to generate P-256 key" err)) in
  err ← on_fs (saveKeyToDisk priv path);
  match err with
  | Some err => mret (Err (wrap "failed to persist node key" err))
  | None => mret (Ok priv)
  end.

Definition LoadOrGenerateKey (dataDir : string) : M (FS * bytes) (res error privkey) :=
  err ← on_fs (os_MkdirAll dataDir);
  match err with
  | Some err => mret (Err (wrap "failed to create data directory" err))
  | None =>
      data ← on_fs (os_ReadFile (keyPath dataDir));
      match data with
      | Err _ => generate_key (keyPath dataDir)
      | Ok data =>
          match parse_key_file data with
          | Some r => mret r
          | None => generate_key (keyPath dataDir)
          end
      end
  end.

(** ** Properties *)

Lemma LoadOrGenerateKey_load dir data r fs rnd :
  MkdirAll_err dir = None → Open_err (keyPath dir) = None →
  fs !! keyPath dir = Some data → parse_key_file data = Some r →
  LoadOrGenerateKey dir (fs, rnd) = (Ret r, (fs, rnd)).
Proof.
  intros Hm Ho Hf Hp. unfold LoadOrGenerateKey, on_fs, os_MkdirAll. unfold_M.
  rewrite Hm, os_ReadFile_spec. cbn [fst snd]. by rewrite Ho, Hf, Hp.
Qed.

Context {KL : KeyCodecLaws C K}.

Lemma parse_key_file_saved p der :
  x509_MarshalECPrivateKey (ecdsa_of_scalar (priv_Bytes p)) = Ok der →
  parse_key_file (pem_EncodeToMemory pemType der) = Some (Ok p).
Proof.
  intros Hd. destruct (x509_Parse_Marshal p) as (der' & Hm & Hp).
  assert (der' = der) as -> by congruence.
  unfold parse_key_file. rewrite pem_Decode_Encode, decide_True, Hp by done.
  by rewrite ecdsa_ECDH_of.
Qed.

Lemma generate_key_saved path fs rnd priv fs' rnd' :
  generate_key path (fs, rnd) = (Ret (Ok priv), (fs', rnd')) →
  ∃ data, fs' = <[path := data]> fs ∧ parse_key_file data = Some (Ok priv) ∧
    P256_GenerateKey rnd = Ok (priv, rnd').
Proof.
  unfold generate_key, on_rnd, on_fs, rand_GenerateKey, saveKeyToDisk, privToEC. unfold_M.
  cbn [fst snd]. destruct (P256_GenerateKey rnd) as [[k r1]|]; [|done].
  destruct (x509_MarshalECPrivateKey _) as [der|] eqn:Ed; [|done].
  cbn [fst snd]. destruct (os_WriteFile _ _ fs) as [[[e|]|] fs1] eqn:Ew; [done| |done].
  intros [= <- <- <-]. apply os_WriteFile_ok in Ew as ->.
  eexists. split; [done|]. split; [by apply parse_key_file_saved|done].
Qed.

(** Once a key has been returned, later calls find it on disk. *)
Lemma LoadOrGenerateKey_again dir fs rnd priv fs' rnd' rnd2 :
  Open_err (keyPath dir) = None →
  LoadOrGenerateKey dir (fs, rnd) = (Ret (Ok priv), (fs', rnd')) →
  LoadOrGenerateKey dir (fs', rnd2) = (Ret (Ok priv), (fs', rnd2)).
Proof.
  intros Ho H. unfold LoadOrGenerateKey, on_fs, os_MkdirAll in H. unfold_M.
  destruct (MkdirAll_err dir) eqn:Hm; [done|]. rewrite os_ReadFile_spec, Ho in H.
  cbn [fst snd] in H.
  assert (∀ s, generate_key (keyPath dir) s = (Ret (Ok priv), (fs', rnd')) →
    LoadOrGenerateKey dir (fs', rnd2) = (Ret (Ok priv), (fs', rnd2))) as Hgen.
  { intros [fs0 rnd0] (data & -> & Hp & _)%generate_key_saved.
    eapply LoadOrGenerateKey_load; [done..|by rewrite lookup_insert_eq|done]. }
  destruct (fs !! keyPath dir) as [data|] eqn:Hf; [|by eapply Hgen].
  destruct (parse_key_file data) as [r|] eqn:Hp; [|by eapply Hgen].
  injection H as -> <- <-. by eapply LoadOrGenerateKey_load.
Qed.

(** C31: the node's key survives restarts.  Once [LoadOrGenerateKey] has
    returned a key, every later call on the same directory returns that key,
    changes no file and uses no randomness. *)
Theorem LoadOrGenerateKey_persists dir fs rnd priv fs' rnd' rnd2 :
  Open_err (keyPath dir) = None →
  LoadOrGenerateKey dir (fs, rnd) = (Ret (Ok priv), (fs', rnd')) →
  LoadOrGenerateKey dir (fs', rnd2) = (Ret (Ok priv), (fs', rnd2)).
Proof.
  apply LoadOrGenerateKey_again.
Qed.

(** a key file that exists but does not parse is not an error: a new key
    is generated and the file is overwritten with it. *)
Theorem LoadOrGenerateKey_replaces dir data fs rnd k rnd' :
  MkdirAll_err dir = None → Create_err (keyPath dir) = None →
  (∀ b, Write_err (keyPath dir) b = None) →
  fs !! keyPath dir = Some data → parse_key_file data = None →
  P256_GenerateKey rnd = Ok (k, rnd') →
  ∃ data', LoadOrGenerateKey dir (fs, rnd) = (Ret (Ok k), (<[keyPath dir := data']> fs, rnd')) ∧
    parse_key_file data' = Some (Ok k).
Proof.
  intros Hm Hc Hw Hf Hp Hk. destruct (x509_Parse_Marshal k) as (der & Hd & _).
  exists (pem_EncodeToMemory pemType der). split; [|by apply parse_key_file_saved].
  unfold LoadOrGenerateKey, on_fs, os_MkdirAll. unfold_M. rewrite Hm, os_ReadFile_spec.
  cbn [fst snd]. rewrite Hf.
  assert (generate_key (keyPath dir) (fs, rnd) =
    (Ret (Ok k), (<[keyPath dir := pem_EncodeToMemory pemType der]> fs, rnd'))) as Hg.
  { unfold generate_key, on_rnd, on_fs, rand_GenerateKey, saveKeyToDisk, privToEC, os_WriteFile,
      os_Create. unfold_M. cbn [fst snd]. rewrite Hk, Hd. cbn [fst snd]. rewrite Hc.
    rewrite os_Write_append; cbn [f_path f_off]; [|by rewrite lookup_insert_eq|done].
    by rewrite lookup_insert_eq, insert_insert_eq. }
  destruct (Open_err _); [done|]. by rewrite Hp.
Qed.

End keystore.

(** ** A concrete encoding *)

Module ToyKeys.

#[export] Instance codec : KeyCodec ToyCrypto.crypto := {|
  ecdsa_key := bytes;
  pem_Decode b := match b with
    | c :: r => if decide (c = "-"%char) then Some (pemType, r) else None
    | [] => None
    end;
  pem_EncodeToMemory t b := if decide (t = pemType) then "-"%char :: b else [];
  x509_ParseECPrivateKey b := Ok b;
  x509_MarshalECPrivateKey k := Ok k;
  ecdsa_ECDH k := @Ok error (@privkey ToyCrypto.crypto) k;
  priv_Bytes p := p;
  ecdsa_of_scalar b := b;
|}.

#[export] Instance laws : KeyCodecLaws ToyCrypto.crypto codec.
Proof. split; [done| |done]. intros p. by exists p. Qed.

End ToyKeys.

#[local] Existing Instance ToyCrypto.crypto.
#[local] Existing Instance ToyKeys.codec.
#[local] Existing Instance ToyKeys.laws.
#[local] Existing Instance healthy.

Definition rnd_k : bytes := replicate 32 "k"%char.

Lemma LoadOrGenerateKey_persists_witness :
  LoadOrGenerateKey "d" (<["d/node_key.pem" := "-"%char :: rnd_k]> ∅, []) =
  (Ret (Ok (ToyCrypto.priv rnd_k)), (<["d/node_key.pem" := "-"%char :: rnd_k]> ∅, [])).
Proof.
  apply (LoadOrGenerateKey_persists "d" ∅ rnd_k (ToyCrypto.priv rnd_k) _ []); [done|]. vm_compute. reflexivity.
Defined.

Lemma LoadOrGenerateKey_replaces_witness :
  ∃ data', LoadOrGenerateKey "d" ({["d/node_key.pem" := bytes_of "?"]}, rnd_k) =
      (Ret (Ok (ToyCrypto.priv rnd_k)), (<["d/node_key.pem" := data']> {["d/node_key.pem" := bytes_of "?"]}, [])) ∧
    parse_key_file data' = Some (Ok (ToyCrypto.priv rnd_k)).
Proof. by apply (LoadOrGenerateKey_replaces "d" (bytes_of "?")). Defined.
