(* ===== verification/Logger.v ===== *)
(** * Logging ([node/logger.go])

    The zerolog loggers: which entries are written, to which log.  Parsing a
    level name is zerolog's ([Zerolog]); an entry is kept as its fields and its
    message, not as the JSON line zerolog renders. *)

From S2P Require Import Prelude FileSystem.

Class Zerolog := { zerolog_ParseLevel : string → option Z }.

(** zerolog's levels. *)
Definition TraceLevel : Z := -1.
Definition DebugLevel : Z := 0.
Definition InfoLevel : Z := 1.
Definition WarnLevel : Z := 2.
Definition ErrorLevel : Z := 3.

Inductive LogName := Main | Audit.

#[export] Instance LogName_eq_dec : EqDecision LogName.
Proof. solve_decision. Defined.

Record LogEntry := mkEntry {
  le_log : LogName;
  le_level : Z;
  le_fields : list (string * string);
  le_msg : string;
}.

(** The loggers: the global level, whether [loggerOnce] has run (a logger that
    was never set up writes nothing), the file the audit log goes to besides
    the standard output, and the lines written, oldest first. *)
Record Loggers := mkLoggers {
  log_level : Z;
  log_ready : bool;
  log_audit : option File;
  log_lines : list LogEntry;
}.

(** zerolog's zero global level is debug. *)
Definition zero_loggers : Loggers := mkLoggers DebugLevel false None [].

(** [logger.Info().Str(...)....Msg(msg)] and the like. *)
Definition emit (l : LogName) (level : Z) (fields : list (string * string)) (msg : string) :
    M Loggers unit :=
  modify (λ s,
    if log_ready s && (log_level s <=? level)
    then mkLoggers (log_level s) true (log_audit s) (log_lines s ++ [mkEntry l level fields msg])
    else s).

(** [openAuditFile]'s path, for the directory of the environment and a date. *)
Definition auditFilePath (DATA_DIR date : string) : string :=
  (if decide (DATA_DIR = "") then "./data" else DATA_DIR) +:+ "/audit-" +:+ date +:+ ".log".

Section logger.
Context {Z' : Zerolog} {O : Os}.

(** [openAuditFile] on the day [date]. *)
Definition openAuditFile (DATA_DIR date : string) : M FS (res error File) :=
  let dir := if decide (DATA_DIR = "") then "./data" else DATA_DIR in
  err ← os_MkdirAll dir;
  match err with
  | Some err => mret (Err err)
  | None => os_OpenAppend (auditFilePath DATA_DIR date)
  end.

Definition parseLogLevel (level : string) : Z :=
  match zerolog_ParseLevel level with
  | None => InfoLevel
  | Some lvl => lvl
  end.

(** What [loggerOnce] runs: an audit file that can not be opened leaves the
    standard output. *)
Definition setup_loggers (DATA_DIR date : string) : M (FS * Loggers) unit :=
  af ← zoom fst (λ fs st, (fs, st.2)) (openAuditFile DATA_DIR date);
  let w := match af with Ok f => Some f | Err _ => None end in
  modify (λ st, (st.1, mkLoggers (log_level st.2) true w (log_lines st.2))).

(** [InitLogger]: the level is set every time, the loggers once. *)
Definition InitLogger (DATA_DIR date level : string) : M (FS * Loggers) unit :=
  let lvl := parseLogLevel level in
  _ ← modify (λ st, (st.1, mkLoggers lvl (log_ready st.2) (log_audit st.2) (log_lines st.2)));
  st ← gets id;
  if log_ready st.2 then mret tt else setup_loggers DATA_DIR date.

(** Once the loggers are set up [InitLogger] sets the level only: the audit log
    stays in the file of the day on which the process started. *)
Lemma InitLogger_once dir date level fs ls :
  log_ready ls = true →
  InitLogger dir date level (fs, ls) =
    (Ret tt, (fs, mkLoggers (parseLogLevel level) true (log_audit ls) (log_lines ls))).
Proof. intros Hr. unfold InitLogger. unfold_M. cbn. by rewrite Hr. Qed.

(** The first time the loggers are set up, whatever happens to the audit file;
    it loses nothing that was in it. *)
Lemma InitLogger_first dir date level fs ls :
  log_ready ls = false →
  ∃ fs' w, InitLogger dir date level (fs, ls) =
    (Ret tt, (fs', mkLoggers (parseLogLevel level) true w (log_lines ls))) ∧
    (fs' = fs ∨ fs' = <[auditFilePath dir date := default [] (fs !! auditFilePath dir date)]> fs).
Proof.
  intros Hr. unfold InitLogger, setup_loggers, openAuditFile, os_MkdirAll, os_OpenAppend. unfold_M.
  cbn [fst snd log_ready]. rewrite Hr. cbn [fst snd].
  destruct (MkdirAll_err _); [do 2 eexists; by split; [|left]|].
  destruct (Create_err _); do 2 eexists; (split; [reflexivity|]); [by left|by right].
Qed.

End logger.

Definition maskBytes (b : bytes) : string :=
  if len b <=? 4 then "****" else "****[truncated]".

(** An entry reaches its log exactly when the loggers are set up and its level
    is not below the global one. *)
Lemma emit_lines l lvl fields msg s :
  (emit l lvl fields msg s).1 = Ret tt ∧
  log_lines (emit l lvl fields msg s).2 =
    log_lines s ++ (if log_ready s && (log_level s <=? lvl) then [mkEntry l lvl fields msg] else []).
Proof. unfold emit, modify. cbn. destruct (_ && _); cbn; [done|by rewrite app_nil_r]. Qed.

(** Emitting never changes how the loggers are set up. *)
Lemma emit_setup l lvl fields msg s :
  log_level (emit l lvl fields msg s).2 = log_level s ∧
  log_ready (emit l lvl fields msg s).2 = log_ready s.
Proof. unfold emit, modify. cbn. destruct (log_ready s) eqn:E; cbn; [case_match; cbn; auto|auto]. Qed.
