(* ===== verification/Node.v ===== *)
(** * The node's state ([node/main.go], [node/keymanager.go])

    Every package variable of the node that a handler reads or writes, as one
    record; the loggers, the random source and the files with it; start-up
    ([init]) and key management ([KeyManager]). *)

From S2P Require Import Prelude Encoding GoStrings Json Bucket Store Crypto RateLimit FileSystem.
From S2P Require Import Keystore Logger SorobanTx.

(** What one request finds outside the process: the time (in nanoseconds),
    name lookup, the formatted uptime and start time, the duration measured,
    and the Soroban RPC node. *)
Record Env := mkEnv {
  now : Z;
  LookupHost : option error;
  Uptime : string;
  Started : string;
  Elapsed_us : Z;
  http_Post : Post;
}.

Section node.
Context {C : Crypto} {B : Bolt} {R : RateLimiter}.

(** [KeyManager]; times are nanoseconds. *)
Record KeyManager := mkKeyManager {
  currentVersion : Z;
  keys : gmap Z privkey;
  lastRotation : Z;
  km_dataDir : string;
}.

(** [goroutines]: the calls of [reencryptShares] spawned and not yet run. *)
Record Node := mkNode {
  db : DB;
  disk : FS;
  rnd : bytes;
  nodePrivateKey : privkey;
  nodePublicKey : pubkey;
  sorobanRPCURL : string;
  globalKeyManager : option KeyManager;
  globalIPLimiter : option ipLimiterStore;
  objectLimiters : gmap string limiter;
  sharesInStore : Z;
  loggers : Loggers;
  goroutines : list Z;
}.

Definition set_db (d : DB) (n : Node) : Node :=
  mkNode d (disk n) (rnd n) (nodePrivateKey n) (nodePublicKey n) (sorobanRPCURL n)
    (globalKeyManager n) (globalIPLimiter n) (objectLimiters n) (sharesInStore n) (loggers n)
    (goroutines n).
Definition set_rnd (r : bytes) (n : Node) : Node :=
  mkNode (db n) (disk n) r (nodePrivateKey n) (nodePublicKey n) (sorobanRPCURL n)
    (globalKeyManager n) (globalIPLimiter n) (objectLimiters n) (sharesInStore n) (loggers n)
    (goroutines n).
Definition set_disk_rnd (p : FS * bytes) (n : Node) : Node :=
  mkNode (db n) p.1 p.2 (nodePrivateKey n) (nodePublicKey n) (sorobanRPCURL n)
    (globalKeyManager n) (globalIPLimiter n) (objectLimiters n) (sharesInStore n) (loggers n)
    (goroutines n).
Definition set_key (km : KeyManager) (k : privkey) (n : Node) : Node :=
  mkNode (db n) (disk n) (rnd n) k (PublicKey k) (sorobanRPCURL n)
    (Some km) (globalIPLimiter n) (objectLimiters n) (sharesInStore n) (loggers n)
    (goroutines n).
Definition set_ip_limiter (l : option ipLimiterStore) (n : Node) : Node :=
  mkNode (db n) (disk n) (rnd n) (nodePrivateKey n) (nodePublicKey n) (sorobanRPCURL n)
    (globalKeyManager n) l (objectLimiters n) (sharesInStore n) (loggers n) (goroutines n).
Definition set_object_limiters (m : gmap string limiter) (n : Node) : Node :=
  mkNode (db n) (disk n) (rnd n) (nodePrivateKey n) (nodePublicKey n) (sorobanRPCURL n)
    (globalKeyManager n) (globalIPLimiter n) m (sharesInStore n) (loggers n) (goroutines n).
Definition set_sharesInStore (z : Z) (n : Node) : Node :=
  mkNode (db n) (disk n) (rnd n) (nodePrivateKey n) (nodePublicKey n) (sorobanRPCURL n)
    (globalKeyManager n) (globalIPLimiter n) (objectLimiters n) z (loggers n) (goroutines n).
Definition set_loggers (l : Loggers) (n : Node) : Node :=
  mkNode (db n) (disk n) (rnd n) (nodePrivateKey n) (nodePublicKey n) (sorobanRPCURL n)
    (globalKeyManager n) (globalIPLimiter n) (objectLimiters n) (sharesInStore n) l (goroutines n).
Definition set_goroutines (g : list Z) (n : Node) : Node :=
  mkNode (db n) (disk n) (rnd n) (nodePrivateKey n) (nodePublicKey n) (sorobanRPCURL n)
    (globalKeyManager n) (globalIPLimiter n) (objectLimiters n) (sharesInStore n) (loggers n) g.

Definition on_db {A} (m : M DB A) : M Node A := zoom db set_db m.
Definition on_node_rnd {A} (m : M bytes A) : M Node A := zoom rnd set_rnd m.
Definition on_disk_rnd {A} (m : M (FS * bytes) A) : M Node A :=
  zoom (λ n, (disk n, rnd n)) set_disk_rnd m.
Definition on_object_limiters {A} (m : M (gmap string limiter) A) : M Node A :=
  zoom objectLimiters set_object_limiters m.
Definition log (l : LogName) (level : Z) (fields : list (string * string)) (msg : string) :
    M Node unit := zoom loggers set_loggers (emit l level fields msg).

Lemma on_db_eq {A} (m : M DB A) n o d : m (db n) = (o, d) → on_db m n = (o, set_db d n).
Proof. intros H. unfold on_db, zoom. by rewrite H. Qed.

Lemma set_db_id n : set_db (db n) n = n.
Proof. by destruct n. Qed.

Lemma set_loggers_id n : set_loggers (loggers n) n = n.
Proof. by destruct n. Qed.

Lemma log_eq l lvl fields msg n :
  log l lvl fields msg n =
  (Ret tt, set_loggers (emit l lvl fields msg (loggers n)).2 n).
Proof. reflexivity. Qed.

(** ** Key management *)

Section keymanager.
Context {K : KeyCodec C} {O : Os}.

(** [initKeyManager] at time [t]. *)
Definition initKeyManager (t : Z) (dataDir : string) : M Node (option error) :=
  r ← on_disk_rnd (LoadOrGenerateKey dataDir);
  try priv := r catch err => mret (Some err) in
  _ ← modify (set_key (mkKeyManager 0 {[0 := priv]} t dataDir) priv);
  mret None.

(** The node of a process that [init] has run in: the key is loaded or made,
    and every other variable has its zero value.  A failure to get a key
    panics. *)
Definition init (Getenv : string → string) (fs : FS) (r : bytes) : outcome Node :=
  let url := if decide (Getenv "SOROBAN_RPC_URL" ≠ "") then Getenv "SOROBAN_RPC_URL"
             else "https://soroban-testnet.stellar.org:443" in
  let dir := Getenv "DATA_DIR" in
  let dir := if decide (dir = "") then dataDir else dir in
  match LoadOrGenerateKey dir (fs, r) with
  | (Panic e, _) => Panic e
  | (Ret (Err err), _) => Panic ("Failed to initialize Node P-256 key pair: " +:+ err)
  | (Ret (Ok priv), (fs, r)) =>
      Ret (mkNode None fs r priv (PublicKey priv) url None None ∅ 0 zero_loggers [])
  end.

Definition CurrentVersion (km : KeyManager) : Z := currentVersion km.

Definition GetKey (km : KeyManager) (version : Z) : option privkey := keys km !! version.

(** The two lines the background goroutine logs: it touches no share. *)
Definition reencryptShares (newVersion : Z) : M Node unit :=
  _ ← log Main InfoLevel [("version", Itoa newVersion)] "share_reencryption_started";
  log Main InfoLevel [("version", Itoa newVersion)] "share_reencryption_complete".

(** [go km.reencryptShares(v)]. *)
Definition spawn (v : Z) : M Node unit := modify (λ n, set_goroutines (goroutines n ++ [v]) n).

(** The scheduler runs the oldest goroutine spawned. *)
Definition run_goroutine : M Node unit := λ n,
  match goroutines n with
  | [] => (Ret tt, n)
  | v :: g => reencryptShares v (set_goroutines g n)
  end.

(** [km.Rotate()] at time [t], on [globalKeyManager]. *)
Definition Rotate (t : Z) (km : KeyManager) : M Node (option error) :=
  r ← on_node_rnd rand_GenerateKey;
  try newKey := r catch err => mret (Some (wrap "failed to generate new key" err)) in
  let newVersion := uint64 (currentVersion km + 1) in
  let km := mkKeyManager newVersion (<[newVersion := newKey]> (keys km)) t (km_dataDir km) in
  _ ← modify (set_key km newKey);
  _ ← spawn newVersion;
  _ ← log Audit InfoLevel [("old_version", Itoa (uint64 (newVersion - 1)));
                           ("new_version", Itoa newVersion)] "key_rotated";
  mret None.

(** The time formatting is not modelled: it is given. *)
Definition StatusFields (format : Z → string) (km : KeyManager) : json :=
  JObj [("current_key_version", JNum (Itoa (currentVersion km)));
        ("last_rotation_time", JStr (format (lastRotation km)))].

Definition MarshalVersioned (format : Z → string) (km : KeyManager) : json :=
  JObj [("current_version", JNum (Itoa (currentVersion km)));
        ("key_count", JNum (Itoa (Z.of_nat (size (keys km)))));
        ("last_rotation", JStr (format (lastRotation km)))].

End keymanager.

(** ** Properties of key management *)

(** The invariant: the public key is the private key's, and the key manager
    holds exactly the versions up to the current one, whose key is the node's. *)
Definition keys_wf (n : Node) : Prop :=
  nodePublicKey n = PublicKey (nodePrivateKey n) ∧
  match globalKeyManager n with
  | None => True
  | Some km =>
      keys km !! currentVersion km = Some (nodePrivateKey n) ∧
      ∀ v, is_Some (keys km !! v) ↔ 0 ≤ v ≤ currentVersion km
  end.

Lemma log_keys l lvl fields msg n :
  ∃ ls, log l lvl fields msg n = (Ret tt, set_loggers ls n).
Proof. unfold log, zoom, emit, modify. eauto. Qed.

(** What [Rotate] does when the random source gives a key. *)
Lemma Rotate_eq t km n k r :
  P256_GenerateKey (rnd n) = Ok (k, r) →
  ∃ ls, let v := uint64 (currentVersion km + 1) in
    Rotate t km n =
    (Ret None, set_loggers ls (set_goroutines (goroutines n ++ [v])
       (set_key (mkKeyManager v (<[v := k]> (keys km)) t (km_dataDir km)) k (set_rnd r n)))).
Proof.
  intros Hk. unfold Rotate, on_node_rnd, rand_GenerateKey, spawn. unfold_M. rewrite Hk.
  match goal with |- context [log ?a ?b ?c ?d ?n] => destruct (log_keys a b c d n) as [ls ->] end.
  by exists ls.
Qed.

Lemma Rotate_err t km n err :
  P256_GenerateKey (rnd n) = Err err →
  Rotate t km n = (Ret (Some (wrap "failed to generate new key" err)), n).
Proof. intros Hk. unfold Rotate, on_node_rnd, rand_GenerateKey. unfold_M. rewrite Hk. by destruct n. Qed.

(** C23: [Rotate] installs a fresh key under the next version and keeps every
    older version available, as long as the version counter does not wrap; it
    touches neither the shares nor the disk. *)
Theorem Rotate_keeps_keys t km n k r :
  keys_wf n → globalKeyManager n = Some km → currentVersion km < 2 ^ 64 - 1 →
  P256_GenerateKey (rnd n) = Ok (k, r) →
  ∃ n' km', Rotate t km n = (Ret None, n') ∧ keys_wf n' ∧
    globalKeyManager n' = Some km' ∧ currentVersion km' = currentVersion km + 1 ∧
    GetKey km' (currentVersion km') = Some k ∧ nodePrivateKey n' = k ∧
    (∀ v, v ≤ currentVersion km → GetKey km' v = GetKey km v) ∧
    db n' = db n ∧ disk n' = disk n.
Proof.
  intros [Hp Hwf] Hkm Hv Hk. rewrite Hkm in Hwf. destruct Hwf as [Hc Hd].
  assert (0 ≤ currentVersion km) by (apply (Hd (currentVersion km)); eauto).
  destruct (Rotate_eq t km n k r Hk) as [ls Hr]. cbn zeta in Hr.
  rewrite uint64_id in Hr by lia. do 2 eexists. split; [exact Hr|].
  split; [split; [done|]; cbn; split; [by rewrite lookup_insert_eq|]|].
  - intros v. rewrite lookup_insert_is_Some', Hd. lia.
  - split; [done|]. split; [done|]. unfold GetKey. cbn. rewrite lookup_insert_eq.
    do 2 (split; [done|]). split; [|done].
    intros v Hvle. by rewrite lookup_insert_ne by lia.
Qed.

(** Rotations one after the other, at the given times. *)
Fixpoint rotate_all (ts : list Z) (n : Node) : Node :=
  match ts with
  | [] => n
  | t :: ts =>
      match globalKeyManager n with
      | Some km => rotate_all ts (Rotate t km n).2
      | None => n
      end
  end.

Lemma Rotate_disk t km n : disk (Rotate t km n).2 = disk n.
Proof.
  unfold Rotate, on_node_rnd, rand_GenerateKey, spawn. unfold_M.
  destruct (P256_GenerateKey (rnd n)) as [[k r]|]; [|done].
  match goal with |- context [log ?a ?b ?c ?d ?n] => destruct (log_keys a b c d n) as [ls ->] end.
  done.
Qed.

Lemma rotate_all_disk ts n : disk (rotate_all ts n) = disk n.
Proof.
  revert n; induction ts as [|t ts IH]; intros n; [done|]. cbn.
  destruct (globalKeyManager n) as [km|]; [|done]. rewrite IH. apply Rotate_disk.
Qed.

Lemma reencryptShares_logs v n : ∃ ls, reencryptShares v n = (Ret tt, set_loggers ls n).
Proof.
  unfold reencryptShares. unfold_M.
  match goal with |- context [log ?a ?b ?c ?d ?n] => destruct (log_keys a b c d n) as [ls ->] end.
  match goal with |- context [log ?a ?b ?c ?d ?n] => destruct (log_keys a b c d n) as [ls' ->] end.
  by exists ls'.
Qed.

(** re-encryption does nothing to the shares: running the goroutines
    [Rotate] spawned changes the log and nothing else. *)
Theorem reencryptShares_only_logs v n :
  ∃ ls, reencryptShares v n = (Ret tt, set_loggers ls n).
Proof. apply reencryptShares_logs. Qed.

(** A goroutine that runs takes itself off the list and logs. *)
Lemma run_goroutine_frame n : ∃ g ls, (run_goroutine n).2 = set_loggers ls (set_goroutines g n).
Proof.
  unfold run_goroutine. destruct (goroutines n) as [|v g] eqn:Eg.
  - exists (goroutines n), (loggers n). by destruct n.
  - destruct (reencryptShares_logs v (set_goroutines g n)) as [ls ->]. by exists g, ls.
Qed.

(** The node after a rotation and one goroutine. *)
Lemma Rotate_run_eq t km n k r :
  P256_GenerateKey (rnd n) = Ok (k, r) →
  ∃ g ls km', (run_goroutine (Rotate t km n).2).2 =
      set_loggers ls (set_goroutines g (set_key km' k (set_rnd r n))) ∧
    keys km' = <[uint64 (currentVersion km + 1) := k]> (keys km).
Proof.
  intros Hk. destruct (Rotate_eq t km n k r Hk) as [ls Hr]. rewrite Hr. cbn [snd].
  match goal with |- context [run_goroutine ?n] => destruct (run_goroutine_frame n) as (g & ls' & ->) end.
  by exists g, ls', (mkKeyManager (uint64 (currentVersion km + 1))
    (<[uint64 (currentVersion km + 1) := k]> (keys km)) t (km_dataDir km)).
Qed.

Section restart.
Context {K : KeyCodec C} {KL : KeyCodecLaws C K} {O : Os}.

(** C24: a rotated key does not survive a restart: once the key manager is set
    up, a process started on the node's disk comes up with the key of version 0,
    however often the key was rotated in between. *)
Theorem restart_forgets_rotation Getenv dir n0 t n1 ts r :
  Getenv "DATA_DIR" = dir → dir ≠ "" → Open_err (keyPath dir) = None →
  initKeyManager t dir n0 = (Ret None, n1) →
  ∃ km n2, globalKeyManager n1 = Some km ∧
    init Getenv (disk (rotate_all ts n1)) r = Ret n2 ∧
    GetKey km 0 = Some (nodePrivateKey n2) ∧ disk n2 = disk n1.
Proof.
  intros Hdir Hne Ho. unfold initKeyManager, on_disk_rnd. unfold_M.
  destruct (LoadOrGenerateKey dir (disk n0, rnd n0)) as [[[priv|]|] [fs1 r1]] eqn:HL; [|done..].
  intros [= <-]. eexists _, _. split; [done|]. unfold init. rewrite Hdir.
  rewrite (decide_False (P := dir = "")) by done. rewrite rotate_all_disk. cbn [disk set_key set_disk_rnd fst].
  rewrite (LoadOrGenerateKey_again dir _ _ _ _ _ r Ho HL).
  split; [done|]. unfold GetKey. cbn. by rewrite lookup_singleton_eq.
Qed.

End restart.
End node.

(** ** Runs *)

Module DemoNode.

#[local] Existing Instances ToyCrypto.crypto ToyCrypto.crypto_laws ToyRate.limiter_impl
  GmapBolt.bolt ToyKeys.codec ToyKeys.laws healthy.

(** A node just after [init] on an empty disk, and after [initKeyManager]. *)
Definition Getenv (k : string) : string := if decide (k = "DATA_DIR") then "d" else "".
Definition seed : bytes := replicate 32 "r"%char ++ replicate 100 "s"%char.

Definition booted : Node :=
  mkNode None ∅ seed (ToyCrypto.priv []) (PublicKey (ToyCrypto.priv [])) "rpc" None None ∅ 0
    zero_loggers [].
Definition keyed : Node := (initKeyManager 7 "d" booted).2.
Definition first_key : @privkey ToyCrypto.crypto := ToyCrypto.priv (replicate 32 "r"%char).
Definition km : KeyManager := mkKeyManager 0 {[0 := first_key]} 7 "d".
Definition next_key : @privkey ToyCrypto.crypto := ToyCrypto.priv (replicate 32 "s"%char).

Lemma keyed_wf : keys_wf keyed.
Proof.
  split; [done|]. change (globalKeyManager keyed) with (Some km). cbn [keys km currentVersion].
  split; [by rewrite lookup_singleton_eq|]. intros v.
  destruct (decide (v = 0)) as [->|Hv].
  - rewrite lookup_singleton_eq. split; [lia|eauto].
  - rewrite lookup_singleton_ne by done. split; [by intros []|lia].
Qed.

Lemma Rotate_keeps_keys_witness : ∃ n' km', Rotate 9 km keyed = (Ret None, n') ∧ keys_wf n' ∧
  globalKeyManager n' = Some km' ∧ currentVersion km' = currentVersion km + 1 ∧
  GetKey km' (currentVersion km') = Some next_key ∧ nodePrivateKey n' = next_key ∧
  (∀ v, v ≤ currentVersion km → GetKey km' v = GetKey km v) ∧
  db n' = db keyed ∧ disk n' = disk keyed.
Proof.
  apply (Rotate_keeps_keys 9 km keyed next_key (drop 32 (rnd keyed))); [apply keyed_wf|done..].
Defined.

Lemma restart_forgets_rotation_witness : ∃ km n2, globalKeyManager keyed = Some km ∧
  init Getenv (disk (rotate_all [8; 9; 10] keyed)) [] = Ret n2 ∧
  GetKey km 0 = Some (nodePrivateKey n2) ∧ disk n2 = disk keyed.
Proof. by apply (restart_forgets_rotation Getenv "d" booted 7 keyed). Defined.

End DemoNode.
