(* ===== verification/Middleware.v ===== *)
(** * Middleware ([node/middleware.go], [node/ratelimit.go], [node/tls.go])

    What a request passes before it reaches a handler. *)

From S2P Require Import Prelude GoStrings Encoding Json JsonStruct Bucket Store Crypto Http RateLimit.
From S2P Require Import FileSystem Logger Node.

(** ** Comparing API keys *)

(** The loop of [secureStringEqual] from index [i] on, on strings of the same
    length; [diff] is a byte. *)
Fixpoint xor_diff (a b : string) (diff : N) : N :=
  match a, b with
  | String x a', String y b' => xor_diff a' b' (N.lor diff (N.lxor (ord x) (ord y)))
  | _, _ => diff
  end.

Definition secureStringEqual (a b : string) : bool :=
  if negb (slen a =? slen b) then false else (xor_diff a b 0 =? 0)%N.

Lemma xor_diff_0 a b d : String.length a = String.length b →
  xor_diff a b d = 0%N ↔ d = 0%N ∧ a = b.
Proof.
  revert b d; induction a as [|x a IH]; intros [|y b] d Hl; try done; cbn [xor_diff].
  - split; [intros ->; done|intros [-> _]; done].
  - injection Hl as Hl. rewrite (IH b _ Hl), N.lor_eq_0_iff, N.lxor_eq_0_iff.
    split; [intros [[-> Hxy] ->]|intros [-> [= -> ->]]; done].
    split; [done|]. f_equal.
    rewrite <- (ascii_N_embedding x), <- (ascii_N_embedding y). by f_equal.
Qed.

Lemma secureStringEqual_iff a b : secureStringEqual a b = true ↔ a = b.
Proof.
  unfold secureStringEqual. destruct (Z.eqb_spec (slen a) (slen b)) as [Hl|Hl]; cbn [negb].
  - rewrite N.eqb_eq, xor_diff_0 by (unfold slen in Hl; lia). tauto.
  - split; [done|]. intros ->. done.
Qed.

(** the constant-time comparison of API keys is string equality. *)
Theorem secureStringEqual_correct a b : reflect (a = b) (secureStringEqual a b).
Proof. apply iff_reflect. symmetry. apply secureStringEqual_iff. Qed.

(** [maskSensitiveField]. *)
Definition maskSensitiveField (v : string) : string :=
  if slen v <? 8 then "****" else substring 0 4 v +:+ "****".

(** [wrapWithMiddlewareChain]: the loop runs from the last index down. *)
Definition wrapWithMiddlewareChain {S} (h : Handler S) (middlewares : list (Middleware S)) :
    Handler S :=
  (fix loop (i : nat) (h : Handler S) : Handler S :=
     match i with
     | O => h
     | Datatypes.S i' =>
         loop i' (match middlewares !! i' with Some m => m h | None => h end)
     end) (length middlewares) h.

(** Run [next] on a [statusWriter], which notes the last status it was given;
    the status noted is the result. *)
Definition with_statusWriter {S} (next : M (S * RespWriter) unit) : M (S * RespWriter) Z :=
  st ← get_st;
  let saved := rw_last st.2 in
  _ ← on_resp (set_last None);
  _ ← next;
  st ← get_st;
  let code := rw_last st.2 in
  _ ← on_resp (set_last (match code with None => saved | Some c => Some c end));
  mret (default StatusOK code).

Section middleware.
Context {C : Crypto} {B : Bolt} {R : RateLimiter}.

(** [unauthorizedResponse]; [%q] leaves a reason of plain characters as it is,
    between quotes. *)
Definition unauthorizedResponse (reason : string) : M (Node * RespWriter) unit :=
  let q := str1 ch_quote in
  _ ← on_resp (Header_Set "Content-Type" "application/json");
  _ ← on_resp (WriteHeader StatusUnauthorized);
  on_resp (Write ("{" +:+ q +:+ "error" +:+ q +:+ ":" +:+ q +:+ "unauthorized" +:+ q +:+ "," +:+ q
    +:+ "error_reason" +:+ q +:+ ":" +:+ q +:+ reason +:+ q +:+ "}" +:+ str1 "010"%char)).

(** [apiKeyMiddleware]. *)
Definition apiKeyMiddleware (expectedKey : string) : Middleware Node := λ next r,
  if decide (expectedKey = "") then next r
  else if negb (secureStringEqual (Header_Get (r_Header r) "X-Api-Key") expectedKey) then
    _ ← on_state (log Main WarnLevel [("path", r_Path r); ("remote", r_RemoteAddr r)]
                    "api_key_rejected");
    unauthorizedResponse "Invalid API Key"
  else next r.

(** [metricsHandler] and [requireMetricsKey] make the same check. *)
Definition requireMetricsKey (key : string) (next : Handler Node) : Handler Node := λ r,
  if bool_decide (key ≠ "") && negb (secureStringEqual (Header_Get (r_Header r) "X-Api-Key") key)
  then fail_with "Unauthorized" StatusUnauthorized
  else next r.

(** The address the allowlist is checked against. *)
Definition client_ip (r : Request) : string :=
  let ip := Split_0 (r_RemoteAddr r) ":" in
  let fwd := Header_Get (r_Header r) "X-Forwarded-For" in
  if decide (fwd ≠ "") then TrimSpace (Split_0 fwd ",") else ip.

(** [ipAllowlistMiddleware]. *)
Definition ipAllowlistMiddleware (allowed : list string) : Middleware Node := λ next r,
  if decide (len allowed = 0) then next r
  else
    let ip := client_ip r in
    if existsb (λ cidr, bool_decide (ip = cidr)) allowed then next r
    else
      _ ← on_state (log Main WarnLevel [("ip", ip)] "ip_allowlist_blocked");
      fail_with ("IP " +:+ ip +:+ " not allowed") StatusForbidden.

(** [storeAuthMiddleware]. *)
Definition storeAuthMiddleware (apiKey : string) (allowedIPs : list string) : Middleware Node :=
  λ next,
    let keyMw := apiKeyMiddleware apiKey in
    let ipMw := ipAllowlistMiddleware allowedIPs in
    keyMw (ipMw next).

Definition set_body (b : option Body) (r : Request) : Request :=
  mkRequest (r_Method r) (r_Path r) (r_Host r) (r_RequestURI r) (r_Header r) (r_RemoteAddr r) b.

(** [bodySizeLimitMiddleware]. *)
Definition bodySizeLimitMiddleware (maxBytes : Z) : Middleware Node := λ next r,
  next (set_body ((λ b, MaxBytesReader b maxBytes) <$> r_Body r) r).

(** [rateLimitMiddleware]. *)
Definition rateLimitMiddleware (e : Env) : Middleware Node := λ next r,
  n ← on_state get_st;
  match globalIPLimiter n with
  | None => next r
  | Some l =>
      let ip := remote_ip (r_RemoteAddr r) in
      match ip_Allow (now e) ip l with
      | (Ret ok, l') =>
          _ ← on_state (modify (set_ip_limiter (Some l')));
          if negb ok then
            _ ← on_resp (Header_Set "Retry-After" "1");
            fail_with "Too Many Requests" StatusTooManyRequests
          else next r
      | (Panic msg, _) => throw msg
      end
  end.

(** [hstsMiddleware]. *)
Definition hstsMiddleware : Middleware Node := λ next r,
  _ ← on_resp (Header_Set "Strict-Transport-Security" "max-age=63072000; includeSubDomains");
  next r.

(** [generateRequestID]: a failed read leaves the buffer zero. *)
Definition generateRequestID : M Node string :=
  b ← on_node_rnd (rand_ReadFull 8);
  match b with
  | Ok b => mret (Hex.EncodeToString b)
  | Err _ => mret (Hex.EncodeToString (replicate 8 "000"%char))
  end.

(** [loggingMiddleware]: the whole body is read before the next handler runs.
    Header names are in canonical form. *)
Definition loggingMiddleware (e : Env) : Middleware Node := λ next r,
  let reqID := Header_Get (r_Header r) "X-Request-Id" in
  reqID ← (if decide (reqID = "") then on_state generateRequestID else mret reqID);
  _ ← on_resp (Header_Set "X-Request-Id" reqID);
  let '(bodySize, body) :=
    match r_Body r with
    | Some b => let bodyBytes := (Body_read b).1 in (slen bodyBytes, Some (mkBody bodyBytes None))
    | None => (0, None)
    end in
  code ← with_statusWriter (next (set_body body r));
  on_state (log Main InfoLevel
    [("method", r_Method r); ("path", r_Path r); ("remote_addr", r_RemoteAddr r);
     ("status", Itoa code); ("body_size", Itoa bodySize); ("req_id", reqID);
     ("duration_us", Itoa (Elapsed_us e))] "http_request").

(** ** Properties *)

Lemma wrap_loop {S} (ms : list (Middleware S)) (h : Handler S) :
  wrapWithMiddlewareChain h ms = foldr (λ m h, m h) h ms.
Proof.
  unfold wrapWithMiddlewareChain.
  set (loop := fix loop (i : nat) (h : Handler S) : Handler S := _).
  assert (∀ i h, (i ≤ length ms)%nat → loop i h = foldr (λ m h, m h) h (take i ms)) as Hi;
    [|by rewrite Hi, take_ge].
  clear h. induction i as [|i IH]; intros h Hle; [done|]. cbn [loop].
  destruct (ms !! i) as [m|] eqn:Hm; [|apply lookup_ge_None in Hm; lia].
  rewrite IH by lia. by rewrite (take_S_r _ _ _ Hm), foldr_app.
Qed.

(** the chain applies its middleware in the order given: the first one
    listed sees the request first, and the handler is reached last. *)
Theorem wrapWithMiddlewareChain_order {S} (h : Handler S) m ms ms' :
  wrapWithMiddlewareChain h [] = h ∧
  wrapWithMiddlewareChain h (m :: ms) = m (wrapWithMiddlewareChain h ms) ∧
  wrapWithMiddlewareChain h (ms ++ ms') =
    wrapWithMiddlewareChain (wrapWithMiddlewareChain h ms') ms.
Proof. rewrite !wrap_loop. split; [done|]. split; [done|]. apply foldr_app. Qed.

(** with a key configured, a request reaches the protected handler exactly
    when its [X-Api-Key] header is that key; any other is answered 401 and
    changes nothing but the log.  With no key configured, everything passes. *)
Theorem apiKeyMiddleware_spec key next r n :
  (key = "" ∨ Header_Get (r_Header r) "X-Api-Key" = key →
     serve (apiKeyMiddleware key next) r n = serve next r n) ∧
  (key ≠ "" → Header_Get (r_Header r) "X-Api-Key" ≠ key →
     reply_code (apiKeyMiddleware key next) r n = Some StatusUnauthorized ∧
     ∃ ls, state_after (apiKeyMiddleware key next) r n = set_loggers ls n).
Proof.
  unfold reply_code, state_after, serve, apiKeyMiddleware. split.
  - intros Hk. case_decide; [done|]. destruct Hk as [|Hk]; [done|].
    by rewrite (proj2 (secureStringEqual_iff _ _) Hk).
  - intros Hk Hne. rewrite decide_False by done.
    destruct (secureStringEqual _ key) eqn:E; [by apply secureStringEqual_iff in E|].
    cbn [negb]. unfold on_state, on_resp, unauthorizedResponse. unfold_M. cbn [fst snd].
    match goal with |- context [log ?a ?b ?c ?d ?n] => destruct (log_keys a b c d n) as [ls ->] end.
    cbn. split; [done|]. by exists ls.
Qed.

(** the IP allowlist can be passed by any client: a request whose
    [X-Forwarded-For] header names an allowed address reaches the handler,
    whatever address it comes from. *)
Theorem ipAllowlist_spoofed allowed ip next r n :
  ip ∈ allowed → ip ≠ "" → contains "," ip = false → TrimSpace ip = ip →
  Header_Get (r_Header r) "X-Forwarded-For" = ip →
  serve (ipAllowlistMiddleware allowed next) r n = serve next r n.
Proof.
  intros Hin Hne Hc Ht Hh. unfold serve, ipAllowlistMiddleware, client_ip. rewrite Hh.
  rewrite (decide_True (P := ip ≠ "")) by done. rewrite Split_0_no_sep, Ht by done.
  case_decide; [done|].
  assert (existsb (λ cidr, bool_decide (ip = cidr)) allowed = true) as ->; [|done].
  apply existsb_exists. exists ip. split; [by apply list_elem_of_In|]. by apply bool_decide_eq_true_2.
Qed.

End middleware.

(** ** Runs *)

#[local] Existing Instances ToyCrypto.crypto ToyRate.limiter_impl GmapBolt.bolt.

(** A GET of [/x] with one header. *)
Definition get_with (k v : string) : Request :=
  mkRequest MethodGet "/x" "" "/x" {[k := [v]]} "6.6.6.6:1" None.

Definition no_handler : Handler Node := λ _, mret tt.

Lemma apiKeyMiddleware_spec_witness :
  reply_code (apiKeyMiddleware "key" no_handler) (get_with "X-Api-Key" "kez") DemoNode.booted =
    Some StatusUnauthorized.
Proof.
  by apply (apiKeyMiddleware_spec "key" no_handler (get_with "X-Api-Key" "kez") DemoNode.booted).
Defined.

Lemma ipAllowlist_spoofed_witness :
  serve (ipAllowlistMiddleware ["10.0.0.1"] no_handler) (get_with "X-Forwarded-For" "10.0.0.1")
    DemoNode.booted =
  serve no_handler (get_with "X-Forwarded-For" "10.0.0.1") DemoNode.booted.
Proof.
  apply (ipAllowlist_spoofed ["10.0.0.1"] "10.0.0.1"); [by left|done..].
Defined.
