(* ===== verification/Handlers.v ===== *)
(** * HTTP handlers ([node/handlers.go], [node/rotate_handler.go])

    Every endpoint of the node, on the state of [Node.v].  The share store is
    reached through the interface [ShareStore], whose state is the package
    variable [db]: what is proved here about the handlers uses the promise
    [ShareStoreLaws] only. *)

From S2P Require Import Prelude GoStrings Encoding Json JsonStruct Bucket Store Crypto NodeCrypto.
From S2P Require Import Http SorobanTx RateLimit FileSystem Keystore Logger Node.

(** ** Requests and replies *)

Record StoreRequest := mkStoreReq {
  sr_ObjectID : string;
  sr_ContractID : string;
  sr_EphemeralPubKey : string;
  sr_Ciphertext : string;
  sr_Nonce : string;
}.

Definition store_req_table : table StoreRequest :=
  [("object_id", λ v t, s ← as_string v (sr_ObjectID t);
      Some (mkStoreReq s (sr_ContractID t) (sr_EphemeralPubKey t) (sr_Ciphertext t) (sr_Nonce t)));
   ("contract_id", λ v t, s ← as_string v (sr_ContractID t);
      Some (mkStoreReq (sr_ObjectID t) s (sr_EphemeralPubKey t) (sr_Ciphertext t) (sr_Nonce t)));
   ("ephemeral_pubkey", λ v t, s ← as_string v (sr_EphemeralPubKey t);
      Some (mkStoreReq (sr_ObjectID t) (sr_ContractID t) s (sr_Ciphertext t) (sr_Nonce t)));
   ("ciphertext", λ v t, s ← as_string v (sr_Ciphertext t);
      Some (mkStoreReq (sr_ObjectID t) (sr_ContractID t) (sr_EphemeralPubKey t) s (sr_Nonce t)));
   ("nonce", λ v t, s ← as_string v (sr_Nonce t);
      Some (mkStoreReq (sr_ObjectID t) (sr_ContractID t) (sr_EphemeralPubKey t) (sr_Ciphertext t) s))].

Definition decode_store (b : option Body) : option StoreRequest :=
  v ← decode_body b; decode_struct store_req_table v (mkStoreReq "" "" "" "" "").

Record RetrieveRequest := mkRetrieveReq {
  rr_ObjectID : string;
  rr_ContractID : string;
  rr_CallerAddress : string;
  rr_Signature : string;
  rr_Message : string;
  rr_TxXDR : string;
}.

Definition retrieve_req_table : table RetrieveRequest :=
  [("object_id", λ v t, s ← as_string v (rr_ObjectID t);
      Some (mkRetrieveReq s (rr_ContractID t) (rr_CallerAddress t) (rr_Signature t) (rr_Message t)
              (rr_TxXDR t)));
   ("contract_id", λ v t, s ← as_string v (rr_ContractID t);
      Some (mkRetrieveReq (rr_ObjectID t) s (rr_CallerAddress t) (rr_Signature t) (rr_Message t)
              (rr_TxXDR t)));
   ("caller_address", λ v t, s ← as_string v (rr_CallerAddress t);
      Some (mkRetrieveReq (rr_ObjectID t) (rr_ContractID t) s (rr_Signature t) (rr_Message t)
              (rr_TxXDR t)));
   ("signature", λ v t, s ← as_string v (rr_Signature t);
      Some (mkRetrieveReq (rr_ObjectID t) (rr_ContractID t) (rr_CallerAddress t) s (rr_Message t)
              (rr_TxXDR t)));
   ("message", λ v t, s ← as_string v (rr_Message t);
      Some (mkRetrieveReq (rr_ObjectID t) (rr_ContractID t) (rr_CallerAddress t) (rr_Signature t) s
              (rr_TxXDR t)));
   ("tx_xdr", λ v t, s ← as_string v (rr_TxXDR t);
      Some (mkRetrieveReq (rr_ObjectID t) (rr_ContractID t) (rr_CallerAddress t) (rr_Signature t)
              (rr_Message t) s))].

Definition decode_retrieve (b : option Body) : option RetrieveRequest :=
  v ← decode_body b; decode_struct retrieve_req_table v (mkRetrieveReq "" "" "" "" "" "").

(** [RetrieveResponse]. *)
Definition retrieve_response (decrypted : bytes) : json :=
  JObj [("decrypted_share", JStr (Hex.EncodeToString decrypted))].

(** The anonymous request of [handlePurgeShares]: object and contract. *)
Definition purge_req_table : table (string * string) :=
  [("object_id", λ v t, s ← as_string v t.1; Some (s, t.2));
   ("contract_id", λ v t, s ← as_string v t.2; Some (t.1, s))].

Definition decode_purge (b : option Body) : option (string * string) :=
  v ← decode_body b; decode_struct purge_req_table v ("", "").

(** The key a share is kept under: [fmt.Sprintf("%s_%s", contract, object)]. *)
Definition share_key (ContractID ObjectID : string) : string :=
  ContractID +:+ "_" +:+ ObjectID.

(** ** Handlers *)

Section handlers.
Context {C : Crypto} {B : Bolt} {R : RateLimiter} {X : Xdr} {XC : XdrCodec X}.
Context {SS : ShareStore DB}.

Definition nodeVersion : string := "dev".

Definition set_json : M (Node * RespWriter) unit :=
  on_resp (Header_Set "Content-Type" "application/json").

(** Map values are encoded in the order of their keys. *)
Definition health_response (e : Env) : json :=
  let dnsStatus := match LookupHost e with None => "ok" | Some err => "failed: " +:+ err end in
  JObj [("dns", JStr dnsStatus); ("started", JStr (Started e));
        ("status", JStr "ok"); ("uptime", JStr (Uptime e))].

Definition handleHealth (e : Env) : Handler Node := λ r,
  _ ← set_json; encode_json (health_response e).

Definition handleReady : Handler Node := λ r,
  n ← on_state get_st;
  match db n with
  | None => fail_with "not ready: database not initialised" StatusServiceUnavailable
  | Some _ =>
      _ ← set_json;
      encode_json (JObj [("status", JStr "ready")])
  end.

(** [countShares] is called directly, not through [globalStore]. *)
Definition handleStatus (e : Env) : Handler Node := λ r,
  '(count, err) ← on_state (on_db countShares);
  match err with
  | Some err => fail_with ("failed to count shares: " +:+ err) StatusInternalServerError
  | None =>
      _ ← set_json;
      n ← on_state get_st;
      encode_json (JObj [("public_key", JStr (Hex.EncodeToString (pub_Bytes (nodePublicKey n))));
                         ("share_count", JNum (Itoa count));
                         ("uptime", JStr (Uptime e)); ("version", JStr nodeVersion)])
  end.

Definition handleGetPublicKey : Handler Node := λ r,
  if decide (r_Method r ≠ MethodGet) then fail_with "Method not allowed" StatusMethodNotAllowed
  else
  _ ← set_json;
  n ← on_state get_st;
  encode_json (JObj [("public_key", JStr (Hex.EncodeToString (pub_Bytes (nodePublicKey n))))]).

Definition logStoreOutcome (objectID contractID remoteAddr outcome : string) : M Node unit :=
  log Audit InfoLevel [("object_id", objectID); ("contract_id", contractID);
                       ("remote", remoteAddr); ("outcome", outcome)] "store_audit".

Definition logRetrieveOutcome (caller objectID contractID outcome : string) : M Node unit :=
  log Audit InfoLevel [("caller_address", caller); ("object_id", objectID);
                       ("contract_id", contractID); ("outcome", outcome)] "retrieve_audit".

(** The end of [handleStoreShare], once the write is known to be allowed. *)
Definition store_share (r : Request) (req : StoreRequest) (key : string) (share : StoredShareDB) :
    M (Node * RespWriter) unit :=
  err ← on_state (on_db (Save key share));
  match err with
  | Some err =>
      _ ← on_state (log Main ErrorLevel [("error", err); ("key", key)] "store_failed");
      fail_with "Internal server error" StatusInternalServerError
  | None =>
      _ ← on_state (logStoreOutcome (sr_ObjectID req) (sr_ContractID req) (r_RemoteAddr r) "stored");
      _ ← on_resp (WriteHeader StatusOK);
      encode_json (JObj [("status", JStr "stored")])
  end.

Definition handleStoreShare : Handler Node := λ r,
  if decide (r_Method r ≠ MethodPost) then fail_with "Method not allowed" StatusMethodNotAllowed
  else
  match decode_store (r_Body r) with
  | None => fail_with "Invalid JSON payload" StatusBadRequest
  | Some req =>
  if decide (sr_ObjectID req = "" ∨ sr_ContractID req = "" ∨ sr_EphemeralPubKey req = "" ∨
             sr_Ciphertext req = "" ∨ sr_Nonce req = "")
  then fail_with "Missing required fields" StatusBadRequest
  else
  try ephemBytes := Hex.DecodeString (sr_EphemeralPubKey req)
    catch err => fail_with "Invalid ephemeral public key hex" StatusBadRequest in
  try cipherBytes := Hex.DecodeString (sr_Ciphertext req)
    catch err => fail_with "Invalid ciphertext hex" StatusBadRequest in
  try nonceBytes := Hex.DecodeString (sr_Nonce req)
    catch err => fail_with "Invalid nonce hex" StatusBadRequest in
  let key := share_key (sr_ContractID req) (sr_ObjectID req) in
  let share := mkShare (Some ephemBytes) (Some cipherBytes) (Some nonceBytes) in
  if decide (Header_Get (r_Header r) "X-Overwrite" ≠ "true") then
    '(_, exists_, _) ← on_state (on_db (Load key));
    if (exists_ : bool) then
      fail_with "conflict: share already exists for this object (use X-Overwrite: true to replace)"
        StatusConflict
    else store_share r req key share
  else store_share r req key share
  end.

(** The end of [handleRetrieveShare]: load and decrypt. *)
Definition release_share (req : RetrieveRequest) : M (Node * RespWriter) unit :=
  let key := share_key (rr_ContractID req) (rr_ObjectID req) in
  '(stored, exists_, err) ← on_state (on_db (Load key));
  if bool_decide (err ≠ None) || negb exists_ then fail_with "Share not found" StatusNotFound
  else
  n ← on_state get_st;
  decrypted ← lift (DecryptShare (nodePrivateKey n) (slice_bytes (EphemeralPubKey stored))
                      (slice_bytes (Ciphertext stored)) (slice_bytes (Nonce stored)));
  try decrypted := decrypted
    catch err => fail_with "Decryption failed" StatusInternalServerError in
  _ ← on_state (logRetrieveOutcome (rr_CallerAddress req) (rr_ObjectID req) (rr_ContractID req)
                  "granted");
  _ ← set_json;
  encode_json (retrieve_response decrypted).

(** The authorisation steps of [handleRetrieveShare], after the rate limit. *)
Definition authorise (e : Env) (req : RetrieveRequest) : M (Node * RespWriter) unit :=
  try msgBytes := Hex.DecodeString (rr_Message req)
    catch err => fail_with "Invalid message hex" StatusBadRequest in
  try sigBytes := Hex.DecodeString (rr_Signature req)
    catch err => fail_with "Invalid signature hex" StatusBadRequest in
  match VerifyStellarSignature (rr_CallerAddress req) msgBytes sigBytes with
  | Err _ | Ok false => fail_with "Invalid Stellar signature" StatusUnauthorized
  | Ok true =>
  try _ := verifySorobanTx (rr_TxXDR req) (rr_ContractID req) "approve" (rr_CallerAddress req)
    catch err => fail_with ("Transaction verification failed: " +:+ err) StatusBadRequest in
  n ← on_state get_st;
  try rpcValid := simulateSorobanTx (http_Post e) (sorobanRPCURL n) (rr_TxXDR req)
    catch err => fail_with ("Soroban simulation error: " +:+ err) StatusInternalServerError in
  if negb rpcValid then
    _ ← on_state (log Audit WarnLevel [("caller", rr_CallerAddress req);
                    ("object_id", rr_ObjectID req); ("outcome", "denied")] "access_denied");
    fail_with "Access Denied: on-chain approve() rejected" StatusForbidden
  else release_share req
  end.

Definition handleRetrieveShare (e : Env) : Handler Node := λ r,
  if decide (r_Method r ≠ MethodPost) then fail_with "Method not allowed" StatusMethodNotAllowed
  else
  match decode_retrieve (r_Body r) with
  | None => fail_with "Invalid JSON payload" StatusBadRequest
  | Some req =>
  if decide (rr_ObjectID req = "" ∨ rr_ContractID req = "" ∨ rr_CallerAddress req = "")
  then fail_with "Missing required fields" StatusBadRequest
  else
  ok ← on_state (on_object_limiters (checkObjectRateLimit (now e) (rr_ObjectID req)));
  if negb (ok : bool) then
    _ ← on_resp (Header_Set "Retry-After" "1");
    fail_with "Too Many Requests" StatusTooManyRequests
  else authorise e req
  end.

Definition handleRotateKey (e : Env) : Handler Node := λ r,
  if decide (r_Method r ≠ MethodPost) then fail_with "Method not allowed" StatusMethodNotAllowed
  else
  n ← on_state get_st;
  match globalKeyManager n with
  | None => fail_with "Key manager not initialised" StatusInternalServerError
  | Some km =>
      err ← on_state (Rotate (now e) km);
      match err with
      | Some err =>
          _ ← on_state (log Main ErrorLevel [("error", err)] "key_rotation_failed");
          fail_with ("Key rotation failed: " +:+ err) StatusInternalServerError
      | None =>
          _ ← set_json;
          n ← on_state get_st;
          let v := match globalKeyManager n with Some km => CurrentVersion km | None => 0 end in
          encode_json (JObj [("new_version", JNum (Itoa v)); ("status", JStr "rotated")])
      end
  end.

Definition handlePurgeShares : Handler Node := λ r,
  if decide (r_Method r ≠ MethodDelete) then fail_with "Method not allowed" StatusMethodNotAllowed
  else
  match decode_purge (r_Body r) with
  | None => fail_with "Invalid JSON" StatusBadRequest
  | Some (ObjectID, ContractID) =>
      let key := ContractID +:+ "_" +:+ ObjectID in
      err ← on_state (on_db (Delete key));
      match err with
      | Some err => fail_with ("Failed to delete share: " +:+ err) StatusInternalServerError
      | None =>
          _ ← on_state (modify (λ n, set_sharesInStore (sharesInStore n - 1) n));
          _ ← on_state (log Main InfoLevel [("key", key)] "share_purged");
          _ ← on_resp (WriteHeader StatusOK);
          encode_json (JObj [("status", JStr "purged")])
      end
  end.

Definition handleSync : Handler Node := λ r,
  if decide (Header_Get (r_Header r) "X-Forwarded-By" ≠ "") then
    fail_with "Sync loop detected" StatusLoopDetected
  else
    _ ← on_resp (WriteHeader StatusOK);
    encode_json (JObj [("status", JStr "sync_ok")]).

(** [fixedShareCount] and [updateSharesInStore]. *)
Definition fixedShareCount : M Node Z :=
  '(n, err) ← on_db countShares;
  match err with
  | Some err => _ ← log Main ErrorLevel [("error", err)] "share_count_failed"; mret (-1)
  | None => mret n
  end.

Definition updateSharesInStore : M Node unit :=
  '(n, err) ← on_db countShares;
  match err with
  | None => modify (set_sharesInStore n)
  | Some _ => mret tt
  end.

(** ** Running a handler *)

Lemma log_then_fail l lvl fields txt msg code (n : Node) w : ∃ ls,
  (_ ← on_state (log l lvl fields txt); fail_with msg code) (n, w) =
  (Ret tt, (set_loggers ls n, http_Error msg code w)).
Proof.
  unfold on_state. unfold_M. cbn [fst snd].
  destruct (log_keys l lvl fields txt n) as [ls ->]. by exists ls.
Qed.

(** *** /retrieve *)

(** What a caller has to show: a signature by the key of the address it names,
    a transaction that calls [approve] of the contract from that address, and a
    simulation of it that succeeds. *)
Definition authorised (e : Env) (url : string) (req : RetrieveRequest) : Prop :=
  ∃ msgBytes sigBytes,
    Hex.DecodeString (rr_Message req) = Ok msgBytes ∧
    Hex.DecodeString (rr_Signature req) = Ok sigBytes ∧
    VerifyStellarSignature (rr_CallerAddress req) msgBytes sigBytes = Ok true ∧
    verifySorobanTx (rr_TxXDR req) (rr_ContractID req) "approve" (rr_CallerAddress req) = Ok tt ∧
    simulateSorobanTx (http_Post e) url (rr_TxXDR req) = Ok true.

(** Authorisation either goes on to the share or answers an error, leaving
    everything but the log as it was. *)
Lemma authorise_cases e req n w :
  (authorised e (sorobanRPCURL n) req ∧ authorise e req (n, w) = release_share req (n, w)) ∨
  (¬ authorised e (sorobanRPCURL n) req ∧
   ∃ msg code ls, authorise e req (n, w) = (Ret tt, (set_loggers ls n, http_Error msg code w)) ∧
     code ∈ [400; 401; 403; 500]).
Proof.
  assert (∀ msg code, code ∈ [400; 401; 403; 500] → ∃ msg' code' ls,
    fail_with msg code (n, w) = (Ret tt, (set_loggers ls n, http_Error msg' code' w)) ∧
    code' ∈ [400; 401; 403; 500]) as Hf.
  { intros msg code Hc. exists msg, code, (loggers n). by rewrite set_loggers_id. }
  unfold authorised, authorise.
  destruct (Hex.DecodeString (rr_Message req)) as [m|] eqn:E1;
    [|right; split; [intros (?&?&?&?&?&?&?); congruence|apply Hf; set_solver]].
  destruct (Hex.DecodeString (rr_Signature req)) as [sg|] eqn:E2;
    [|right; split; [intros (?&?&?&?&?&?&?); congruence|apply Hf; set_solver]].
  destruct (VerifyStellarSignature (rr_CallerAddress req) m sg) as [[|]|] eqn:E3;
    [|right; split; [intros (?&?&?&?&?&?&?); congruence|apply Hf; set_solver]..].
  destruct (verifySorobanTx _ _ _ _) as [[]|] eqn:E4;
    [|right; split; [intros (?&?&?&?&?&?&?); congruence|apply Hf; set_solver]].
  rewrite bind_get_state.
  destruct (simulateSorobanTx _ _ _) as [[|]|] eqn:E5; cbn [negb].
  - left. split; [by exists m, sg|done].
  - right. split; [intros (?&?&?&?&?&?&?); congruence|].
    rewrite (bind_on_state _ _ _ _ _ _ (log_eq _ _ _ _ _)), fail_with_eq.
    do 3 eexists. split; [done|set_solver].
  - right. split; [intros (?&?&?&?&?&?&?); congruence|apply Hf; set_solver].
Qed.

Context {SL : ShareStoreLaws DB}.

(** What [release_share] answers: the share's plaintext, or an error. *)
Lemma release_share_eq req n w :
  usable (db n) →
  release_share req (n, w) =
  match contents (db n) !! share_key (rr_ContractID req) (rr_ObjectID req) with
  | Some (mkShare e (Some c) nc) =>
      match DecryptShare (nodePrivateKey n) (slice_bytes e) c (slice_bytes nc) with
      | Panic m => (Panic m, (n, w))
      | Ret (Err _) => (Ret tt, (n, http_Error "Decryption failed" 500 w))
      | Ret (Ok p) =>
          (Ret tt, ((logRetrieveOutcome (rr_CallerAddress req) (rr_ObjectID req)
                       (rr_ContractID req) "granted" n).2,
             Write (Encode (retrieve_response p))
               (Header_Set "Content-Type" "application/json" w)))
      end
  | _ => (Ret tt, (n, http_Error "Share not found" 404 w))
  end.
Proof.
  intros Hu. unfold release_share.
  rewrite (bind_on_state _ _ _ _ _ _ (on_db_eq _ _ _ _ (Load_spec _ _ Hu))), set_db_id.
  destruct (contents (db n) !! _) as [[e [c|] nc]|]; cbn [load_result Ciphertext]; [|done..].
  rewrite (bool_decide_eq_true_2 (is_Some (Some c))) by eauto. cbn [bool_decide orb negb].
  rewrite bool_decide_eq_false_2 by (by intros H). cbn [orb]. rewrite bind_get_state.
  cbn [EphemeralPubKey Nonce Ciphertext slice_bytes default from_option id].
  unfold mbind at 1, M_bind at 1, lift at 1.
  destruct (DecryptShare _ _ _ _) as [[p|err]|m]; [|done..].
  unfold logRetrieveOutcome. rewrite (bind_on_state _ _ _ _ _ _ (log_eq _ _ _ _ _)).
  unfold set_json. by rewrite bind_on_resp.
Qed.

(** A request that passes the checks made before authorisation, with the
    object limiters it leaves. *)
Definition admitted (e : Env) (r : Request) (n : Node) (req : RetrieveRequest)
    (m : gmap string limiter) : Prop :=
  r_Method r = MethodPost ∧ decode_retrieve (r_Body r) = Some req ∧
  rr_ObjectID req ≠ "" ∧ rr_ContractID req ≠ "" ∧ rr_CallerAddress req ≠ "" ∧
  checkObjectRateLimit (now e) (rr_ObjectID req) (objectLimiters n) = (Ret true, m).

Lemma handleRetrieveShare_cases e r n w :
  (∃ req m, admitted e r n req m ∧
    handleRetrieveShare e r (n, w) = authorise e req (set_object_limiters m n, w)) ∨
  ((∀ req m, ¬ admitted e r n req m) ∧
   ∃ msg code m w', handleRetrieveShare e r (n, w) =
      (Ret tt, (set_object_limiters m n, http_Error msg code w')) ∧
     rw_code w' = rw_code w ∧ code ∈ [400; 405; 429]).
Proof.
  assert (set_object_limiters (objectLimiters n) n = n) as Hid by (by destruct n).
  unfold handleRetrieveShare, admitted. case_decide as Em.
  { right. split; [by intros ?? [? _]|]. exists "Method not allowed", 405, (objectLimiters n), w.
    rewrite Hid. split; [done|]. split; [done|set_solver]. }
  destruct (decode_retrieve (r_Body r)) as [req|] eqn:Ed.
  2: { right. split; [by intros ?? (_ & ? & _)|].
       exists "Invalid JSON payload", 400, (objectLimiters n), w.
       rewrite Hid. split; [done|]. split; [done|set_solver]. }
  case_decide as Ef.
  { right. split; [intros ?? (_ & [= <-] & ? & ? & ? & _); tauto|].
    exists "Missing required fields", 400, (objectLimiters n), w.
    rewrite Hid. split; [done|]. split; [done|set_solver]. }
  destruct (checkObjectRateLimit_Ret (now e) (rr_ObjectID req) (objectLimiters n))
    as (ok & m & Hm & _).
  rewrite (bind_on_state _ _ _ _ ok (set_object_limiters m n))
    by (unfold on_object_limiters, zoom; by rewrite Hm).
  destruct ok; cbn [negb].
  - left. exists req, m. split; [|done]. tauto.
  - right. split; [intros ?? (_ & [= <-] & _ & _ & _ & ?); congruence|]. rewrite bind_on_resp.
    exists "Too Many Requests", 429, m, (Header_Set "Retry-After" "1" w).
    split; [done|]. split; [done|set_solver].
Qed.

(** Everything that has to hold for a share to be released, and the share. *)
Definition releasable (e : Env) (r : Request) (n : Node) (req : RetrieveRequest) (p : bytes) : Prop :=
  (∃ m, admitted e r n req m) ∧ authorised e (sorobanRPCURL n) req ∧
  ∃ sh c, contents (db n) !! share_key (rr_ContractID req) (rr_ObjectID req) = Some sh ∧
    Ciphertext sh = Some c ∧
    DecryptShare (nodePrivateKey n) (slice_bytes (EphemeralPubKey sh)) c
      (slice_bytes (Nonce sh)) = Ret (Ok p).

(** The three outcomes of /retrieve. *)
Lemma handleRetrieveShare_outcome e r n w :
  usable (db n) → rw_code w = None →
  (∃ req p m, releasable e r n req p ∧
     handleRetrieveShare e r (n, w) =
     (Ret tt, ((logRetrieveOutcome (rr_CallerAddress req) (rr_ObjectID req) (rr_ContractID req)
                 "granted" (set_object_limiters m n)).2,
        Write (Encode (retrieve_response p))
          (Header_Set "Content-Type" "application/json" w)))) ∨
  ((∀ req p, ¬ releasable e r n req p) ∧
   ((∃ msg code n' w', handleRetrieveShare e r (n, w) = (Ret tt, (n', http_Error msg code w')) ∧
       rw_code w' = None ∧ code ∈ [400; 401; 403; 404; 405; 429; 500] ∧ db n' = db n) ∨
    (∃ msg n' w', handleRetrieveShare e r (n, w) = (Panic msg, (n', w')) ∧ db n' = db n))).
Proof.
  intros Hu Hnone.
  destruct (handleRetrieveShare_cases e r n w)
    as [(req & m & Ha & ->)|(Ha & msg & code & m & w' & -> & Hw & Hc)].
  2: { right. split; [by intros ?? [[? ?%Ha] _]|]. left.
       exists msg, code, (set_object_limiters m n), w'. split; [done|].
       split; [congruence|]. split; [set_solver|done]. }
  destruct (authorise_cases e req (set_object_limiters m n) w)
    as [[Hau ->]|(Hau & msg & code & ls & -> & Hc)].
  2: { right. split.
       - intros req' p [[m' Hm'] [Hau' _]]. destruct Ha as (_ & Hd & _), Hm' as (_ & Hd' & _).
         assert (req' = req) as -> by congruence. done.
       - left. do 4 eexists. split; [done|]. repeat split; set_solver. }
  assert (∀ req' p, releasable e r n req' p → req' = req) as Hreq.
  { intros req' p [[m' Hm'] _]. destruct Ha as (_ & Hd & _), Hm' as (_ & Hd' & _). congruence. }
  rewrite release_share_eq by done. cbn [db set_object_limiters nodePrivateKey].
  destruct (contents (db n) !! _) as [[ek [c|] nc]|] eqn:Ek.
  2,3: right; split; [intros req' p Hr; pose proof (Hreq _ _ Hr) as ->;
      destruct Hr as (_ & _ & sh & c & Hk & Hct & _); by simplify_eq|];
      left; do 4 eexists; (split; [done|]); repeat split; set_solver.
  destruct (DecryptShare _ _ _ _) as [[p|err]|msg] eqn:Ep.
  - left. exists req, p, m. split; [|done]. split; [by exists m|]. split; [done|].
    by exists (mkShare ek (Some c) nc), c.
  - right. split; [intros req' p Hr; pose proof (Hreq _ _ Hr) as ->;
      destruct Hr as (_ & _ & sh & c' & Hk & Hct & Hd)|].
    { rewrite Ek in Hk. injection Hk as <-. cbn [EphemeralPubKey Nonce Ciphertext] in *. congruence. }
    left. do 4 eexists. split; [done|]. repeat split; set_solver.
  - right. split; [intros req' p Hr; pose proof (Hreq _ _ Hr) as ->;
      destruct Hr as (_ & _ & sh & c' & Hk & Hct & Hd)|].
    { rewrite Ek in Hk. injection Hk as <-. cbn [EphemeralPubKey Nonce Ciphertext] in *. congruence. }
    right. do 3 eexists. by split.
Qed.

(** a share is released exactly when every check has passed: /retrieve
    answers 200 if and only if the request is a well-formed POST within the
    object's rate limit, the signature verifies under the caller's address, the
    transaction is one [approve] call on the object's contract from that
    address, its simulation succeeds, and the stored share decrypts under the
    node's current key. *)
Theorem retrieve_200_iff e r n :
  usable (db n) →
  reply_code (handleRetrieveShare e) r n = Some StatusOK ↔ ∃ req p, releasable e r n req p.
Proof.
  intros Hu. unfold reply_code, serve.
  destruct (handleRetrieveShare_outcome e r n new_resp Hu eq_refl)
    as [(req & p & m & Hr & ->)|[Hn [(msg & code & n' & w' & -> & Hw & Hc & _)|(msg & n' & w' & -> & _)]]].
  - split; [eauto|done].
  - split; [|by intros (req & p & ?%Hn)]. rewrite http_Error_code by done. intros [= ->].
    exfalso. revert Hc. unfold StatusOK. set_solver.
  - split; [done|]. by intros (req & p & ?%Hn).
Qed.

Lemma releasable_det e r n req p req' p' :
  releasable e r n req p → releasable e r n req' p' → req' = req ∧ p' = p.
Proof.
  intros [[m Hm] (_ & sh & c & Hk & Hct & Hd)] [[m' Hm'] (_ & sh' & c' & Hk' & Hct' & Hd')].
  destruct Hm as (_ & He & _), Hm' as (_ & He' & _).
  assert (req' = req) as -> by congruence. split; [done|].
  assert (sh' = sh) as -> by congruence. assert (c' = c) as -> by congruence. congruence.
Qed.

Lemma retrieve_granted e r n w req p :
  usable (db n) → rw_code w = None → releasable e r n req p →
  ∃ n' w', handleRetrieveShare e r (n, w) = (Ret tt, (n', w')) ∧ final_code w' = 200 ∧
    rw_body w' = rw_body w +:+ Encode (retrieve_response p) ∧ db n' = db n ∧
    log_lines (loggers n') = log_lines (loggers n) ++
      (if log_ready (loggers n) && (log_level (loggers n) <=? InfoLevel) then
         [mkEntry Audit InfoLevel
            [("caller_address", rr_CallerAddress req); ("object_id", rr_ObjectID req);
             ("contract_id", rr_ContractID req); ("outcome", "granted")] "retrieve_audit"]
       else []).
Proof.
  intros Hu Hw Hr.
  destruct (handleRetrieveShare_outcome e r n w Hu Hw) as [(req' & p' & m & Hr' & ->)|[Hn _]];
    [|by apply Hn in Hr].
  destruct (releasable_det _ _ _ _ _ _ _ Hr Hr') as [-> ->].
  do 2 eexists. split; [done|].
  split; [unfold final_code, Write, send_header; cbn; by rewrite Hw|].
  split; [unfold Write, send_header; cbn; by rewrite Hw|]. split; [done|].
  unfold logRetrieveOutcome. rewrite log_eq. cbn [snd loggers set_loggers].
  by rewrite (proj2 (emit_lines _ _ _ _ _)).
Qed.

(** C19: what is released: the reply to a releasable request is the share's
    plaintext in hex; the database is as before; and one audit line naming the
    caller, the object and the contract is written - unless the loggers are not
    set up or the log level is above info, in which case the release leaves no
    trace. *)
Theorem retrieve_reply e r n req p :
  usable (db n) → releasable e r n req p →
  ∃ n' w', serve (handleRetrieveShare e) r n = (Ret tt, n', w') ∧
    rw_body w' = Encode (retrieve_response p) ∧ db n' = db n ∧
    log_lines (loggers n') = log_lines (loggers n) ++
      (if log_ready (loggers n) && (log_level (loggers n) <=? InfoLevel) then
         [mkEntry Audit InfoLevel
            [("caller_address", rr_CallerAddress req); ("object_id", rr_ObjectID req);
             ("contract_id", rr_ContractID req); ("outcome", "granted")] "retrieve_audit"]
       else []).
Proof.
  intros Hu Hr. unfold serve.
  destruct (retrieve_granted e r n new_resp req p Hu eq_refl Hr) as (n' & w' & -> & _ & H2 & H3 & H4).
  by exists n', w'.
Qed.

(** /retrieve never changes the stored shares, whatever it answers, even
    when it panics. *)
Theorem retrieve_keeps_db e r n :
  usable (db n) → db (state_after (handleRetrieveShare e) r n) = db n.
Proof.
  intros Hu. unfold state_after, serve.
  by destruct (handleRetrieveShare_outcome e r n new_resp Hu eq_refl)
    as [(req & p & m & Hr & ->)|[_ [(msg & code & n' & w' & -> & _ & _ & ?)|(msg & n' & w' & -> & ?)]]].
Qed.

(** *** /store *)

(** The share a well-formed /store request carries. *)
Definition store_payload (r : Request) : option (StoreRequest * StoredShareDB) :=
  if decide (r_Method r = MethodPost) then
    req ← decode_store (r_Body r);
    if decide (sr_ObjectID req = "" ∨ sr_ContractID req = "" ∨ sr_EphemeralPubKey req = "" ∨
               sr_Ciphertext req = "" ∨ sr_Nonce req = "") then None
    else
      e ← res_option (Hex.DecodeString (sr_EphemeralPubKey req));
      c ← res_option (Hex.DecodeString (sr_Ciphertext req));
      nc ← res_option (Hex.DecodeString (sr_Nonce req));
      Some (req, mkShare (Some e) (Some c) (Some nc))
  else None.

Definition overwrite_requested (r : Request) : Prop := Header_Get (r_Header r) "X-Overwrite" = "true".

Lemma handleStoreShare_payload r n w :
  match store_payload r with
  | None => ∃ msg code, handleStoreShare r (n, w) = (Ret tt, (n, http_Error msg code w)) ∧
              code ∈ [400; 405]
  | Some (req, share) =>
      handleStoreShare r (n, w) =
      (if decide (Header_Get (r_Header r) "X-Overwrite" ≠ "true") then
         '(_, exists_, _) ← on_state (on_db (Load (share_key (sr_ContractID req) (sr_ObjectID req))));
         if (exists_ : bool) then
           fail_with "conflict: share already exists for this object (use X-Overwrite: true to replace)"
             StatusConflict
         else store_share r req (share_key (sr_ContractID req) (sr_ObjectID req)) share
       else store_share r req (share_key (sr_ContractID req) (sr_ObjectID req)) share) (n, w)
  end.
Proof.
  assert (∀ msg code, code ∈ [400; 405] → ∃ msg' code',
    fail_with msg code (n, w) = (Ret tt, (n, http_Error msg' code' w)) ∧ code' ∈ [400; 405]) as Hf
    by eauto.
  unfold store_payload, handleStoreShare.
  destruct (decide (r_Method r = MethodPost)) as [Hm|Hm].
  2: { rewrite decide_True by done. apply Hf. set_solver. }
  rewrite decide_False by tauto.
  destruct (decode_store (r_Body r)) as [req|]; cbn [mbind option_bind]; [|apply Hf; set_solver].
  case_decide; [apply Hf; set_solver|].
  destruct (Hex.DecodeString (sr_EphemeralPubKey req)) as [ek|]; cbn; [|apply Hf; set_solver].
  destruct (Hex.DecodeString (sr_Ciphertext req)) as [c|]; cbn; [|apply Hf; set_solver].
  destruct (Hex.DecodeString (sr_Nonce req)) as [nc|]; cbn; [|apply Hf; set_solver].
  done.
Qed.

Lemma store_share_spec r req key share n w :
  usable (db n) → rw_code w = None →
  ∃ n' w', store_share r req key share (n, w) = (Ret tt, (n', w')) ∧ usable (db n') ∧
    ((final_code w' = 200 ∧ contents (db n') = <[key := share]> (contents (db n))) ∨
     (final_code w' = 500 ∧ db n' = db n)).
Proof.
  intros Hu Hw. unfold store_share.
  destruct (Save_spec key share (db n) Hu) as [(d & Hs & Hu' & Hc)|(err & Hs)];
    rewrite (bind_on_state _ _ _ _ _ _ (on_db_eq _ _ _ _ Hs)).
  - unfold logStoreOutcome. rewrite (bind_on_state _ _ _ _ _ _ (log_eq _ _ _ _ _)), bind_on_resp.
    do 2 eexists. split; [done|]. split; [done|]. left. split; [|done].
    unfold final_code, encode_json, on_resp, modify, Write, WriteHeader, send_header. cbn.
    by rewrite Hw.
  - rewrite (bind_on_state _ _ _ _ _ _ (log_eq _ _ _ _ _)), fail_with_eq.
    do 2 eexists. split; [done|]. split; [done|]. right. split; [|done]. by rewrite http_Error_code.
Qed.

(** What [handleStoreShare] does on every branch. *)
Lemma handleStoreShare_outcome r n w :
  usable (db n) → rw_code w = None →
  ∃ n' w', handleStoreShare r (n, w) = (Ret tt, (n', w')) ∧ usable (db n') ∧
  match store_payload r with
  | None => final_code w' ∈ [400; 405] ∧ n' = n
  | Some (req, share) =>
      let key := share_key (sr_ContractID req) (sr_ObjectID req) in
      let present := is_Some (contents (db n) !! key ≫= Ciphertext) in
      (¬ overwrite_requested r ∧ present ∧ final_code w' = 409 ∧ n' = n) ∨
      ((overwrite_requested r ∨ ¬ present) ∧
       ((final_code w' = 200 ∧ contents (db n') = <[key := share]> (contents (db n))) ∨
        (final_code w' = 500 ∧ db n' = db n)))
  end.
Proof.
  intros Hu Hw. unfold overwrite_requested. pose proof (handleStoreShare_payload r n w) as Hp.
  destruct (store_payload r) as [[req share]|].
  2: { destruct Hp as (msg & code & -> & Hc). do 2 eexists. split; [done|]. split; [done|].
       split; [|done]. by rewrite http_Error_code. }
  rewrite Hp. clear Hp. set (key := share_key _ _). cbn zeta. case_decide as Ho.
  - rewrite (bind_on_state _ _ _ _ _ _ (on_db_eq _ _ _ _ (Load_spec _ _ Hu))), set_db_id.
    destruct (contents (db n) !! key) as [sh|] eqn:Ek; cbn [load_result mbind option_bind].
    + destruct (decide (is_Some (Ciphertext sh))) as [Hs|Hs];
        [rewrite bool_decide_eq_true_2 by done|rewrite bool_decide_eq_false_2 by done].
      * do 2 eexists. split; [done|]. split; [done|]. left. by rewrite http_Error_code.
      * destruct (store_share_spec r req key share n w Hu Hw) as (n' & w' & -> & Hu' & H).
        do 2 eexists. split; [done|]. split; [done|]. right. split; [by right|done].
    + destruct (store_share_spec r req key share n w Hu Hw) as (n' & w' & -> & Hu' & H).
      do 2 eexists. split; [done|]. split; [done|]. right. split; [right; by intros []|done].
  - destruct (store_share_spec r req key share n w Hu Hw) as (n' & w' & -> & Hu' & H).
    do 2 eexists. split; [done|]. split; [done|]. right. split; [|done].
    by left.
Qed.

(** C10: what /store does on every branch.  A request that is not a well-formed
    POST is answered 400 or 405; a share that is there already, without
    [X-Overwrite: true], is answered 409; in both cases the node is left as it
    was.  Otherwise the share is written and the answer is 200, or the write
    failed, the answer is 500 and the database is as before. *)
Theorem store_spec r n :
  usable (db n) →
  ∃ n' w', serve handleStoreShare r n = (Ret tt, n', w') ∧ usable (db n') ∧
  match store_payload r with
  | None => final_code w' ∈ [400; 405] ∧ n' = n
  | Some (req, share) =>
      let key := share_key (sr_ContractID req) (sr_ObjectID req) in
      let present := is_Some (contents (db n) !! key ≫= Ciphertext) in
      (¬ overwrite_requested r ∧ present ∧ final_code w' = 409 ∧ n' = n) ∨
      ((overwrite_requested r ∨ ¬ present) ∧
       ((final_code w' = 200 ∧ contents (db n') = <[key := share]> (contents (db n))) ∨
        (final_code w' = 500 ∧ db n' = db n)))
  end.
Proof.
  intros Hu. unfold serve.
  destruct (handleStoreShare_outcome r n new_resp Hu eq_refl) as (n' & w' & -> & Hu' & H).
  by exists n', w'.
Qed.

(** /store touches nothing but the database and the log. *)
Lemma handleStoreShare_frame r n w :
  usable (db n) → ∃ d ls, (handleStoreShare r (n, w)).2.1 = set_loggers ls (set_db d n).
Proof.
  intros Hu. pose proof (handleStoreShare_payload r n w) as Hp.
  assert (∀ req key share n w, usable (db n) → ∃ d ls,
    (store_share r req key share (n, w)).2.1 = set_loggers ls (set_db d n)) as Hs.
  { clear n w Hu Hp. intros req key share n w Hu. unfold store_share.
    destruct (Save_spec key share (db n) Hu) as [(d & Hs & _)|(err & Hs)];
      rewrite (bind_on_state _ _ _ _ _ _ (on_db_eq _ _ _ _ Hs)).
    - unfold logStoreOutcome. rewrite (bind_on_state _ _ _ _ _ _ (log_eq _ _ _ _ _)), bind_on_resp.
      by do 2 eexists.
    - rewrite (bind_on_state _ _ _ _ _ _ (log_eq _ _ _ _ _)), fail_with_eq. by do 2 eexists. }
  destruct (store_payload r) as [[req share]|].
  - rewrite Hp. case_decide; [|by apply Hs].
    rewrite (bind_on_state _ _ _ _ _ _ (on_db_eq _ _ _ _ (Load_spec _ _ Hu))), set_db_id.
    destruct (load_result _) as [[? []] ?]; [|by apply Hs].
    exists (db n), (loggers n). by destruct n.
  - destruct Hp as (msg & code & -> & _). exists (db n), (loggers n). by destruct n.
Qed.

End handlers.

(** ** Runs

    A node that holds one share, and the request of its owner. *)

Module DemoShare.

#[export] Existing Instances ToyCrypto.crypto ToyCrypto.crypto_laws ToyRate.limiter_impl ToyRate.laws
  GmapBolt.bolt GmapBolt.bolt_laws ToyXdr.xdr ToyXdr.codec ToyXdr.laws.

(** An RPC node that approves everything. *)
Definition approving : Post := λ _ _ _, Ok (mkHttpResponse 200 (Ok
  (render (JObj [("result", JObj [("results", JArr [JObj [("xdr", JStr "AAAA")]])])])))).

Definition env : Env := mkEnv 0 None "1s" "2026-01-01T00:00:00Z" 100 approving.

Definition contract : string := String "C" (Hex.EncodeToString (replicate 32 "c"%char)).
Definition seed_key : bytes := ToyCrypto.pad32 (bytes_of "seed").
Definition caller : string := String "G" (Hex.EncodeToString seed_key).
Definition object : string := "0b".
Definition key : string := share_key contract object.

Definition sealed : bytes * bytes :=
  match (EncryptShareForTesting (PublicKey key_k) (bytes_of "share") zero_nonce
           (replicate 32 "r"%char)).1 with
  | Ret (Ok ec) => ec
  | _ => ([], [])
  end.
Definition share : StoredShareDB := mkShare (Some sealed.1) (Some sealed.2) (Some zero_nonce).

Definition stored : DB := (saveShare key share fresh_db).2.

Definition node (d : DB) : Node :=
  mkNode d ∅ (replicate 64 "n"%char) key_k (PublicKey key_k) "rpc" None None ∅ 0
    (mkLoggers InfoLevel true None []) [].

Definition tx : string :=
  match ToyXdr.build caller (ToyXdr.call_op (replicate 32 "c"%char) "approve" [] seed_key) with
  | Ok s => Base64.EncodeToString (bytes_of s)
  | Err _ => ""
  end.
Definition message : bytes := bytes_of (object +:+ "_" +:+ contract).

Definition retrieve : RetrieveRequest :=
  mkRetrieveReq object contract caller (Hex.EncodeToString (seed_key ++ message))
    (Hex.EncodeToString message) tx.

Definition post (path : string) (v : json) : Request :=
  mkRequest MethodPost path "" path ∅ "10.0.0.7:4000" (Some (mkBody (render v) None)).

(** The body a client sends for a request. *)
Definition retrieve_req_json (req : RetrieveRequest) : json :=
  JObj [("object_id", JStr (rr_ObjectID req)); ("contract_id", JStr (rr_ContractID req));
        ("caller_address", JStr (rr_CallerAddress req)); ("signature", JStr (rr_Signature req));
        ("message", JStr (rr_Message req)); ("tx_xdr", JStr (rr_TxXDR req))].

Definition retrieve_post : Request := post "/retrieve" (retrieve_req_json retrieve).

Definition store_post : Request := post "/store"
  (JObj [("object_id", JStr object); ("contract_id", JStr contract);
         ("ephemeral_pubkey", JStr (Hex.EncodeToString sealed.1));
         ("ciphertext", JStr (Hex.EncodeToString sealed.2));
         ("nonce", JStr (Hex.EncodeToString zero_nonce))]).

Lemma fresh_usable : usable (fresh_db : DB).
Proof.
  split; [done|]. intros k v Hk.
  change (GmapBolt.bucket shareBucket {[shareBucket := ∅]} !! k = Some v) in Hk.
  unfold GmapBolt.bucket in Hk. rewrite lookup_singleton_eq in Hk. done.
Qed.

Lemma stored_usable : usable stored ∧ contents stored !! key = Some share.
Proof.
  destruct (Save_spec key share fresh_db fresh_usable) as [(d & Hs & Hu & Hc)|(e & Hs)].
  - change (saveShare key share fresh_db = (Ret None, d)) in Hs. unfold stored. rewrite Hs.
    split; [done|]. exact (eq_trans (f_equal (lookup key) Hc) (lookup_insert_eq _ _ _)).
  - assert ((saveShare key share fresh_db).1 = Ret None) as H by (vm_compute; reflexivity).
    change (saveShare key share fresh_db = (Ret (Some e), fresh_db)) in Hs.
    by rewrite Hs in H.
Qed.

Lemma retrieve_releasable : releasable env retrieve_post (node stored) retrieve (bytes_of "share").
Proof.
  split; [|split].
  - exists (checkObjectRateLimit 0 object ∅).2. repeat split; try (vm_compute; done).
  - exists message, (seed_key ++ message). split_and!; vm_compute; reflexivity.
  - exists share, sealed.2. split; [apply stored_usable|]. split; [done|]. vm_compute. reflexivity.
Qed.

Lemma retrieve_200_iff_witness :
  reply_code (handleRetrieveShare env) retrieve_post (node stored) = Some StatusOK.
Proof.
  apply retrieve_200_iff; [apply stored_usable|]. exists retrieve, (bytes_of "share").
  apply retrieve_releasable.
Defined.

Lemma retrieve_reply_witness : ∃ n' w',
  serve (handleRetrieveShare env) retrieve_post (node stored) = (Ret tt, n', w') ∧
  rw_body w' = Encode (retrieve_response (bytes_of "share")) ∧ db n' = stored ∧
  log_lines (loggers n') = [mkEntry Audit InfoLevel
    [("caller_address", caller); ("object_id", object); ("contract_id", contract);
     ("outcome", "granted")] "retrieve_audit"].
Proof.
  apply (retrieve_reply env retrieve_post (node stored) retrieve (bytes_of "share"));
    [apply stored_usable|apply retrieve_releasable].
Defined.

Lemma retrieve_keeps_db_witness :
  db (state_after (handleRetrieveShare env) retrieve_post (node stored)) = stored.
Proof. apply retrieve_keeps_db, stored_usable. Defined.

Lemma store_spec_witness : ∃ n' w',
  serve handleStoreShare store_post (node stored) = (Ret tt, n', w') ∧ usable (db n') ∧
  match store_payload store_post with
  | None => final_code w' ∈ [400; 405] ∧ n' = node stored
  | Some (req, share) =>
      let key := share_key (sr_ContractID req) (sr_ObjectID req) in
      let present := is_Some (contents stored !! key ≫= Ciphertext) in
      (¬ overwrite_requested store_post ∧ present ∧ final_code w' = 409 ∧ n' = node stored) ∨
      ((overwrite_requested store_post ∨ ¬ present) ∧
       ((final_code w' = 200 ∧ contents (db n') = <[key := share]> (contents stored)) ∨
        (final_code w' = 500 ∧ db n' = stored)))
  end.
Proof. apply store_spec, stored_usable. Defined.

End DemoShare.
