(* ===== verification/Metrics.v ===== *)
(** * Metrics ([node/metrics.go])

    The counters the node declares, the functions that change them, and the
    middleware that counts requests.  Prometheus is a third-party package: a
    counter is a number, a histogram the list of what was observed. *)

From S2P Require Import Prelude GoStrings Encoding Json JsonStruct Bucket Store Crypto Http.
From S2P Require Import RateLimit Logger Node Middleware Handlers.

(** The package's counters; [sharesInStore] is kept with the node's state. *)
Record Metrics := mkMetrics {
  serverUptime : Z;
  requestsTotal : gmap (string * string) Z;
  requestDuration : gmap string (list Z);
  simulationDuration : list Z;
  accessGranted : Z;
  accessDenied : Z;
}.

Definition zero_metrics : Metrics := mkMetrics 0 ∅ ∅ [] 0 0.

(** One tick of [StartUptimeTicker]. *)
Definition uptime_tick : M Metrics unit := modify (λ m,
  mkMetrics (serverUptime m + 1) (requestsTotal m) (requestDuration m) (simulationDuration m)
    (accessGranted m) (accessDenied m)).

(** [requestsTotal.WithLabelValues(endpoint, status).Inc()]. *)
Definition count_request (endpoint status : string) : M Metrics unit := modify (λ m,
  mkMetrics (serverUptime m)
    (<[(endpoint, status) := default 0 (requestsTotal m !! (endpoint, status)) + 1]> (requestsTotal m))
    (requestDuration m) (simulationDuration m) (accessGranted m) (accessDenied m)).

(** [requestDuration.WithLabelValues(endpoint).Observe(d)]. *)
Definition observe_request (endpoint : string) (d : Z) : M Metrics unit := modify (λ m,
  mkMetrics (serverUptime m) (requestsTotal m)
    (<[endpoint := default [] (requestDuration m !! endpoint) ++ [d]]> (requestDuration m))
    (simulationDuration m) (accessGranted m) (accessDenied m)).

Definition observeSimulationDuration (d : Z) : M Metrics unit := modify (λ m,
  mkMetrics (serverUptime m) (requestsTotal m) (requestDuration m) (simulationDuration m ++ [d])
    (accessGranted m) (accessDenied m)).

Definition observeSimulationRPC (durationSecs : Z) : M Metrics unit :=
  observeSimulationDuration durationSecs.

Definition recordAccessDecision (granted : bool) : M Metrics unit := modify (λ m,
  if granted
  then mkMetrics (serverUptime m) (requestsTotal m) (requestDuration m) (simulationDuration m)
         (accessGranted m + 1) (accessDenied m)
  else mkMetrics (serverUptime m) (requestsTotal m) (requestDuration m) (simulationDuration m)
         (accessGranted m) (accessDenied m + 1)).

(** [defer d(); m]: the deferred call runs when [m] panics, too. *)
Definition with_defer {S A} (d : M S unit) (m : M S A) : M S A := λ s,
  let '(o, s') := m s in (o, (d s').2).

Section middleware.
(** The state is the program's, with the metrics beside it. *)
Context {S : Type}.

Definition on_metrics {A} (m : M Metrics A) : M (S * Metrics) A :=
  zoom snd (λ x st, (st.1, x)) m.

(** [prometheusMiddleware]; the elapsed time is given. *)
Definition prometheusMiddleware (endpoint : string) (elapsed : Z) : Middleware (S * Metrics) :=
  λ next r,
    with_defer (on_state (on_metrics (observe_request endpoint elapsed)))
      (code ← with_statusWriter (next r);
       on_state (on_metrics (count_request endpoint (Itoa code)))).

(** the request metrics.  Every request is timed once, also one whose
    handler panics.  One that returns is counted once, under the status it was
    given last; one that panics is not counted at all. *)
Theorem prometheusMiddleware_counts endpoint elapsed next r s m w :
  let '(o, (s1, m1, w1)) := next r (s, m, set_last None w) in
  let '(o', (s', m', w')) := prometheusMiddleware endpoint elapsed next r (s, m, w) in
  o' = o ∧ s' = s1 ∧ rw_code w' = rw_code w1 ∧ rw_body w' = rw_body w1 ∧
  requestDuration m' =
    <[endpoint := default [] (requestDuration m1 !! endpoint) ++ [elapsed]]> (requestDuration m1) ∧
  requestsTotal m' =
    match o with
    | Ret _ =>
        let label := (endpoint, Itoa (default StatusOK (rw_last w1))) in
        <[label := default 0 (requestsTotal m1 !! label) + 1]> (requestsTotal m1)
    | Panic _ => requestsTotal m1
    end.
Proof.
  unfold prometheusMiddleware, with_defer, with_statusWriter, on_resp, modify.
  unfold_M. cbn [fst snd]. destruct (next r _) as [[[]|msg] [[s1 m1] w1]]; by cbn.
Qed.

End middleware.

Section handler.
Context {C : Crypto} {B : Bolt} {R : RateLimiter}.

(** [metricsHandler]: promhttp's own handler is given. *)
Definition metricsHandler (promhttp : Handler Node) (apiKey : string) : Handler Node := λ r,
  if bool_decide (apiKey ≠ "") && negb (secureStringEqual (Header_Get (r_Header r) "X-Api-Key") apiKey)
  then fail_with "Unauthorized" StatusUnauthorized
  else promhttp r.

(** the metrics are open exactly when no key is configured or the request
    carries it; any other request is answered 401 and changes nothing. *)
Theorem metricsHandler_spec promhttp key r n :
  (key = "" ∨ Header_Get (r_Header r) "X-Api-Key" = key →
     serve (metricsHandler promhttp key) r n = serve promhttp r n) ∧
  (key ≠ "" → Header_Get (r_Header r) "X-Api-Key" ≠ key →
     reply_code (metricsHandler promhttp key) r n = Some StatusUnauthorized ∧
     state_after (metricsHandler promhttp key) r n = n).
Proof.
  unfold reply_code, state_after, serve, metricsHandler. split.
  - intros Hk. destruct (decide (key = "")) as [Hn|Hn].
    + by rewrite bool_decide_eq_false_2 by tauto.
    + destruct Hk as [|Hk]; [done|]. rewrite (proj2 (secureStringEqual_iff _ _) Hk).
      by rewrite andb_false_r.
  - intros Hk Hne. rewrite bool_decide_eq_true_2 by done.
    destruct (secureStringEqual _ key) eqn:E; [by apply secureStringEqual_iff in E|]. done.
Qed.

(** the gauge of stored shares drifts.  [handlePurgeShares] takes one off
    whenever the deletion succeeds, also when there was no such share: repeated
    purges drive the gauge away from the number of shares without bound. *)
Theorem purge_gauge_drifts {SS : ShareStore DB} {SL : ShareStoreLaws DB} r n k o c :
  usable (db n) → r_Method r = MethodDelete → decode_purge (r_Body r) = Some (o, c) →
  contents (db n) !! share_key c o = None →
  (∀ d, usable d → (Delete (share_key c o) d).1 = Ret None) →
  let n' := Nat.iter k (state_after handlePurgeShares r) n in
  contents (db n') = contents (db n) ∧ sharesInStore n' = sharesInStore n - Z.of_nat k.
Proof.
  intros Hu Hm Hd Hk Hs.
  assert (∀ n, usable (db n) → contents (db n) !! share_key c o = None →
    let n' := state_after handlePurgeShares r n in
    usable (db n') ∧ contents (db n') = contents (db n) ∧
    sharesInStore n' = sharesInStore n - 1) as Hstep.
  { clear n Hu Hk. intros n Hu Hk. unfold state_after, serve, handlePurgeShares.
    rewrite decide_False by tauto. rewrite Hd. fold (share_key c o).
    pose proof (Hs _ Hu) as Ho.
    destruct (Delete_spec (share_key c o) (db n) Hu) as [(d & E & Hu' & Hc)|(err & E)];
      [|by rewrite E in Ho].
    rewrite (bind_on_state _ _ _ _ _ _ (on_db_eq _ _ _ _ E)).
    rewrite (bind_on_state _ _ _ _ _ _ (eq_refl : modify _ _ = (Ret tt, _))).
    rewrite (bind_on_state _ _ _ _ _ _ (log_eq _ _ _ _ _)), bind_on_resp. cbn. rewrite Hc.
    split; [done|]. split; [by apply delete_id|done]. }
  assert (∀ k, let n' := Nat.iter k (state_after handlePurgeShares r) n in
    usable (db n') ∧ contents (db n') = contents (db n) ∧
    sharesInStore n' = sharesInStore n - Z.of_nat k) as Hall; [|by destruct (Hall k) as (_ & ? & ?)].
  clear k. induction k as [|k IH]; [cbn; split_and!; [done|done|lia]|].
  destruct IH as (Hu1 & Hc1 & Hg1). cbn [Nat.iter nat_rect].
  destruct (Hstep _ Hu1) as (Hu2 & Hc2 & Hg2); [by rewrite Hc1|].
  split; [exact Hu2|]. split; [exact (eq_trans Hc2 Hc1)|]. refine (eq_trans Hg2 _). unfold Nat.iter in *. lia.
Qed.

End handler.

(** ** Runs *)

Module DemoMetrics.

Import DemoShare.

Definition purge_post : Request :=
  mkRequest MethodDelete "/shares" "" "/shares" ∅ "10.0.0.7:4000" (Some (mkBody
    (render (JObj [("object_id", JStr object); ("contract_id", JStr contract)])) None)).

Definition prom : Handler Node := λ _, on_resp (Write "# metrics").

Lemma metricsHandler_spec_witness :
  reply_code (metricsHandler prom "secret") purge_post (node fresh_db) = Some StatusUnauthorized.
Proof. by apply (metricsHandler_spec prom "secret" purge_post (node fresh_db)). Defined.

Lemma purge_gauge_drifts_witness :
  let n' := Nat.iter 3 (state_after handlePurgeShares purge_post) (node fresh_db) in
  contents (db n') = contents (db (node fresh_db)) ∧ sharesInStore n' = -3.
Proof.
  apply (purge_gauge_drifts purge_post (node fresh_db) 3 object contract);
    [exact fresh_usable|done|vm_compute; reflexivity|vm_compute; reflexivity|].
  intros [d|]; [|done]. intros [Hb _]. cbn in Hb |- *. unfold deleteShare, with_bucket. cbn.
  rewrite Hb. apply bool_decide_eq_true_1 in Hb as [x Hx]. unfold GmapBolt.del. by rewrite Hx.
Defined.

End DemoMetrics.
