(* ===== verification/Release.v ===== *)
(** * Who gets which share

    Consequences of the handlers of [Handlers.v] for the life of a share: which
    share a request can name, what a caller's credentials are good for, and what
    happens to stored shares when the key is rotated or when they were stored
    malformed. *)

From S2P Require Import Prelude GoStrings Encoding Json JsonStruct Bucket Store Crypto NodeCrypto.
From S2P Require Import Http SorobanTx RateLimit FileSystem Keystore Logger Node Handlers.

Section release.
Context {C : Crypto} {B : Bolt} {R : RateLimiter} {X : Xdr} {XC : XdrCodec X}.
Context {SS : ShareStore DB} {CL : CryptoLaws C} {SL : ShareStoreLaws DB}.

(** ** Keys of shares *)

Lemma strkey_plain v b s : strkey_Decode v s = Ok b → contains "_" s = false.
Proof. intros H. eapply strkey_Encode_plain, strkey_Decode_Encode, H. Qed.

Lemma strkey_share_key_inj v v' b b' c o c' o' :
  strkey_Decode v c = Ok b → strkey_Decode v' c' = Ok b' →
  share_key c o = share_key c' o' → c = c' ∧ o = o'.
Proof. intros Hc%strkey_plain Hc'%strkey_plain H. by apply (join_inj "_") in H. Qed.

(** shares of different objects do not collide: for contract IDs that are
    valid strkeys, the key a share is kept under determines the contract and
    the object. *)
Theorem share_key_inj v v' b b' c o c' o' :
  strkey_Decode v c = Ok b → strkey_Decode v' c' = Ok b' →
  share_key c o = share_key c' o' → c = c' ∧ o = o'.
Proof. apply strkey_share_key_inj. Qed.

(** ** A released request, field by field *)

(** The reply to a request that is admitted and authorised is what becomes of
    the stored share. *)
Lemma handleRetrieveShare_authorised e r n w req m :
  usable (db n) → admitted e r n req m → authorised e (sorobanRPCURL n) req →
  handleRetrieveShare e r (n, w) = release_share req (set_object_limiters m n, w).
Proof.
  intros Hu Ha Hau.
  destruct (handleRetrieveShare_cases e r n w) as [(req' & m' & Ha' & ->)|(Hno & _)];
    [|by apply Hno in Ha].
  assert (req' = req) as ->.
  { destruct Ha as (_ & Hd & _), Ha' as (_ & Hd' & _). congruence. }
  assert (m' = m) as ->.
  { destruct Ha as (_ & _ & _ & _ & _ & Hm), Ha' as (_ & _ & _ & _ & _ & Hm'). congruence. }
  destruct (authorise_cases e req (set_object_limiters m n) w) as [[_ ->]|[Hno _]]; [done|].
  by destruct Hno.
Qed.

(** C33: a share stored with a valid ephemeral key and a nonce that does not have
    12 bytes, which /store accepts, can not be retrieved: an admitted and authorised request for it
    makes the handler panic, and the connection is dropped without a reply. *)
Theorem bad_nonce_panics e r n req m ek c nc pub s :
  usable (db n) → admitted e r n req m → authorised e (sorobanRPCURL n) req →
  contents (db n) !! share_key (rr_ContractID req) (rr_ObjectID req) =
    Some (mkShare (Some ek) (Some c) (Some nc)) →
  P256_NewPublicKey ek = Ok pub → ECDH (nodePrivateKey n) pub = Ok s → len s = 32 → len nc ≠ 12 →
  reply_code (handleRetrieveShare e) r n = None.
Proof.
  intros Hu Ha Hau Hk He Hs Hl Hn. unfold reply_code, serve.
  rewrite (handleRetrieveShare_authorised e r n _ req m Hu Ha Hau), release_share_eq by done.
  cbn [db set_object_limiters nodePrivateKey]. rewrite Hk. cbn [slice_bytes default from_option id].
  rewrite (DecryptShare_unfold _ _ _ _ _ _ He Hs Hl). by rewrite decide_False.
Qed.

(** ** What credentials are good for *)

(** The same credentials, presented for another object. *)
Definition for_object (o : string) (req : RetrieveRequest) : RetrieveRequest :=
  mkRetrieveReq o (rr_ContractID req) (rr_CallerAddress req) (rr_Signature req) (rr_Message req)
    (rr_TxXDR req).

(** C21: authorisation is not bound to the object.  A caller that can have the
    share of one object released can, with the same signature, message and
    transaction, have the share of any other object of the contract released
    that is stored at the node (within that object's rate limit). *)
Theorem credentials_not_bound e r r' n req p o p' sh c m :
  usable (db n) → releasable e r n req p → o ≠ "" →
  r_Method r' = MethodPost → decode_retrieve (r_Body r') = Some (for_object o req) →
  checkObjectRateLimit (now e) o (objectLimiters n) = (Ret true, m) →
  contents (db n) !! share_key (rr_ContractID req) o = Some sh → Ciphertext sh = Some c →
  DecryptShare (nodePrivateKey n) (slice_bytes (EphemeralPubKey sh)) c (slice_bytes (Nonce sh)) =
    Ret (Ok p') →
  ∃ n' w', serve (handleRetrieveShare e) r' n = (Ret tt, n', w') ∧ final_code w' = 200 ∧
    rw_body w' = Encode (retrieve_response p').
Proof.
  intros Hu [[m0 Hm0] [Hau _]] Ho Hm Hd Hr Hk Hc Hdec. unfold serve.
  destruct (retrieve_granted e r' n new_resp (for_object o req) p' Hu eq_refl)
    as (n' & w' & H1 & H2 & H3 & _).
  - split; [|split].
    + exists m. destruct Hm0 as (_ & _ & _ & H1 & H2 & _). done.
    + exact Hau.
    + by exists sh, c.
  - rewrite H1. by exists n', w'.
Qed.

(** ** Rotation *)

Section rotation.
Context {K : KeyCodec C} {O : Os}.

Lemma releasable_share e r n req p :
  releasable e r n req p →
  ∃ ek c nc, contents (db n) !! share_key (rr_ContractID req) (rr_ObjectID req) =
      Some (mkShare ek (Some c) nc) ∧
    DecryptShare (nodePrivateKey n) (slice_bytes ek) c (slice_bytes nc) = Ret (Ok p).
Proof.
  intros (_ & _ & [ek ct nc] & c & Hk & Hc & Hd). cbn in Hc, Hd. subst ct. by exists ek, c, nc.
Qed.

(** C22: rotation strands the stored shares.  Take a share that can be released,
    rotate the key, and let the re-encryption goroutine finish: if the new key
    does not open the share, the same request is now answered 500, although the
    key manager still holds the old key and the old key still opens it. *)
Theorem rotation_strands_shares e r n req p t km k rest ek c nc err :
  usable (db n) → releasable e r n req p →
  keys_wf n → globalKeyManager n = Some km → currentVersion km < 2 ^ 64 - 1 →
  P256_GenerateKey (rnd n) = Ok (k, rest) →
  contents (db n) !! share_key (rr_ContractID req) (rr_ObjectID req) =
    Some (mkShare ek (Some c) nc) →
  DecryptShare k (slice_bytes ek) c (slice_bytes nc) = Ret (Err err) →
  let n' := (run_goroutine (Rotate t km n).2).2 in
  reply_code (handleRetrieveShare e) r n' = Some StatusInternalServerError ∧
  ∃ km' old, globalKeyManager n' = Some km' ∧ GetKey km' (currentVersion km) = Some old ∧
    DecryptShare old (slice_bytes ek) c (slice_bytes nc) = Ret (Ok p).
Proof.
  intros Hu Hr [_ Hwf] Hkm Hv Hk Hsh Hd. rewrite Hkm in Hwf. destruct Hwf as [Hcur Hdom].
  assert (0 ≤ currentVersion km) by (apply (Hdom (currentVersion km)); eauto).
  destruct (Rotate_run_eq t km n k rest Hk) as (g & ls & km' & -> & Hkeys). cbn zeta.
  assert (keys km' !! currentVersion km = Some (nodePrivateKey n)) as Hold.
  { rewrite Hkeys, uint64_id by lia. by rewrite lookup_insert_ne by lia. }
  destruct Hr as ([m Hm] & Hau & sh & c' & Hk' & Hc' & Hp). split.
  - unfold reply_code, serve.
    rewrite (handleRetrieveShare_authorised e r _ _ req m), release_share_eq by done.
    cbn. rewrite Hsh, Hd. done.
  - exists km', (nodePrivateKey n). split; [done|]. split; [done|].
    rewrite Hsh in Hk'. injection Hk' as <-. cbn in *. by injection Hc' as <-.
Qed.

End rotation.
End release.

(** ** Runs *)

Module DemoRelease.

Import DemoShare.
#[local] Existing Instances ToyKeys.codec healthy.

Lemma share_key_inj_witness : contract = contract ∧ object = object.
Proof.
  by apply (share_key_inj VersionByteContract VersionByteContract (replicate 32 "c"%char)
    (replicate 32 "c"%char)).
Defined.

(** The node of [DemoShare] with another share in the place of the first. *)
Definition store_of (sh : StoredShareDB) (k : string) (d : DB) : DB := (saveShare k sh d).2.

Lemma store_of_spec sh k d :
  usable d → (saveShare k sh d).1 = Ret None →
  usable (store_of sh k d) ∧ contents (store_of sh k d) = <[k := sh]> (contents d).
Proof.
  intros Hu Ho. unfold store_of.
  destruct (Save_spec k sh d Hu) as [(d' & Hs & Hu' & Hc)|(e & Hs)].
  - change (saveShare k sh d = (Ret None, d')) in Hs. by rewrite Hs.
  - change (saveShare k sh d = (Ret (Some e), d)) in Hs. by rewrite Hs in Ho.
Qed.

Definition short : StoredShareDB := mkShare (Some sealed.1) (Some sealed.2) (Some (bytes_of "x")).

Lemma retrieve_admitted d : admitted env retrieve_post (node d) retrieve
  (checkObjectRateLimit 0 object ∅).2.
Proof. repeat split; vm_compute; done. Qed.

Lemma retrieve_authorised : authorised env "rpc" retrieve.
Proof. exists message, (seed_key ++ message). split_and!; vm_compute; reflexivity. Qed.

Lemma bad_nonce_panics_witness :
  reply_code (handleRetrieveShare env) retrieve_post (node (store_of short key stored)) = None.
Proof.
  destruct (store_of_spec short key stored (proj1 stored_usable)) as [Hu Hc];
    [vm_compute; reflexivity|].
  destruct (ECDH_agree key_k (ToyCrypto.priv (replicate 32 "r"%char))) as (s & Hs & _ & Hl).
  eapply (bad_nonce_panics env retrieve_post (node (store_of short key stored)) retrieve);
    [exact Hu|apply retrieve_admitted|apply retrieve_authorised| | |exact Hs|exact Hl|];
    [exact (eq_trans (f_equal (lookup key) Hc) (lookup_insert_eq _ _ _))|vm_compute; reflexivity|done].
Defined.

(** A second object of the contract, stored beside the first. *)
Definition object2 : string := "0c".

Definition both : DB := store_of share (share_key contract object2) stored.

Definition retrieve2_post : Request := post "/retrieve"
  (retrieve_req_json (for_object object2 retrieve)).

Lemma credentials_not_bound_witness : ∃ n' w',
  serve (handleRetrieveShare env) retrieve2_post (node both) = (Ret tt, n', w') ∧
  final_code w' = 200 ∧ rw_body w' = Encode (retrieve_response (bytes_of "share")).
Proof.
  destruct (store_of_spec share (share_key contract object2) stored (proj1 stored_usable)) as [Hu Hc];
    [vm_compute; reflexivity|].
  apply (credentials_not_bound env retrieve_post retrieve2_post (node both) retrieve (bytes_of "share")
    object2 (bytes_of "share") share sealed.2 (checkObjectRateLimit 0 object2 ∅).2);
    [exact Hu| |done|done|vm_compute; reflexivity|vm_compute; reflexivity| |done|vm_compute; reflexivity].
  - split; [eexists; apply retrieve_admitted|]. split; [apply retrieve_authorised|].
    exists share, sealed.2. split; [|split; [done|vm_compute; reflexivity]].
    refine (eq_trans (f_equal (lookup key) Hc) _). rewrite lookup_insert_ne by (by vm_compute).
    apply stored_usable.
  - exact (eq_trans (f_equal (lookup _) Hc) (lookup_insert_eq _ _ _)).
Defined.

(** The node with a key manager, and a random source for the next key. *)
Definition km : KeyManager := mkKeyManager 0 {[0 := key_k]} 0 "d".
Definition managed : Node := set_key km key_k (node stored).

Lemma managed_wf : keys_wf managed.
Proof.
  split; [done|]. cbn [globalKeyManager managed set_key km keys currentVersion].
  split; [by rewrite lookup_singleton_eq|]. intros v. destruct (decide (v = 0)) as [->|Hv].
  - rewrite lookup_singleton_eq. split; [lia|eauto].
  - rewrite lookup_singleton_ne by done. split; [by intros []|lia].
Qed.

Lemma rotation_strands_shares_witness :
  let n' := (run_goroutine (Rotate 5 km managed).2).2 in
  reply_code (handleRetrieveShare env) retrieve_post n' = Some StatusInternalServerError ∧
  ∃ km' old, globalKeyManager n' = Some km' ∧ GetKey km' (currentVersion km) = Some old ∧
    DecryptShare old sealed.1 sealed.2 zero_nonce = Ret (Ok (bytes_of "share")).
Proof.
  eapply (rotation_strands_shares env retrieve_post managed retrieve (bytes_of "share") 5 km
    (ToyCrypto.priv (replicate 32 "n"%char)) (replicate 32 "n"%char)
    (Some sealed.1) sealed.2 (Some zero_nonce)).
  - apply stored_usable.
  - exact (retrieve_releasable).
  - apply managed_wf.
  - done.
  - done.
  - done.
  - apply stored_usable.
  - vm_compute. reflexivity.
Defined.

End DemoRelease.
