(* ===== verification/Race.v ===== *)
(** * Concurrent /store requests ([node/handlers.go])

    [net/http] runs every request in a goroutine of its own.  [handleStoreShare]
    touches the database in two transactions, a read that looks for the share
    and a write; between the two, other requests run.  This file cuts the
    handler at that point, proves that the two pieces in sequence are the
    handler, and gives the interleavings as a step relation. *)

From stdpp Require Import relations.
From S2P Require Import Prelude GoStrings Encoding Json JsonStruct Bucket Store Crypto NodeCrypto.
From S2P Require Import Http SorobanTx RateLimit FileSystem Keystore Logger Node Handlers.

Section race.
Context {C : Crypto} {B : Bolt} {R : RateLimiter} {SS : ShareStore DB}.

(** ** The handler in two pieces *)

(** What is still to be written. *)
Definition Pending : Type := StoreRequest * StoredShareDB.

Definition pending_key (p : Pending) : string := share_key (sr_ContractID p.1) (sr_ObjectID p.1).

Definition answered {S A} (m : M S unit) : M S (option A) := _ ← m; mret None.

(** Up to the write: [None] when the request has been answered. *)
Definition store_check (r : Request) : M (Node * RespWriter) (option Pending) :=
  if decide (r_Method r ≠ MethodPost) then
    answered (fail_with "Method not allowed" StatusMethodNotAllowed)
  else
  match decode_store (r_Body r) with
  | None => answered (fail_with "Invalid JSON payload" StatusBadRequest)
  | Some req =>
  if decide (sr_ObjectID req = "" ∨ sr_ContractID req = "" ∨ sr_EphemeralPubKey req = "" ∨
             sr_Ciphertext req = "" ∨ sr_Nonce req = "")
  then answered (fail_with "Missing required fields" StatusBadRequest)
  else
  try ephemBytes := Hex.DecodeString (sr_EphemeralPubKey req)
    catch err => answered (fail_with "Invalid ephemeral public key hex" StatusBadRequest) in
  try cipherBytes := Hex.DecodeString (sr_Ciphertext req)
    catch err => answered (fail_with "Invalid ciphertext hex" StatusBadRequest) in
  try nonceBytes := Hex.DecodeString (sr_Nonce req)
    catch err => answered (fail_with "Invalid nonce hex" StatusBadRequest) in
  let p := (req, mkShare (Some ephemBytes) (Some cipherBytes) (Some nonceBytes)) in
  if decide (Header_Get (r_Header r) "X-Overwrite" ≠ "true") then
    '(_, exists_, _) ← on_state (on_db (Load (pending_key p)));
    if (exists_ : bool) then
      answered (fail_with
        "conflict: share already exists for this object (use X-Overwrite: true to replace)"
        StatusConflict)
    else mret (Some p)
  else mret (Some p)
  end.

(** The write and the reply. *)
Definition store_commit (r : Request) (p : Pending) : M (Node * RespWriter) unit :=
  store_share r p.1 (pending_key p) p.2.

(** The pieces in sequence are the handler. *)
Lemma handleStoreShare_pieces r n w :
  handleStoreShare r (n, w) =
  (p ← store_check r; match p with None => mret tt | Some p => store_commit r p end) (n, w).
Proof.
  unfold handleStoreShare, store_check, answered. case_decide; [done|].
  destruct (decode_store (r_Body r)) as [req|]; [|done]. case_decide; [done|].
  destruct (Hex.DecodeString (sr_EphemeralPubKey req)) as [ek|]; [|done].
  destruct (Hex.DecodeString (sr_Ciphertext req)) as [c|]; [|done].
  destruct (Hex.DecodeString (sr_Nonce req)) as [nc|]; [|done].
  unfold pending_key, store_commit. cbn [fst snd]. case_decide; [|done].
  unfold_M. by destruct (on_state _ (n, w)) as [[[[x []] err]|] st].
Qed.

(** The check by the request's payload. *)
Lemma store_check_payload r n w :
  match store_payload r with
  | None => ∃ w', store_check r (n, w) = (Ret None, (n, w'))
  | Some p =>
      store_check r (n, w) =
      (if decide (Header_Get (r_Header r) "X-Overwrite" ≠ "true") then
         '(_, exists_, _) ← on_state (on_db (Load (pending_key p)));
         if (exists_ : bool) then
           answered (fail_with
             "conflict: share already exists for this object (use X-Overwrite: true to replace)"
             StatusConflict)
         else mret (Some p)
       else mret (Some p)) (n, w)
  end.
Proof.
  unfold store_payload, store_check. destruct (decide (r_Method r = MethodPost)) as [Hm|Hm].
  2: { rewrite decide_True by done. by eexists. }
  rewrite decide_False by tauto.
  destruct (decode_store (r_Body r)) as [req|]; cbn [mbind option_bind]; [|by eexists].
  case_decide; [by eexists|].
  destruct (Hex.DecodeString (sr_EphemeralPubKey req)) as [ek|]; cbn [res_option mbind option_bind];
    [|by eexists].
  destruct (Hex.DecodeString (sr_Ciphertext req)) as [c|]; cbn [res_option mbind option_bind];
    [|by eexists].
  by destruct (Hex.DecodeString (sr_Nonce req)) as [nc|]; cbn [res_option mbind option_bind];
    [|by eexists].
Qed.

(** ** Interleavings *)

(** A request in flight: where its goroutine is, and its response. *)
Inductive phase := Arrived | Checked (p : Pending) | Answered.

Record Thread := mkThread { t_req : Request; t_phase : phase; t_resp : RespWriter }.

Definition arrive (r : Request) : Thread := mkThread r Arrived new_resp.

(** One goroutine runs one piece.  (A piece that panics drops its
    connection.) *)
Inductive step : Node * list Thread → Node * list Thread → Prop :=
| step_answered i r w n ts n' w' :
    ts !! i = Some (mkThread r Arrived w) → store_check r (n, w) = (Ret None, (n', w')) →
    step (n, ts) (n', <[i := mkThread r Answered w']> ts)
| step_checked i r w n ts n' w' p :
    ts !! i = Some (mkThread r Arrived w) → store_check r (n, w) = (Ret (Some p), (n', w')) →
    step (n, ts) (n', <[i := mkThread r (Checked p) w']> ts)
| step_committed i r w n ts n' w' p :
    ts !! i = Some (mkThread r (Checked p) w) → store_commit r p (n, w) = (Ret tt, (n', w')) →
    step (n, ts) (n', <[i := mkThread r Answered w']> ts).

Context {SL : ShareStoreLaws DB}.

(** What the check does: it never changes the node, and goes on to write [p]
    only if [p] is the request's share and, unless the request overwrites, no
    such share is there. *)
Lemma store_check_spec r n w :
  usable (db n) → rw_code w = None →
  ∃ w' o, store_check r (n, w) = (Ret o, (n, w')) ∧
  match o with
  | None => True
  | Some p => store_payload r = Some p ∧ w' = w ∧
      (overwrite_requested r ∨ ¬ is_Some (contents (db n) !! pending_key p ≫= Ciphertext))
  end.
Proof.
  intros Hu Hw. unfold overwrite_requested.
  pose proof (store_check_payload r n w) as Hp.
  destruct (store_payload r) as [p|]; [|by destruct Hp as [w' ->]; do 2 eexists].
  rewrite Hp. clear Hp. case_decide as Ho; [|do 2 eexists; do 3 (split; [done|]); by left].
  rewrite (bind_on_state _ _ _ _ _ _ (on_db_eq _ _ _ _ (Load_spec _ _ Hu))), set_db_id.
  destruct (contents (db n) !! pending_key p) as [sh|] eqn:Ek; cbn [load_result].
  - destruct (decide (is_Some (Ciphertext sh))) as [Hs|Hs];
      [rewrite bool_decide_eq_true_2 by done|rewrite bool_decide_eq_false_2 by done].
    + by do 2 eexists.
    + do 2 eexists. do 3 (split; [done|]). right. by rewrite Ek.
  - do 2 eexists. split; [done|]. split; [done|]. split; [done|]. right. rewrite Ek. by intros [].
Qed.

Lemma store_commit_spec r p n w :
  usable (db n) → rw_code w = None →
  ∃ n' w', store_commit r p (n, w) = (Ret tt, (n', w')) ∧ usable (db n') ∧
    ((final_code w' = 200 ∧ contents (db n') = <[pending_key p := p.2]> (contents (db n))) ∨
     (final_code w' = 500 ∧ db n' = db n)).
Proof. apply store_share_spec. Qed.

(** ** What interleaving does and does not break *)

(** A request in flight that can not replace the share under [k]: it does not
    ask to overwrite, and has not already found [k] free. *)
Definition harmless (k : string) (t : Thread) : Prop :=
  ¬ overwrite_requested (t_req t) ∧
  match t_phase t with
  | Arrived => rw_code (t_resp t) = None
  | Checked p => rw_code (t_resp t) = None ∧ pending_key p ≠ k
  | Answered => True
  end.

Definition protected_ (k : string) (sh : StoredShareDB) (st : Node * list Thread) : Prop :=
  usable (db st.1) ∧ contents (db st.1) !! k = Some sh ∧ Forall (harmless k) st.2.

Lemma step_protected k sh st st' :
  is_Some (Ciphertext sh) → step st st' → protected_ k sh st → protected_ k sh st'.
Proof.
  intros Hs Hst (Hu & Hk & Hf).
  destruct Hst as [i r w n ts n' w' Hi Hc|i r w n ts n' w' p Hi Hc|i r w n ts n' w' p Hi Hc];
    cbn [fst snd] in *; pose proof (Forall_lookup_1 _ _ _ _ Hf Hi) as [Ho Hw]; cbn in Ho, Hw.
  - destruct (store_check_spec r n w Hu Hw) as (w1 & o & Heq & _). rewrite Hc in Heq.
    injection Heq as <- <- <-. split; [done|]. split; [done|]. by apply Forall_insert.
  - destruct (store_check_spec r n w Hu Hw) as (w1 & o & Heq & H). rewrite Hc in Heq.
    injection Heq as <- <- <-. destruct H as (_ & -> & [?|Hn]); [done|].
    split; [done|]. split; [done|]. apply Forall_insert; [done|]. split; [done|]. split; [done|].
    intros Hpk. apply Hn. by rewrite Hpk, Hk.
  - destruct Hw as [Hw Hne]. destruct (store_commit_spec r p n w Hu Hw) as (n1 & w1 & Heq & Hu' & H).
    rewrite Hc in Heq. injection Heq as <- <-. split; [done|]. split; [|by apply Forall_insert].
    cbn [fst snd] in *. destruct H as [[_ ->]|[_ ->]]; [|done]. by rewrite lookup_insert_ne.
Qed.

(** C9: a share that is there stays.  However the /store requests in flight are
    interleaved, a stored share is never replaced, as long as none of them asks
    to overwrite and none had already looked for that share before it was
    stored. *)
Theorem stored_share_stays k sh n ts n' ts' :
  usable (db n) → contents (db n) !! k = Some sh → is_Some (Ciphertext sh) →
  Forall (harmless k) ts → rtc step (n, ts) (n', ts') →
  contents (db n') !! k = Some sh.
Proof.
  intros Hu Hk Hs Hf Hr.
  assert (protected_ k sh (n', ts')) as (_ & ? & _); [|done].
  assert (protected_ k sh (n, ts)) as H by done. revert H. remember (n, ts) as st eqn:E.
  remember (n', ts') as st' eqn:E'. clear E E'. induction Hr as [|x y z Hxy _ IH]; [done|].
  intros Hx. apply IH. by eapply step_protected.
Qed.

Lemma check_passes r n w p :
  usable (db n) → rw_code w = None → store_payload r = Some p →
  contents (db n) !! pending_key p = None →
  store_check r (n, w) = (Ret (Some p), (n, w)).
Proof.
  intros Hu Hw Hp Hk. pose proof (store_check_payload r n w) as Hc. rewrite Hp in Hc.
  rewrite Hc. case_decide; [|done].
  rewrite (bind_on_state _ _ _ _ _ _ (on_db_eq _ _ _ _ (Load_spec _ _ Hu))), set_db_id.
  by rewrite Hk.
Qed.

Lemma commit_writes r p n w :
  usable (db n) → rw_code w = None → (∀ d, usable d → (Save (pending_key p) p.2 d).1 = Ret None) →
  ∃ n' w', store_commit r p (n, w) = (Ret tt, (n', w')) ∧ usable (db n') ∧ final_code w' = 200 ∧
    contents (db n') = <[pending_key p := p.2]> (contents (db n)).
Proof.
  intros Hu Hw Hs. unfold store_commit, store_share. pose proof (Hs _ Hu) as Ho.
  destruct (Save_spec (pending_key p) p.2 (db n) Hu) as [(d & E & Hu' & Hc)|(err & E)];
    [|by rewrite E in Ho].
  rewrite (bind_on_state _ _ _ _ _ _ (on_db_eq _ _ _ _ E)).
  unfold logStoreOutcome. rewrite (bind_on_state _ _ _ _ _ _ (log_eq _ _ _ _ _)), bind_on_resp.
  do 2 eexists. split; [done|]. split; [done|]. split; [|done].
  unfold final_code, encode_json, on_resp, modify, Write, WriteHeader, send_header. cbn.
  by rewrite Hw.
Qed.

(** C20: write-once does not hold under concurrency.  Two requests that store
    different shares under one free key, neither asking to overwrite, can be
    interleaved so that both are answered 200 and the first share is gone. *)
Theorem store_race r1 r2 p1 p2 n :
  usable (db n) → store_payload r1 = Some p1 → store_payload r2 = Some p2 →
  pending_key p1 = pending_key p2 → contents (db n) !! pending_key p1 = None →
  (∀ sh d, usable d → (Save (pending_key p1) sh d).1 = Ret None) →
  ∃ n' w1 w2, rtc step (n, [arrive r1; arrive r2])
      (n', [mkThread r1 Answered w1; mkThread r2 Answered w2]) ∧
    final_code w1 = 200 ∧ final_code w2 = 200 ∧
    contents (db n') !! pending_key p1 = Some p2.2.
Proof.
  intros Hu H1 H2 Heq Hk Hs.
  assert (store_check r1 (n, new_resp) = (Ret (Some p1), (n, new_resp))) as C1 by (by apply check_passes).
  assert (store_check r2 (n, new_resp) = (Ret (Some p2), (n, new_resp))) as C2
    by (apply check_passes; [done..|by rewrite <- Heq]).
  destruct (commit_writes r1 p1 n new_resp Hu eq_refl) as (n1 & w1 & D1 & Hu1 & F1 & _);
    [by intros; apply Hs|].
  destruct (commit_writes r2 p2 n1 new_resp Hu1 eq_refl) as (n2 & w2 & D2 & Hu2 & F2 & Hc);
    [rewrite <- Heq; by intros; apply Hs|].
  exists n2, w1, w2. split; [|split; [done|]; split; [done|]; by rewrite Hc, Heq, lookup_insert_eq].
  eapply rtc_l; [by eapply (step_checked 0)|]. eapply rtc_l; [by eapply (step_checked 1)|].
  eapply rtc_l; [by eapply (step_committed 0)|]. eapply rtc_l; [by eapply (step_committed 1)|].
  apply rtc_refl.
Qed.

End race.

(** ** Runs *)

Module DemoRace.

Import DemoShare.

(** A second share for the object of [store_post]. *)
Definition other_share : StoredShareDB :=
  mkShare (Some sealed.1) (Some (bytes_of "other")) (Some zero_nonce).
Definition other_post : Request := post "/store"
  (JObj [("object_id", JStr object); ("contract_id", JStr contract);
         ("ephemeral_pubkey", JStr (Hex.EncodeToString sealed.1));
         ("ciphertext", JStr (Hex.EncodeToString (bytes_of "other")));
         ("nonce", JStr (Hex.EncodeToString zero_nonce))]).

Definition payload (r : Request) : Pending :=
  match store_payload r with Some p => p | None => (mkStoreReq "" "" "" "" "", zero_share) end.

Lemma Save_succeeds k sh (d : DB) :
  k ≠ "" → slen k ≤ 32768 → usable d → (Save k sh d).1 = Ret None.
Proof.
  intros Hk Hl. destruct d as [m|]; [|done]. intros [Hb _]. cbn in Hb |- *.
  unfold saveShare, with_bucket. cbn. rewrite Hb. apply bool_decide_eq_true_1 in Hb as [x Hx].
  unfold GmapBolt.put. rewrite Hx. rewrite decide_False by done.
  rewrite (proj2 (Z.ltb_ge _ _)) by done. done.
Qed.

Lemma stored_share_stays_witness : ∃ n' ts',
  rtc step (node stored, [arrive store_post]) (n', ts') ∧ contents (db n') !! key = Some share.
Proof.
  destruct (store_check_spec store_post (node stored) new_resp (proj1 stored_usable) eq_refl)
    as (w' & o & Ho & _).
  assert (∃ ts', step (node stored, [arrive store_post]) (node stored, ts')) as [ts' Hs].
  { destruct o; eexists; [by eapply (step_checked 0)|by eapply (step_answered 0)]. }
  exists (node stored), ts'. split; [by apply rtc_once|].
  apply (stored_share_stays key share (node stored) [arrive store_post] (node stored) ts');
    [apply stored_usable|apply stored_usable|by eexists| |by apply rtc_once].
  repeat constructor. by vm_compute.
Defined.

Lemma store_race_witness : ∃ n' w1 w2,
  rtc step (node fresh_db, [arrive store_post; arrive other_post])
    (n', [mkThread store_post Answered w1; mkThread other_post Answered w2]) ∧
  final_code w1 = 200 ∧ final_code w2 = 200 ∧
  contents (db n') !! pending_key (payload store_post) = Some (payload other_post).2.
Proof.
  apply (store_race store_post other_post (payload store_post) (payload other_post));
    [exact fresh_usable|vm_compute; reflexivity..|].
  intros sh d Hd. apply Save_succeeds; [by vm_compute|by vm_compute|exact Hd].
Defined.

End DemoRace.
