(* ===== verification/Config.v ===== *)
(** * Configuration ([node/config.go], [node/tls.go])

    The settings read from the environment, their validation, and what is
    computed from them in fixed-width integers. *)

From S2P Require Import Prelude GoStrings RateLimit.

Section config.
Context {R : RateLimiter}.

Record Config := mkConfig {
  Port : string;
  DataDir : string;
  SorobanRPCURL : string;
  StoreAPIKey : string;
  LogLevel : string;
  TLSMode : string;
  TLSCert : string;
  TLSKey : string;
  Domain : string;
  ACMECacheDir : string;
  RateLimit : float64;
  RateBurst : Z;
  MetricsAPIKey : string;
  TimeoutSecs : Z;
  MaxBodySizeMB : Z;
  HealthCheckPath : string;
  Peers : list string;
}.

Section getenv.
(** [os.Getenv]: an unset variable reads as the empty string. *)
Context (Getenv : string → string).

Definition getEnv (key fallback : string) : string :=
  let v := Getenv key in if decide (v ≠ "") then v else fallback.

Definition getEnvFloat (key : string) (fallback : float64) : float64 :=
  let v := Getenv key in
  if decide (v ≠ "") then
    match strconv_ParseFloat v with Some f => f | None => fallback end
  else fallback.

Definition getEnvInt (key : string) (fallback : Z) : Z :=
  let v := Getenv key in
  if decide (v ≠ "") then
    match Atoi v with Some i => i | None => fallback end
  else fallback.

(** [LoadConfig]; [Peers] is not set. *)
Definition LoadConfig : Config := {|
  Port := getEnv "PORT" "8080";
  DataDir := getEnv "DATA_DIR" "./data";
  SorobanRPCURL := getEnv "SOROBAN_RPC_URL" "https://soroban-testnet.stellar.org:443";
  StoreAPIKey := getEnv "STORE_API_KEY" "";
  LogLevel := getEnv "LOG_LEVEL" "info";
  TLSMode := getEnv "TLS_MODE" "off";
  TLSCert := getEnv "TLS_CERT" "";
  TLSKey := getEnv "TLS_KEY" "";
  Domain := getEnv "DOMAIN" "";
  ACMECacheDir := getEnv "ACME_CACHE_DIR" "./data/acme";
  RateLimit := getEnvFloat "RATE_LIMIT" (float64_of_Z 10);
  RateBurst := getEnvInt "RATE_BURST" 20;
  MetricsAPIKey := getEnv "METRICS_API_KEY" "";
  TimeoutSecs := getEnvInt "TIMEOUT_SECONDS" 30;
  MaxBodySizeMB := int64 (getEnvInt "MAX_BODY_SIZE_MB" 10);
  HealthCheckPath := getEnv "HEALTH_CHECK_PATH" "/health";
  Peers := [];
|}.

End getenv.

(** The errors of [Validate], one for each return. *)
Inductive config_error :=
| EmptyDataDir
| EmptyRPCURL
| AutoNeedsDomain
| ManualNeedsCert
| BadTLSMode (mode : string).

#[export] Instance config_error_eq_dec : EqDecision config_error.
Proof. solve_decision. Defined.

Definition Validate (c : Config) : option config_error :=
  if decide (DataDir c = "") then Some EmptyDataDir
  else if decide (SorobanRPCURL c = "") then Some EmptyRPCURL
  else if decide (TLSMode c = "off") then None
  else if decide (TLSMode c = "auto") then
    if decide (Domain c = "") then Some AutoNeedsDomain else None
  else if decide (TLSMode c = "manual") then
    if decide (TLSCert c = "" ∨ TLSKey c = "") then Some ManualNeedsCert else None
  else Some (BadTLSMode (TLSMode c)).

Definition RateLimiterConfig (c : Config) : float64 * Z := (RateLimit c, RateBurst c).
Definition StoreAuthRequired (c : Config) : bool := bool_decide (StoreAPIKey c ≠ "").
Definition ACMEEnabled (c : Config) : bool := bool_decide (TLSMode c = "auto").

(** [time.Second], in nanoseconds. *)
Definition Second : Z := 10 ^ 9.

Definition ReadTimeout (c : Config) : Z := int64 (int64 (TimeoutSecs c) * Second).
Definition WriteTimeout (c : Config) : Z := int64 (int64 (TimeoutSecs c) * Second).

(** The cap on request bodies: [cfg.MaxBodySizeMB * 1024 * 1024]. *)
Definition maxBodyBytes (c : Config) : Z := int64 (int64 (MaxBodySizeMB c * 1024) * 1024).

(** [node/tls.go]. *)
Definition tlsModeDescription (mode : string) : string :=
  if decide (mode = "auto") then "Let's Encrypt automatic certificate"
  else if decide (mode = "manual") then "manual certificate from file"
  else "plaintext HTTP (no TLS)".

Definition minTLSVersionName : string := "TLS 1.3".

Definition hstsValue : string := "max-age=63072000; includeSubDomains; preload".

Definition TLSConfigSummary (c : Config) : string :=
  "mode=" +:+ TLSMode c +:+ " domain=" +:+ Domain c +:+ " cert=" +:+ TLSCert c.

(** ** Properties *)

Lemma getEnv_nonempty g k d : d ≠ "" → getEnv g k d ≠ "".
Proof. intros Hd. unfold getEnv. by case_decide. Qed.

Lemma getEnvInt_range g k d : in_int64 d → in_int64 (getEnvInt g k d).
Proof.
  intros Hd. unfold getEnvInt. case_decide; [|done].
  destruct (Atoi (g k)) as [z|] eqn:E; [by eapply Atoi_range|done].
Qed.

Lemma Validate_None c :
  Validate c = None ↔
  DataDir c ≠ "" ∧ SorobanRPCURL c ≠ "" ∧
  (TLSMode c = "off" ∨ (TLSMode c = "auto" ∧ Domain c ≠ "") ∨
   (TLSMode c = "manual" ∧ TLSCert c ≠ "" ∧ TLSKey c ≠ "")).
Proof.
  unfold Validate. destruct (decide (DataDir c = "")) as [|H1]; [split; [done|tauto]|].
  destruct (decide (SorobanRPCURL c = "")) as [|H2]; [split; [done|tauto]|].
  destruct (decide (TLSMode c = "off")) as [->|H3]; [split; tauto|].
  destruct (decide (TLSMode c = "auto")) as [->|H4].
  { destruct (decide (Domain c = "")); (split; [|]); try done; try tauto.
    by intros (_ & _ & [?|[[_ ?]|[? _]]]). }
  destruct (decide (TLSMode c = "manual")) as [->|H5].
  { destruct (decide (_ ∨ _)) as [Hk|Hk]; (split; [|]); try done; [|tauto].
    by intros (_ & _ & [?|[[? _]|[_ [??]]]]); destruct Hk. }
  split; [done|tauto].
Qed.

(** of the configurations [LoadConfig] can produce, [Validate] accepts
    exactly those with a usable TLS setting; the data directory and the RPC URL
    are never empty, so that their checks never fail. *)
Theorem LoadConfig_Validate g :
  Validate (LoadConfig g) = None ↔
  g "TLS_MODE" = "" ∨ g "TLS_MODE" = "off" ∨ (g "TLS_MODE" = "auto" ∧ g "DOMAIN" ≠ "") ∨
  (g "TLS_MODE" = "manual" ∧ g "TLS_CERT" ≠ "" ∧ g "TLS_KEY" ≠ "").
Proof.
  rewrite Validate_None. cbn [LoadConfig DataDir SorobanRPCURL TLSMode Domain TLSCert TLSKey].
  assert (getEnv g "DATA_DIR" "./data" ≠ "") by by apply getEnv_nonempty.
  assert (getEnv g "SOROBAN_RPC_URL" "https://soroban-testnet.stellar.org:443" ≠ "")
    by by apply getEnv_nonempty.
  assert (∀ k, getEnv g k "" = g k) as Hg.
  { intros k. unfold getEnv. by case_decide. }
  rewrite !Hg. destruct (decide (g "TLS_MODE" = "")) as [Hm|Hm].
  - assert (getEnv g "TLS_MODE" "off" = "off") as -> by (unfold getEnv; by rewrite Hm). tauto.
  - assert (getEnv g "TLS_MODE" "off" = g "TLS_MODE") as ->
      by (unfold getEnv; by rewrite decide_True). tauto.
Qed.

(** the server's timeouts are the configured seconds exactly when the
    product fits 63 bits, that is up to 9223372036 seconds; the next value wraps
    round to a negative duration. *)
Theorem ReadTimeout_exact c :
  in_int64 (TimeoutSecs c) →
  (ReadTimeout c = TimeoutSecs c * Second ↔ -9223372036 ≤ TimeoutSecs c ≤ 9223372036) ∧
  (TimeoutSecs c = 9223372037 → ReadTimeout c < 0).
Proof.
  intros Hc. unfold ReadTimeout. rewrite (int64_id (TimeoutSecs c)) by done. split; [split|].
  - intros H. pose proof (int64_range (TimeoutSecs c * Second)) as Hr. rewrite H in Hr.
    unfold in_int64, Second in Hr. lia.
  - intros H. apply int64_id. unfold in_int64, Second. lia.
  - intros ->. by vm_compute.
Qed.

(** the body cap is the configured number of mebibytes exactly when that
    is below 2^43; 2^43 itself wraps round to a negative cap, under which every
    body is empty. *)
Theorem maxBodyBytes_exact c :
  in_int64 (MaxBodySizeMB c) →
  (maxBodyBytes c = MaxBodySizeMB c * 2 ^ 20 ↔ -2 ^ 43 ≤ MaxBodySizeMB c < 2 ^ 43) ∧
  (MaxBodySizeMB c = 2 ^ 43 → maxBodyBytes c < 0).
Proof.
  intros Hc. unfold maxBodyBytes. split; [split|].
  - intros H. pose proof (int64_range (int64 (MaxBodySizeMB c * 1024) * 1024)) as Hr. rewrite H in Hr.
    unfold in_int64 in Hr. lia.
  - intros H. rewrite (int64_id (MaxBodySizeMB c * 1024)) by (unfold in_int64; lia).
    rewrite int64_id by (unfold in_int64; lia). lia.
  - intros ->. by vm_compute.
Qed.

End config.

(** ** Runs *)

#[local] Existing Instances ToyRate.limiter_impl.

(** The defaults, with the two numbers given. *)
Definition sized (TimeoutSecs MaxBodySizeMB : Z) : Config :=
  mkConfig "8080" "./data" "rpc" "" "info" "off" "" "" "" "" (float64_of_Z 10) 20 "" TimeoutSecs
    MaxBodySizeMB "/health" [].

Lemma ReadTimeout_exact_witness :
  (ReadTimeout (sized 9223372037 10) = 9223372037 * Second ↔ -9223372036 ≤ 9223372037 ≤ 9223372036) ∧
  (9223372037 = 9223372037 → ReadTimeout (sized 9223372037 10) < 0).
Proof. apply (ReadTimeout_exact (sized 9223372037 10)). by vm_compute. Defined.

Lemma maxBodyBytes_exact_witness :
  (maxBodyBytes (sized 30 (2 ^ 43)) = 2 ^ 43 * 2 ^ 20 ↔ -2 ^ 43 ≤ 2 ^ 43 < 2 ^ 43) ∧
  (2 ^ 43 = 2 ^ 43 → maxBodyBytes (sized 30 (2 ^ 43)) < 0).
Proof. apply (maxBodyBytes_exact (sized 30 (2 ^ 43))). by vm_compute. Defined.
