(* ===== verification/Pattern.v ===== *)
(** * Route patterns ([net/http], Go 1.25)

    The patterns [ServeMux.Handle] takes: an optional method, an optional host
    and a path whose segments are literals or wildcards; how a pattern is
    parsed, and when two patterns conflict.  The error texts are without the
    offset Go puts before them. *)

From S2P Require Import Prelude GoStrings Encoding Json.

(** ** Paths *)

(** [path.Clean] on a rooted path, element by element; the stack holds the
    elements kept, last first. *)
Fixpoint clean_elements (l : list string) (stack : list string) : list string :=
  match l with
  | [] => reverse stack
  | x :: l =>
      if decide (x = "" ∨ x = ".") then clean_elements l stack
      else if decide (x = "..") then clean_elements l (tail stack)
      else clean_elements l (x :: stack)
  end.

Definition path_Clean (p : string) : string :=
  match clean_elements (Split p "/") [] with
  | [] => "/"
  | l => foldr (λ x acc, "/" +:+ x +:+ acc) "" l
  end.

Definition ends_with (c : byte) (p : string) : bool :=
  match last (bytes_of p) with Some x => bool_decide (x = c) | None => false end.

Definition starts_with (pre p : string) : bool := bool_decide (bytes_of pre `prefix_of` bytes_of p).

(** [net/http]'s [cleanPath]: a trailing slash is kept. *)
Definition cleanPath (p : string) : string :=
  if decide (p = "") then "/" else
  let p := if starts_with "/" p then p else "/" +:+ p in
  let np := path_Clean p in
  if ends_with "/" p && bool_decide (np ≠ "/") then np +:+ "/" else np.

(** [url.PathUnescape], which fails on a malformed escape. *)
Fixpoint PathUnescape (s : string) : option string :=
  match s with
  | "" => Some ""
  | String c r =>
      if decide (c = "%"%char) then
        match r with
        | String a (String b r') =>
            x ← Hex.fromHexChar a; y ← Hex.fromHexChar b;
            String (chr (16 * x + y)) <$> PathUnescape r'
        | _ => None
        end
      else String c <$> PathUnescape r
  end.

(** [net/http]'s [pathUnescape]. *)
Definition pathUnescape (s : string) : string := default s (PathUnescape s).

(** ** Names *)

(** The tables of package [unicode], on the runes beyond ASCII, each given by
    its UTF-8 encoding. *)
Class Unicode := {
  unicode_IsLetter : string → bool;
  unicode_IsDigit : string → bool;
}.

Definition in_range (lo c hi : byte) : bool := between (ord lo) (ord c) (ord hi).
Definition ascii_letter (c : byte) : bool := in_range "a" c "z" || in_range "A" c "Z".
Definition ascii_digit (c : byte) : bool := in_range "0" c "9".

(** The characters of an HTTP token. *)
Definition token_char (c : byte) : bool :=
  ascii_letter c || ascii_digit c || contains c "!#$%&'*+-.^_`|~".

Definition validMethod (s : string) : bool :=
  bool_decide (s ≠ "") && forallb token_char (bytes_of s).

Section names.
Context {U : Unicode}.

Definition IsLetter (ch : string) : bool :=
  match ch with String c "" => ascii_letter c | _ => unicode_IsLetter ch end.
Definition IsDigit (ch : string) : bool :=
  match ch with String c "" => ascii_digit c | _ => unicode_IsDigit ch end.

(** A Go identifier; a byte that starts no rune reads as U+FFFD, which is no
    letter.  The fuel bounds the runes. *)
Fixpoint identifier (fuel : nat) (first : bool) (s : string) : bool :=
  match s, fuel with
  | "", _ => true
  | _, O => false
  | _, S n =>
      match utf8_next s with
      | None => false
      | Some (ch, r) =>
          (IsLetter ch || bool_decide (ch = "_") || (negb first && IsDigit ch)) && identifier n false r
      end
  end.

Definition isValidWildcardName (s : string) : bool :=
  bool_decide (s ≠ "") && identifier (String.length s) true s.

(** ** Parsing *)

(** A segment of a path: a literal, or a wildcard that stands for one segment,
    or for all that is left.  The literal [/] is the end of a path with a
    trailing slash. *)
Record segment := mkSegment { seg_s : string; seg_wild : bool; seg_multi : bool }.

#[export] Instance segment_eq_dec : EqDecision segment.
Proof. solve_decision. Defined.

Definition literal (s : string) : segment := mkSegment s false false.
Definition wildcard (s : string) : segment := mkSegment s true false.
Definition multi (s : string) : segment := mkSegment s true true.

Record pattern := mkPattern {
  pat_str : string;
  pat_method : string;
  pat_host : string;
  pat_segments : list segment;
}.

(** What is between the first and the last byte. *)
Definition inner (s : string) : string := string_of (removelast (tail (bytes_of s))).

(** [strings.CutSuffix]. *)
Definition CutSuffix (s suf : string) : string * bool :=
  let n := (String.length s - String.length suf)%nat in
  if decide (String.length suf ≤ String.length s ∧ drop n (bytes_of s) = bytes_of suf)%nat
  then (string_of (take n (bytes_of s)), true) else (s, false).

(** The segments of a path, split at its slashes, the first of which is left
    out; [seen] are the names of the wildcards so far. *)
Fixpoint parse_segments (seen : list string) (l : list string) : res error (list segment) :=
  match l with
  | [] => Ok []
  | seg :: rest =>
      if decide (seg = "" ∧ rest = []) then Ok [multi ""]
      else if negb (contains "{" seg) then
        segs ← parse_segments seen rest; Ok (literal (pathUnescape seg) :: segs)
      else if negb (starts_with "{" seg) then Err "bad wildcard segment (must start with '{')"
      else if negb (ends_with "}" seg) then Err "bad wildcard segment (must end with '}')"
      else if decide (inner seg = "$") then
        if decide (rest ≠ []) then Err "{$} not at end" else Ok [literal "/"]
      else
        let '(name, m) := CutSuffix (inner seg) "..." in
        if m && bool_decide (rest ≠ []) then Err "{...} wildcard not at end"
        else if decide (name = "") then Err "empty wildcard"
        else if negb (isValidWildcardName name) then Err ("bad wildcard name " +:+ name)
        else if decide (name ∈ seen) then Err ("duplicate wildcard name " +:+ name)
        else segs ← parse_segments (name :: seen) rest; Ok (mkSegment name true m :: segs)
  end.

(** What is before and after the first byte that satisfies [f]. *)
Fixpoint cut (f : byte → bool) (s : string) : option (string * string) :=
  match s with
  | "" => None
  | String c r => if f c then Some ("", r) else '(a, b) ← cut f r; Some (String c a, b)
  end.

Definition is_blank (c : byte) : bool := bool_decide (c = " "%char) || bool_decide (c = "009"%char).

(** [strings.TrimLeft(s, " \t")]. *)
Fixpoint trim_blanks (s : string) : string :=
  match s with String c r => if is_blank c then trim_blanks r else s | "" => "" end.

Definition parsePattern (s : string) : res error pattern :=
  let '(method, rest) :=
    match cut is_blank s with Some (m, r) => (m, trim_blanks r) | None => ("", s) end in
  if bool_decide (method ≠ "") && negb (validMethod method) then Err ("invalid method " +:+ method)
  else
  match cut (λ c, bool_decide (c = "/"%char)) rest with
  | None => Err "host/path missing /"
  | Some (host, path) =>
      if contains "{" host then Err "host contains '{' (missing initial '/'?)"
      else if bool_decide (method ≠ "") && bool_decide (method ≠ "CONNECT") &&
              bool_decide ("/" +:+ path ≠ cleanPath ("/" +:+ path))
      then Err "non-CONNECT pattern with unclean path can never match"
      else segs ← parse_segments [] (Split path "/"); Ok (mkPattern s method host segs)
  end.

End names.

(** [p.lastSegment().multi]. *)
Definition last_multi (p : pattern) : bool :=
  match last (pat_segments p) with Some s => seg_multi s | None => false end.

(** ** Conflicts

    How the requests two patterns match are related. *)

Inductive relationship := equivalent | moreGeneral | moreSpecific | disjoint | overlaps.

#[export] Instance relationship_eq_dec : EqDecision relationship.
Proof. solve_decision. Defined.

Definition inverseRelationship (r : relationship) : relationship :=
  match r with moreSpecific => moreGeneral | moreGeneral => moreSpecific | _ => r end.

Definition combineRelationships (r1 r2 : relationship) : relationship :=
  match r1 with
  | equivalent => r2
  | disjoint => disjoint
  | overlaps => if decide (r2 = disjoint) then disjoint else overlaps
  | moreGeneral | moreSpecific =>
      if decide (r2 = equivalent) then r1
      else if decide (r2 = inverseRelationship r1) then overlaps
      else r2
  end.

Definition compareMethods (m1 m2 : string) : relationship :=
  if decide (m1 = m2) then equivalent
  else if decide (m1 = "") then moreGeneral
  else if decide (m2 = "") then moreSpecific
  else if decide (m1 = "GET" ∧ m2 = "HEAD") then moreGeneral
  else if decide (m2 = "GET" ∧ m1 = "HEAD") then moreSpecific
  else disjoint.

Definition compareSegments (s1 s2 : segment) : relationship :=
  if seg_multi s1 && seg_multi s2 then equivalent
  else if seg_multi s1 then moreGeneral
  else if seg_multi s2 then moreSpecific
  else if seg_wild s1 && seg_wild s2 then equivalent
  else if seg_wild s1 then if decide (seg_s s2 = "/") then disjoint else moreGeneral
  else if seg_wild s2 then if decide (seg_s s1 = "/") then disjoint else moreSpecific
  else if decide (seg_s s1 = seg_s s2) then equivalent else disjoint.

(** The loop of [comparePaths] over corresponding segments, and what it
    concludes from those that are left over. *)
Fixpoint compare_segments (multi1 multi2 : bool) (rel : relationship) (l1 l2 : list segment) :
    relationship :=
  match l1, l2 with
  | s1 :: l1, s2 :: l2 =>
      let rel := combineRelationships rel (compareSegments s1 s2) in
      if decide (rel = disjoint) then disjoint else compare_segments multi1 multi2 rel l1 l2
  | [], [] => rel
  | [], _ => if multi1 then combineRelationships rel moreGeneral else disjoint
  | _, [] => if multi2 then combineRelationships rel moreSpecific else disjoint
  end.

Definition comparePaths (p1 p2 : pattern) : relationship :=
  if bool_decide (length (pat_segments p1) ≠ length (pat_segments p2)) &&
     negb (last_multi p1) && negb (last_multi p2) then disjoint
  else compare_segments (last_multi p1) (last_multi p2) equivalent (pat_segments p1) (pat_segments p2).

Definition comparePathsAndMethods (p1 p2 : pattern) : relationship :=
  let mrel := compareMethods (pat_method p1) (pat_method p2) in
  if decide (mrel = disjoint) then disjoint else combineRelationships mrel (comparePaths p1 p2).

Definition conflictsWith (p1 p2 : pattern) : bool :=
  bool_decide (pat_host p1 = pat_host p2) &&
  let rel := comparePathsAndMethods p1 p2 in
  (bool_decide (rel = equivalent) || bool_decide (rel = overlaps)).

(** ** Properties *)

Definition slash : byte → bool := λ c, bool_decide (c = "/"%char).

Lemma cut_first f c s : f c = true → cut f (String c s) = Some ("", s).
Proof. intros Hc. cbn. by rewrite Hc. Qed.

Lemma cut_None f s : cut f s = None ↔ Forall (λ c, f c = false) (bytes_of s).
Proof.
  induction s as [|c s IH]; cbn; [done|]. rewrite Forall_cons. destruct (f c); [naive_solver|].
  destruct (cut f s) as [[a b]|]; cbn; naive_solver.
Qed.

Section parsing.
Context {U : Unicode}.

Lemma parse_segments_nonempty seen l segs :
  l ≠ [] → parse_segments seen l = Ok segs → segs ≠ [].
Proof.
  destruct l as [|seg rest]; [done|]. intros _. cbn [parse_segments].
  case_decide; [by intros [= <-]|]. destruct (negb _); cbn.
  { destruct (parse_segments seen rest); [by intros [= <-]|done]. }
  destruct (negb _); [done|]. destruct (negb _); [done|].
  case_decide. { case_decide; [done|by intros [= <-]]. }
  destruct (CutSuffix _ _) as [name m]. destruct (_ && _); [done|]. case_decide; [done|].
  destruct (negb _); [done|]. case_decide; [done|].
  destruct (parse_segments (name :: seen) rest); [by intros [= <-]|done].
Qed.

Lemma parsePattern_nonempty s p : parsePattern s = Ok p → pat_segments p ≠ [].
Proof.
  unfold parsePattern. destruct (match cut is_blank s with Some _ => _ | None => _ end) as [m r].
  destruct (_ && _); [done|]. destruct (cut _ r) as [[host path]|]; [|done].
  destruct (contains _ _); [done|]. destruct (_ && _ && _); [done|].
  destruct (parse_segments [] (Split path "/")) as [segs|] eqn:E; [|done]. intros [= <-]. cbn.
  eapply parse_segments_nonempty; [|done]. unfold Split. by destruct (split_on _ _).
Qed.

(** A pattern that starts with a slash has neither method nor host. *)
Lemma parsePattern_rooted s p :
  starts_with "/" s = true → parsePattern s = Ok p → pat_method p = "" ∧ pat_host p = "".
Proof.
  unfold starts_with. intros Hs%bool_decide_eq_true. destruct s as [|c s]; [by apply prefix_nil_inv in Hs|].
  cbn in Hs. apply prefix_cons_inv_1 in Hs as <-. unfold parsePattern. cbn [cut].
  change (is_blank "/"%char) with false. cbn [mbind option_bind].
  destruct (cut is_blank s) as [[a b]|]; cbn [mbind option_bind].
  { rewrite bool_decide_eq_true_2 by done. replace (validMethod (String "/" a)) with false; [done|].
    unfold validMethod. by rewrite bool_decide_eq_true_2. }
  change (bool_decide ("" ≠ "")) with false. cbn [andb]. rewrite cut_first by done. cbn [contains andb].
  destruct (parse_segments [] (Split s "/")); [|done]. cbn. by intros [= <-].
Qed.

(** ** Plain paths

    A path with neither blanks nor wildcards nor escapes. *)
Definition plain_char (c : byte) : bool :=
  negb (is_blank c) && negb (bool_decide (c = "{"%char)) && negb (bool_decide (c = "%"%char)).
Definition plain_path (s : string) : Prop :=
  starts_with "/" s = true ∧ Forall (λ c, plain_char c = true) (bytes_of s).

(** The segments of such a path. *)
Fixpoint plain_segments (l : list string) : list segment :=
  match l with
  | [] => []
  | seg :: rest => if decide (seg = "" ∧ rest = []) then [multi ""] else literal seg :: plain_segments rest
  end.

Lemma split_on_Forall (P : byte → Prop) c s :
  Forall P (bytes_of s) →
  Forall P (bytes_of (split_on c s).1) ∧ Forall (λ x, Forall P (bytes_of x)) (split_on c s).2.
Proof.
  induction s as [|a s IH]; [by repeat constructor|]. cbn. intros [Ha Hs]%Forall_cons.
  destruct (split_on c s) as [h t]. destruct (IH Hs) as [Hh Ht]. case_decide; cbn; by repeat constructor.
Qed.

Lemma PathUnescape_plain s : Forall (λ c, plain_char c = true) (bytes_of s) → PathUnescape s = Some s.
Proof.
  induction s as [|c s IH]; [done|]. cbn [bytes_of list_ascii_of_string PathUnescape].
  intros [Hc Hs]%Forall_cons. rewrite decide_False; [by rewrite IH|]. intros ->. done.
Qed.

Lemma contains_brace_plain s : Forall (λ c, plain_char c = true) (bytes_of s) → contains "{" s = false.
Proof.
  induction s as [|c s IH]; [done|]. cbn. intros [Hc Hs]%Forall_cons. rewrite IH by done.
  rewrite bool_decide_eq_false_2; [done|]. by intros ->.
Qed.

Lemma parse_segments_plain seen l :
  Forall (λ x, Forall (λ c, plain_char c = true) (bytes_of x)) l →
  parse_segments seen l = Ok (plain_segments l).
Proof.
  induction 1 as [|seg rest Hs Hr IH]; [done|]. cbn [parse_segments plain_segments].
  case_decide; [done|]. rewrite contains_brace_plain by done. cbn [negb]. rewrite IH. cbn.
  unfold pathUnescape. by rewrite PathUnescape_plain.
Qed.

Lemma parsePattern_plain s :
  plain_path s →
  ∃ path, s = String "/" path ∧
    parsePattern s = Ok (mkPattern s "" "" (plain_segments (Split path "/"))).
Proof.
  intros [Hs Hp]. unfold starts_with in Hs. apply bool_decide_eq_true in Hs.
  destruct s as [|c path]; [by apply prefix_nil_inv in Hs|]. cbn in Hs. apply prefix_cons_inv_1 in Hs as <-.
  exists path. split; [done|]. unfold parsePattern. rewrite (proj2 (cut_None _ _)).
  2: { eapply Forall_impl; [exact Hp|]. intros c. unfold plain_char. cbn beta. by destruct (is_blank c). }
  change (bool_decide ("" ≠ "")) with false. cbn [andb]. rewrite cut_first by done. cbn [contains andb].
  rewrite parse_segments_plain; [done|]. cbn in Hp. apply Forall_cons in Hp as [_ Hp].
  unfold Split. pose proof (split_on_Forall _ "/" path Hp) as [H1 H2].
  destruct (split_on _ _) as [h t]. by constructor.
Qed.

Lemma Split_one c s x : Split s c = [x] → s = x.
Proof.
  unfold Split. revert x. induction s as [|a s IH]; cbn; [congruence|]. intros x.
  destruct (split_on c s) as [h t]. case_decide; [done|]. intros [= <- ->]. f_equal. by apply IH.
Qed.

Lemma plain_segments_literal path f :
  plain_segments (Split path "/") = [literal f] ↔ Split path "/" = [f] ∧ f ≠ "".
Proof.
  split.
  - destruct (Split path "/") as [|x [|y l]]; cbn; [done|..].
    + case_decide; [done|]. intros [= ->]. split; [done|]. naive_solver.
    + case_decide as Hd; [naive_solver|]. case_decide; done.
  - intros [-> Hf]. cbn. rewrite decide_False; [done|naive_solver].
Qed.

End parsing.

(** ** Conflicts with a literal path *)

(** The pattern [/f]. *)
Definition literal_path (f : string) : pattern := mkPattern ("/" +:+ f) "" "" [literal f].

Lemma compareMethods_none m :
  compareMethods "" m = if decide (m = "") then equivalent else moreGeneral.
Proof.
  unfold compareMethods. destruct (decide (m = "")) as [->|Hm]; [done|]. by rewrite decide_False.
Qed.

(** A path of several segments matches no request [/f] matches, unless it is a
    single segment. *)
Lemma comparePaths_literal f p :
  comparePaths (literal_path f) p =
  match pat_segments p with [s] => compareSegments (literal f) s | _ => disjoint end.
Proof.
  unfold comparePaths, last_multi. destruct p as [str m h [|s [|s2 l]]];
    cbn [pat_segments literal_path length last literal seg_multi negb].
  - done.
  - cbn. by case_decide.
  - rewrite bool_decide_eq_true_2 by lia. cbn [andb]. destruct (negb _); [done|].
    cbn [compare_segments]. by case_decide.
Qed.

(** A pattern conflicts with [/f] exactly when it has no host and is that path,
    or has a method and stands for any single segment. *)
Lemma conflicts_literal f p :
  f ≠ "/" →
  conflictsWith (literal_path f) p = true ↔
  pat_host p = "" ∧
  if decide (pat_method p = "") then pat_segments p = [literal f]
  else ∃ s, pat_segments p = [s] ∧ seg_wild s || seg_multi s = true.
Proof.
  intros Hf. unfold conflictsWith. rewrite andb_true_iff, bool_decide_eq_true.
  change (pat_host (literal_path f)) with "". rewrite (eq_comm ""). apply and_iff_compat_l.
  unfold comparePathsAndMethods. change (pat_method (literal_path f)) with "".
  rewrite compareMethods_none, comparePaths_literal.
  assert (∀ s, compareSegments (literal f) s =
    if seg_wild s || seg_multi s then moreSpecific
    else if decide (f = seg_s s) then equivalent else disjoint) as Hs.
  { intros [x [] []]; unfold compareSegments; cbn; by rewrite ?(decide_False (P := f = "/")). }
  destruct (decide (pat_method p = "")), (pat_segments p) as [|s [|s2 l]]; rewrite ?Hs;
    try (split; [done|]; first [done|by intros (? & ? & _)]).
  all: destruct s as [x [] []]; cbn [seg_wild seg_multi orb seg_s]; try (destruct (decide (f = x)) as [<-|Hx]);
    (split; [try done; try (by intros _; eexists)|]);
    first [done|by intros [= ->]|by intros (? & [= <-] & ?)].
Qed.

(** For concrete runs: no letters but those of ASCII. *)
Module AsciiNames.

#[export] Instance ascii_names : Unicode := {|
  unicode_IsLetter _ := false;
  unicode_IsDigit _ := false;
|}.

(** Some patterns, and some that are not. *)
Example parse_host : parsePattern "example.com/health" =
  Ok (mkPattern "example.com/health" "" "example.com" [literal "health"]).
Proof. reflexivity. Qed.

Example parse_method : parsePattern "GET /healthz" =
  Ok (mkPattern "GET /healthz" "GET" "" [literal "healthz"]).
Proof. reflexivity. Qed.

Example parse_escape : parsePattern "/%72eady" = Ok (mkPattern "/%72eady" "" "" [literal "ready"]).
Proof. reflexivity. Qed.

Example parse_wildcards : parsePattern "/a/{id}/{rest...}" =
  Ok (mkPattern "/a/{id}/{rest...}" "" "" [literal "a"; wildcard "id"; multi "rest"]).
Proof. reflexivity. Qed.

Example parse_open_brace : is_ok (parsePattern "/{x") = false.
Proof. reflexivity. Qed.

Example parse_no_slash : is_ok (parsePattern "health") = false.
Proof. reflexivity. Qed.

End AsciiNames.
