(* ===== verification/Mux.v ===== *)
(** * Request routing ([net/http]'s [ServeMux], Go 1.25)

    Registering patterns, which may panic, and serving requests: the request's
    path is cleaned, the most specific pattern is found segment by segment, and
    a request may be redirected.

    A request comes with its target in origin form: [r_Path] is [r.URL.Path],
    empty or starting with a slash, sent in its default encoding, so that the
    unescaped segments of the escaped path are its own segments, and
    [r.URL.Host] is empty.  The methods are those of HTTP/1.1. *)

From stdpp Require Import sorting.
From S2P Require Import Prelude GoStrings Encoding Json Http Pattern.

(** ** The routing tree

    The registered patterns with their handlers, in the order of registration.
    A node of Go's routing tree is the patterns below it, each with the segments
    that are left of it. *)

Abbreviation Mux S := (list (pattern * Handler S)).

(** Under which child a segment is kept.  An empty literal shares the child of
    the wildcards, whose key is the empty string. *)
Inductive child := Multi | Child (key : string).

#[export] Instance child_eq_dec : EqDecision child.
Proof. solve_decision. Defined.

Definition child_of (s : segment) : child :=
  if seg_multi s then Multi else if seg_wild s then Child "" else Child (seg_s s).

Section tree.
Context {A : Type}.

Abbreviation tree := (list (list segment * A)).

Definition find_child (k : child) (n : tree) : tree :=
  omap (λ x, match x.1 with
             | s :: ss => if decide (child_of s = k) then Some (ss, x.2) else None
             | [] => None
             end) n.

(** The pattern that ends at a node. *)
Definition leaf (n : tree) : option A :=
  snd <$> head (filter (λ x, x.1 = []) n).

(** [matchPath], on the segments of the path. *)
Fixpoint matchPath (path : list string) (n : tree) : option A :=
  match path with
  | [] => leaf n
  | seg :: rest =>
      match matchPath rest (find_child (Child seg) n) with
      | Some x => Some x
      | None =>
          match if decide (seg ≠ "/") then matchPath rest (find_child (Child "") n) else None with
          | Some x => Some x
          | None => snd <$> last (find_child Multi n)
          end
      end
  end.

(** What the segments of a matching pattern are. *)
Fixpoint segments_match (ss : list segment) (path : list string) : bool :=
  match ss, path with
  | [], [] => true
  | s :: ss, x :: path =>
      bool_decide (child_of s = Multi) ||
      (bool_decide (child_of s = Child x ∨ child_of s = Child "") && segments_match ss path)
  | _, _ => false
  end.

Lemma find_child_elem k n ss x :
  (ss, x) ∈ find_child k n ↔ ∃ s, child_of s = k ∧ (s :: ss, x) ∈ n.
Proof.
  unfold find_child. rewrite list_elem_of_omap. split.
  - intros ([[|s ss'] y] & Hin & Hs); [done|]. cbn in Hs. case_decide as Hk; [|done].
    injection Hs as -> ->. eauto.
  - intros (s & Hk & Hin). exists (s :: ss, x). split; [done|]. cbn. by rewrite decide_True.
Qed.

Lemma leaf_Some n x : leaf n = Some x → ([], x) ∈ n.
Proof.
  unfold leaf. destruct (filter _ n) as [|[ss y] l] eqn:E; [done|]. intros [= ->].
  assert ((ss, x) ∈ filter (λ x : list segment * A, x.1 = []) n) as [Hs Hin]%list_elem_of_filter
    by (rewrite E; left). cbn in Hs. by subst.
Qed.

Lemma leaf_elem n x : ([], x) ∈ n → (∀ y, ([], y) ∈ n → y = x) → leaf n = Some x.
Proof.
  intros Hx Hu. destruct (leaf n) as [y|] eqn:E; [f_equal; by apply Hu, leaf_Some|].
  unfold leaf in E. destruct (filter _ n) as [|y l] eqn:Ef; [|done].
  assert (([], x) ∈ filter (λ x : list segment * A, x.1 = []) n) as Hin by (by apply list_elem_of_filter).
  rewrite Ef in Hin. by apply not_elem_of_nil in Hin.
Qed.

Lemma matchPath_elem path n x :
  matchPath path n = Some x → ∃ ss, (ss, x) ∈ n ∧ segments_match ss path = true.
Proof.
  revert n x. induction path as [|seg rest IH]; intros n x; cbn [matchPath].
  { intros H%leaf_Some. by exists []. }
  assert (∀ k, k = seg ∨ k = "" → ∀ y, matchPath rest (find_child (Child k) n) = Some y →
    ∃ ss, (ss, y) ∈ n ∧ segments_match ss (seg :: rest) = true) as Hk.
  { intros k Hk y (ss & (s & Hs & Hin)%find_child_elem & Hm)%IH. exists (s :: ss). split; [done|].
    cbn. rewrite Hm, bool_decide_eq_false_2, bool_decide_eq_true_2; [done| |by rewrite Hs].
    destruct Hk as [<-| ->]; auto. }
  destruct (matchPath rest (find_child (Child seg) n)) eqn:E1; [intros [= <-]; eauto|].
  destruct (if decide _ then _ else _) eqn:E2; [intros [= <-]; case_decide; [eauto|done]|].
  destruct (last (find_child Multi n)) as [[ss y]|] eqn:E3; [|done]. intros [= <-].
  apply last_Some_elem_of, find_child_elem in E3 as (s & Hs & Hin). exists (s :: ss). split; [done|].
  cbn. by rewrite bool_decide_eq_true_2.
Qed.

(** A literal path is matched by its own pattern, whatever the others are. *)
Lemma matchPath_literal f n x :
  ([literal f], x) ∈ n → (∀ y, ([literal f], y) ∈ n → y = x) → f ≠ "" →
  matchPath [f] n = Some x.
Proof.
  intros Hin Hu Hf. cbn. rewrite (leaf_elem _ x); [done|..].
  - apply find_child_elem. by exists (literal f).
  - intros y (s & Hs & Hy)%find_child_elem. apply Hu.
    replace (literal f) with s; [done|]. destruct s as [k [] []]; cbn in Hs; [done|congruence|done|by injection Hs as ->].
Qed.

End tree.

(** ** The multiplexer *)

(** [net.SplitHostPort], where it succeeds: the host.  The port follows the last
    colon; a host in brackets loses them. *)
Definition SplitHostPort (hp : string) : option string :=
  let l := bytes_of hp in
  match list_find (λ c, c = ":"%char) (reverse l) with
  | None => None
  | Some (k, _) =>
      let i := (length l - 1 - k)%nat in
      let ok j k := negb (bool_decide ("["%char ∈ drop j l)) && negb (bool_decide ("]"%char ∈ drop k l)) in
      if bool_decide (head l = Some "["%char) then
        match list_find (λ c, c = "]"%char) l with
        | Some (e, _) =>
            if bool_decide (S e = i) && ok 1%nat (S e) then Some (string_of (take (e - 1) (tail l))) else None
        | None => None
        end
      else
        let host := take i l in
        if negb (bool_decide (":"%char ∈ host)) && ok 0%nat 0%nat then Some (string_of host) else None
  end.

(** [net/http]'s [stripHostPort]. *)
Definition stripHostPort (h : string) : string :=
  if contains ":" h then default h (SplitHostPort h) else h.

(** The segments of a path, from [firstSegment]: a trailing slash is the last
    of them. *)
Definition path_segments (path : string) : list string :=
  match path with
  | String "/" r =>
      let l := Split r "/" in
      if decide (last l = Some "") then removelast l ++ ["/"] else l
  | _ => []
  end.

(** A redirect; its body is not modelled. *)
Definition http_Redirect {S} (url : string) (code : Z) : M (S * RespWriter) unit :=
  _ ← on_resp (Header_Set "Location" url); on_resp (WriteHeader code).

(** [http.NotFound]. *)
Definition NotFound {S} : M (S * RespWriter) unit := fail_with "404 page not found" StatusNotFound.

Definition NewServeMux {S} : Mux S := [].

Section mux.
Context {S : Type}.

(** Where a pattern is kept in the tree. *)
Definition address (p : pattern) : string * string * list child :=
  (pat_host p, pat_method p, child_of <$> pat_segments p).

(** [mux.Handle]: a pattern that does not parse, or conflicts with another,
    panics. *)
Definition Handle {U : Unicode} (pattern : string) (h : Handler S) (mux : Mux S) : outcome (Mux S) :=
  if decide (pattern = "") then Panic "http: invalid pattern"
  else
  match parsePattern pattern with
  | Err err => Panic ("parsing " +:+ pattern +:+ ": " +:+ err)
  | Ok p =>
      if existsb (λ e, conflictsWith p e.1) mux then Panic ("pattern " +:+ pattern +:+ " conflicts")
      else if negb (last_multi p) && bool_decide (address p ∈ address <$> mux.*1)
      then Panic "non-nil leaf fields"
      else Ret (mux ++ [(p, h)])
  end.

(** The part of the tree for a host and a method. *)
Definition tree_of (mux : Mux S) (host method : string) : list (list segment * (pattern * Handler S)) :=
  (λ e, (pat_segments e.1, e)) <$>
    filter (λ e, pat_host e.1 = host ∧ pat_method e.1 = method) mux.

Definition or_else {A} (x y : option A) : option A := match x with Some _ => x | None => y end.

Definition matchMethodAndPath (mux : Mux S) (host method : string) (path : list string) :
    option (pattern * Handler S) :=
  or_else (matchPath path (tree_of mux host method))
    (or_else (if decide (method = "HEAD") then matchPath path (tree_of mux host "GET") else None)
       (matchPath path (tree_of mux host ""))).

(** [mux.tree.match]: patterns with the host come before those without. *)
Definition tree_match (mux : Mux S) (host method path : string) : option (pattern * Handler S) :=
  let segs := path_segments path in
  or_else (if decide (host ≠ "") then matchMethodAndPath mux host method segs else None)
    (matchMethodAndPath mux "" method segs).

(** [strings.Count(s, "/")]. *)
Definition count_slashes (s : string) : nat := length (filter (λ c, c = "/"%char) (bytes_of s)).

Definition exactMatch (e : option (pattern * Handler S)) (path : string) : bool :=
  match e with
  | None => false
  | Some (p, _) =>
      if negb (last_multi p) then true
      else if bool_decide (path ≠ "") && negb (ends_with "/" path) then false
      else bool_decide (length (pat_segments p) = count_slashes path)
  end.

(** The redirect of [matchOrRedirect], to the path with a slash after it, when
    only that path is registered. *)
Definition slash_redirect (mux : Mux S) (host method path : string) : option string :=
  if negb (exactMatch (tree_match mux host method path) path) && negb (ends_with "/" path) &&
     exactMatch (tree_match mux host method (path +:+ "/")) (path +:+ "/")
  then Some (cleanPath path +:+ "/") else None.

(** [mux.matchingMethods], in order. *)
Definition methods_at (mux : Mux S) (host path : string) : list string :=
  filter (λ m, m ≠ "" ∧ is_Some (matchPath (path_segments path) (tree_of mux host m)))
    ((pat_method ∘ fst) <$> mux).

Definition tree_methods (mux : Mux S) (host path : string) : list string :=
  (if decide (host ≠ "") then methods_at mux host path else []) ++ methods_at mux "" path.

Definition matchingMethods (mux : Mux S) (host path : string) : list string :=
  let ms := tree_methods mux host path ++
            (if ends_with "/" path then [] else tree_methods mux host (path +:+ "/")) in
  merge_sort String.le (remove_dups (ms ++ if decide ("GET" ∈ ms) then ["HEAD"] else [])).

(** [mux.findHandler] for a request with no handler: the method may be wrong. *)
Definition no_handler (mux : Mux S) (host path : string) : M (S * RespWriter) unit :=
  match matchingMethods mux host path with
  | [] => NotFound
  | ms =>
      _ ← on_resp (Header_Set "Allow" (String.concat ", " ms));
      fail_with "Method Not Allowed" StatusMethodNotAllowed
  end.

(** [mux.ServeHTTP]. *)
Definition mux_ServeHTTP (mux : Mux S) : Handler S := λ r,
  if decide (r_RequestURI r = "*") then
    _ ← on_resp (Header_Set "Connection" "close"); on_resp (WriteHeader StatusBadRequest)
  else if decide (r_Method r = "CONNECT") then
    match slash_redirect mux "" (r_Method r) (r_Path r) with
    | Some url => http_Redirect url StatusMovedPermanently
    | None =>
        match tree_match mux (r_Host r) (r_Method r) (r_Path r) with
        | Some (_, h) => h r
        | None => no_handler mux "" (r_Path r)
        end
    end
  else
    let host := stripHostPort (r_Host r) in
    let path := cleanPath (r_Path r) in
    match slash_redirect mux host (r_Method r) path with
    | Some url => http_Redirect url StatusMovedPermanently
    | None =>
        if decide (path ≠ r_Path r) then http_Redirect path StatusMovedPermanently
        else
        match tree_match mux host (r_Method r) path with
        | Some (_, h) => h r
        | None => no_handler mux host path
        end
    end.

(** ** Properties *)

Lemma Handle_Ret {U : Unicode} s h (mux mux' : Mux S) :
  Handle s h mux = Ret mux' ↔
  ∃ p, parsePattern s = Ok p ∧ Forall (λ q, conflictsWith p q = false) mux.*1 ∧
    (last_multi p = true ∨ address p ∉ address <$> mux.*1) ∧ mux' = mux ++ [(p, h)].
Proof.
  unfold Handle. case_decide as Hs.
  { subst s. split; [done|]. by intros (p & Hp & _). }
  destruct (parsePattern s) as [p|err]; [|split; [done|by intros (p & Hp & _)]].
  destruct (existsb _ mux) eqn:Ec.
  { split; [done|]. intros (p' & [= <-] & Hc & _). apply existsb_exists in Ec as (e & Hin & He).
    rewrite Forall_fmap, Forall_forall in Hc. apply list_elem_of_In, Hc in Hin. cbn in Hin. congruence. }
  assert (Forall (λ q, conflictsWith p q = false) mux.*1) as Hc.
  { apply Forall_fmap, Forall_forall. intros e Hin. cbn. apply not_true_is_false. intros He.
    enough (existsb (λ e, conflictsWith p e.1) mux = true) by congruence.
    apply existsb_exists. exists e. by rewrite <- list_elem_of_In. }
  destruct (last_multi p) eqn:Em; cbn [negb andb].
  { split; [intros [= <-]; exists p; auto|]. by intros (p' & [= <-] & _ & _ & ->). }
  case_bool_decide as Ha.
  - split; [done|]. intros (p' & [= <-] & _ & [?|?] & _); [congruence|done].
  - split; [intros [= <-]; exists p; auto|]. by intros (p' & [= <-] & _ & _ & ->).
Qed.

(** The pattern without method and host that is the path [/f]. *)
Definition serves (mux : Mux S) (f : string) (h : Handler S) : Prop :=
  (literal_path f, h) ∈ mux ∧ ∀ e, e ∈ mux → pat_segments e.1 = [literal f] → e = (literal_path f, h).

(** No pattern names a method or a host. *)
Definition paths_only (mux : Mux S) : Prop := Forall (λ e, pat_host e.1 = "" ∧ pat_method e.1 = "") mux.

Lemma tree_of_elem mux host method ss e :
  (ss, e) ∈ tree_of mux host method ↔
  e ∈ mux ∧ pat_segments e.1 = ss ∧ pat_host e.1 = host ∧ pat_method e.1 = method.
Proof.
  unfold tree_of. rewrite list_elem_of_fmap. setoid_rewrite list_elem_of_filter. naive_solver.
Qed.

Lemma matchMethodAndPath_elem mux host method path e :
  matchMethodAndPath mux host method path = Some e →
  e ∈ mux ∧ segments_match (pat_segments e.1) path = true.
Proof.
  assert (∀ m, matchPath path (tree_of mux host m) = Some e →
    e ∈ mux ∧ segments_match (pat_segments e.1) path = true) as Hm.
  { intros m (ss & (? & <- & _)%tree_of_elem & ?)%matchPath_elem. done. }
  unfold matchMethodAndPath, or_else. destruct (matchPath _ (tree_of mux host method)) eqn:E1;
    [intros [= ->]; eauto|]. destruct (if decide _ then _ else _) eqn:E2; [|eauto].
  intros [= ->]. case_decide; [eauto|done].
Qed.

(** What a request can be handed to. *)
Lemma tree_match_elem mux host method path e :
  tree_match mux host method path = Some e →
  e ∈ mux ∧ segments_match (pat_segments e.1) (path_segments path) = true.
Proof.
  unfold tree_match, or_else. destruct (if decide _ then _ else _) eqn:E1;
    [|apply matchMethodAndPath_elem]. intros [= ->]. case_decide; [|done].
  by apply matchMethodAndPath_elem in E1.
Qed.

(** The patterns that name a method or a host do not match the path. *)
Definition unqualified (mux : Mux S) (path : list string) : Prop :=
  Forall (λ e, (pat_host e.1 = "" ∧ pat_method e.1 = "") ∨ segments_match (pat_segments e.1) path = false) mux.

Lemma paths_only_unqualified mux path : paths_only mux → unqualified mux path.
Proof. intros H. eapply Forall_impl; [exact H|]. auto. Qed.

Lemma unqualified_tree mux host method path :
  unqualified mux path → host ≠ "" ∨ method ≠ "" → matchPath path (tree_of mux host method) = None.
Proof.
  intros Hq Hne. destruct (matchPath _ _) as [e|] eqn:E; [|done]. exfalso.
  apply matchPath_elem in E as (ss & (Hin & <- & <- & <-)%tree_of_elem & Hm).
  unfold unqualified in Hq. rewrite Forall_forall in Hq.
  destruct (Hq _ Hin) as [[? ?]|?]; [tauto|congruence].
Qed.

Lemma unqualified_match mux host method path :
  unqualified mux path → matchMethodAndPath mux host method path =
    if decide (host = "") then matchPath path (tree_of mux "" "") else None.
Proof.
  intros Hq. unfold matchMethodAndPath, or_else. destruct (decide (host = "")) as [->|Hh].
  - destruct (decide (method = "")) as [->|Hm].
    + destruct (matchPath path (tree_of mux "" "")); [done|]. by rewrite decide_False.
    + rewrite (unqualified_tree mux "" method) by auto. case_decide; [|done].
      by rewrite (unqualified_tree mux "" "GET") by auto.
  - rewrite (unqualified_tree mux host method), (unqualified_tree mux host "") by auto.
    case_decide; [|done]. by rewrite (unqualified_tree mux host "GET") by auto.
Qed.

Lemma tree_match_unqualified mux host method path :
  unqualified mux (path_segments path) →
  tree_match mux host method path = matchPath (path_segments path) (tree_of mux "" "").
Proof.
  intros Hq. unfold tree_match. rewrite !unqualified_match by done.
  rewrite (decide_True (P := "" = "")) by done. destruct (decide (host ≠ "")); [|done].
  by rewrite decide_False.
Qed.

(** A path [/f] that is registered is matched by its own pattern. *)
Lemma tree_match_literal mux host method path f h :
  unqualified mux [f] → serves mux f h → f ≠ "" → path_segments path = [f] →
  tree_match mux host method path = Some (literal_path f, h).
Proof.
  intros Hp [Hin Hu] Hf Hpath. rewrite tree_match_unqualified, Hpath by (by rewrite Hpath). apply matchPath_literal; [..|done].
  - by apply tree_of_elem.
  - intros y (Hy & Hs & _)%tree_of_elem. by apply Hu.
Qed.

(** A request for a registered path reaches its handler. *)
Lemma mux_ServeHTTP_exact mux f h r :
  unqualified mux [f] → serves mux f h → f ≠ "" → path_segments (r_Path r) = [f] →
  cleanPath (r_Path r) = r_Path r → r_RequestURI r ≠ "*" →
  mux_ServeHTTP mux r = h r.
Proof.
  intros Hp Hs Hf Hpath Hc Hu. unfold mux_ServeHTTP. rewrite decide_False by done. rewrite Hc.
  assert (∀ host m, slash_redirect mux host m (r_Path r) = None) as Hred.
  { intros. unfold slash_redirect. by erewrite tree_match_literal. }
  rewrite !Hred, !(tree_match_literal _ _ _ _ f h) by done.
  rewrite (decide_False (P := r_Path r ≠ r_Path r)) by tauto. by case_decide.
Qed.

(** What serving a request is: an answer that is not 200, or the handler of a
    pattern that matches it. *)
Lemma mux_ServeHTTP_cases mux r n w :
  (∃ w', mux_ServeHTTP mux r (n, w) = (Ret tt, (n, w')) ∧ (rw_code w = None → final_code w' ≠ 200)) ∨
  ∃ host e, tree_match mux host (r_Method r) (r_Path r) = Some e ∧
    mux_ServeHTTP mux r (n, w) = e.2 r (n, w).
Proof.
  assert (∀ url, ∃ w', http_Redirect url StatusMovedPermanently (n, w) = (Ret tt, (n, w')) ∧
    (rw_code w = None → final_code w' ≠ 200)) as Hred.
  { intros url. eexists. split; [reflexivity|]. intros Hw. unfold final_code, WriteHeader, send_header.
    cbn. by rewrite Hw. }
  assert (∀ host path, ∃ w', no_handler mux host path (n, w) = (Ret tt, (n, w')) ∧
    (rw_code w = None → final_code w' ≠ 200)) as Hno.
  { intros host path. unfold no_handler, NotFound.
    destruct (matchingMethods mux host path); [|rewrite bind_on_resp]; rewrite fail_with_eq;
      eexists; (split; [reflexivity|]); intros Hw; by rewrite http_Error_code. }
  unfold mux_ServeHTTP. case_decide.
  { left. rewrite bind_on_resp. eexists. split; [reflexivity|]. intros Hw.
    unfold final_code, WriteHeader, send_header. cbn. by rewrite Hw. }
  case_decide.
  - destruct (slash_redirect _ _ _ _); [left; apply Hred|].
    destruct (tree_match mux (r_Host r) _ _) as [[p h]|] eqn:E; [|left; apply Hno].
    right. by exists (r_Host r), (p, h).
  - cbn zeta. destruct (slash_redirect _ _ _ _); [left; apply Hred|].
    case_decide as Hc; [left; apply Hred|]. rewrite Hc.
    destruct (tree_match mux _ _ _) as [[p h]|] eqn:E; [|left; apply Hno].
    right. by exists (stripHostPort (r_Host r)), (p, h).
Qed.

(** A request no pattern matches, with a slash after its path or without, is
    not found. *)
Lemma mux_ServeHTTP_missing mux r :
  paths_only mux →
  (∀ e, e ∈ mux → segments_match (pat_segments e.1) (path_segments (r_Path r)) = false ∧
                  segments_match (pat_segments e.1) (path_segments (r_Path r +:+ "/")) = false) →
  cleanPath (r_Path r) = r_Path r → r_RequestURI r ≠ "*" →
  mux_ServeHTTP mux r = NotFound.
Proof.
  intros Hp Hn Hc Hu.
  assert (∀ host m path, path = r_Path r ∨ path = r_Path r +:+ "/" →
    tree_match mux host m path = None) as Ht.
  { intros host m path Hpath. destruct (tree_match mux host m path) as [e|] eqn:E; [|done].
    apply tree_match_elem in E as [Hin Hm]. destruct (Hn e Hin) as [H1 H2].
    destruct Hpath as [-> | ->]; congruence. }
  assert (∀ host, slash_redirect mux host (r_Method r) (r_Path r) = None) as Hs.
  { intros host. unfold slash_redirect. rewrite !Ht by auto. cbn. by rewrite andb_false_r. }
  assert (∀ host path, methods_at mux host path = []) as Hm.
  { intros host path. unfold methods_at. destruct (filter _ _) as [|m l] eqn:E; [done|]. exfalso.
    assert (m ∈ filter (λ m, m ≠ "" ∧ is_Some (matchPath (path_segments path) (tree_of mux host m)))
      ((pat_method ∘ fst) <$> mux)) as [[Hne _] Hin]%list_elem_of_filter by (rewrite E; left).
    apply list_elem_of_fmap in Hin as (e & -> & Hin). unfold paths_only in Hp.
    rewrite Forall_forall in Hp. by apply Hp in Hin as [_ ?]. }
  assert (∀ host path, no_handler mux host path = NotFound) as Hno.
  { intros host path. unfold no_handler, matchingMethods, tree_methods. rewrite !Hm.
    case_decide; destruct (ends_with _ _); cbn; reflexivity. }
  unfold mux_ServeHTTP. rewrite decide_False by done. rewrite Hc, !Hs, !Ht, !Hno by auto.
  rewrite (decide_False (P := r_Path r ≠ r_Path r)) by tauto. by case_decide.
Qed.

End mux.

Lemma segments_match_literal f path : f ≠ "" → segments_match [literal f] path = true → path = [f].
Proof.
  intros Hf. destruct path as [|x [|y path]]; cbn; [done|..]; rewrite bool_decide_eq_false_2 by done; cbn.
  - rewrite andb_true_r. intros H%bool_decide_eq_true. destruct H; congruence.
  - by rewrite andb_false_r.
Qed.

Lemma path_segments_one p f : path_segments p = [f] → f ≠ "/" → p = "/" +:+ f.
Proof.
  destruct p as [|c r]; [done|]. cbn [path_segments].
  destruct (decide (c = "/"%char)) as [->|Hc].
  - case_decide as Hl; intros H Hf.
    + destruct (removelast _) as [|? [|]]; [by injection H as <-|done..].
    + apply Split_one in H. by rewrite H.
  - destruct c as [[] [] [] [] [] [] [] []]; done.
Qed.
