(* ===== verification/Server.v ===== *)
(** * The server ([node/server.go], [node/main.go])

    The routes and middleware of the node, how it is started, and what holds
    of every sequence of requests it serves. *)

From S2P Require Import Prelude GoStrings Encoding Json JsonStruct Bucket Store Crypto NodeCrypto.
From S2P Require Import Http SorobanTx RateLimit FileSystem Keystore Logger Node Middleware.
From S2P Require Import Handlers Config Pattern Mux.

Section server.
Context {C : Crypto} {B : Bolt} {R : RateLimiter} {X : Xdr} {XC : XdrCodec X} {U : Unicode}.
Context {SS : ShareStore DB}.

(** ** Routes *)

(** The inner multiplexer, behind the middleware of its routes. *)
Definition storeMux_of (e : Env) : outcome (Mux Node) :=
  m ← Handle "/store" handleStoreShare NewServeMux;
  m ← Handle "/retrieve" (handleRetrieveShare e) m;
  m ← Handle "/rotate-key" (handleRotateKey e) m;
  Handle "/sync" handleSync m.

Definition mux_of (e : Env) (cfg : Config) : outcome (Mux Node) :=
  m ← Handle (HealthCheckPath cfg) (handleHealth e) NewServeMux;
  m ← Handle "/ready" handleReady m;
  m ← Handle "/status" (handleStatus e) m;
  m ← Handle "/public-key" handleGetPublicKey m;
  sm ← storeMux_of e;
  let storeMux := mux_ServeHTTP sm in
  m ← Handle "/store" (apiKeyMiddleware (StoreAPIKey cfg) storeMux) m;
  m ← Handle "/retrieve" (rateLimitMiddleware e storeMux) m;
  m ← Handle "/rotate-key" (apiKeyMiddleware (StoreAPIKey cfg) storeMux) m;
  Handle "/sync" (apiKeyMiddleware (StoreAPIKey cfg) storeMux) m.

(** The chain around the routes. *)
Definition chain (e : Env) (cfg : Config) (mux : Mux Node) : Handler Node :=
  loggingMiddleware e
    (bodySizeLimitMiddleware (maxBodyBytes cfg) (rateLimitMiddleware e (mux_ServeHTTP mux))).

(** [buildMux]: registering the routes may panic. *)
Definition buildMux (e : Env) (cfg : Config) : outcome (Handler Node) :=
  mux ← mux_of e cfg; mret (chain e cfg mux).

(** The routes, as registered: by the name after the slash. *)
Definition store_routes (e : Env) : list (string * Handler Node) :=
  [("store", handleStoreShare); ("retrieve", handleRetrieveShare e);
   ("rotate-key", handleRotateKey e); ("sync", handleSync)].

Definition with_paths (l : list (string * Handler Node)) : Mux Node :=
  (λ x, (literal_path x.1, x.2)) <$> l.

(** The inner multiplexer, once its routes are registered. *)
Definition storeMux (e : Env) : Handler Node := mux_ServeHTTP (with_paths (store_routes e)).

Definition fixed_routes (e : Env) (cfg : Config) : list (string * Handler Node) :=
  [("ready", handleReady); ("status", handleStatus e); ("public-key", handleGetPublicKey);
   ("store", apiKeyMiddleware (StoreAPIKey cfg) (storeMux e));
   ("retrieve", rateLimitMiddleware e (storeMux e));
   ("rotate-key", apiKeyMiddleware (StoreAPIKey cfg) (storeMux e));
   ("sync", apiKeyMiddleware (StoreAPIKey cfg) (storeMux e))].

Definition routes (e : Env) (cfg : Config) (health : pattern) : Mux Node :=
  (health, handleHealth e) :: with_paths (fixed_routes e cfg).

Definition fixed_names : list string :=
  ["ready"; "status"; "public-key"; "store"; "retrieve"; "rotate-key"; "sync"].

(** The health-check patterns under which all routes can be registered: with a
    host; or one of no method that is not a fixed path; or one with a method
    that does not stand for every path of one segment. *)
Definition health_pattern_ok (p : pattern) : Prop :=
  pat_host p ≠ "" ∨
  if decide (pat_method p = "") then ∀ f, f ∈ fixed_names → pat_segments p ≠ [literal f]
  else ∀ s, pat_segments p = [s] → seg_wild s || seg_multi s = false.

Lemma fixed_names_ok f : f ∈ fixed_names → f ≠ "" ∧ f ≠ "/" ∧ path_segments ("/" +:+ f) = [f] ∧
  cleanPath ("/" +:+ f) = "/" +:+ f.
Proof.
  intros Hf. assert (Forall (λ f, f ≠ "" ∧ f ≠ "/" ∧ path_segments ("/" +:+ f) = [f] ∧
    cleanPath ("/" +:+ f) = "/" +:+ f) fixed_names) as H by (by repeat constructor).
  rewrite Forall_forall in H. by apply H.
Qed.

Lemma health_pattern_ok_iff p :
  health_pattern_ok p ↔ ∀ f, f ∈ fixed_names → conflictsWith (literal_path f) p = false.
Proof.
  setoid_rewrite <- not_true_iff_false. unfold health_pattern_ok. split.
  - intros Hok f Hf. rewrite conflicts_literal by (by apply fixed_names_ok). intros [Hh Hm].
    destruct Hok as [|Hok]; [done|]. case_decide; [by apply (Hok f)|].
    destruct Hm as (s & Hs & Hw). by rewrite (Hok s Hs) in Hw.
  - intros H. destruct (decide (pat_host p = "")) as [Hh|]; [right|by left]. case_decide as Hm.
    + intros f Hf Hs. apply (H f Hf), conflicts_literal; [by apply fixed_names_ok|]. by rewrite decide_True.
    + intros s Hs. apply not_true_is_false. intros Hw. apply (H "ready"); [by left|].
      apply conflicts_literal; [done|]. rewrite decide_False by done. eauto.
Qed.

(** One more literal path after the patterns registered. *)
Lemma Handle_literal s f h (m : Mux Node) :
  s = "/" +:+ f → parsePattern s = Ok (literal_path f) → f ≠ "" → f ≠ "/" →
  Forall (λ q, conflictsWith (literal_path f) q = false) m.*1 →
  Handle s h m = Ret (m ++ [(literal_path f, h)]).
Proof.
  intros -> Hp Hf Hf' Hc. apply Handle_Ret. exists (literal_path f). split; [done|]. split; [done|].
  split; [|done]. right. intros (q & Ha & Hq)%list_elem_of_fmap.
  rewrite Forall_forall in Hc. specialize (Hc q Hq). apply not_true_iff_false in Hc.
  apply Hc, conflicts_literal; [done|]. unfold address, literal_path in Ha. cbn in Ha.
  injection Ha as <- <- Hs. split; [done|]. cbn. destruct (pat_segments q) as [|s [|]]; [done| |done].
  injection Hs as Hs. f_equal. destruct s as [x [] []]; cbn in Hs; [done|congruence|done|].
  by injection Hs as <-.
Qed.

Lemma storeMux_of_eq e : storeMux_of e = Ret (with_paths (store_routes e)).
Proof.
  unfold storeMux_of. repeat (erewrite Handle_literal by (reflexivity || done || by repeat constructor);
    cbn [mbind outcome_bind NewServeMux app]).
  done.
Qed.

Lemma mux_of_ok e cfg p :
  parsePattern (HealthCheckPath cfg) = Ok p → health_pattern_ok p → mux_of e cfg = Ret (routes e cfg p).
Proof.
  intros Hp Hok. pose proof (proj1 (health_pattern_ok_iff p) Hok) as Hc. unfold mux_of.
  rewrite storeMux_of_eq. rewrite (proj2 (Handle_Ret _ _ _ [(p, handleHealth e)])).
  2: { exists p. split; [done|]. split; [constructor|]. split; [right; apply not_elem_of_nil|done]. }
  cbn [mbind outcome_bind NewServeMux app].
  repeat (erewrite Handle_literal;
    [cbn [mbind outcome_bind app]|reflexivity|reflexivity|done|done|
     constructor; [apply Hc; by apply (bool_decide_unpack _)|by repeat constructor]]).
  done.
Qed.

Lemma mux_of_Ret e cfg mux :
  mux_of e cfg = Ret mux →
  ∃ p, parsePattern (HealthCheckPath cfg) = Ok p ∧ health_pattern_ok p ∧ mux = routes e cfg p.
Proof.
  intros Hm. assert (∃ p, parsePattern (HealthCheckPath cfg) = Ok p ∧ health_pattern_ok p) as (p & Hp & Hok).
  { unfold mux_of in Hm. rewrite storeMux_of_eq in Hm. unfold mbind, outcome_bind in Hm.
    repeat match type of Hm with
    | context [match Handle ?p ?h ?m with _ => _ end] =>
        let E := fresh "E" in destruct (Handle p h m) eqn:E; [|done];
        apply Handle_Ret in E as (? & ? & ? & _ & ->)
    end.
    apply Handle_Ret in Hm as (? & ? & ? & _ & _).
    repeat match goal with H : parsePattern (String _ _) = Ok ?q |- _ =>
      vm_compute in H; injection H as <- end.
    eexists. split; [eassumption|]. apply health_pattern_ok_iff.
    repeat match goal with H : Forall _ (_.*1) |- _ => cbn [fmap list_fmap fst app NewServeMux] in H end.
    intros f Hf. unfold fixed_names in Hf. rewrite !elem_of_cons in Hf.
    repeat match goal with H : Forall _ (_ :: _) |- _ => apply Forall_cons in H as [? H] end.
    destruct Hf as [->|[->|[->|[->|[->|[->|[->|Hf%not_elem_of_nil]]]]]]]; done. }
  rewrite (mux_of_ok e cfg p Hp Hok) in Hm. exists p. by injection Hm as <-.
Qed.

Lemma mux_of_Panic e cfg :
  (∃ msg, mux_of e cfg = Panic msg) ↔
  ¬ ∃ p, parsePattern (HealthCheckPath cfg) = Ok p ∧ health_pattern_ok p.
Proof.
  split.
  - intros [msg Hm] (p & Hp & Hok). by rewrite (mux_of_ok e cfg p Hp Hok) in Hm.
  - intros Hno. destruct (mux_of e cfg) as [mux|msg] eqn:Hm; [|eauto].
    apply mux_of_Ret in Hm as (p & Hp & Hok & _). exfalso. eauto.
Qed.

(** HEALTH_CHECK_PATH is a pattern that names a method or a host, as
    [GET /healthz], and it matches the path: such a pattern comes before a route
    that is registered for the path alone. *)
Definition health_takes (cfg : Config) (path : string) : bool :=
  match parsePattern (HealthCheckPath cfg) with
  | Ok p => negb (bool_decide (pat_host p = "" ∧ pat_method p = "")) &&
            segments_match (pat_segments p) (path_segments path)
  | Err _ => false
  end.

(** The health check takes none of the fixed routes. *)
Definition health_apart (cfg : Config) : Prop :=
  ∀ f, f ∈ fixed_names → health_takes cfg ("/" +:+ f) = false.

(** A health-check path that begins with a slash, as in the default
    configuration, names neither a method nor a host. *)
Definition rooted (cfg : Config) : Prop := starts_with "/" (HealthCheckPath cfg) = true.

Lemma rooted_takes cfg path : rooted cfg → health_takes cfg path = false.
Proof.
  intros Hr. unfold health_takes. destruct (parsePattern _) as [p|] eqn:Hp; [|done].
  pose proof (parsePattern_rooted _ _ Hr Hp) as [-> ->]. done.
Qed.

Lemma rooted_apart cfg : rooted cfg → health_apart cfg.
Proof. intros Hr f _. by apply rooted_takes. Qed.

(** ** Starting *)

(** The state in which [main] starts serving: [init] has run, then
    [InitLogger] on the day [date]. *)
Definition main_state {K : KeyCodec C} {O : Os} {Zl : Zerolog} (Getenv : string → string)
    (date : string) (fs : FS) (rd : bytes) : outcome Node :=
  n ← init Getenv fs rd;
  let cfg := LoadConfig Getenv in
  match InitLogger (Getenv "DATA_DIR") date (LogLevel cfg) (disk n, loggers n) with
  | (Panic msg, _) => Panic msg
  | (Ret _, (fs, ls)) => Ret (set_loggers ls (set_disk_rnd (fs, rnd n) n))
  end.

(** ** Sequences of requests

    A request is served in its own environment, by the handler the routes make
    in it. *)

Definition serve_request (cfg : Config) (er : Env * Request) (n : Node) : Node :=
  match buildMux er.1 cfg with
  | Ret h => state_after h er.2 n
  | Panic _ => n
  end.

Definition serve_requests (cfg : Config) (ers : list (Env * Request)) (n : Node) : Node :=
  foldl (λ n er, serve_request cfg er n) n ers.

(** [h] keeps [P] on the requests that satisfy [Q]. *)
Definition keeps (Q : Request → Prop) (P : Node → Prop) (h : Handler Node) : Prop :=
  ∀ r n w, Q r → rw_code w = None → P n → P (h r (n, w)).2.1.

(** Properties of the state that logging, reading randomness and charging
    limiters do not disturb. *)
Record stable (P : Node → Prop) : Prop := {
  stable_log ls n : P n → P (set_loggers ls n);
  stable_rnd b n : P n → P (set_rnd b n);
  stable_objects m n : P n → P (set_object_limiters m n);
  stable_ip l l' n : globalIPLimiter n = Some l → P n → P (set_ip_limiter (Some l') n);
}.

Section keeping.
Context (Q : Request → Prop) (HQ : ∀ b r, Q r → Q (set_body b r)).
Context (P : Node → Prop) (HP : stable P).

Lemma log_keeps l lvl fields msg n : P n → P (log l lvl fields msg n).2.
Proof. intros Hn. rewrite log_eq. by apply (stable_log P HP). Qed.

Lemma apiKeyMiddleware_keeps key h : keeps Q P h → keeps Q P (apiKeyMiddleware key h).
Proof.
  intros Hh r n w Hr Hw Hn. unfold apiKeyMiddleware. case_decide; [by apply Hh|].
  destruct (negb _); [|by apply Hh].
  rewrite (bind_on_state _ _ _ _ _ _ (log_eq _ _ _ _ _)). cbn. by apply (stable_log P HP).
Qed.

Lemma bodySizeLimitMiddleware_keeps k h : keeps Q P h → keeps Q P (bodySizeLimitMiddleware k h).
Proof. intros Hh r n w Hr Hw Hn. apply Hh; auto. Qed.

Lemma rateLimitMiddleware_keeps e h : keeps Q P h → keeps Q P (rateLimitMiddleware e h).
Proof.
  intros Hh r n w Hr Hw Hn. unfold rateLimitMiddleware. rewrite bind_get_state.
  destruct (globalIPLimiter n) as [l|] eqn:El; [|by apply Hh].
  destruct (ip_Allow_Ret (now e) (remote_ip (r_RemoteAddr r)) l) as (ok & l' & -> & _).
  erewrite bind_on_state by done. pose proof (stable_ip P HP l l' n El Hn) as Hn'.
  destruct ok; cbn [negb]; [by apply Hh|done].
Qed.

Lemma loggingMiddleware_keeps e h : keeps Q P h → keeps Q P (loggingMiddleware e h).
Proof.
  intros Hh r n w Hr Hw Hn. unfold loggingMiddleware.
  set (id := Header_Get _ _). set (k := λ reqID : string, _).
  assert (∀ reqID n w, P n → rw_code w = None → P (k reqID (n, w)).2.1) as Hk.
  { clear n w Hw Hn. intros reqID n w Hn Hw. unfold k. rewrite bind_on_resp.
    destruct (match r_Body r with Some b => _ | None => _ end) as [size body].
    unfold with_statusWriter. unfold_M. cbn [fst snd].
    assert (rw_code (set_last None (Header_Set "X-Request-Id" reqID w)) = None) as Hw' by done.
    pose proof (Hh (set_body body r) n _ (HQ body r Hr) Hw' Hn) as Hn2.
    unfold on_resp, modify. cbn [fst snd].
    destruct (h (set_body body r) _) as [[[]|] [n2 w2]]; cbn in Hn2 |- *; [|done].
    by apply (stable_log P HP). }
  case_decide; [|by apply Hk].
  unfold on_state, generateRequestID, on_node_rnd. unfold_M. cbn [fst snd].
  unfold rand_ReadFull. destruct (splitZ 8 (rnd n)) as [b rest]. case_decide; cbn [fst snd];
    apply Hk; auto; by apply (stable_rnd P HP).
Qed.

Lemma mux_ServeHTTP_keeps mux : Forall (λ ph, keeps Q P ph.2) mux → keeps Q P (mux_ServeHTTP mux).
Proof.
  intros Hh r n w Hr Hw Hn.
  destruct (mux_ServeHTTP_cases mux r n w) as [(w' & -> & _)|(host & e & [Hin _]%tree_match_elem & ->)];
    [done|]. rewrite Forall_forall in Hh. by apply (Hh e Hin).
Qed.

(** If the handlers keep [P], so does the server. *)
Lemma buildMux_keeps e cfg h :
  keeps Q P (handleHealth e) → keeps Q P handleReady → keeps Q P (handleStatus e) →
  keeps Q P handleGetPublicKey → keeps Q P handleStoreShare → keeps Q P (handleRetrieveShare e) →
  keeps Q P (handleRotateKey e) → keeps Q P handleSync →
  buildMux e cfg = Ret h → keeps Q P h.
Proof.
  intros H1 H2 H3 H4 H5 H6 H7 H8. unfold buildMux.
  destruct (mux_of e cfg) as [mux|] eqn:Hm; [|done]. intros [= <-].
  apply loggingMiddleware_keeps, bodySizeLimitMiddleware_keeps, rateLimitMiddleware_keeps,
    mux_ServeHTTP_keeps.
  assert (keeps Q P (storeMux e)) as Hs by (apply mux_ServeHTTP_keeps; repeat constructor; done).
  apply mux_of_Ret in Hm as (p & _ & _ & ->). unfold routes.
  repeat constructor; cbn; auto using apiKeyMiddleware_keeps, rateLimitMiddleware_keeps.
Qed.

End keeping.
(** ** Serving one route *)

(** The request a route's handler gets: the body buffered and capped. *)
Definition routed_request (cfg : Config) (r : Request) : Request :=
  set_body ((λ b, MaxBytesReader (mkBody (Body_read b).1 None) (maxBodyBytes cfg)) <$> r_Body r) r.

(** The request ID, and the node once it has been drawn. *)
Definition request_id (r : Request) (n : Node) : string * Node :=
  let id := Header_Get (r_Header r) "X-Request-Id" in
  if decide (id = "") then
    match generateRequestID n with (Ret id, n') => (id, n') | (Panic _, n') => ("", n') end
  else (id, n).

Lemma generateRequestID_eq n : ∃ id r, generateRequestID n = (Ret id, set_rnd r n).
Proof.
  unfold generateRequestID, on_node_rnd, rand_ReadFull. unfold_M.
  destruct (splitZ 8 (rnd n)) as [b rest]. case_decide; eauto.
Qed.

Lemma request_id_eq r n : ∃ id b, request_id r n = (id, set_rnd b n).
Proof.
  unfold request_id. case_decide.
  - destruct (generateRequestID_eq n) as (id & b & ->). eauto.
  - exists (Header_Get (r_Header r) "X-Request-Id"), (rnd n). by destruct n.
Qed.

(** The request with its body buffered, and the writer with its ID, that
    [loggingMiddleware] passes on. *)
Definition buffered (r : Request) : Request :=
  set_body ((λ b, mkBody (Body_read b).1 None) <$> r_Body r) r.

Definition id_resp (r : Request) (n : Node) : RespWriter :=
  set_last None (Header_Set "X-Request-Id" (request_id r n).1 new_resp).

(** [x], the result of an inner handler, is [y] up to the log and the status
    noted for it. *)
Definition up_to_log (x y : outcome unit * Node * RespWriter) : Prop :=
  ∃ ls, y.1.1 = x.1.1 ∧ y.1.2 = set_loggers ls x.1.2 ∧
    (x.1.1 = Ret tt → final_code y.2 = final_code x.2 ∧ rw_body y.2 = rw_body x.2).

(** What the logging around the routes does: the inner handler's reply, and
    its state but for the log. *)
Lemma loggingMiddleware_serve e h r n :
  let '(o, (n', w')) := h (buffered r) ((request_id r n).2, id_resp r n) in
  up_to_log (o, n', w') (serve (loggingMiddleware e h) r n).
Proof.
  unfold serve, loggingMiddleware.
  assert ((if decide (Header_Get (r_Header r) "X-Request-Id" = "") then on_state generateRequestID
           else mret (Header_Get (r_Header r) "X-Request-Id")) (n, new_resp) =
    (Ret (request_id r n).1, ((request_id r n).2, new_resp))) as Hid.
  { unfold request_id. case_decide; [|done].
    destruct (generateRequestID_eq n) as (id & b & Hg). rewrite Hg. by apply on_state_eq. }
  unfold mbind at 1, M_bind at 1. rewrite Hid. unfold id_resp, buffered.
  destruct (request_id r n) as [id n1]. cbn [fst snd]. rewrite bind_on_resp.
  destruct (r_Body r) as [b|]; cbn [fmap option_fmap option_map];
    unfold with_statusWriter; unfold_M; unfold on_resp, modify; cbn [fst snd];
    destruct (h _ _) as [[[]|m] [n2 w2]]; unfold on_state, zoom; cbn [fst snd];
    rewrite ?log_eq; cbn [fst snd]; eexists; (split; [done|]); (split; [|done]);
    (reflexivity || by rewrite <- (set_loggers_id n2) at 1).
Qed.

Lemma with_paths_serves l f g :
  NoDup l.*1 → (f, g) ∈ l → serves (with_paths l) f g.
Proof.
  intros Hd Hin. split; [apply list_elem_of_fmap; by exists (f, g)|].
  intros e ([f' g'] & -> & Hin')%list_elem_of_fmap. cbn. intros [= ->]. do 2 f_equal.
  by apply (NoDup_fst_inj l f).
Qed.

(** A fixed route whose path the health check does not take has it to itself. *)
Lemma routes_serve e cfg p f g :
  parsePattern (HealthCheckPath cfg) = Ok p → health_pattern_ok p →
  health_takes cfg ("/" +:+ f) = false → (f, g) ∈ fixed_routes e cfg →
  unqualified (routes e cfg p) [f] ∧ serves (routes e cfg p) f g.
Proof.
  intros Hp Hok Ht Hin.
  assert (f ∈ fixed_names) as Hf.
  { change fixed_names with (fixed_routes e cfg).*1. apply list_elem_of_fmap. by exists (f, g). }
  destruct (fixed_names_ok f Hf) as (Hf1 & _ & Hf3 & _).
  assert ((pat_host p = "" ∧ pat_method p = "") ∨ segments_match (pat_segments p) [f] = false) as Hq.
  { unfold health_takes in Ht. rewrite Hp, Hf3 in Ht.
    apply andb_false_iff in Ht as [H%negb_false_iff%bool_decide_eq_true|?]; auto. }
  split; [constructor; [done|apply paths_only_unqualified; by repeat constructor]|].
  destruct (with_paths_serves (fixed_routes e cfg) f g) as [H1 H2]; [|done|].
  { by apply (bool_decide_unpack (NoDup fixed_names)). }
  split; [by right|]. intros x [->|Hx]%elem_of_cons Hs; [|by apply H2].
  exfalso. cbn [fst] in Hs. destruct Hq as [[Hh Hm]|Hq].
  - destruct Hok as [|Hok]; [done|]. rewrite decide_True in Hok by done. by apply (Hok f).
  - rewrite Hs in Hq. cbn [segments_match] in Hq.
    rewrite (bool_decide_eq_true_2 (child_of (literal f) = Child f ∨ _)) in Hq by (by left).
    by rewrite orb_true_r in Hq.
Qed.

(** A request for a registered path reaches its handler through the chain, when
    no IP limiter is installed; the reply is that handler's. *)
Lemma server_serve e cfg h r n f g :
  buildMux e cfg = Ret h → health_takes cfg (r_Path r) = false → (f, g) ∈ fixed_routes e cfg →
  r_Path r = "/" +:+ f →
  r_RequestURI r ≠ "*" → globalIPLimiter n = None →
  let '(o, (n', w')) := g (routed_request cfg r) ((request_id r n).2, id_resp r n) in
  up_to_log (o, n', w') (serve h r n).
Proof.
  unfold buildMux. destruct (mux_of e cfg) as [mux|] eqn:Hm; [|done].
  apply mux_of_Ret in Hm as (p & Hp & Hok & ->). intros [= <-] Hroot Hin Hpath Hu Hip. unfold chain.
  pose proof (loggingMiddleware_serve e (bodySizeLimitMiddleware (maxBodyBytes cfg)
    (rateLimitMiddleware e (mux_ServeHTTP (routes e cfg p)))) r n) as H.
  enough (bodySizeLimitMiddleware (maxBodyBytes cfg) (rateLimitMiddleware e
      (mux_ServeHTTP (routes e cfg p))) (buffered r) ((request_id r n).2, id_resp r n) =
    g (routed_request cfg r) ((request_id r n).2, id_resp r n)) as <- by done. clear H.
  destruct (request_id_eq r n) as (id & b & ->). cbn [snd].
  unfold bodySizeLimitMiddleware, rateLimitMiddleware. rewrite bind_get_state.
  cbn [globalIPLimiter set_rnd]. rewrite Hip.
  rewrite Hpath in Hroot. destruct (routes_serve e cfg p f g Hp Hok Hroot Hin) as [Ho Hs].
  assert (f ∈ fixed_names) as (H1 & _ & H3 & H4)%fixed_names_ok.
  { change fixed_names with (fixed_routes e cfg).*1. apply list_elem_of_fmap. by exists (f, g). }
  rewrite (mux_ServeHTTP_exact _ f g) by (done || (cbn; by rewrite Hpath)).
  unfold routed_request, buffered. by destruct (r_Body r).
Qed.

Lemma server_reply e cfg h r n f g :
  buildMux e cfg = Ret h → health_takes cfg (r_Path r) = false → (f, g) ∈ fixed_routes e cfg →
  r_Path r = "/" +:+ f →
  r_RequestURI r ≠ "*" → globalIPLimiter n = None →
  reply_code h r n =
  match g (routed_request cfg r) ((request_id r n).2, id_resp r n) with
  | (Ret _, (_, w)) => Some (final_code w)
  | (Panic _, _) => None
  end.
Proof.
  intros Hb Hr Hin Hp Hu Hi. pose proof (server_serve e cfg h r n f g Hb Hr Hin Hp Hu Hi) as H.
  unfold reply_code. destruct (g _ _) as [o [n' w']]. destruct (serve h r n) as [[o' n''] w''].
  destruct H as (ls & Ho & _ & Hw). cbn [fst snd] in *. subst o'. destruct o as [[]|]; [|done].
  by destruct (Hw eq_refl) as [-> _].
Qed.

(** The inner multiplexer. *)
Lemma storeMux_serve e r f g :
  (f, g) ∈ store_routes e → r_Path r = "/" +:+ f → r_RequestURI r ≠ "*" → storeMux e r = g r.
Proof.
  intros Hin Hp Hu. assert (f ∈ fixed_names) as (H1 & _ & H3 & H4)%fixed_names_ok.
  { change fixed_names with (["ready"; "status"; "public-key"] ++ (store_routes e).*1).
    apply elem_of_app. right. apply list_elem_of_fmap. by exists (f, g). }
  apply (mux_ServeHTTP_exact _ f g); rewrite ?Hp; try done.
  - apply paths_only_unqualified. unfold paths_only, with_paths. by repeat constructor.
  - apply with_paths_serves; [|done]. by apply (bool_decide_unpack (NoDup (store_routes e).*1)).
Qed.

(** ** Properties of every run *)

(** C5: no way around the checks.  Through the whole server - logging, body
    cap, rate limiting and both multiplexers - a request for /retrieve is
    answered 200 if and only if a share is releasable to it: what the handler
    checks is checked of every request that reaches it.  (Unless
    HEALTH_CHECK_PATH is a pattern that takes the route over.) *)
Theorem server_retrieve_200_iff {SL : ShareStoreLaws DB} e cfg h r n :
  buildMux e cfg = Ret h → health_takes cfg "/retrieve" = false →
  usable (db n) → globalIPLimiter n = None →
  r_Path r = "/retrieve" → r_RequestURI r ≠ "*" →
  reply_code h r n = Some StatusOK ↔ ∃ req p, releasable e (routed_request cfg r) n req p.
Proof.
  intros Hb Hroot Hu Hi Hp Hr. rewrite <- Hp in Hroot.
  rewrite (server_reply e cfg h r n "retrieve" (rateLimitMiddleware e (storeMux e)));
    try done; [|unfold fixed_routes; do 4 right; left; done].
  destruct (request_id_eq r n) as (id & b & ->). cbn [fst snd].
  unfold rateLimitMiddleware. rewrite bind_get_state. cbn [globalIPLimiter set_rnd]. rewrite Hi.
  rewrite (storeMux_serve e _ "retrieve" (handleRetrieveShare e)) by (by repeat constructor).
  set (w := id_resp _ _).
  destruct (handleRetrieveShare_outcome e (routed_request cfg r) (set_rnd b n) w Hu eq_refl)
    as [(req & p & m & Hrel & ->)|[Hn [(msg & code & n' & w' & -> & Hw & Hc & _)|(msg & n' & w' & -> & _)]]].
  - split; [|done]. intros _. by exists req, p.
  - split; [|by intros (req & p & ?%Hn)]. rewrite http_Error_code by done. intros [= ->].
    exfalso. revert Hc. unfold StatusOK. set_solver.
  - split; [done|]. by intros (req & p & ?%Hn).
Qed.

(** The two endpoints that read a body, at their routes. *)
Definition body_handler (e : Env) (r : Request) : Handler Node :=
  if decide (r_Path r = "/retrieve") then handleRetrieveShare e else handleStoreShare.

Lemma body_route e cfg r :
  r_RequestURI r ≠ "*" → r_Path r = "/retrieve" ∨ r_Path r = "/store" ∧ StoreAPIKey cfg = "" →
  ∃ f g, (f, g) ∈ fixed_routes e cfg ∧ r_Path r = "/" +:+ f ∧
    ∀ n w, globalIPLimiter n = None →
      g (routed_request cfg r) (n, w) = body_handler e r (routed_request cfg r) (n, w).
Proof.
  unfold body_handler. intros Hu [Hp|[Hp Hk]]; do 2 eexists.
  - split; [by do 4 right; left|]. split; [done|]. intros n w Hi.
    unfold rateLimitMiddleware. rewrite bind_get_state, Hi, decide_True by done.
    by rewrite (storeMux_serve e _ "retrieve" (handleRetrieveShare e)) by (by repeat constructor).
  - split; [by do 3 right; left|]. split; [done|]. intros n w Hi.
    rewrite decide_False by congruence. unfold apiKeyMiddleware. rewrite decide_True by done.
    by rewrite (storeMux_serve e _ "store" handleStoreShare) by (by repeat constructor).
Qed.

(** The handlers look at a body only as what it decodes to. *)
Lemma body_handler_body e r r' b st :
  decode_body b = decode_body (r_Body r') → body_handler e r (set_body b r') st = body_handler e r r' st.
Proof.
  intros Hd. unfold body_handler. case_decide; [unfold handleRetrieveShare|unfold handleStoreShare];
    cbn [r_Method r_Header r_Body set_body]; [unfold decode_retrieve|unfold decode_store]; by rewrite Hd.
Qed.

(** C29: the cap on bodies.  A JSON body of a POST to /store or /retrieve that is
    no longer than MAX_BODY_SIZE_MB allows is served by the whole server as the
    handler alone, with no cap, serves it: the same reply, and the same state up
    to the log.  A longer one is answered 400, whatever it would have decoded to,
    and changes nothing but the log.  The cap is MAX_BODY_SIZE_MB mebibytes below
    2^43 of them; when the product overflows to a negative number, every body is
    too long. *)
Theorem server_body_cap e cfg h r n v :
  buildMux e cfg = Ret h → health_takes cfg (r_Path r) = false → globalIPLimiter n = None →
  r_RequestURI r ≠ "*" → r_Path r = "/retrieve" ∨ r_Path r = "/store" ∧ StoreAPIKey cfg = "" → r_Method r = MethodPost →
  r_Body r = Some (mkBody (render v) None) → wf v → (depth v ≤ maxNestingDepth)%N →
  (0 ≤ MaxBodySizeMB cfg < 2 ^ 43 → maxBodyBytes cfg = MaxBodySizeMB cfg * 2 ^ 20) ∧
  (slen (render v) ≤ Z.max 0 (maxBodyBytes cfg) →
     let '(o, (n', w')) := body_handler e r r ((request_id r n).2, id_resp r n) in
     up_to_log (o, n', w') (serve h r n)) ∧
  (Z.max 0 (maxBodyBytes cfg) < slen (render v) →
     reply_code h r n = Some StatusBadRequest ∧ ∃ ls b, state_after h r n = set_loggers ls (set_rnd b n)).
Proof.
  intros Hb Hroot Hi Hu Hp Hm Hbody Wv Dv.
  split; [intros Hmb; apply maxBodyBytes_exact; unfold in_int64; lia|].
  assert (decode_body (r_Body (routed_request cfg r)) =
    if decide (slen (render v) ≤ Z.max 0 (maxBodyBytes cfg)) then Some v else None) as Hd.
  { unfold routed_request. cbn [r_Body set_body]. rewrite Hbody. by apply decode_body_capped. }
  destruct (body_route e cfg r Hu Hp) as (f & g & Hin & Hpath & Hg).
  pose proof (server_serve e cfg h r n f g Hb Hroot Hin Hpath Hu Hi) as H.
  destruct (request_id_eq r n) as (id & b & Hid). rewrite Hid in H |- *. cbn [snd] in H |- *.
  rewrite Hg in H by done. split; intros Hl.
  - rewrite decide_True in Hd by done. unfold routed_request in H. rewrite body_handler_body in H; [done|].
    etrans; [exact Hd|]. rewrite Hbody. by rewrite decode_body_render.
  - rewrite decide_False in Hd by lia. set (r' := routed_request cfg r) in *.
    assert (∃ msg, body_handler e r r' (set_rnd b n, id_resp r n) =
      (Ret tt, (set_rnd b n, http_Error msg 400 (id_resp r n)))) as [msg Hrun].
    { unfold body_handler. case_decide; [unfold handleRetrieveShare|unfold handleStoreShare];
        rewrite decide_False by tauto; [unfold decode_retrieve|unfold decode_store]; rewrite Hd; by eexists. }
    rewrite Hrun in H. unfold reply_code, state_after. destruct (serve h r n) as [[o n'] w'].
    destruct H as (ls & Ho & Hn & Hw). cbn [fst snd] in *. subst o n'.
    destruct (Hw eq_refl) as [-> _]. split; [by rewrite http_Error_code|eauto].
Qed.

(** C36: which HEALTH_CHECK_PATH makes the node panic at start-up: one that
    [ServeMux] does not parse; a pattern with neither method nor host that is one
    of the seven fixed paths; and one with a method and no host that stands for
    every path of one segment, as [GET /].  Of the plain paths - rooted, without
    blanks, wildcards and escapes - exactly the seven fixed ones. *)
Theorem buildMux_panics_iff e cfg :
  ((∃ msg, buildMux e cfg = Panic msg) ↔
    ¬ ∃ p, parsePattern (HealthCheckPath cfg) = Ok p ∧ health_pattern_ok p) ∧
  (plain_path (HealthCheckPath cfg) →
    (∃ msg, buildMux e cfg = Panic msg) ↔ ∃ f, f ∈ fixed_names ∧ HealthCheckPath cfg = "/" +:+ f).
Proof.
  assert ((∃ msg, buildMux e cfg = Panic msg) ↔
    ¬ ∃ p, parsePattern (HealthCheckPath cfg) = Ok p ∧ health_pattern_ok p) as Hb.
  { rewrite <- (mux_of_Panic e cfg). unfold buildMux. destruct (mux_of e cfg); naive_solver. }
  split; [done|]. intros (path & Hpath & Hp)%parsePattern_plain. rewrite Hb, Hp, Hpath.
  assert (∀ f, f ∈ fixed_names → plain_segments (Split path "/") = [literal f] ↔ path = f) as Hs.
  { assert (Forall (λ f, Split f "/" = [f]) fixed_names) as Hf by (by repeat constructor).
    rewrite Forall_forall in Hf. intros f Hin. rewrite plain_segments_literal.
    split; [by intros [?%Split_one _]|]. intros ->. split; [auto|by apply fixed_names_ok]. }
  split.
  - intros Hno. destruct (decide (path ∈ fixed_names)) as [Hf|Hf]; [by exists path|].
    exfalso. apply Hno. eexists. split; [done|]. right. cbn. intros f Hin Heq. by apply Hf; apply Hs in Heq as ->.
  - intros (f & Hf & [= ->]) (p & [= <-] & [?|Hok]); [done|]. cbn in Hok. apply (Hok f Hf). by apply Hs.
Qed.

Lemma countShares_db (d : DB) : (countShares d).2 = d.
Proof. unfold countShares, with_bucket. destruct d as [d|]; [|done]. by destruct (bolt_has_bucket _ _). Qed.

Lemma Rotate_db t km n : db (Rotate t km n).2 = db n.
Proof.
  unfold Rotate, on_node_rnd, rand_GenerateKey, spawn. unfold_M.
  destruct (P256_GenerateKey (rnd n)) as [[k r]|]; [|done].
  match goal with |- context [log ?a ?b ?c ?d ?n] => destruct (log_keys a b c d n) as [ls ->] end.
  done.
Qed.

Lemma serve_requests_keeps Q P cfg ers n :
  (∀ e h, buildMux e cfg = Ret h → keeps Q P h) → Forall (λ er, Q er.2) ers → P n →
  P (serve_requests cfg ers n).
Proof.
  intros Hk Hq. revert n. induction Hq as [|[e r] ers Hr Hq IH]; intros n Hn; [done|].
  cbn. apply IH. unfold serve_request. cbn [fst snd].
  destruct (buildMux e cfg) as [h|] eqn:Eb; [|done].
  unfold state_after, serve. pose proof (Hk e h Eb r n new_resp Hr eq_refl Hn).
  by destruct (h r (n, new_resp)) as [o [n' w']].
Qed.

Lemma handleStatus_db e r n w : db (handleStatus e r (n, w)).2.1 = db n.
Proof.
  unfold handleStatus. unfold mbind at 1, M_bind at 1, on_state, on_db, zoom. cbn [fst snd].
  pose proof (countShares_db (db n)) as Hc. destruct (countShares (db n)) as [[[c [err|]]|] d];
    cbn in Hc; subst d; done.
Qed.

Lemma handleReady_state r n w : (handleReady r (n, w)).2.1 = n.
Proof. unfold handleReady. rewrite bind_get_state. by destruct (db n). Qed.

Lemma handleRotateKey_db e r n w : db (handleRotateKey e r (n, w)).2.1 = db n.
Proof.
  unfold handleRotateKey. case_decide; [done|]. rewrite bind_get_state.
  destruct (globalKeyManager n) as [km|]; [|done].
  unfold mbind at 1, M_bind at 1, on_state at 1, zoom. cbn [fst snd].
  pose proof (Rotate_db (now e) km n) as Hr. destruct (Rotate (now e) km n) as [[[err|]|] n'];
    cbn in Hr; [rewrite (bind_on_state _ _ _ _ _ _ (log_eq _ _ _ _ _))| |]; done.
Qed.

Section write_once.
Context {SL : ShareStoreLaws DB}.

(** The store is usable and holds [sh] under [k]. *)
Definition holds (k : string) (sh : StoredShareDB) (n : Node) : Prop :=
  usable (db n) ∧ contents (db n) !! k = Some sh.

Lemma holds_db k sh n n' : db n' = db n → holds k sh n → holds k sh n'.
Proof. unfold holds. by intros ->. Qed.

Lemma holds_stable k sh : stable (holds k sh).
Proof. split; intros; by eapply holds_db. Qed.

Lemma buildMux_keeps_share k sh e cfg h :
  is_Some (Ciphertext sh) → buildMux e cfg = Ret h →
  keeps (λ r, ¬ overwrite_requested r) (holds k sh) h.
Proof.
  intros Hs. apply buildMux_keeps; [done|apply holds_stable|..]; intros r n w Hr Hw [Hu Hk].
  - done.
  - by rewrite handleReady_state.
  - eapply holds_db; [apply handleStatus_db|done].
  - unfold handleGetPublicKey. by case_decide.
  - destruct (handleStoreShare_outcome r n w Hu Hw) as (n' & w' & -> & Hu' & H).
    cbn [fst snd]. destruct (store_payload r) as [[req share]|]; [|by destruct H as [_ ->]].
    destruct H as [(_ & _ & _ & ->)|([?|Hp] & [[_ Hc]|[_ Hd]])]; [done..| |by eapply holds_db].
    split; [done|]. rewrite Hc, lookup_insert_ne; [done|]. intros <-. apply Hp. by rewrite Hk.
  - destruct (handleRetrieveShare_outcome e r n w Hu Hw)
      as [(req & p & m & _ & ->)|[_ [(msg & code & n' & w' & -> & _ & _ & Hd)|(msg & n' & w' & -> & Hd)]]];
      cbn [fst snd]; by eapply holds_db.
  - eapply holds_db; [apply handleRotateKey_db|done].
  - unfold handleSync. by case_decide.
Qed.

(** C7: shares are write-once.  However many requests the server handles, on
    whatever endpoints, as long as none of them sends [X-Overwrite: true], a
    share that is stored stays stored, unchanged. *)
Theorem server_write_once cfg ers n k sh :
  usable (db n) → contents (db n) !! k = Some sh → is_Some (Ciphertext sh) →
  Forall (λ er, ¬ overwrite_requested er.2) ers →
  usable (db (serve_requests cfg ers n)) ∧ contents (db (serve_requests cfg ers n)) !! k = Some sh.
Proof.
  intros Hu Hk Hs Hq. apply (serve_requests_keeps (λ r, ¬ overwrite_requested r) (holds k sh)); try done.
  intros e h. by apply buildMux_keeps_share.
Qed.

End write_once.
End server.

(** ** The node as [main] starts it

    [initDB], [initKeyManager] and [newIPLimiterStore] are called by tests
    only. *)

Section started.
Context {C : Crypto} {B : Bolt} {R : RateLimiter} {X : Xdr} {XC : XdrCodec X} {U : Unicode}.

Definition uninitialised (n : Node) : Prop :=
  db n = None ∧ globalKeyManager n = None ∧ globalIPLimiter n = None.

Lemma uninitialised_stable : stable uninitialised.
Proof. split; try done. intros l l' n Hl (_ & _ & Hn). congruence. Qed.

Lemma main_uninitialised {K : KeyCodec C} {O : Os} {Zl : Zerolog} Getenv date fs r n :
  main_state Getenv date fs r = Ret n → uninitialised n.
Proof.
  unfold main_state, init. destruct (LoadOrGenerateKey _ _) as [[[priv|]|] [fs' r']]; [|done..].
  unfold mbind, outcome_bind. destruct (InitLogger _ _ _ _) as [[u|] [fs2 ls]]; [|done].
  by intros [= <-].
Qed.

Lemma handleRetrieveShare_uninitialised e r n w :
  uninitialised n → uninitialised (handleRetrieveShare e r (n, w)).2.1.
Proof.
  intros Hn. destruct (handleRetrieveShare_cases e r n w)
    as [(req & m & _ & ->)|(_ & msg & code & m & w' & -> & _)]; [|done].
  destruct (authorise_cases e req (set_object_limiters m n) w)
    as [[_ ->]|(_ & msg & code & ls & -> & _)]; [|done].
  unfold release_share. unfold mbind at 1, M_bind at 1, on_state at 1, on_db, zoom. cbn [fst snd].
  destruct Hn as (Hd & Hk & Hi). cbn [set_object_limiters db]. by rewrite Hd.
Qed.

Lemma handleStoreShare_nil r n w :
  db n = None →
  handleStoreShare r (n, w) =
    match store_payload r with
    | None => handleStoreShare r (n, w)
    | Some _ => (Panic nil_deref, (n, w))
    end.
Proof.
  intros Hd. pose proof (handleStoreShare_payload r n w) as Hp.
  destruct (store_payload r) as [[req sh]|]; [|done]. rewrite Hp. unfold store_share.
  case_decide; unfold mbind at 1, M_bind at 1, on_state at 1, on_db, zoom; cbn [fst snd];
    rewrite Hd; cbn; by rewrite <- Hd, set_db_id.
Qed.

Lemma buildMux_keeps_uninitialised e cfg h :
  buildMux e cfg = Ret h → keeps (λ _, True) uninitialised h.
Proof.
  apply buildMux_keeps; [done|apply uninitialised_stable|..]; intros r n w _ Hw Hn.
  - done.
  - by rewrite handleReady_state.
  - unfold handleStatus. unfold mbind at 1, M_bind at 1, on_state at 1, on_db, zoom. cbn [fst snd].
    destruct Hn as (Hd & Hk & Hi). by rewrite Hd.
  - unfold handleGetPublicKey. by case_decide.
  - destruct Hn as (Hd & Hk & Hi). pose proof (handleStoreShare_nil r n w Hd) as Hs.
    pose proof (handleStoreShare_payload r n w) as Hp.
    destruct (store_payload r) as [[req sh]|]; [by rewrite Hs|].
    by destruct Hp as (msg & code & -> & _).
  - by apply handleRetrieveShare_uninitialised.
  - unfold handleRotateKey. case_decide; [done|]. rewrite bind_get_state.
    by rewrite (proj1 (proj2 Hn)).
  - unfold handleSync. by case_decide.
Qed.

(** C25: the node as [main] starts it never opens its database, so that, after
    any requests whatever, the readiness probe still answers 503 and, when no
    STORE_API_KEY is set, a well-formed /store request still drops the connection
    (a nil handle is dereferenced).  (Unless HEALTH_CHECK_PATH is a pattern that
    takes the route over.) *)
Theorem main_never_ready {K : KeyCodec C} {O : Os} {Zl : Zerolog} Getenv date fs rd n cfg ers e h r :
  main_state Getenv date fs rd = Ret n → buildMux e cfg = Ret h →
  health_takes cfg (r_Path r) = false → r_RequestURI r ≠ "*" →
  let n' := serve_requests cfg ers n in
  (r_Path r = "/ready" → reply_code h r n' = Some StatusServiceUnavailable) ∧
  (r_Path r = "/store" → StoreAPIKey cfg = "" →
   is_Some (store_payload (routed_request cfg r)) → reply_code h r n' = None).
Proof.
  intros Hm Hb Hroot Hu n'.
  assert (uninitialised n') as Hn.
  { subst n'. apply (serve_requests_keeps (λ _, True)); [|by apply Forall_forall|by eapply main_uninitialised].
    intros e' h'. apply buildMux_keeps_uninitialised. }
  clearbody n'. destruct (request_id_eq r n') as (id & b & Hid). destruct Hn as (Hd & _ & Hi).
  split.
  - intros Hp. rewrite (server_reply e cfg h r n' "ready" handleReady);
      try done; [|by left].
    rewrite Hid. cbn [fst snd]. unfold handleReady. rewrite bind_get_state. cbn [db set_rnd].
    by rewrite Hd.
  - intros Hp Hk [x Hx]. rewrite (server_reply e cfg h r n' "store"
      (apiKeyMiddleware (StoreAPIKey cfg) (storeMux e)));
      try done; [|unfold fixed_routes; do 3 right; left; done].
    rewrite Hid. cbn [fst snd]. unfold apiKeyMiddleware. rewrite decide_True by done.
    rewrite (storeMux_serve e _ "store" handleStoreShare) by (by repeat constructor).
    rewrite handleStoreShare_nil by done. by rewrite Hx.
Qed.

End started.

(** ** Runs *)

Module DemoServer.

Export AsciiNames.
Import DemoShare.
#[local] Existing Instances ToyKeys.codec healthy.

(** The default configuration. *)
Definition cfg : Config := LoadConfig (λ _, "").
Definition served : Handler Node :=
  match buildMux env cfg with Ret h => h | Panic _ => λ _, mret tt end.

#[local] Instance levels : Zerolog := {| zerolog_ParseLevel _ := Some InfoLevel |}.

Definition started : Node :=
  match main_state (λ _, "") "2024-01-02" ∅ (replicate 64 "r"%char) with Ret n => n | Panic _ => node None end.

Lemma server_write_once_witness :
  usable (db (serve_requests cfg [(env, store_post); (env, retrieve_post)] (node stored))) ∧
  contents (db (serve_requests cfg [(env, store_post); (env, retrieve_post)] (node stored))) !! key =
    Some share.
Proof.
  apply server_write_once; [apply stored_usable..|by eexists|].
  repeat constructor; by vm_compute.
Defined.

Lemma server_retrieve_200_iff_witness :
  reply_code served retrieve_post (node stored) = Some StatusOK.
Proof.
  apply (server_retrieve_200_iff env cfg); try done; [apply stored_usable|].
  exists retrieve, (bytes_of "share"). destruct retrieve_releasable as (_ & Ha & Hs).
  split; [|by split]. exists (checkObjectRateLimit 0 object ∅).2.
  repeat split; try (vm_compute; done).
Defined.

(** A node that accepts bodies of 0 MB. *)
Definition no_bodies : Config := LoadConfig (λ v, if decide (v = "MAX_BODY_SIZE_MB") then "0" else "").
Definition no_bodies_served : Handler Node :=
  match buildMux env no_bodies with Ret h => h | Panic _ => λ _, mret tt end.

Lemma server_body_cap_witness :
  (let '(o, (n', w')) := body_handler env retrieve_post retrieve_post
     ((request_id retrieve_post (node stored)).2, id_resp retrieve_post (node stored)) in
   up_to_log (o, n', w') (serve served retrieve_post (node stored))) ∧
  reply_code no_bodies_served retrieve_post (node stored) = Some StatusBadRequest.
Proof.
  assert (wf (retrieve_req_json retrieve)) as W
    by (cbn; repeat split; apply (utf8b_sound 1000); vm_compute; reflexivity).
  split.
  - destruct (server_body_cap env cfg served retrieve_post (node stored) (retrieve_req_json retrieve)
      eq_refl eq_refl eq_refl) as (_ & H & _);
      [by vm_compute|by left|done|done|exact W|by vm_compute|].
    apply H. apply Z.leb_le. vm_compute. reflexivity.
  - eapply (server_body_cap env no_bodies no_bodies_served retrieve_post (node stored)
      (retrieve_req_json retrieve)); try done; by left.
Defined.

(** Configurations by their health-check path. *)
Definition with_health (p : string) : Config :=
  LoadConfig (λ v, if decide (v = "HEALTH_CHECK_PATH") then p else "").

Lemma buildMux_panics_iff_witness :
  (∃ msg, buildMux env (with_health "/retrieve") = Panic msg) ∧
  (∃ msg, buildMux env (with_health "/{x") = Panic msg) ∧
  (∃ msg, buildMux env (with_health "GET /") = Panic msg).
Proof.
  split; [|split].
  - apply (proj2 (buildMux_panics_iff env (with_health "/retrieve"))).
    + split; [done|]. by repeat constructor.
    + exists "retrieve". split; [|done]. by apply (bool_decide_unpack _).
  - apply (proj1 (buildMux_panics_iff env (with_health "/{x"))). by intros (p & Hp & _).
  - apply (proj1 (buildMux_panics_iff env (with_health "GET /"))). intros (p & [= <-] & [?|Hok]); [done|].
    cbn in Hok. by specialize (Hok _ eq_refl).
Defined.

(** A health-check pattern with a method takes the place of a fixed route: with
    [POST /retrieve] the node starts, and answers every retrieval as a probe. *)
Example health_takes_over :
  health_takes (with_health "POST /retrieve") "/retrieve" = true ∧
  ∃ h, buildMux env (with_health "POST /retrieve") = Ret h ∧
    reply_code h retrieve_post (node None) = Some StatusOK.
Proof. split; [done|]. eexists. split; [reflexivity|]. by vm_compute. Qed.

Lemma main_never_ready_witness :
  reply_code served store_post
    (serve_requests cfg [(env, store_post); (env, retrieve_post)] started) = None.
Proof.
  apply (main_never_ready (λ _, "") "2024-01-02" ∅ (replicate 64 "r"%char) started cfg
    [(env, store_post); (env, retrieve_post)] env served store_post); done.
Defined.

End DemoServer.
