(* ===== verification/NodeSpec.v ===== *)
(** * What a node promises

    The node as its clients see it: a map of shares, the key in use and the ring
    of its versions.  A step of this abstract node is a request with its reply;
    the requests that change it are a successful /store and a successful
    /rotate-key, and what it reveals is its public key and the shares it
    releases.  The server of [Server.v], with the goroutines it spawns, refines
    it: every run of the server is a run of the abstract node, with the same
    replies. *)

From S2P Require Import Prelude GoStrings Encoding Json JsonStruct Bucket Store Crypto NodeCrypto.
From S2P Require Import Http SorobanTx RateLimit FileSystem Keystore Logger Node Middleware.
From S2P Require Import Handlers Config Pattern Mux Server.

(** What a client gets: a status and a body; [None] when the connection is
    dropped. *)
Abbreviation reply := (option (Z * string)).

Section spec.
Context {C : Crypto} {B : Bolt} {R : RateLimiter} {X : Xdr} {XC : XdrCodec X} {U : Unicode}.

(** ** The abstract node *)

Record ANode := mkANode {
  a_shares : gmap string StoredShareDB;
  a_key : privkey;
  a_ring : option (Z * gmap Z privkey);
  a_rpc : string;
}.

(** The request carries the API key of the store, if there is one. *)
Definition keyed (key : string) (r : Request) : Prop :=
  key = "" ∨ Header_Get (r_Header r) "X-Api-Key" = key.

Definition public_key_response (k : pubkey) : json :=
  JObj [("public_key", JStr (Hex.EncodeToString (pub_Bytes k)))].

(** The paths whose successful requests change the node or reveal its secrets. *)
Definition guarded_paths : list string := ["/store"; "/rotate-key"; "/retrieve"; "/public-key"].

(** One request [r], as it reaches the routes of a node. *)
Inductive abs_step (cfg : Config) (e : Env) (r : Request) : ANode → reply → ANode → Prop :=
| step_store req sh body a :
    r_Path r = "/store" → keyed (StoreAPIKey cfg) r → store_payload r = Some (req, sh) →
    let k := share_key (sr_ContractID req) (sr_ObjectID req) in
    overwrite_requested r ∨ ¬ is_Some (a_shares a !! k ≫= Ciphertext) →
    abs_step cfg e r a (Some (200, body))
      (mkANode (<[k := sh]> (a_shares a)) (a_key a) (a_ring a) (a_rpc a))
| step_rotate k v ks body a :
    r_Path r = "/rotate-key" → keyed (StoreAPIKey cfg) r → r_Method r = MethodPost → a_ring a = Some (v, ks) →
    let v' := uint64 (v + 1) in
    abs_step cfg e r a (Some (200, body))
      (mkANode (a_shares a) k (Some (v', <[v' := k]> ks)) (a_rpc a))
| step_release req sh c p a :
    r_Path r = "/retrieve" → decode_retrieve (r_Body r) = Some req → authorised e (a_rpc a) req →
    a_shares a !! share_key (rr_ContractID req) (rr_ObjectID req) = Some sh →
    Ciphertext sh = Some c →
    DecryptShare (a_key a) (slice_bytes (EphemeralPubKey sh)) c (slice_bytes (Nonce sh)) =
      Ret (Ok p) →
    abs_step cfg e r a (Some (200, Encode (retrieve_response p))) a
| step_public_key a :
    r_Path r = "/public-key" → r_Method r = MethodGet →
    abs_step cfg e r a (Some (200, Encode (public_key_response (PublicKey (a_key a))))) a
| step_health a :
    health_takes cfg (r_Path r) = true →
    abs_step cfg e r a (Some (200, Encode (health_response e))) a
| step_other rep a :
    r_Path r ∉ guarded_paths ∨ (∀ body, rep ≠ Some (200, body)) →
    abs_step cfg e r a rep a.

(** ** The node it abstracts *)

Definition abs `{ShareStoreLaws DB} (n : Node) : ANode :=
  mkANode (contents (db n)) (nodePrivateKey n)
    ((λ km, (currentVersion km, keys km)) <$> globalKeyManager n) (sorobanRPCURL n).

(** The node is in order: its store works, its public key is its private key's,
    and the key manager has that key as its current version. *)
Definition node_ok `{ShareStoreLaws DB} (n : Node) : Prop :=
  usable (db n) ∧ nodePublicKey n = PublicKey (nodePrivateKey n) ∧
  match globalKeyManager n with
  | None => True
  | Some km => keys km !! currentVersion km = Some (nodePrivateKey n) ∧
      0 ≤ currentVersion km < 2 ^ 64
  end.

Definition reply_of (x : outcome unit * Node * RespWriter) : reply :=
  match x.1.1 with
  | Ret _ => Some (final_code x.2, rw_body x.2)
  | Panic _ => None
  end.

Context {SS : ShareStore DB} {SL : ShareStoreLaws DB}.

(** ** Refinement, handler by handler

    [h] refines the abstract node on the requests that satisfy [Q]. *)
Definition refines (cfg : Config) (e : Env) (Q : Request → Prop) (h : Handler Node) : Prop :=
  ∀ r n w, Q r → rw_code w = None → rw_body w = "" → node_ok n →
    let '(o, (n', w')) := h r (n, w) in
    node_ok n' ∧ abs_step cfg e r (abs n) (reply_of (o, n', w')) (abs n').

(** Changes that the abstract node does not show. *)
Definition same_abs (n n' : Node) : Prop := abs n' = abs n ∧ (node_ok n → node_ok n').

Lemma same_abs_log ls n : same_abs n (set_loggers ls n).
Proof. by split. Qed.

Section handlers.
Context (cfg : Config) (e : Env).
#[local] Abbreviation key := (StoreAPIKey cfg).

(** A handler that leaves the abstract node alone and does not answer 200, or
    is not on a guarded path. *)
Lemma step_quiet r n n' o w' :
  same_abs n n' → node_ok n →
  (r_Path r ∉ guarded_paths ∨ (o = Ret tt → final_code w' ≠ 200)) →
  node_ok n' ∧ abs_step cfg e r (abs n) (reply_of (o, n', w')) (abs n').
Proof.
  intros [-> Hok] Hn Hq. split; [by apply Hok|]. apply step_other.
  destruct Hq as [|Hc]; [by left|right]. intros body. destruct o as [[]|]; [|done].
  intros [= Hf _]. by apply Hc.
Qed.

Lemma http_Error_quiet r n n' msg code w' :
  same_abs n n' → node_ok n → rw_code w' = None → code ≠ 200 →
  node_ok n' ∧ abs_step cfg e r (abs n) (reply_of (Ret tt, n', http_Error msg code w')) (abs n').
Proof. intros. apply step_quiet; [done..|right]. intros _. by rewrite http_Error_code. Qed.

Lemma refines_weaken (Q Q' : Request → Prop) h :
  (∀ r, Q r → Q' r) → refines cfg e Q' h → refines cfg e Q h.
Proof. intros HQ Hh r n w Hr. apply Hh. auto. Qed.

Lemma handleHealth_refines :
  refines cfg e (λ r, r_Path r ∉ guarded_paths ∨ health_takes cfg (r_Path r) = true) (handleHealth e).
Proof.
  intros r n w [Hr|Hr] Hw Hb Hn; [apply step_quiet; [by split|done|by left]|].
  unfold handleHealth, set_json. rewrite bind_on_resp. split; [done|].
  unfold reply_of, encode_json, on_resp, modify, Write, send_header, final_code. cbn [fst snd].
  cbn [rw_code rw_body Header_Set]. rewrite Hw, Hb. cbn -[Encode health_response].
  by apply step_health.
Qed.

Lemma handleReady_refines : refines cfg e (λ r, r_Path r ∉ guarded_paths) handleReady.
Proof.
  intros r n w Hr Hw Hb Hn. unfold handleReady. rewrite bind_get_state.
  destruct (db n); (apply step_quiet; [by split|done|by left]).
Qed.

Lemma handleStatus_refines : refines cfg e (λ r, r_Path r ∉ guarded_paths) (handleStatus e).
Proof.
  intros r n w Hr Hw Hb Hn. unfold handleStatus.
  unfold mbind at 1, M_bind at 1, on_state, on_db, zoom. cbn [fst snd].
  pose proof (countShares_db (db n)) as Hc.
  destruct (countShares (db n)) as [[[c [err|]]|] d]; cbn in Hc; subst d; rewrite set_db_id;
    (apply step_quiet; [by split|done|by left]).
Qed.

Lemma handleSync_refines : refines cfg e (λ r, r_Path r ∉ guarded_paths) handleSync.
Proof.
  intros r n w Hr Hw Hb Hn. unfold handleSync.
  case_decide; (apply step_quiet; [by split|done|by left]).
Qed.

Lemma handleGetPublicKey_refines : refines cfg e (λ r, r_Path r = "/public-key") handleGetPublicKey.
Proof.
  intros r n w Hr Hw Hb Hn. unfold handleGetPublicKey. case_decide as Hm.
  { by apply http_Error_quiet. }
  unfold set_json. rewrite bind_on_resp, bind_get_state. split; [done|].
  unfold reply_of, encode_json, on_resp, modify, Write, send_header, final_code. cbn [fst snd].
  cbn [rw_code rw_body Header_Set]. rewrite Hw, Hb. cbn -[Encode].
  destruct Hn as (_ & -> & _). by apply step_public_key.
Qed.

(** /store. *)
Lemma handleStoreShare_refines :
  refines cfg e (λ r, r_Path r = "/store" ∧ keyed key r) handleStoreShare.
Proof.
  intros r n w [Hr Hk] Hw Hb Hn. destruct Hn as (Hu & Hp & Hkm).
  destruct (handleStoreShare_frame r n w Hu) as (d & ls & Hf).
  destruct (handleStoreShare_outcome r n w Hu Hw) as (n' & w' & Hrun & Hu' & H).
  rewrite Hrun in Hf |- *. cbn [fst snd] in Hf.
  assert (node_ok n') as Hn' by (rewrite Hf in Hu' |- *; done).
  assert (db n' = db n → same_abs n n') as Hsame.
  { intros Hd. split; [|done]. unfold abs. rewrite Hd, Hf. done. }
  destruct (store_payload r) as [[req sh]|] eqn:Epay.
  2: { destruct H as [Hc ->]. apply step_quiet; [by split|done|right]. intros _ Hc'. rewrite Hc' in Hc. set_solver. }
  destruct H as [(_ & _ & Hc & ->)|[Hpre [[Hc Hcont]|[Hc Hd]]]].
  - apply step_quiet; [by split|done|right]. intros _. by rewrite Hc.
  - split; [done|]. unfold reply_of. cbn [fst snd]. rewrite Hc.
    replace (abs n') with (mkANode (<[share_key (sr_ContractID req) (sr_ObjectID req) := sh]>
      (a_shares (abs n))) (a_key (abs n)) (a_ring (abs n)) (a_rpc (abs n)))
      by (unfold abs; rewrite Hcont, Hf; done).
    by eapply step_store.
  - apply step_quiet; [by apply Hsame|done|right]. intros _. by rewrite Hc.
Qed.

(** /retrieve changes nothing but the limiters and the log. *)
Lemma handleRetrieveShare_frame r n w :
  usable (db n) → ∃ m ls, (handleRetrieveShare e r (n, w)).2.1 =
    set_loggers ls (set_object_limiters m n).
Proof.
  intros Hu. destruct (handleRetrieveShare_cases e r n w)
    as [(req & m & _ & ->)|(_ & msg & code & m & w' & -> & _)];
    [|exists m, (loggers n); by destruct n].
  destruct (authorise_cases e req (set_object_limiters m n) w)
    as [[_ ->]|(_ & msg & code & ls & -> & _)]; [|by exists m, ls].
  rewrite release_share_eq by done.
  assert (∃ ls, set_object_limiters m n = set_loggers ls (set_object_limiters m n)) as [ls Hls]
    by (exists (loggers n); by destruct n).
  destruct (contents _ !! _) as [[ek [c|] nc]|]; [|exists m, ls; exact Hls..].
  destruct (DecryptShare _ _ _ _) as [[p|err]|msg]; [|exists m, ls; exact Hls..].
  unfold logRetrieveOutcome. rewrite log_eq. by eexists m, _.
Qed.

Lemma handleRetrieveShare_refines :
  refines cfg e (λ r, r_Path r = "/retrieve") (handleRetrieveShare e).
Proof.
  intros r n w Hr Hw Hb Hn. pose proof (proj1 Hn) as Hu.
  destruct (handleRetrieveShare_frame r n w Hu) as (m & ls & Hf).
  assert (same_abs n (handleRetrieveShare e r (n, w)).2.1) as Hsame by (rewrite Hf; done).
  destruct (handleRetrieveShare_outcome e r n w Hu Hw)
    as [(req & p & m' & Hrel & Hrun)|[_ [(msg & code & n' & w' & Hrun & Hw' & Hc & _)
       |(msg & n' & w' & Hrun & _)]]]; rewrite Hrun in Hsame |- *; cbn [fst snd] in Hsame.
  - destruct Hsame as [-> Hok]. split; [by apply Hok|].
    unfold reply_of, Write, send_header, final_code. cbn [fst snd rw_code rw_body Header_Set].
    rewrite Hw, Hb. cbn -[Encode retrieve_response].
    destruct Hrel as ((m0 & _ & Hd & _) & Hau & sh & c & Hs & Hct & Hdec).
    rewrite string_app_nil_l. by eapply step_release.
  - apply http_Error_quiet; [done..|]. intros ->. set_solver.
  - apply step_quiet; [done..|by right].
Qed.

(** /rotate-key. *)
Lemma handleRotateKey_refines :
  refines cfg e (λ r, r_Path r = "/rotate-key" ∧ keyed key r) (handleRotateKey e).
Proof.
  intros r n w [Hr Hkd] Hw Hb Hn. unfold handleRotateKey. case_decide as Hm.
  { by apply http_Error_quiet. }
  rewrite bind_get_state. destruct (globalKeyManager n) as [km|] eqn:Ekm; [|by apply http_Error_quiet].
  destruct (P256_GenerateKey (rnd n)) as [[k rest]|err] eqn:Hk.
  - destruct (Rotate_eq (now e) km n k rest Hk) as [ls Hrot].
    rewrite (bind_on_state _ _ _ _ _ _ Hrot). unfold set_json. rewrite bind_on_resp, bind_get_state.
    split.
    { destruct Hn as (Hu & _ & _). split; [done|]. split; [done|]. cbn. split; [apply lookup_insert_eq|].
      unfold uint64. apply Z.mod_pos_bound. done. }
    unfold reply_of, encode_json, on_resp, modify, Write, send_header, final_code.
    cbn [fst snd rw_code rw_body Header_Set]. rewrite Hw. cbn -[Encode].
    apply (step_rotate _ _ _ k (currentVersion km) (keys km)); [done..|].
    cbn. by rewrite Ekm.
  - rewrite (bind_on_state _ _ _ _ _ _ (Rotate_err _ _ _ _ Hk)).
    rewrite (bind_on_state _ _ _ _ _ _ (log_eq _ _ _ _ _)), fail_with_eq. by apply http_Error_quiet.
Qed.

(** *** Middleware and routes *)

Lemma apiKeyMiddleware_refines Q h :
  refines cfg e (λ r, Q r ∧ keyed key r) h → refines cfg e Q (apiKeyMiddleware key h).
Proof.
  intros Hh r n w Hr Hw Hb Hn. unfold apiKeyMiddleware.
  case_decide as Hk; [apply Hh; try done; by split; [|left]|].
  destruct (secureStringEqual _ key) eqn:E; cbn [negb].
  - apply secureStringEqual_iff in E. apply Hh; try done. by split; [|right].
  - rewrite (bind_on_state _ _ _ _ _ _ (log_eq _ _ _ _ _)). unfold unauthorizedResponse.
    rewrite !bind_on_resp. apply step_quiet; [by split|done|right]. intros _.
    unfold final_code, Write, WriteHeader, send_header. cbn. by rewrite Hw.
Qed.

Lemma rateLimitMiddleware_refines Q h :
  refines cfg e Q h → refines cfg e Q (rateLimitMiddleware e h).
Proof.
  intros Hh r n w Hr Hw Hb Hn. unfold rateLimitMiddleware. rewrite bind_get_state.
  destruct (globalIPLimiter n) as [l|] eqn:El; [|by apply Hh].
  destruct (ip_Allow_Ret (now e) (remote_ip (r_RemoteAddr r)) l) as (ok & l' & -> & _).
  erewrite bind_on_state by done.
  destruct ok; cbn [negb]; [by apply (Hh r (set_ip_limiter (Some l') n) w)|].
  rewrite bind_on_resp, fail_with_eq. by apply http_Error_quiet.
Qed.

(** A multiplexer hands each handler the requests its pattern is found for. *)
Definition found (mux : Mux Node) (r : Request) (x : pattern * Handler Node) : Prop :=
  ∃ host, tree_match mux host (r_Method r) (r_Path r) = Some x.

Lemma mux_ServeHTTP_refines (Q : Request → Prop) mux :
  (∀ p h, (p, h) ∈ mux → refines cfg e (λ r, Q r ∧ found mux r (p, h)) h) →
  refines cfg e Q (mux_ServeHTTP mux).
Proof.
  intros Hh r n w Hr Hw Hb Hn.
  destruct (mux_ServeHTTP_cases mux r n w) as [(w' & -> & Hq)|(host & [p h] & Hm & ->)].
  - apply step_quiet; [by split|done|right]. intros _. by apply Hq.
  - pose proof (tree_match_elem _ _ _ _ _ Hm) as [Hin _]. apply (Hh p h Hin); [|done..].
    split; [done|by exists host].
Qed.

(** What is found for a literal path was asked for. *)
Lemma found_literal mux r f h :
  f ∈ fixed_names → found mux r (literal_path f, h) → r_Path r = "/" +:+ f.
Proof.
  intros (Hf & Hf' & _)%fixed_names_ok (host & [_ Hm]%tree_match_elem).
  apply segments_match_literal in Hm; [|done]. by apply path_segments_one in Hm.
Qed.

Lemma storeMux_refines (Q : Request → Prop) :
  (∀ r, Q r → r_Path r = "/retrieve" ∨ keyed key r) → refines cfg e Q (storeMux e).
Proof.
  intros HQ. apply mux_ServeHTTP_refines. intros p h Hin.
  unfold with_paths, store_routes in Hin. cbn [fmap list_fmap fst snd] in Hin. rewrite !elem_of_cons in Hin.
  destruct Hin as [H|[H|[H|[H|H%not_elem_of_nil]]]]; [..|done]; injection H as -> ->;
    (eapply refines_weaken; [|first [apply handleStoreShare_refines|apply handleRetrieveShare_refines
      |apply handleRotateKey_refines|apply handleSync_refines]]); intros r [Hr Hp];
    (apply found_literal in Hp; [|by apply (bool_decide_unpack _)]).
  - by destruct (HQ r Hr) as [Hr'|]; [rewrite Hp in Hr'|].
  - done.
  - by destruct (HQ r Hr) as [Hr'|]; [rewrite Hp in Hr'|].
  - rewrite Hp. by apply (bool_decide_unpack ("/sync" ∉ guarded_paths)).
Qed.

End handlers.

(** *** The server *)

Lemma routes_refines e cfg p :
  parsePattern (HealthCheckPath cfg) = Ok p → health_pattern_ok p →
  refines cfg e (λ _, True) (mux_ServeHTTP (routes e cfg p)).
Proof.
  intros Hp Hok. apply mux_ServeHTTP_refines. intros q h Hin.
  assert (∀ f, f ∈ fixed_names → q = literal_path f →
    ∀ r, True ∧ found (routes e cfg p) r (q, h) → r_Path r = "/" +:+ f) as Hown.
  { intros f Hf -> r [_ Hm]. by eapply found_literal. }
  assert (∀ f, f ∈ fixed_names → "/" +:+ f ∉ guarded_paths → q = literal_path f →
    ∀ r, True ∧ found (routes e cfg p) r (q, h) → r_Path r ∉ guarded_paths) as Hfree.
  { intros f Hf Hg Hq r Hr. by rewrite (Hown f Hf Hq r Hr). }
  unfold routes, with_paths, fixed_routes in Hin. cbn [fmap list_fmap fst snd] in Hin.
  rewrite !elem_of_cons in Hin.
  destruct Hin as [H|[H|[H|[H|[H|[H|[H|[H|H%not_elem_of_nil]]]]]]]]; [..|done]; injection H as -> ->.
  - eapply refines_weaken; [|apply handleHealth_refines]. intros r [_ [host Hm]].
    destruct (health_takes cfg (r_Path r)) eqn:Ht; [by right|left]. intros Hg.
    assert (∃ f g, (f, g) ∈ fixed_routes e cfg ∧ r_Path r = "/" +:+ f) as (f & g & Hf & Hpath).
    { revert Hg. unfold guarded_paths, fixed_routes. rewrite !elem_of_cons. intros Hg.
      destruct Hg as [Hg|[Hg|[Hg|[Hg|Hg%not_elem_of_nil]]]]; [..|done]; do 2 eexists;
        (split; [|exact Hg]); rewrite !elem_of_cons; tauto. }
    rewrite Hpath in Ht. destruct (routes_serve e cfg p f g Hp Hok Ht Hf) as [Ho Hs].
    assert (f ∈ fixed_names) as (H1 & _ & H3 & _)%fixed_names_ok.
    { change fixed_names with (fixed_routes e cfg).*1. apply list_elem_of_fmap. by exists (f, g). }
    rewrite (tree_match_literal _ _ _ _ f g) in Hm by (done || by rewrite Hpath).
    injection Hm as <- _. destruct Hok as [|Hok]; [done|]. cbn in Hok. apply (Hok f); [|done].
    change fixed_names with (fixed_routes e cfg).*1. apply list_elem_of_fmap. by exists (f, g).
  - eapply refines_weaken; [by eapply (Hfree "ready"); [apply (bool_decide_unpack _)..|]|].
    apply handleReady_refines.
  - eapply refines_weaken; [by eapply (Hfree "status"); [apply (bool_decide_unpack _)..|]|].
    apply handleStatus_refines.
  - eapply refines_weaken; [by eapply (Hown "public-key"); [apply (bool_decide_unpack _)|]|].
    apply handleGetPublicKey_refines.
  - apply apiKeyMiddleware_refines, storeMux_refines. intros r [_ ?]. by right.
  - apply rateLimitMiddleware_refines, storeMux_refines. intros r Hr. left.
    by apply (Hown "retrieve") in Hr; [|apply (bool_decide_unpack _)|].
  - apply apiKeyMiddleware_refines, storeMux_refines. intros r [_ ?]. by right.
  - apply apiKeyMiddleware_refines, storeMux_refines. intros r [_ ?]. by right.
Qed.

(** One request through the whole server is a step of the abstract node. *)
Lemma server_step e cfg h r n :
  buildMux e cfg = Ret h → node_ok n →
  node_ok (serve h r n).1.2 ∧
  abs_step cfg e (routed_request cfg r) (abs n) (reply_of (serve h r n))
    (abs (serve h r n).1.2).
Proof.
  unfold buildMux. destruct (mux_of e cfg) as [mux|] eqn:Hm; [|done].
  apply mux_of_Ret in Hm as (p & Hp & Hok & ->). intros [= <-] Hn. unfold chain.
  set (inner := rateLimitMiddleware e (mux_ServeHTTP (routes e cfg p))).
  pose proof (loggingMiddleware_serve e (bodySizeLimitMiddleware (maxBodyBytes cfg) inner) r n) as H.
  destruct (request_id_eq r n) as (id & b & Hid). rewrite Hid in H. cbn [snd] in H.
  assert (bodySizeLimitMiddleware (maxBodyBytes cfg) inner (buffered r) = inner (routed_request cfg r))
    as Hr by (unfold bodySizeLimitMiddleware, routed_request, buffered; by destruct (r_Body r)).
  rewrite Hr in H.
  pose proof (rateLimitMiddleware_refines cfg e _ _ (routes_refines e cfg p Hp Hok)
    (routed_request cfg r) (set_rnd b n) (id_resp r n) I eq_refl eq_refl Hn) as Hstep.
  fold inner in Hstep. destruct (inner _ _) as [o [n' w']]. destruct Hstep as [Hn' Hstep].
  destruct (serve _ r n) as [[o' n''] w'']. destruct H as (ls & Ho & Hn'' & Hw).
  cbn [fst snd] in *. subst o' n''. split; [done|].
  replace (reply_of (o, set_loggers ls n', w'')) with (reply_of (o, n', w')); [done|].
  unfold reply_of. cbn [fst snd]. destruct o as [[]|]; [|done]. by destruct (Hw eq_refl) as [-> ->].
Qed.

(** ** Runs *)

(** What happens to a node: a request, in the environment of its moment, or a
    turn of a goroutine it has spawned. *)
Inductive node_event := Arrives (e : Env) (r : Request) | Background.

(** The requests of a run, with their replies. *)
Abbreviation trace := (list (Env * Request * reply)).

(** A node whose routes cannot be registered does not listen. *)
Fixpoint run_events (cfg : Config) (evs : list node_event) (n : Node) : trace * Node :=
  match evs with
  | [] => ([], n)
  | Background :: evs => run_events cfg evs (run_goroutine n).2
  | Arrives e r :: evs =>
      match buildMux e cfg with
      | Panic _ => let '(tr, n') := run_events cfg evs n in ((e, r, None) :: tr, n')
      | Ret h =>
          let x := serve h r n in
          let '(tr, n') := run_events cfg evs x.1.2 in ((e, r, reply_of x) :: tr, n')
      end
  end.

(** The runs of the abstract node. *)
Inductive abs_run (cfg : Config) : ANode → trace → ANode → Prop :=
| run_nil a : abs_run cfg a [] a
| run_cons a e r rep b tr c :
    abs_step cfg e (routed_request cfg r) a rep b → abs_run cfg b tr c →
    abs_run cfg a ((e, r, rep) :: tr) c.

Lemma run_goroutine_same n : same_abs n (run_goroutine n).2.
Proof. destruct (run_goroutine_frame n) as (g & ls & ->). by split. Qed.

Lemma run_step cfg evs n :
  node_ok n → node_ok (run_events cfg evs n).2 ∧
  abs_run cfg (abs n) (run_events cfg evs n).1 (abs (run_events cfg evs n).2).
Proof.
  revert n. induction evs as [|[e r|] evs IH]; intros n Hn; cbn [run_events].
  - split; [done|constructor].
  - destruct (buildMux e cfg) as [h|] eqn:Hb.
    + destruct (server_step e cfg h r n Hb Hn) as [Hn' Hs]. specialize (IH _ Hn').
      destruct (run_events cfg evs _) as [tr n'] eqn:Er. cbn [fst snd] in *. destruct IH as [IHok IH].
      split; [done|]. by econstructor.
    + specialize (IH _ Hn). destruct (run_events cfg evs n) as [tr n']. cbn [fst snd] in *.
      destruct IH as [IHok IH]. split; [done|]. econstructor; [|done]. apply step_other. by right.
  - destruct (run_goroutine_same n) as [Ha Hok]. specialize (IH _ (Hok Hn)). by rewrite Ha in IH.
Qed.

(** C2: refinement.  Whatever requests a node in order serves, through its
    whole server, with its goroutines running whenever they do, the replies are
    those of a run of the abstract node: only a well-formed /store request with
    the API key that is allowed to write changes a share, only /rotate-key
    changes the key, and a reply 200 of /retrieve is the plaintext of the share
    that is stored at that moment, to a caller that is authorised - or the
    health check's, when HEALTH_CHECK_PATH is a pattern with a method or a host
    that matches /retrieve. *)
Theorem server_refines cfg evs n :
  node_ok n →
  abs_run cfg (abs n) (run_events cfg evs n).1 (abs (run_events cfg evs n).2).
Proof. apply run_step. Qed.

(** C8: the node stays in order: its store works, its public key belongs to
    its private key, and the key manager's current version is that key, after
    any requests and goroutines. *)
Theorem node_stays_ok cfg evs n : node_ok n → node_ok (run_events cfg evs n).2.
Proof. apply run_step. Qed.

(** ** What follows for clients *)

(** A request in the trace of a run, and the run before it. *)
Lemma run_events_request cfg evs n tr1 tr2 e r rep :
  (run_events cfg evs n).1 = tr1 ++ (e, r, rep) :: tr2 →
  ∃ evs1 evs2, evs = evs1 ++ Arrives e r :: evs2 ∧ (run_events cfg evs1 n).1 = tr1 ∧
    rep = match buildMux e cfg with
          | Ret h => reply_of (serve h r (run_events cfg evs1 n).2)
          | Panic _ => None
          end.
Proof.
  revert n tr1. induction evs as [|[e' r'|] evs IH]; intros n tr1; cbn [run_events].
  - by destruct tr1.
  - set (n1 := match buildMux e' cfg with Ret h => (serve h r' n).1.2 | Panic _ => n end).
    set (rep1 := match buildMux e' cfg with Ret h => reply_of (serve h r' n) | Panic _ => None end).
    assert (∀ evs, run_events cfg (Arrives e' r' :: evs) n =
      ((e', r', rep1) :: (run_events cfg evs n1).1, (run_events cfg evs n1).2)) as Hrun.
    { intros evs'. cbn [run_events]. subst n1 rep1. destruct (buildMux e' cfg); by destruct (run_events _ _ _). }
    specialize (Hrun evs) as Hevs. cbn [run_events] in Hevs. rewrite Hevs. cbn [fst].
    destruct tr1 as [|x tr1]; cbn [app]; intros [= H1 H2].
    + subst e' r'. exists [], evs. split; [done|]. split; [done|]. by subst rep.
    + apply IH in H2 as (evs1 & evs2 & -> & Ht & Hrep). exists (Arrives e' r' :: evs1), evs2.
      rewrite Hrun. cbn [fst snd]. by rewrite Ht, <- H1.
  - intros (evs1 & evs2 & -> & Ht & Hrep)%IH. by exists (Background :: evs1), evs2.
Qed.

(** The step [x] of a trace is a /store request, with the API key, that was
    answered 200 and carried the share [sh] for the key [k]. *)
Definition stored_by (cfg : Config) (k : string) (sh : StoredShareDB)
    (x : Env * Request * reply) : Prop :=
  let '(e, r, rep) := x in
  r_Path r = "/store" ∧ keyed (StoreAPIKey cfg) r ∧ (∃ body, rep = Some (200, body)) ∧
  ∃ req, store_payload (routed_request cfg r) = Some (req, sh) ∧
    share_key (sr_ContractID req) (sr_ObjectID req) = k.

(** Every share of a node was there before or was stored by a request. *)
Lemma abs_run_shares cfg a tr b k sh :
  abs_run cfg a tr b → a_shares b !! k = Some sh →
  a_shares a !! k = Some sh ∨ ∃ x, x ∈ tr ∧ stored_by cfg k sh x.
Proof.
  induction 1 as [a|a e r rep b tr c Hs Hr IH]; intros Hk; [by left|].
  destruct (IH Hk) as [Hb|(x & Hx & Hst)]; [|right; exists x; split; [by right|done]].
  inversion Hs as [req sh' body a' Hp Hkd Hpay k' Hw|? | | | |]; subst; try by left.
  cbn [a_shares] in Hb. destruct (decide (k' = k)) as [<-|Hne].
  - rewrite lookup_insert_eq in Hb. injection Hb as ->. right. eexists. split; [by left|].
    split; [exact Hp|]. split; [exact Hkd|]. split; [by eexists|]. by exists req.
  - left. by rewrite lookup_insert_ne in Hb.
Qed.

(** The RPC node never changes. *)
Lemma abs_run_rpc cfg a tr b : abs_run cfg a tr b → a_rpc b = a_rpc a.
Proof. induction 1 as [|? ? ? ? ? ? ? Hs _ IH]; [done|]. rewrite IH. by destruct Hs. Qed.

(** C4: what is released was entrusted.  In every run of a node in order, whose
    health check does not take /retrieve over, each reply 200 of /retrieve goes to
    a caller that is authorised for the request it sent, and is what the private key of the node decrypts at that moment from
    the share it holds for the very contract and object; and that share was
    there when the run began, or an earlier /store request of the run, with the
    API key, stored it. *)
Theorem released_was_stored cfg evs n tr1 tr2 e r body :
  health_takes cfg "/retrieve" = false → node_ok n →
  (run_events cfg evs n).1 = tr1 ++ (e, r, Some (200, body)) :: tr2 → r_Path r = "/retrieve" →
  ∃ evs1 evs2 req sh c p,
    evs = evs1 ++ Arrives e r :: evs2 ∧ (run_events cfg evs1 n).1 = tr1 ∧
    let k := share_key (rr_ContractID req) (rr_ObjectID req) in
    let n1 := (run_events cfg evs1 n).2 in
    decode_retrieve (r_Body (routed_request cfg r)) = Some req ∧
    authorised e (sorobanRPCURL n) req ∧
    contents (db n1) !! k = Some sh ∧ Ciphertext sh = Some c ∧
    DecryptShare (nodePrivateKey n1) (slice_bytes (EphemeralPubKey sh)) c (slice_bytes (Nonce sh)) =
      Ret (Ok p) ∧
    body = Encode (retrieve_response p) ∧
    (contents (db n) !! k = Some sh ∨ ∃ x, x ∈ tr1 ∧ stored_by cfg k sh x).
Proof.
  intros Ht Hn Htr Hp. rewrite <- Hp in Ht. apply run_events_request in Htr as (evs1 & evs2 & -> & Htr & Hrep).
  destruct (run_step cfg evs1 n Hn) as [Hn1 Hrun]. set (n1 := (run_events cfg evs1 n).2) in *.
  destruct (buildMux e cfg) as [h|] eqn:Hb; [|done].
  destruct (server_step e cfg h r n1 Hb Hn1) as [_ Hs]. rewrite <- Hrep in Hs.
  pose proof (abs_run_rpc _ _ _ _ Hrun) as Hrpc. cbn in Hrpc.
  inversion Hs as [? ? ? ? Hp'|? ? ? ? ? Hp'|req sh c p ? _ Hd Hau Hk Hc Hdec|? Hp'|? Hp'|? ? Hq]; subst;
    try (change (r_Path (routed_request cfg r)) with (r_Path r) in Hp'; congruence).
  - exists evs1, evs2, req, sh, c, p. split; [done|]. split; [done|]. cbv zeta.
    split; [done|]. split; [by rewrite <- Hrpc|]. do 4 (split; [done|]).
    by apply (abs_run_shares _ _ _ _ _ _ Hrun).
  - destruct Hq as [Hq|Hq]; [|by destruct (Hq body)]. exfalso. apply Hq.
    change (r_Path (routed_request cfg r)) with (r_Path r). rewrite Hp.
    by apply (bool_decide_unpack ("/retrieve" ∈ guarded_paths)).
Qed.

End spec.

(** ** Runs *)

Module DemoSpec.

Import DemoShare DemoServer.

(** A node with a key manager, before any share is stored. *)
Definition fresh_node : Node :=
  set_key (mkKeyManager 0 {[0 := key_k]} 0 "/data") key_k (node fresh_db).

Definition rotate_post : Request := post "/rotate-key" (JObj []).

Definition events : list node_event :=
  [Arrives env store_post; Arrives env retrieve_post; Arrives env rotate_post; Background;
   Arrives env retrieve_post].

Lemma fresh_node_ok : node_ok fresh_node.
Proof. split; [apply fresh_usable|]. repeat split; done. Qed.

Lemma server_refines_witness :
  abs_run cfg (abs fresh_node) (run_events cfg events fresh_node).1
    (abs (run_events cfg events fresh_node).2).
Proof. apply server_refines, fresh_node_ok. Defined.

Lemma node_stays_ok_witness : node_ok (run_events cfg events fresh_node).2.
Proof. apply node_stays_ok, fresh_node_ok. Defined.

(** The replies of the run: stored, released, rotated, stranded. *)
Example events_codes :
  map (λ x : Env * Request * reply, option_map fst x.2) (run_events cfg events fresh_node).1 =
    [Some 200; Some 200; Some 200; Some 500].
Proof. vm_compute. reflexivity. Qed.

Definition reply_1 : reply := reply_of (serve served store_post fresh_node).
Definition node_1 : Node := state_after served store_post fresh_node.
Definition released : string := Encode (retrieve_response (bytes_of "share")).

Lemma events_2 :
  (run_events cfg [Arrives env store_post; Arrives env retrieve_post] fresh_node).1 =
    [(env, store_post, reply_1)] ++ (env, retrieve_post, Some (200, released)) :: [].
Proof.
  assert (reply_of (serve served retrieve_post node_1) = Some (200, released)) as H
    by (vm_compute; reflexivity).
  unfold reply_1. rewrite <- H. reflexivity.
Qed.

Lemma released_was_stored_witness :
  ∃ evs1 evs2 req sh c p,
    [Arrives env store_post; Arrives env retrieve_post] = evs1 ++ Arrives env retrieve_post :: evs2 ∧
    (run_events cfg evs1 fresh_node).1 = [(env, store_post, reply_1)] ∧
    let k := share_key (rr_ContractID req) (rr_ObjectID req) in
    let n1 := (run_events cfg evs1 fresh_node).2 in
    decode_retrieve (r_Body (routed_request cfg retrieve_post)) = Some req ∧
    authorised env "rpc" req ∧
    contents (db n1) !! k = Some sh ∧ Ciphertext sh = Some c ∧
    DecryptShare (nodePrivateKey n1) (slice_bytes (EphemeralPubKey sh)) c (slice_bytes (Nonce sh)) =
      Ret (Ok p) ∧
    released = Encode (retrieve_response p) ∧
    (contents (db fresh_node) !! k = Some sh ∨
     ∃ x, x ∈ [(env, store_post, reply_1)] ∧ stored_by cfg k sh x).
Proof.
  exact (released_was_stored cfg [Arrives env store_post; Arrives env retrieve_post] fresh_node
    [(env, store_post, reply_1)] [] env retrieve_post released eq_refl fresh_node_ok events_2 eq_refl).
Defined.

End DemoSpec.
