(* ===== verification/Shutdown.v ===== *)
(** * Graceful shutdown ([listenWithGracefulShutdown] in [node/server.go])

    The two goroutines of [listenWithGracefulShutdown] and what they share: the
    listening server, the signal channel, the channel [idleConnsClosed] and the
    database handle.  A goroutine's position in the code is its program counter;
    [fire] is one action of a goroutine or of the environment, and a run is a
    list of actions.  [http.Server] is modelled as it is documented: it returns
    [ErrServerClosed] once [Shutdown] has been called and any other error only
    before that; [Shutdown] closes the listener, and returns [nil] only when no
    connection is open. *)

From S2P Require Import Prelude Bucket Store Logger.

(** Where the function itself is: before [ListenAndServe] returns, waiting for
    [idleConnsClosed], or returned. *)
Inductive main_pc := MListen | MWait | MReturned (err : option error).

(** Where the goroutine is: about to call [signal.Notify], receiving from
    [sigCh], in [srv.Shutdown], about to call [closeDB], about to close
    [idleConnsClosed], or done. *)
Inductive worker_pc := WNotify | WReceive | WShutdown | WCloseDB | WCloseChan | WDone.

#[export] Instance worker_pc_eq_dec : EqDecision worker_pc.
Proof. solve_decision. Defined.

Record Proc := mkProc {
  p_main : main_pc;
  p_worker : worker_pc;
  p_killed : bool;               (* killed by a signal it had not asked for *)
  p_notified : bool;             (* signal.Notify has been called *)
  p_sigCh : bool;                (* a signal is in sigCh, which has room for one *)
  p_inShutdown : bool;           (* srv.Shutdown has been called *)
  p_result : option (option error);  (* what srv.Shutdown has returned *)
  p_conns : nat;                 (* open connections *)
  p_idleConnsClosed : bool;
  p_db : DbHandle;
  p_loggers : Loggers;
}.

Definition proc_start (h : DbHandle) (ls : Loggers) : Proc :=
  mkProc MListen WNotify false false false false None 0 false h ls.

(** The actions.  [Signal], [Accept] and [Disconnect] are the environment's;
    [Deadline] is [Shutdown] returning an error, which it does at the latest
    when its 30 seconds are over. *)
Inductive action :=
| Signal | Accept | Disconnect
| ListenFails (err : error) | ServerClosed | MainReceive
| Notify | Receive | ShutdownReturns | Deadline (err : error) | CloseDB | CloseChan.

#[export] Instance action_eq_dec : EqDecision action.
Proof. solve_decision. Defined.

Definition set_main (m : main_pc) (s : Proc) : Proc :=
  mkProc m (p_worker s) (p_killed s) (p_notified s) (p_sigCh s) (p_inShutdown s) (p_result s)
    (p_conns s) (p_idleConnsClosed s) (p_db s) (p_loggers s).
Definition set_conns (c : nat) (s : Proc) : Proc :=
  mkProc (p_main s) (p_worker s) (p_killed s) (p_notified s) (p_sigCh s) (p_inShutdown s) (p_result s)
    c (p_idleConnsClosed s) (p_db s) (p_loggers s).
Definition log_proc (level : Z) (fields : list (string * string)) (msg : string) (s : Proc) : Proc :=
  mkProc (p_main s) (p_worker s) (p_killed s) (p_notified s) (p_sigCh s) (p_inShutdown s) (p_result s)
    (p_conns s) (p_idleConnsClosed s) (p_db s) (emit Main level fields msg (p_loggers s)).2.

(** [srv.Shutdown(ctx)] returns [r]. *)
Definition shutdown_done (r : option error) (s : Proc) : Proc :=
  mkProc (p_main s) WCloseDB (p_killed s) (p_notified s) (p_sigCh s) (p_inShutdown s) (Some r)
    (p_conns s) (p_idleConnsClosed s) (p_db s) (p_loggers s).

Definition fire_env (a : action) (s : Proc) : option Proc :=
  match a with
  | Signal =>
      if p_notified s
      then Some (mkProc (p_main s) (p_worker s) (p_killed s) true true (p_inShutdown s) (p_result s)
                   (p_conns s) (p_idleConnsClosed s) (p_db s) (p_loggers s))
      else Some (mkProc (p_main s) (p_worker s) true false (p_sigCh s) (p_inShutdown s) (p_result s)
                   (p_conns s) (p_idleConnsClosed s) (p_db s) (p_loggers s))
  | Accept =>
      match p_main s, p_inShutdown s with
      | MListen, false => Some (set_conns (S (p_conns s)) s)
      | _, _ => None
      end
  | Disconnect => match p_conns s with S c => Some (set_conns c s) | O => None end
  | _ => None
  end.

(** The function's own goroutine. *)
Definition fire_main (a : action) (s : Proc) : option Proc :=
  match a, p_main s with
  | ListenFails err, MListen =>
      if p_inShutdown s then None else Some (set_main (MReturned (Some err)) s)
  | ServerClosed, MListen => if p_inShutdown s then Some (set_main MWait s) else None
  | MainReceive, MWait =>
      if p_idleConnsClosed s
      then Some (set_main (MReturned None) (log_proc InfoLevel [] "node_stopped" s)) else None
  | _, _ => None
  end.

(** The goroutine that waits for the signal. *)
Definition fire_worker (a : action) (s : Proc) : option Proc :=
  match a, p_worker s with
  | Notify, WNotify =>
      Some (mkProc (p_main s) WReceive (p_killed s) true (p_sigCh s) (p_inShutdown s) (p_result s)
              (p_conns s) (p_idleConnsClosed s) (p_db s) (p_loggers s))
  | Receive, WReceive =>
      if p_sigCh s
      then Some (log_proc InfoLevel [] "shutdown_signal_received"
             (mkProc (p_main s) WShutdown (p_killed s) (p_notified s) false true (p_result s)
                (p_conns s) (p_idleConnsClosed s) (p_db s) (p_loggers s)))
      else None
  | ShutdownReturns, WShutdown =>
      match p_conns s with O => Some (shutdown_done None s) | S _ => None end
  | Deadline err, WShutdown =>
      Some (log_proc ErrorLevel [("error", err)] "shutdown_error" (shutdown_done (Some err) s))
  | CloseDB, WCloseDB =>
      Some (mkProc (p_main s) WCloseChan (p_killed s) (p_notified s) (p_sigCh s) (p_inShutdown s)
              (p_result s) (p_conns s) (p_idleConnsClosed s) (closeDB (p_db s)) (p_loggers s))
  | CloseChan, WCloseChan =>
      Some (mkProc (p_main s) WDone (p_killed s) (p_notified s) (p_sigCh s) (p_inShutdown s)
              (p_result s) (p_conns s) true (p_db s) (p_loggers s))
  | _, _ => None
  end.

(** One action.  The process does nothing more once it is killed. *)
Definition fire (a : action) (s : Proc) : option Proc :=
  if p_killed s then None
  else match a with
       | Signal | Accept | Disconnect => fire_env a s
       | ListenFails _ | ServerClosed | MainReceive => fire_main a s
       | _ => fire_worker a s
       end.

Fixpoint fires (l : list action) (s : Proc) : option Proc :=
  match l with [] => Some s | a :: l => s' ← fire a s; fires l s' end.

(** The invariant. *)
Definition before_shutdown (w : worker_pc) : bool :=
  match w with WNotify | WReceive => true | _ => false end.

Record proc_ok (h : DbHandle) (s : Proc) : Prop := {
  ok_killed : p_killed s = true → p_worker s = WNotify;
  ok_notified : p_notified s = bool_decide (p_worker s ≠ WNotify);
  ok_shutdown : p_inShutdown s = negb (before_shutdown (p_worker s));
  ok_result : p_result s = None ↔ before_shutdown (p_worker s) = true ∨ p_worker s = WShutdown;
  ok_conns : p_result s = Some None → p_conns s = O;
  ok_db : p_db s = match p_worker s with WCloseChan | WDone => closeDB h | _ => h end;
  ok_chan : p_idleConnsClosed s = bool_decide (p_worker s = WDone);
  ok_main : match p_main s with
            | MListen | MReturned (Some _) => True
            | MWait => p_inShutdown s = true
            | MReturned None => p_worker s = WDone
            end;
}.

Lemma proc_start_ok h ls : proc_ok h (proc_start h ls).
Proof. by split; cbn; auto; split; auto. Qed.

(** Takes an action apart: the cases in which it is possible. *)
Ltac fire_cases H :=
  unfold fire in H; unfold fire_env, fire_main, fire_worker, set_main, set_conns, log_proc, shutdown_done in H; cbn in H;
  repeat case_match; simplify_eq; cbn in *.

Lemma fire_ok h a s s' : proc_ok h s → fire a s = Some s' → proc_ok h s'.
Proof.
  intros [] H. destruct s as [m w k nt sg sd r c ch db ls]. cbn in *.
  fire_cases H; split; cbn; try done; try (naive_solver lia);
    subst; repeat case_match; naive_solver.
Qed.

Lemma fires_app l1 l2 s : fires (l1 ++ l2) s = s' ← fires l1 s; fires l2 s'.
Proof. revert s. induction l1 as [|a l1 IH]; intros s; cbn; [done|]. by destruct (fire a s); cbn. Qed.

Lemma fires_ok h l s s' : proc_ok h s → fires l s = Some s' → proc_ok h s'.
Proof.
  revert s. induction l as [|a l IH]; cbn; intros s Hs H; [by simplify_eq|].
  destruct (fire a s) as [s1|] eqn:E; [|done]. eauto using fire_ok.
Qed.

(** A signal is in the channel, or was taken from it. *)
Definition signalled (s : Proc) : bool := p_sigCh s || p_inShutdown s.

Lemma fire_signalled a s s' :
  fire a s = Some s' → a ≠ Signal → signalled s = false → signalled s' = false.
Proof.
  intros H Ha Hs. unfold signalled in *. destruct s as [m w k nt sg sd r c ch db ls]. cbn in *.
  apply orb_false_iff in Hs as [-> ->]. by fire_cases H.
Qed.

Lemma fires_signalled l s s' :
  fires l s = Some s' → signalled s = false → signalled s' = true → Signal ∈ l.
Proof.
  revert s. induction l as [|a l IH]; cbn; intros s H Hs Hs'; [by simplify_eq; congruence|].
  destruct (fire a s) as [s1|] eqn:E; [|done]. cbn in H.
  destruct (decide (a = Signal)) as [->|Ha]; [apply list_elem_of_here|].
  apply list_elem_of_further. eauto using fire_signalled.
Qed.

(** C26: shutdown is clean.  In whatever order the two goroutines, the clients
    and the signals act: the database is closed only after [srv.Shutdown] has
    returned, with no connection open unless it gave up at its deadline; and
    when the function returns [nil], a signal had come, the server had been shut
    down and the database had been closed. *)
Theorem shutdown_clean h ls l s :
  fires l (proc_start h ls) = Some s →
  (p_db s ≠ h → ∃ r, p_result s = Some r ∧ (r = None → p_conns s = O)) ∧
  (p_main s = MReturned None →
     Signal ∈ l ∧ p_inShutdown s = true ∧ p_db s = closeDB h ∧
     ∃ r, p_result s = Some r ∧ (r = None → p_conns s = O)).
Proof.
  intros H. pose proof (fires_ok h _ _ _ (proc_start_ok h ls) H) as [? ? Hsd Hr Hc Hdb ? Hm].
  assert (Hres : p_worker s = WCloseChan ∨ p_worker s = WDone →
    ∃ r, p_result s = Some r ∧ (r = None → p_conns s = O)).
  { intros Hw. destruct (p_result s) as [r|]; [exists r; naive_solver|].
    destruct Hr as [Hr _]. specialize (Hr eq_refl). destruct Hw as [Hw|Hw]; rewrite Hw in Hr; naive_solver. }
  split; [intros Hne; apply Hres; by destruct (p_worker s); auto|].
  intros Hret. rewrite Hret in Hm. rewrite Hm in Hsd, Hdb. repeat split; auto.
  eapply fires_signalled; [done..|]. unfold signalled. by rewrite Hsd, orb_true_r.
Qed.

(** How many actions are left once [Shutdown] is called; a further signal is
    dropped and not counted. *)
Definition steps_left (s : Proc) : nat :=
  (match p_main s with MListen => 2 | MWait => 1 | MReturned _ => 0 end +
   match p_worker s with WNotify => 5 | WReceive => 4 | WShutdown => 3 | WCloseDB => 2 | WCloseChan => 1 | WDone => 0 end +
   p_conns s)%nat.

Definition actions_of (l : list action) : list action := filter (λ a, a ≠ Signal) l.

Lemma fire_measure a s s' :
  fire a s = Some s' → p_inShutdown s = true →
  p_inShutdown s' = true ∧
  (a = Signal → steps_left s' = steps_left s) ∧
  (a ≠ Signal → steps_left s = S (steps_left s')).
Proof.
  intros H Hs. destruct s as [m w k nt sg sd r c ch db ls]. cbn in Hs. subst sd.
  fire_cases H; unfold steps_left; cbn; (split; [done|split; [try done|done || intros _; lia]]).
Qed.

Lemma length_actions_of a l :
  length (actions_of (a :: l)) = ((if decide (a = Signal) then 0 else 1) + length (actions_of l))%nat.
Proof. unfold actions_of. rewrite list.filter_cons. repeat case_decide; tauto. Qed.

Lemma fires_measure l s s' :
  fires l s = Some s' → p_inShutdown s = true →
  p_inShutdown s' = true ∧ steps_left s = (length (actions_of l) + steps_left s')%nat.
Proof.
  revert s. induction l as [|a l IH]; intros s H Hs; [cbn in *; by simplify_eq|].
  cbn [fires] in H. destruct (fire a s) as [s1|] eqn:E; [|done]. cbn in H.
  destruct (fire_measure _ _ _ E Hs) as (Hs1 & Hm1 & Hm2).
  destruct (IH _ H Hs1) as [Hs' IHm]. split; [done|]. rewrite length_actions_of.
  case_decide as Ha; [specialize (Hm1 Ha)|specialize (Hm2 Ha)]; lia.
Qed.

(** In a shutdown, somebody can act until both goroutines have finished. *)
Lemma shutdown_progress h s :
  proc_ok h s → p_inShutdown s = true → (∀ a, a ≠ Signal → fire a s = None) →
  p_worker s = WDone ∧ ∃ r, p_main s = MReturned r.
Proof.
  intros [Hk _ Hsd _ _ _ Hch Hm] Hs Hf. rewrite Hs in Hsd. unfold fire in Hf.
  destruct (p_killed s); [rewrite Hk in Hsd by done; done|].
  assert (Hw : p_worker s = WDone).
  { destruct (p_worker s) eqn:Ew; cbn in Hsd; try done.
    - specialize (Hf (Deadline "") ltac:(done)). cbn in Hf. by rewrite Ew in Hf.
    - specialize (Hf CloseDB ltac:(done)). cbn in Hf. by rewrite Ew in Hf.
    - specialize (Hf CloseChan ltac:(done)). cbn in Hf. by rewrite Ew in Hf. }
  split; [done|]. rewrite Hw in Hch. cbn in Hch. destruct (p_main s) eqn:Em; [..|by eauto].
  - specialize (Hf ServerClosed ltac:(done)). cbn in Hf. by rewrite Em, Hs in Hf.
  - specialize (Hf MainReceive ltac:(done)). cbn in Hf. by rewrite Em, Hch in Hf.
Qed.

(** C27: shutdown terminates.  Once the signal has been received, at most five
    actions are left beside the closing of the connections that are open, so
    that no run is infinite; and a run that can not go on has ended in both
    goroutines: the function has returned. *)
Theorem shutdown_terminates h ls l0 s l s' :
  fires l0 (proc_start h ls) = Some s → p_inShutdown s = true → fires l s = Some s' →
  (length (actions_of l) ≤ 5 + p_conns s)%nat ∧
  ((∀ a, a ≠ Signal → fire a s' = None) →
     p_worker s' = WDone ∧ ∃ r, p_main s' = MReturned r).
Proof.
  intros H0 Hs H. pose proof (fires_ok h _ _ _ (proc_start_ok h ls) H0) as Hok.
  destruct (fires_measure _ _ _ H Hs) as [Hs' Hm]. split.
  - destruct Hok as [_ _ Hsd _ _ _ _ _]. rewrite Hs in Hsd. unfold steps_left in Hm at 1.
    destruct (p_main s), (p_worker s); cbn in Hsd; try done; lia.
  - intros Hstuck. by apply (shutdown_progress h s' (fires_ok h _ _ _ Hok H)).
Qed.

(** A signal that comes before the goroutine has called [signal.Notify] kills
    the process: nothing is shut down, the database stays open. *)
Lemma early_signal_kills h ls :
  ∃ s, fires [Signal] (proc_start h ls) = Some s ∧ p_killed s = true ∧
    p_db s = h ∧ ∀ a, fire a s = None.
Proof. by eexists. Qed.

(** ** A run *)
Module DemoShutdown.

Definition ls : Loggers := mkLoggers InfoLevel true None [].

(** Two connections, a signal, a second one while the server shuts down. *)
Definition to_signal : list action := [Accept; Notify; Accept; Disconnect; Signal; Receive].
Definition from_signal : list action :=
  [ServerClosed; Signal; Disconnect; ShutdownReturns; CloseDB; CloseChan; MainReceive].

Definition start : Proc := proc_start DbOpen ls.
Definition at_signal : Proc := default start (fires to_signal start).
Definition at_end : Proc := default start (fires (to_signal ++ from_signal) start).

Lemma runs_to_signal : fires to_signal start = Some at_signal.
Proof. vm_compute. reflexivity. Qed.
Lemma runs_from_signal : fires from_signal at_signal = Some at_end.
Proof. vm_compute. reflexivity. Qed.
Lemma runs_to_end : fires (to_signal ++ from_signal) start = Some at_end.
Proof. vm_compute. reflexivity. Qed.

End DemoShutdown.
Import DemoShutdown.

Lemma shutdown_clean_witness :
  p_main at_end = MReturned None ∧ p_db at_end = DbClosed ∧ p_conns at_end = O ∧
  (le_msg <$> log_lines (p_loggers at_end)) = ["shutdown_signal_received"; "node_stopped"] ∧
  Signal ∈ to_signal ++ from_signal ∧ p_inShutdown at_end = true.
Proof.
  destruct (shutdown_clean DbOpen ls _ _ runs_to_end) as [_ H].
  assert (Hm : p_main at_end = MReturned None) by (vm_compute; reflexivity).
  destruct (H Hm) as (Hsig & Hsd & _). split; [exact Hm|].
  do 3 (split; [vm_compute; reflexivity|]). by split.
Defined.

Lemma shutdown_terminates_witness :
  (length (actions_of from_signal) ≤ 5 + p_conns at_signal)%nat ∧ p_worker at_end = WDone.
Proof.
  assert (Hs : p_inShutdown at_signal = true) by (vm_compute; reflexivity).
  destruct (shutdown_terminates DbOpen ls _ _ _ _ runs_to_signal Hs runs_from_signal) as [H1 H2].
  split; [exact H1|]. apply H2. intros a Ha. destruct a; (done || (vm_compute; reflexivity)).
Defined.
