(* ===== verification/Start.v ===== *)
(** * Starting the node ([node/main.go], [node/server.go], [node/tls.go])

    [main] from the configuration to the call of [listenWithGracefulShutdown]:
    which server listens where, in which TLS mode, and what is logged.  What
    happens from there is in [Shutdown].  The certificate files ([crypto/tls])
    and making a directory are given. *)

From S2P Require Import Prelude GoStrings Encoding Json JsonStruct Bucket Store Crypto NodeCrypto.
From S2P Require Import Http SorobanTx RateLimit FileSystem Keystore Logger Node Middleware.
From S2P Require Import Handlers Config Pattern Mux Server Shutdown.

(** [tls.Config]: a minimum version and a certificate, or autocert's own. *)
Inductive TLSSetup :=
| MinTLS13 (certFile keyFile : string)
| Autocert (cacheDir domain : string).

(** [http.Server], as far as it is set; durations in nanoseconds. *)
Record HttpServer := mkServer {
  srv_Addr : string;
  srv_ReadTimeout : Z;
  srv_WriteTimeout : Z;
  srv_IdleTimeout : Z;
  srv_ReadHeaderTimeout : Z;
  srv_TLS : option TLSSetup;
}.

Definition set_TLS (c : TLSSetup) (srv : HttpServer) : HttpServer :=
  mkServer (srv_Addr srv) (srv_ReadTimeout srv) (srv_WriteTimeout srv) (srv_IdleTimeout srv)
    (srv_ReadHeaderTimeout srv) (Some c).

(** What is listening when [listenWithGracefulShutdown] is called: the server
    and whether [startHTTPRedirect] runs in a goroutine. *)
Record Serving := mkServing { sv_srv : HttpServer; sv_redirect : bool }.

(** How the server is started: [ListenAndServeTLS] or [ListenAndServe]. *)
Definition serves_TLS (srv : HttpServer) : bool := bool_decide (is_Some (srv_TLS srv)).

Section start.
Context {C : Crypto} {B : Bolt} {R : RateLimiter} {X : Xdr} {XC : XdrCodec X} {U : Unicode}.
Context {SS : ShareStore DB}.
Context (LoadX509KeyPair : string → string → option error) (MkdirAll : string → option error).

Definition buildTLSConfig (cfg : Config) : res error TLSSetup :=
  match LoadX509KeyPair (TLSCert cfg) (TLSKey cfg) with
  | Some err => Err (wrap "failed to load TLS keypair" err)
  | None => Ok (MinTLS13 (TLSCert cfg) (TLSKey cfg))
  end.

Definition runHTTP (srv : HttpServer) : M Node (res error Serving) :=
  _ ← log Main InfoLevel [("addr", srv_Addr srv); ("tls", "off")] "node_starting";
  mret (Ok (mkServing srv false)).

Definition runManualTLS (cfg : Config) (srv : HttpServer) : M Node (res error Serving) :=
  try tlsCfg := buildTLSConfig cfg catch err => mret (Err err) in
  let srv := set_TLS tlsCfg srv in
  _ ← log Main InfoLevel [("addr", srv_Addr srv); ("tls", "manual")] "node_starting";
  mret (Ok (mkServing srv true)).

Definition runAutoTLS (cfg : Config) : M Node (res error Serving) :=
  match MkdirAll (ACMECacheDir cfg) with
  | Some err => mret (Err (wrap "failed to create ACME cache dir" err))
  | None =>
      let srv := mkServer ":443" 0 0 0 (3 * Second) (Some (Autocert (ACMECacheDir cfg) (Domain cfg))) in
      _ ← log Main InfoLevel [("domain", Domain cfg); ("tls", "auto")] "node_starting";
      mret (Ok (mkServing srv true))
  end.

(** [runServer], up to listening: the error it returns without listening, or
    what listens, with which handler. *)
Definition runServer (e : Env) (cfg : Config) : M Node (res error (Serving * Handler Node)) :=
  handler ← lift (buildMux e cfg);
  let srv := mkServer (":" +:+ Port cfg) (ReadTimeout cfg) (WriteTimeout cfg) (120 * Second) 0 None in
  r ← (if decide (TLSMode cfg = "auto") then runAutoTLS cfg
       else if decide (TLSMode cfg = "manual") then runManualTLS cfg srv
       else runHTTP srv);
  try sv := r catch err => mret (Err err) in
  mret (Ok (sv, handler)).

(** [startHTTPRedirect]: its server and its handler. *)
Definition redirect_server : HttpServer := mkServer ":80" 0 0 0 (3 * Second) None.
Definition redirect_handler : Handler Node := λ r,
  http_Redirect ("https://" +:+ r_Host r +:+ r_RequestURI r) StatusMovedPermanently.
Definition startHTTPRedirect : M Node HttpServer :=
  _ ← log Main InfoLevel [("addr", ":80")] "http_redirect_starting"; mret redirect_server.

(** zerolog's level of [Fatal], which exits. *)
Definition FatalLevel : Z := 4.

(** [main] on the day [date], up to listening.  [None]: the process has exited. *)
Definition main {K : KeyCodec C} {O : Os} {Zl : Zerolog} (Getenv : string → string)
    (date : string) (e : Env) (fs : FS) (rnd : bytes) : outcome (option (Serving * Handler Node) * Node) :=
  n ← main_state Getenv date fs rnd;
  match runServer e (LoadConfig Getenv) n with
  | (Panic msg, _) => Panic msg
  | (Ret (Ok sv), n) => Ret (Some sv, n)
  | (Ret (Err err), n) =>
      Ret (None, (log Main FatalLevel [("error", err)] "server_failed" n).2)
  end.

(** The shutdown's transition system starts from here. *)
Definition listening (n : Node) : Proc :=
  proc_start (match db n with None => DbNil | Some _ => DbOpen end) (loggers n).

(** The startup banner, which nothing prints. *)
Definition logStartup (cfg : Config) : M Node unit :=
  log Main InfoLevel [("port", Port cfg); ("tls", TLSMode cfg); ("data_dir", DataDir cfg)]
    "node_startup".

(** ** Properties *)

(** C37: the TLS modes.  The node serves TLS exactly when TLS_MODE is [auto] or
    [manual]; with these it never falls back to plaintext, since a certificate
    or a cache directory that cannot be had is an error before anything listens.
    Every other value of TLS_MODE, a misspelt one included, means plaintext. *)
Theorem runServer_modes e cfg h n :
  buildMux e cfg = Ret h →
  match runServer e cfg n with
  | (Ret (Ok (sv, h')), n') =>
      h' = h ∧ db n' = db n ∧
      (serves_TLS (sv_srv sv) = true ↔ TLSMode cfg ∈ ["auto"; "manual"]) ∧
      sv_redirect sv = serves_TLS (sv_srv sv) ∧
      (TLSMode cfg ≠ "auto" → srv_Addr (sv_srv sv) = ":" +:+ Port cfg ∧
         srv_ReadTimeout (sv_srv sv) = ReadTimeout cfg ∧
         srv_WriteTimeout (sv_srv sv) = WriteTimeout cfg) ∧
      (TLSMode cfg = "auto" → srv_Addr (sv_srv sv) = ":443" ∧ srv_ReadTimeout (sv_srv sv) = 0 ∧
         MkdirAll (ACMECacheDir cfg) = None) ∧
      (TLSMode cfg = "manual" → LoadX509KeyPair (TLSCert cfg) (TLSKey cfg) = None)
  | (Ret (Err _), n') =>
      n' = n ∧ ((TLSMode cfg = "auto" ∧ is_Some (MkdirAll (ACMECacheDir cfg))) ∨
                (TLSMode cfg = "manual" ∧ is_Some (LoadX509KeyPair (TLSCert cfg) (TLSKey cfg))))
  | (Panic _, _) => False
  end.
Proof.
  intros Hm. unfold runServer, runAutoTLS, runManualTLS, runHTTP, buildTLSConfig, lift, log.
  unfold_M. rewrite Hm.
  destruct (decide (TLSMode cfg = "auto")) as [Ha|Ha].
  { destruct (MkdirAll _) as [err|]; cbn; [by eauto|]. rewrite Ha. repeat split; try done. by left. }
  destruct (decide (TLSMode cfg = "manual")) as [Hma|Hma].
  { destruct (LoadX509KeyPair _ _) as [err|]; cbn; [by eauto|]. rewrite Hma.
    repeat split; try done. by right; left. }
  cbn. repeat split; try done. intros [?|[?|[]%not_elem_of_nil]%elem_of_cons]%elem_of_cons; done.
Qed.

End start.

(** ** Runs *)
Module DemoStart.

Import DemoShare DemoServer.

(** The default configuration with the given TLS mode, and no certificate. *)
Definition with_mode (mode : string) : Config :=
  LoadConfig (λ k, if decide (k = "TLS_MODE") then mode else "").
Definition no_cert (_ _ : string) : option error := Some "no such file".
Definition mkdir_ok (_ : string) : option error := None.

Definition handler_of (mode : string) : Handler Node :=
  match buildMux env (with_mode mode) with Ret h => h | Panic _ => λ _, mret tt end.

(** Without its certificate a [manual] node listens on nothing; a misspelt
    mode serves plaintext. *)
Lemma runServer_modes_witness :
  (∃ err, (runServer no_cert mkdir_ok env (with_mode "manual") (node stored)).1 = Ret (Err err)) ∧
  (∃ sv h, (runServer no_cert mkdir_ok env (with_mode "Auto") (node stored)).1 = Ret (Ok (sv, h)) ∧
     serves_TLS (sv_srv sv) = false).
Proof.
  split.
  - pose proof (runServer_modes no_cert mkdir_ok env (with_mode "manual") (handler_of "manual")
      (node stored) eq_refl) as H.
    destruct (runServer _ _ _ _ _) as [[[[sv h]|err]|msg] n']; [|by exists err|done].
    by destruct H as (_ & _ & _ & _ & _ & _ & H); discriminate (H eq_refl).
  - pose proof (runServer_modes no_cert mkdir_ok env (with_mode "Auto") (handler_of "Auto")
      (node stored) eq_refl) as H.
    destruct (runServer _ _ _ _ _) as [[[[sv h]|err]|msg] n']; [|exfalso|done].
    + exists sv, h. split; [done|]. destruct H as (_ & _ & [H _] & _).
      destruct (serves_TLS _); [|done]. specialize (H eq_refl).
      by apply (bool_decide_unpack ("Auto" ∉ ["auto"; "manual"])) in H.
    + destruct H as (_ & [[H _]|[H _]]); discriminate H.
Defined.

End DemoStart.
