(* ===== verification/Admin.v ===== *)
(** * The admin client ([client/admin/admin.go])

    The three calls an operator makes, and what they get from a node that runs
    the server of [Server.v]. *)

From S2P Require Import Prelude GoStrings Encoding Json JsonStruct Bucket Store Crypto NodeCrypto.
From S2P Require Import Http SorobanTx RateLimit FileSystem Keystore Logger Node Middleware.
From S2P Require Import Handlers Config Pattern Mux Server.

(** ** The client *)

(** [http.NewRequest] and [client.Do]: method, URL, headers, body. *)
Class Doer (W : Type) := {
  http_Do : string → string → gmap string (list string) → option string →
    M W (res error HttpResponse);
}.

Record AdminClient := mkAdmin { NodeURL : string; APIKey : string }.

Definition NewClient (nodeURL apiKey : string) : AdminClient := mkAdmin nodeURL apiKey.

(** Why a call failed. *)
Inductive admin_error :=
| TransportFailed (e : error)
| ReturnedStatus (call : string) (code : Z)
| BadStatusJson.

Section client.
Context {W : Type} {D : Doer W}.

(** [doJSON]: the data read, the status, the error. *)
Definition doJSON (c : AdminClient) (method path : string) (body : option json) :
    M W (res error (res error string * Z)) :=
  let r := render <$> body in
  let h := {["Content-Type" := ["application/json"]]} in
  let h := if decide (APIKey c ≠ "") then <["X-Api-Key" := [APIKey c]]> h else h in
  resp ← http_Do method (NodeURL c +:+ path) h r;
  mret (match resp with
        | Err err => Err err
        | Ok resp => Ok (resp_Body resp, resp_StatusCode resp)
        end).

(** The end of [RotateKey] and of [PurgeShares]. *)
Definition check_status (call : string) (r : res error (res error string * Z)) : option admin_error :=
  match r with
  | Err err => Some (TransportFailed err)
  | Ok (Err err, _) => Some (TransportFailed err)
  | Ok (Ok _, code) => if decide (code ≠ StatusOK) then Some (ReturnedStatus call code) else None
  end.

Definition RotateKey (c : AdminClient) : M W (option admin_error) :=
  r ← doJSON c MethodPost "/rotate-key" None; mret (check_status "rotate-key" r).

Definition PurgeShares (c : AdminClient) (objectID contractID : string) : M W (option admin_error) :=
  let body := of_string_map (<["contract_id" := contractID]> {["object_id" := objectID]}) in
  r ← doJSON c MethodDelete "/shares" (Some body); mret (check_status "purge-shares" r).

(** [Status]: the reply's object, whatever its status code. *)
Definition Status (c : AdminClient) : M W (res admin_error json) :=
  r ← doJSON c MethodGet "/status" None;
  mret (match r with
        | Err err => Err (TransportFailed err)
        | Ok (Err err, _) => Err (TransportFailed err)
        | Ok (Ok data, _) =>
            match Unmarshal data with
            | Some (JObj kvs) => Ok (JObj kvs)
            | Some JNull => Ok JNull
            | _ => Err BadStatusJson
            end
        end).

End client.

(** ** Against the server *)

Section against_server.
Context {C : Crypto} {B : Bolt} {R : RateLimiter} {X : Xdr} {XC : XdrCodec X} {U : Unicode}.
Context {SS : ShareStore DB}.

(** A node's server at the base URL [base]; a panic drops the connection. *)
Definition server_do (base : string) (h : Handler Node) : Doer Node := {|
  http_Do method url hdr body n :=
    let path := string_of (drop (String.length base) (bytes_of url)) in
    let r := mkRequest method path base path hdr "admin" (Some (mkBody (default "" body) None)) in
    let '(o, n', w) := serve h r n in
    (Ret (match o with
          | Ret _ => Ok (mkHttpResponse (final_code w) (Ok (rw_body w)))
          | Panic _ => Err "EOF"
          end), n')
|}.

Lemma url_path base path : string_of (drop (String.length base) (bytes_of (base +:+ path))) = path.
Proof. rewrite bytes_of_app, <- length_bytes_of, drop_app_length. apply string_of_bytes_of. Qed.

(** The request a call becomes at the server. *)
Definition admin_request (c : AdminClient) (method path : string) (body : option json) : Request :=
  mkRequest method path (NodeURL c) path
    (if decide (APIKey c ≠ "")
     then <["X-Api-Key" := [APIKey c]]> {["Content-Type" := ["application/json"]]}
     else {["Content-Type" := ["application/json"]]})
    "admin" (Some (mkBody (default "" (render <$> body)) None)).

Lemma admin_request_key c method path body :
  Header_Get (r_Header (admin_request c method path body)) "X-Api-Key" = APIKey c.
Proof.
  unfold admin_request, Header_Get. cbn [r_Header]. case_decide as Hk.
  - by rewrite lookup_insert_eq.
  - rewrite lookup_singleton_ne by done. by rewrite Hk.
Qed.

(** What a call that only looks at the status finds. *)
Lemma check_status_served c h method path body call n :
  ∃ n', (r ← doJSON (D := server_do (NodeURL c) h) c method path body;
         mret (check_status call r)) n =
    (Ret (match reply_code h (admin_request c method path body) n with
          | Some code => if decide (code ≠ StatusOK) then Some (ReturnedStatus call code) else None
          | None => Some (TransportFailed "EOF")
          end), n') ∧
    n' = state_after h (admin_request c method path body) n.
Proof.
  unfold doJSON, reply_code, state_after. unfold_M. cbn [http_Do server_do].
  rewrite url_path. fold (admin_request c method path body).
  destruct (serve h (admin_request c method path body) n) as [[[[]|msg] n'] w]; by exists n'.
Qed.

(** The configured health-check pattern does not match a path, with a slash
    after it or without. *)
Definition health_misses (cfg : Config) (path : string) : Prop :=
  ∀ p, parsePattern (HealthCheckPath cfg) = Ok p →
    segments_match (pat_segments p) (path_segments path) = false ∧
    segments_match (pat_segments p) (path_segments (path +:+ "/")) = false.

(** A request no route matches is answered 404 and changes no share. *)
Lemma server_not_found e cfg h r n f :
  buildMux e cfg = Ret h → rooted cfg → health_misses cfg (r_Path r) →
  r_Path r = "/" +:+ f → f ∉ fixed_names → path_segments (r_Path r) = [f] →
  path_segments (r_Path r +:+ "/") = [f; "/"] → cleanPath (r_Path r) = r_Path r →
  r_RequestURI r ≠ "*" → globalIPLimiter n = None →
  reply_code h r n = Some StatusNotFound ∧ db (state_after h r n) = db n.
Proof.
  intros Hb Hroot Hh Hpath Hf Hs Hs' Hc Hu Hi. unfold buildMux in Hb.
  destruct (mux_of e cfg) as [mux|] eqn:Hm; [|done].
  apply mux_of_Ret in Hm as (p & Hp & _ & ->). injection Hb as <-. unfold chain.
  pose proof (parsePattern_rooted _ _ Hroot Hp) as [Hpm Hph].
  assert (∀ r', r_Path r' = r_Path r → r_RequestURI r' ≠ "*" →
    mux_ServeHTTP (routes e cfg p) r' = NotFound) as Hmiss.
  { intros r' Hr' Hu'. apply mux_ServeHTTP_missing; rewrite ?Hr'; try done.
    { unfold routes. by repeat constructor. }
    intros x [->|([f' g] & -> & Hx)%list_elem_of_fmap]%elem_of_cons; [by apply Hh|]. cbn [fst].
    assert (f' ∈ fixed_names) as Hf'.
    { change fixed_names with (fixed_routes e cfg).*1. apply list_elem_of_fmap. by exists (f', g). }
    rewrite Hs, Hs'. pose proof (fixed_names_ok f' Hf') as (Hne & _).
    split; apply not_true_is_false; intros [= ->]%segments_match_literal; done. }
  split.
  - pose proof (loggingMiddleware_serve e (bodySizeLimitMiddleware (maxBodyBytes cfg)
      (rateLimitMiddleware e (mux_ServeHTTP (routes e cfg p)))) r n) as H. revert H.
    unfold bodySizeLimitMiddleware at 1, rateLimitMiddleware at 1. rewrite bind_get_state.
    destruct (request_id_eq r n) as (id & b & ->). cbn [snd globalIPLimiter set_rnd]. rewrite Hi.
    rewrite Hmiss by done. unfold reply_code.
    destruct (serve _ r n) as [[o n'] w]. intros (ls & Ho & _ & Hw). cbn [fst snd] in *. subst o.
    by destruct (Hw eq_refl) as [-> _].
  - set (Q := λ r' : Request, r_Path r' = r_Path r ∧ r_RequestURI r' ≠ "*").
    set (P := λ n', db n' = db n).
    assert (stable P) as HP by (by split).
    assert (∀ b r', Q r' → Q (set_body b r')) as HQ by done.
    assert (keeps Q P (mux_ServeHTTP (routes e cfg p))) as Hk.
    { intros r' n' w [Hr Hr'] _ Hn'. by rewrite Hmiss. }
    pose proof (loggingMiddleware_keeps Q HQ P HP e _ (bodySizeLimitMiddleware_keeps Q HQ P
      (maxBodyBytes cfg) _ (rateLimitMiddleware_keeps Q P HP e _ Hk)) r n new_resp
      (conj eq_refl Hu) eq_refl eq_refl) as H.
    unfold state_after, serve. by destruct (loggingMiddleware _ _ _ _) as [o [n' w']].
Qed.

(** purging does not work.  [PurgeShares] asks for DELETE /shares, for
    which no server registers a route: whatever the arguments and the keys, and
    unless it is the health-check path, the call fails with status 404 and no
    share is removed. *)
Theorem PurgeShares_unrouted e cfg h c objectID contractID n :
  buildMux e cfg = Ret h → rooted cfg → health_misses cfg "/shares" → globalIPLimiter n = None →
  ∃ n', PurgeShares (D := server_do (NodeURL c) h) c objectID contractID n =
    (Ret (Some (ReturnedStatus "purge-shares" StatusNotFound)), n') ∧ db n' = db n.
Proof.
  intros Hb Hr Hh Hi. unfold PurgeShares.
  set (body := Some _). destruct (check_status_served c h MethodDelete "/shares" body "purge-shares" n)
    as (n' & -> & ->).
  destruct (server_not_found e cfg h (admin_request c MethodDelete "/shares" body) n "shares" Hb Hr Hh)
    as [-> Hd]; try done.
  - by apply (bool_decide_unpack _).
  - eexists. split; [done|exact Hd].
Qed.

(** The reply of /rotate-key. *)
Lemma handleRotateKey_reply e r n w :
  r_Method r = MethodPost → rw_code w = None →
  ∃ o n' w', handleRotateKey e r (n, w) = (o, (n', w')) ∧
  match globalKeyManager n with
  | None => o = Ret tt ∧ final_code w' = 500
  | Some km =>
      match P256_GenerateKey (rnd n) with
      | Ok (k, _) => o = Ret tt ∧ final_code w' = 200 ∧ nodePrivateKey n' = k
      | Err _ => o = Ret tt ∧ final_code w' = 500
      end
  end.
Proof.
  intros Hm Hw. unfold handleRotateKey. rewrite decide_False by tauto. rewrite bind_get_state.
  destruct (globalKeyManager n) as [km|]; [|do 3 eexists; split; [done|]; by rewrite http_Error_code].
  destruct (P256_GenerateKey (rnd n)) as [[k rest]|err] eqn:Hk.
  - destruct (Rotate_eq (now e) km n k rest Hk) as [ls Hr].
    rewrite (bind_on_state _ _ _ _ _ _ Hr). unfold set_json. rewrite bind_on_resp, bind_get_state.
    do 3 eexists. split; [done|]. split; [done|]. split; [|done].
    unfold final_code, Write, send_header. cbn. by rewrite Hw.
  - rewrite (bind_on_state _ _ _ _ _ _ (Rotate_err _ _ _ _ Hk)), (bind_on_state _ _ _ _ _ _ (log_eq _ _ _ _ _)), fail_with_eq.
    do 3 eexists. split; [done|]. split; [done|]. by rewrite http_Error_code.
Qed.

(** C34: rotation by the operator.  [RotateKey] against a server that wants
    another API key fails with 401; with the right key, it fails with 500 when
    the node has no key manager - which [main] never sets up - and otherwise
    succeeds exactly when a key can be generated.  (Unless HEALTH_CHECK_PATH is a
    pattern that takes the route over.) *)
Theorem RotateKey_outcome e cfg h c n :
  buildMux e cfg = Ret h → health_takes cfg "/rotate-key" = false → globalIPLimiter n = None →
  (RotateKey (D := server_do (NodeURL c) h) c n).1 = Ret
    (if decide (StoreAPIKey cfg ≠ "" ∧ StoreAPIKey cfg ≠ APIKey c)
     then Some (ReturnedStatus "rotate-key" StatusUnauthorized)
     else match globalKeyManager n with
          | None => Some (ReturnedStatus "rotate-key" StatusInternalServerError)
          | Some km =>
              match P256_GenerateKey (rnd (request_id (admin_request c MethodPost "/rotate-key" None) n).2) with
              | Ok _ => None
              | Err _ => Some (ReturnedStatus "rotate-key" StatusInternalServerError)
              end
          end).
Proof.
  intros Hb Hroot Hi. unfold RotateKey. set (r := admin_request c MethodPost "/rotate-key" None).
  destruct (check_status_served c h MethodPost "/rotate-key" None "rotate-key" n) as (n' & -> & _).
  fold r. cbn [fst].
  rewrite (server_reply e cfg h r n "rotate-key" (apiKeyMiddleware (StoreAPIKey cfg) (storeMux e)));
    try done; [|unfold fixed_routes; do 5 right; left; done].
  destruct (request_id_eq r n) as (id & b & ->). cbn [fst snd].
  set (w := id_resp _ _). set (r' := routed_request cfg r).
  assert (Header_Get (r_Header r') "X-Api-Key" = APIKey c) as Hkey by apply admin_request_key.
  assert (storeMux e r' = handleRotateKey e r') as Hmux.
  { apply (storeMux_serve e _ "rotate-key"); [by repeat constructor|done..]. }
  unfold apiKeyMiddleware. rewrite Hkey. destruct (decide (StoreAPIKey cfg = "")) as [Hn|Hn].
  2: destruct (decide (StoreAPIKey cfg = APIKey c)) as [He|He].
  - rewrite decide_False by tauto. rewrite Hmux.
    destruct (handleRotateKey_reply e r' (set_rnd b n) w eq_refl eq_refl) as (o & n2 & w2 & -> & H).
    cbn [globalKeyManager set_rnd rnd] in H |- *. destruct (globalKeyManager n) as [km|].
    + destruct (P256_GenerateKey b) as [[k rest]|]; [destruct H as (-> & -> & _)|destruct H as [-> ->]]; done.
    + by destruct H as [-> ->].
  - rewrite (decide_False (P := _ ∧ _)) by tauto.
    rewrite (proj2 (secureStringEqual_iff _ _)) by done. cbn [negb]. rewrite Hmux.
    destruct (handleRotateKey_reply e r' (set_rnd b n) w eq_refl eq_refl) as (o & n2 & w2 & -> & H).
    cbn [globalKeyManager set_rnd rnd] in H |- *. destruct (globalKeyManager n) as [km|].
    + destruct (P256_GenerateKey b) as [[k rest]|]; [destruct H as (-> & -> & _)|destruct H as [-> ->]]; done.
    + by destruct H as [-> ->].
  - rewrite decide_True by tauto.
    destruct (secureStringEqual (APIKey c) (StoreAPIKey cfg)) eqn:E;
      [by apply secureStringEqual_iff in E|]. cbn [negb].
    by rewrite (bind_on_state _ _ _ _ _ _ (log_eq _ _ _ _ _)).
Qed.

End against_server.

(** ** Runs *)

Module DemoAdmin.

Import DemoShare DemoServer.

Definition admin : AdminClient := NewClient "http://a" "".

Lemma PurgeShares_unrouted_witness : ∃ n',
  PurgeShares (D := server_do "http://a" served) admin object contract (node stored) =
    (Ret (Some (ReturnedStatus "purge-shares" 404)), n') ∧ db n' = stored.
Proof.
  apply (PurgeShares_unrouted env cfg served admin object contract (node stored)); [done..| |done].
  by intros p [= <-].
Defined.

Lemma RotateKey_outcome_witness :
  (RotateKey (D := server_do "http://a" served) admin (node stored)).1 =
    Ret (Some (ReturnedStatus "rotate-key" 500)).
Proof. by apply (RotateKey_outcome env cfg served admin (node stored)). Defined.

End DemoAdmin.
