(* ===== verification/Transaction.v ===== *)
(** * The client's transaction ([client/transaction.go])

    The unsigned [approve] call a caller shows to the nodes. *)

From S2P Require Import Prelude GoStrings Encoding Json JsonStruct Crypto SorobanTx Contract.

(** The errors of [BuildApproveTransaction], one for each return. *)
Inductive tx_error :=
| InvalidContract (e : error)
| InvalidObjectHex (e : Hex.hex_error)
| InvalidCaller (e : error)
| BuildFailed (e : error)
| SerializeFailed (e : error).

Section transaction.
Context {C : Crypto} {X : Xdr} {XC : XdrCodec X}.

(** [copy(a[:], b)] into an array of 32 bytes. *)
Definition copy32 (b : bytes) : bytes := take 32 (b ++ replicate 32 "000"%char).

Definition BuildApproveTransaction (contractID objectIDHex callerAddress : string) :
    res tx_error string :=
  try contractBytes := strkey_Decode VersionByteContract contractID
    catch err => Err (InvalidContract err) in
  let cId := copy32 contractBytes in
  let contractAddressXDR := mkScAddress ScAddressTypeContract (Some cId) None in
  try objectIdBytes := Hex.DecodeString objectIDHex
    catch err => Err (InvalidObjectHex err) in
  let objectIdVal := ScvBytes objectIdBytes in
  try callerPubKeyBytes := strkey_Decode VersionByteAccountID callerAddress
    catch err => Err (InvalidCaller err) in
  let callerAccountId := AccountId_of_ed25519 (copy32 callerPubKeyBytes) in
  let callerAddressVal :=
    ScvAddress (mkScAddress ScAddressTypeAccount None (Some callerAccountId)) in
  let invokeOp := OpInvokeHostFunction (mkHostFunction true (Some
    (mkInvoke contractAddressXDR "approve" [objectIdVal; callerAddressVal]))) in
  try tx := NewTransaction callerAddress invokeOp
    catch err => Err (BuildFailed err) in
  try xdrBase64 := tx_Base64 tx
    catch err => Err (SerializeFailed err) in
  Ok xdrBase64.

Lemma copy32_id b : len b = 32 → copy32 b = b.
Proof.
  unfold copy32, len. intros H. rewrite take_app_le by lia. apply take_ge. lia.
Qed.

(** The operation of a call of [approve]: contract, object and account by their
    raw bytes. *)
Definition approve_op (cb ob ab : bytes) : Operation :=
  OpInvokeHostFunction (mkHostFunction true (Some
    (mkInvoke (mkScAddress ScAddressTypeContract (Some cb) None) "approve"
      [ScvBytes ob; ScvAddress (mkScAddress ScAddressTypeAccount None
         (Some (AccountId_of_ed25519 ab)))]))).

(** [s] is the serialized transaction of the account [src] that calls [approve]
    of the contract [c] for the object [ob] and the account [u]. *)
Definition approve_tx (src c : string) (ob : bytes) (u s : string) : Prop :=
  ∃ cb ab tx,
    strkey_Decode VersionByteContract c = Ok cb ∧ len cb = 32 ∧
    strkey_Decode VersionByteAccountID u = Ok ab ∧ len ab = 32 ∧
    NewTransaction src (approve_op cb ob ab) = Ok tx ∧ tx_Base64 tx = Ok s.

(** What the client builds is such a transaction, of the caller for itself. *)
Lemma BuildApproveTransaction_approve_tx c o a s cb ab :
  strkey_Decode VersionByteContract c = Ok cb → len cb = 32 →
  strkey_Decode VersionByteAccountID a = Ok ab → len ab = 32 →
  BuildApproveTransaction c o a = Ok s →
  ∃ ob, Hex.DecodeString o = Ok ob ∧ approve_tx a c ob a s.
Proof.
  intros Hc Hl Ha Hal. unfold BuildApproveTransaction. rewrite Hc, Ha.
  destruct (Hex.DecodeString o) as [ob|] eqn:Eo; [|done]. rewrite !copy32_id by done.
  change (OpInvokeHostFunction _) with (approve_op cb ob ab).
  destruct (NewTransaction _ _) as [tx|] eqn:Et; [|done].
  destruct (tx_Base64 tx) as [s'|] eqn:Es; [|done]. intros [= <-].
  exists ob. split; [done|]. by exists cb, ab, tx.
Qed.

Context {CL : CryptoLaws C} {XL : XdrLaws C X XC}.

(** The node accepts the transaction, whatever account it names. *)
Lemma approve_tx_verified src c ob u s k :
  strkey_Decode VersionByteAccountID src = Ok k → approve_tx src c ob u s →
  verifySorobanTx s c "approve" src = Ok tt.
Proof.
  intros Hk (cb & ab & tx & Hc & Hl & Ha & Hal & Ht & Hs).
  apply verifySorobanTx_calls. eexists. split; [exact (Base64_Unmarshal _ _ _ _ Ht Hs)|].
  do 3 eexists. split; [done|]. split; [done|]. split; [by eapply Muxed_GetAddress_of|].
  split; [done|]. split; [done|]. split; [|done].
  cbn. by rewrite (strkey_Decode_Encode _ _ _ Hc).
Qed.

(** Its simulation asks the contract about the account it names. *)
Lemma approve_tx_simulated src c ob u s ledger st :
  approve_tx src c ob u s → ledger !! c = Some st →
  ∃ env, SafeUnmarshalBase64 s = Ok env ∧ approves ledger env (bool_decide (allowed st u)).
Proof.
  intros (cb & ab & tx & Hc & Hl & Ha & Hal & Ht & Hs) Hst.
  eexists. split; [exact (Base64_Unmarshal _ _ _ _ Ht Hs)|].
  do 3 eexists. exists c. split; [done|]. split; [done|]. split; [done|]. split; [done|].
  split; [cbn; by rewrite (strkey_Decode_Encode _ _ _ Hc)|]. split; [done|].
  rewrite Hst. cbn [fmap option_fmap option_map]. unfold approve_call. cbn [ic_Args contract_address sa_Type sa_AccountId].
  rewrite (AccountId_GetAddress_of u ab) by done. cbn [map_err]. rewrite approve_eq. cbn [fst].
  case_decide; [by rewrite bool_decide_eq_true_2|by rewrite bool_decide_eq_false_2].
Qed.

Lemma approve_tx_Utf8 src c ob u s : approve_tx src c ob u s → Utf8 s.
Proof.
  intros (cb & ab & tx & _ & _ & _ & _ & Ht & Hs). eapply Unmarshal_Utf8, Base64_Unmarshal; eauto.
Qed.

(** What the RPC node of [ledger] answers to such a transaction. *)
Lemma approve_tx_verdict src c ob u s ledger st post url :
  approve_tx src c ob u s → ledger !! c = Some st → RpcSimulates post url ledger →
  simulateSorobanTx post url s = Ok (bool_decide (allowed st u)).
Proof.
  intros Htx Hst Hr. destruct (approve_tx_simulated _ _ _ _ _ _ _ Htx Hst) as (env & He & Ha).
  by eapply simulateSorobanTx_approve.
Qed.

(** C32: client, node and contract agree on the transaction: what the client
    builds for a contract and its own address passes the node's
    [verifySorobanTx] for that contract, [approve] and that address - for
    whatever object it was built - and an RPC node that simulates it finds it
    successful exactly when that address is on the contract's list. *)
Theorem BuildApproveTransaction_accepted c o a s cb ab ledger st post url :
  strkey_Decode VersionByteContract c = Ok cb → len cb = 32 →
  strkey_Decode VersionByteAccountID a = Ok ab → len ab = 32 →
  BuildApproveTransaction c o a = Ok s →
  verifySorobanTx s c "approve" a = Ok tt ∧
  (ledger !! c = Some st → RpcSimulates post url ledger →
   simulateSorobanTx post url s = Ok (bool_decide (allowed st a))).
Proof.
  intros Hc Hl Ha Hal Hb.
  destruct (BuildApproveTransaction_approve_tx _ _ _ _ _ _ Hc Hl Ha Hal Hb) as (ob & _ & Htx).
  split; [by eapply approve_tx_verified|]. intros. by eapply approve_tx_verdict.
Qed.

End transaction.

(** ** A run *)

Module DemoTx.

#[local] Existing Instances ToyCrypto.crypto ToyCrypto.crypto_laws ToyXdr.xdr ToyXdr.codec ToyXdr.laws.

(** An RPC node that simulates calls of [approve] against [ledger]. *)
Definition verdict (ledger : Ledger) (env : TransactionEnvelope) : bool :=
  match env_V1 env with
  | Some (mkTx _ [OpInvokeHostFunction (mkHostFunction true (Some (mkInvoke ca f args)))]) =>
      match contract_address ca with
      | Ok c =>
          match approve_call args <$> ledger !! c with Some (Ret _) => true | _ => false end
      | Err _ => false
      end
  | _ => false
  end.

Definition rpc_body (ok : bool) : json :=
  JObj [("result", JObj (if ok then [("results", JArr [JObj [("xdr", JStr "AAAA")]])]
                         else [("error", JStr "HostError")]))].

Definition requested (body : string) : option string :=
  v ← Unmarshal body;
  match v with
  | JObj [_; _; _; (_, JObj [(_, JStr tx)])] => Some tx
  | _ => None
  end.

Definition simulating (ledger : Ledger) : Post := λ _ _ body,
  match requested body with
  | None => Err "bad request"
  | Some tx =>
      match SafeUnmarshalBase64 tx with
      | Err e => Err e
      | Ok env => Ok (mkHttpResponse 200 (Ok (render (rpc_body (verdict ledger env)))))
      end
  end.

Lemma requested_request tx : Utf8 tx → requested (render (simulate_request tx)) = Some tx.
Proof.
  intros Hu. unfold requested. rewrite Unmarshal_render; [done| |done].
  cbn. repeat split; auto; try (apply (utf8b_sound 20); reflexivity). by exists 1.
Qed.

Lemma simulating_simulates ledger url : RpcSimulates (simulating ledger) url ledger.
Proof.
  split. intros tx env ok He (m & fn & args & c & _ & H2 & H3 & H4 & H5 & _ & ->).
  unfold simulating. rewrite requested_request, He by (by eapply Unmarshal_Utf8).
  assert (verdict ledger env =
    match approve_call (ic_Args args) <$> ledger !! c with Some (Ret _) => true | _ => false end) as ->.
  { unfold verdict. rewrite H2. destruct fn as [inv ic]. cbn in H3, H4. subst inv ic.
    destruct args as [ca f args]. cbn [ic_ContractAddress ic_Args] in *. by rewrite H5. }
  destruct (approve_call _ <$> _) as [[|]|]; do 3 eexists; (split; [reflexivity|]);
    (split; [vm_compute; reflexivity|]); (split; [done|]); [split; [done|]; by eexists|done..].
Qed.

Definition contract : string := String "C" (Hex.EncodeToString (replicate 32 "c"%char)).
Definition account : string := String "G" (Hex.EncodeToString (replicate 32 "a"%char)).

(** The contract after its admin has added the account. *)
Definition ledger : Ledger :=
  {[contract := exec_all [(λ _, false, CallInit "GADMIN" []); (λ a, bool_decide (a = "GADMIN"), CallAdd account)]
      empty_storage]}.

Lemma BuildApproveTransaction_accepted_witness : ∃ s,
  BuildApproveTransaction contract "0b" account = Ok s ∧
  verifySorobanTx s contract "approve" account = Ok tt ∧
  simulateSorobanTx (simulating ledger) "rpc" s = Ok true.
Proof.
  eexists. split; [vm_compute; reflexivity|].
  destruct (BuildApproveTransaction_accepted contract "0b" account
    (match BuildApproveTransaction contract "0b" account with Ok s => s | Err _ => "" end)
    (replicate 32 "c"%char) (replicate 32 "a"%char)
    ledger (default empty_storage (ledger !! contract)) (simulating ledger) "rpc") as [H1 H2];
    [vm_compute; reflexivity..|].
  split; [exact H1|].
  refine (eq_trans (H2 _ (simulating_simulates ledger "rpc")) _); vm_compute; reflexivity.
Defined.

End DemoTx.
