(* ===== verification/Client.v ===== *)
(** * The client ([client/main.go])

    The two commands, [encrypt] and [decrypt], after their flags have been
    parsed, and the three HTTP helpers.  The network is the interface [Net];
    Vault's secret sharing is the interface [Shamir].  A command ends normally
    or with [os.Exit(1)], with what it has done so far in the world. *)

From S2P Require Import Prelude GoStrings Encoding Json JsonStruct JsonIndent Crypto.
From S2P Require Import ClientCrypto Http FileSystem SorobanTx Transaction.

(** ** Outside the client *)

(** [http.Get] and [http.Post] with a content type and a body. *)
Class Net (W : Type) := {
  http_Get : string → M W (res error HttpResponse);
  http_PostJSON : string → string → string → M W (res error HttpResponse);
}.

Class Shamir := {
  shamir_Split : bytes → Z → Z → M bytes (res error (list bytes));
  shamir_Combine : list bytes → res error bytes;
}.

(** Any [threshold] of the shares, in their order, give the secret back. *)
Class ShamirLaws (Sh : Shamir) : Prop := {
  shamir_Split_spec s n t rnd shs rnd' :
    shamir_Split s n t rnd = (Ret (Ok shs), rnd') →
    len shs = n ∧ 2 ≤ t ≤ n ∧ Forall (λ sh, sh ≠ []) shs ∧
    ∀ sub, sub `sublist_of` shs → t ≤ len sub → shamir_Combine sub = Ok s;
}.

(** ** Data *)

Record Metadata := mkMeta {
  m_ObjectID : string;
  m_ContractID : string;
  m_Threshold : Z;
  m_Nodes : list string;
}.

Definition meta_json (m : Metadata) : json :=
  JObj [("object_id", JStr (m_ObjectID m)); ("contract_id", JStr (m_ContractID m));
        ("threshold", JNum (Itoa (m_Threshold m))); ("nodes", JArr (JStr <$> m_Nodes m))].

Definition meta_table : table Metadata :=
  [("object_id", λ v t, s ← as_string v (m_ObjectID t);
      Some (mkMeta s (m_ContractID t) (m_Threshold t) (m_Nodes t)));
   ("contract_id", λ v t, s ← as_string v (m_ContractID t);
      Some (mkMeta (m_ObjectID t) s (m_Threshold t) (m_Nodes t)));
   ("threshold", λ v t, z ← as_int v (m_Threshold t);
      Some (mkMeta (m_ObjectID t) (m_ContractID t) z (m_Nodes t)));
   ("nodes", λ v t, l ← as_list (λ x, as_string x "") v (m_Nodes t);
      Some (mkMeta (m_ObjectID t) (m_ContractID t) (m_Threshold t) l))].

Definition Unmarshal_meta (s : string) : option Metadata :=
  v ← Unmarshal s; decode_struct meta_table v (mkMeta "" "" 0 []).

Definition node_key_table : table string := [("public_key", λ v t, as_string v t)].

Definition node_share_table : table string := [("decrypted_share", λ v t, as_string v t)].

(** [NodeStoreRequest] and [NodeRetrieveRequest], as they are sent. *)
Definition store_json (ObjectID ContractID EphemeralPubKey Ciphertext Nonce : string) : json :=
  JObj [("object_id", JStr ObjectID); ("contract_id", JStr ContractID);
        ("ephemeral_pubkey", JStr EphemeralPubKey); ("ciphertext", JStr Ciphertext);
        ("nonce", JStr Nonce)].

Definition retrieve_json (ObjectID ContractID CallerAddress Signature Message TxXDR : string) : json :=
  JObj [("object_id", JStr ObjectID); ("contract_id", JStr ContractID);
        ("caller_address", JStr CallerAddress); ("signature", JStr Signature);
        ("message", JStr Message); ("tx_xdr", JStr TxXDR)].

(** Why an HTTP helper failed. *)
Inductive http_error :=
| Transport (e : error)
| BadStatus (code : Z) (body : string)
| BadReply.

(** Why a command gave up: one constructor for each [os.Exit(1)]. *)
Inductive exit_reason :=
| Usage
| TooFewNodes (nodes n : Z)
| ReadFile_failed (e : error)
| GenerateKey_failed (e : error)
| SymmetricEncrypt_failed (e : error)
| WriteFile_failed (e : error)
| Split_failed (e : error)
| FetchKey_failed (node : string) (e : http_error)
| BadNodeKey (node : string) (e : Hex.hex_error)
| ECIES_failed (node : string) (e : error)
| Store_failed (node : string) (e : http_error)
| WriteMeta_failed (e : error)
| FileTooSmall
| ReadMeta_failed (e : error)
| ParseMeta_failed
| BadSeed (e : error)
| BuildTx_failed (e : tx_error)
| Sign_failed (e : error)
| NotEnoughShares (got needed : Z)
| Combine_failed (e : error)
| SymmetricDecrypt_failed (e : error)
| WriteOut_failed (e : error).

(** The flags of the two commands, with their defaults filled in. *)
Record EncryptFlags := mkEncryptFlags {
  ef_file : string; ef_out : string; ef_contract : string; ef_nodes : string;
  ef_n : Z; ef_t : Z; ef_meta : string;
}.
Record DecryptFlags := mkDecryptFlags {
  df_file : string; df_meta : string; df_seed : string; df_out : string;
}.

Section client.
Context {C : Crypto} {X : Xdr} {XC : XdrCodec X} {O : Os} {Sh : Shamir} {W : Type} {N : Net W}.

(** The files, the random source and the network. *)
Record World := mkWorld { w_fs : FS; w_rnd : bytes; w_net : W }.

Definition on_files {A} (m : M FS A) : M World A :=
  zoom w_fs (λ fs w, mkWorld fs (w_rnd w) (w_net w)) m.
Definition on_random {A} (m : M bytes A) : M World A :=
  zoom w_rnd (λ r w, mkWorld (w_fs w) r (w_net w)) m.
Definition on_net {A} (m : M W A) : M World A :=
  zoom w_net (λ n w, mkWorld (w_fs w) (w_rnd w) n) m.

(** ** HTTP helpers *)

(** [json.NewDecoder(resp.Body).Decode(&t)]. *)
Definition decode_reply (tbl : table string) (body : res error string) : option string :=
  match body with
  | Err _ => None
  | Ok s => v ← decode_stream s AtEOF; decode_struct tbl v ""
  end.

Definition body_text (body : res error string) : string :=
  match body with Ok s => s | Err _ => "" end.

Definition fetchNodePublicKey (nodeURL : string) : M W (res http_error string) :=
  r ← http_Get (nodeURL +:+ "/public-key");
  try resp := r catch err => mret (Err (Transport err)) in
  if decide (resp_StatusCode resp ≠ StatusOK) then
    mret (Err (BadStatus (resp_StatusCode resp) ""))
  else
  match decode_reply node_key_table (resp_Body resp) with
  | None => mret (Err BadReply)
  | Some k => mret (Ok k)
  end.

Definition storeShareOnNode (nodeURL contractID objectID : string)
    (ephemPub ciphertext nonce : bytes) : M W (option http_error) :=
  let reqBytes := render (store_json objectID contractID (Hex.EncodeToString ephemPub)
                            (Hex.EncodeToString ciphertext) (Hex.EncodeToString nonce)) in
  r ← http_PostJSON (nodeURL +:+ "/store") "application/json" reqBytes;
  try resp := r catch err => mret (Some (Transport err)) in
  if decide (resp_StatusCode resp ≠ StatusOK) then
    mret (Some (BadStatus (resp_StatusCode resp) (body_text (resp_Body resp))))
  else mret None.

Definition retrieveShareFromNode (nodeURL objectID contractID callerAddr : string)
    (signature message : bytes) (txXDR : string) : M W (res http_error string) :=
  let reqBytes := render (retrieve_json objectID contractID callerAddr
                            (Hex.EncodeToString signature) (Hex.EncodeToString message) txXDR) in
  r ← http_PostJSON (nodeURL +:+ "/retrieve") "application/json" reqBytes;
  try resp := r catch err => mret (Err (Transport err)) in
  if decide (resp_StatusCode resp ≠ StatusOK) then
    mret (Err (BadStatus (resp_StatusCode resp) (body_text (resp_Body resp))))
  else
  match decode_reply node_share_table (resp_Body resp) with
  | None => mret (Err BadReply)
  | Some s => mret (Ok s)
  end.

(** ** encrypt *)

(** One turn of the distribution loop: fetch the node's key, seal the share to
    it, store it. *)
Definition send_share (contractID objectID nodeURL : string) (share : bytes) :
    M World (option exit_reason) :=
  let nodeURL := TrimSpace nodeURL in
  rk ← on_net (fetchNodePublicKey nodeURL);
  try nodePubHex := rk catch err => mret (Some (FetchKey_failed nodeURL err)) in
  try nodePubBytes := Hex.DecodeString nodePubHex
    catch err => mret (Some (BadNodeKey nodeURL err)) in
  re ← on_random (ECIESEncrypt nodePubBytes share);
  try sealed := re catch err => mret (Some (ECIES_failed nodeURL err)) in
  let '(ephemPub, shareCiphertext, shareNonce) := sealed in
  err ← on_net (storeShareOnNode nodeURL contractID objectID ephemPub shareCiphertext shareNonce);
  match err with
  | Some err => mret (Some (Store_failed nodeURL err))
  | None => mret None
  end.

(** [for i := 0; i < n; i++]: a missing share or node is an index out of
    range. *)
Fixpoint distribute (i : nat) (n : nat) (contractID objectID : string)
    (nodes : list string) (shares : list bytes) : M World (option exit_reason) :=
  match n with
  | Datatypes.O => mret None
  | Datatypes.S n =>
      match nodes !! i, shares !! i with
      | Some nodeURL, Some share =>
          err ← send_share contractID objectID nodeURL share;
          match err with
          | Some e => mret (Some e)
          | None => distribute (Datatypes.S i) n contractID objectID nodes shares
          end
      | _, _ => throw "runtime error: index out of range"
      end
  end.

(** [handleEncrypt]. *)
Definition handleEncrypt (f : EncryptFlags) : M World (option exit_reason) :=
  if decide (ef_file f = "" ∨ ef_out f = "" ∨ ef_contract f = "" ∨ ef_nodes f = "")
  then mret (Some Usage)
  else
  let nodes := Split (ef_nodes f) "," in
  if len nodes <? ef_n f then mret (Some (TooFewNodes (len nodes) (ef_n f)))
  else
  rf ← on_files (os_ReadFile (ef_file f));
  try fileData := rf catch err => mret (Some (ReadFile_failed err)) in
  rk ← on_random GenerateAESKey;
  try sk := rk catch err => mret (Some (GenerateKey_failed err)) in
  re ← on_random (SymmetricEncrypt sk fileData);
  try ca := re catch err => mret (Some (SymmetricEncrypt_failed err)) in
  let '(ciphertext, aesNonce) := ca in
  let finalPayload := aesNonce ++ ciphertext in
  err ← on_files (os_WriteFile (ef_out f) finalPayload);
  match err with
  | Some err => mret (Some (WriteFile_failed err))
  | None =>
  let objectID := Hex.EncodeToString (sha256_Sum ciphertext) in
  rs ← on_random (shamir_Split sk (ef_n f) (ef_t f));
  try shares := rs catch err => mret (Some (Split_failed err)) in
  err ← distribute 0 (Z.to_nat (ef_n f)) (ef_contract f) objectID nodes shares;
  match err with
  | Some e => mret (Some e)
  | None =>
  let meta := mkMeta objectID (ef_contract f) (ef_t f) (take (Z.to_nat (ef_n f)) nodes) in
  let metaBytes := MarshalIndent (meta_json meta) in
  err ← on_files (os_WriteFile (ef_meta f) (bytes_of metaBytes));
  match err with
  | Some err => mret (Some (WriteMeta_failed err))
  | None => mret None
  end end end.

(** ** decrypt *)

(** The retrieval loop: a node that fails is skipped. *)
Fixpoint collect (needed : Z) (nodes : list string) (m : Metadata) (callerAddress : string)
    (signature msg : bytes) (txXDR : string) (collected : list bytes) : M World (list bytes) :=
  match nodes with
  | [] => mret collected
  | nodeURL :: nodes =>
      if needed <=? len collected then mret collected
      else
      r ← on_net (retrieveShareFromNode (TrimSpace nodeURL) (m_ObjectID m) (m_ContractID m)
                    callerAddress signature msg txXDR);
      match r with
      | Err _ => collect needed nodes m callerAddress signature msg txXDR collected
      | Ok shareHex =>
          match Hex.DecodeString shareHex with
          | Err _ => collect needed nodes m callerAddress signature msg txXDR collected
          | Ok shareBytes =>
              collect needed nodes m callerAddress signature msg txXDR (collected ++ [shareBytes])
          end
      end
  end.

(** [handleDecrypt]. *)
Definition handleDecrypt (f : DecryptFlags) : M World (option exit_reason) :=
  if decide (df_file f = "" ∨ df_meta f = "" ∨ df_seed f = "" ∨ df_out f = "")
  then mret (Some Usage)
  else
  rf ← on_files (os_ReadFile (df_file f));
  try encryptedData := rf catch err => mret (Some (ReadFile_failed err)) in
  if len encryptedData <? 12 then mret (Some FileTooSmall)
  else
  let '(aesNonce, ciphertext) := splitZ 12 encryptedData in
  rm ← on_files (os_ReadFile (df_meta f));
  try metaBytes := rm catch err => mret (Some (ReadMeta_failed err)) in
  match Unmarshal_meta (string_of metaBytes) with
  | None => mret (Some ParseMeta_failed)
  | Some meta =>
  try callerAddress := GetAddressFromSeed (df_seed f) catch err => mret (Some (BadSeed err)) in
  try txXDR := BuildApproveTransaction (m_ContractID meta) (m_ObjectID meta) callerAddress
    catch err => mret (Some (BuildTx_failed err)) in
  let msgBytes := bytes_of (m_ObjectID meta +:+ "_" +:+ m_ContractID meta) in
  try signature := SignPayload (df_seed f) msgBytes catch err => mret (Some (Sign_failed err)) in
  let sharesNeeded := m_Threshold meta in
  collectedShares ← collect sharesNeeded (m_Nodes meta) meta callerAddress signature msgBytes txXDR [];
  if len collectedShares <? sharesNeeded then
    mret (Some (NotEnoughShares (len collectedShares) sharesNeeded))
  else
  try sk := shamir_Combine collectedShares catch err => mret (Some (Combine_failed err)) in
  rp ← lift (SymmetricDecrypt sk ciphertext aesNonce);
  try decryptedBytes := rp catch err => mret (Some (SymmetricDecrypt_failed err)) in
  err ← on_files (os_WriteFile (df_out f) decryptedBytes);
  match err with
  | Some err => mret (Some (WriteOut_failed err))
  | None => mret None
  end
  end.

End client.

(** ** A concrete secret sharing

    Every share is the whole secret behind its index: no secrecy, but the law. *)

Module ToyShamir.

Definition split (s : bytes) (n t : Z) : M bytes (res error (list bytes)) := λ rnd,
  if decide (2 ≤ t ∧ t ≤ n ∧ n ≤ 255) then
    (Ret (Ok ((λ i, chr (N.of_nat i) :: s) <$> seq 1 (Z.to_nat n))), rnd)
  else (Ret (Err "invalid parameters"), rnd).

Definition combine (shs : list bytes) : res error bytes :=
  match shs with
  | (_ :: s) :: _ :: _ => Ok s
  | _ => Err "less than two parts cannot be used to reconstruct the secret"
  end.

#[export] Instance shamir : Shamir := {| shamir_Split := split; shamir_Combine := combine |}.

#[export] Instance laws : ShamirLaws shamir.
Proof.
  split. intros s n t rnd shs rnd'. cbn. unfold split. case_decide as Hd; [|done].
  intros [= <- <-]. split; [unfold len; rewrite length_fmap, length_seq; lia|].
  split; [lia|]. split; [by apply Forall_fmap, Forall_true|].
  intros sub Hsub Hl.
  assert (Forall (λ sh, tail sh = s ∧ sh ≠ []) sub) as Hf.
  { apply Forall_forall. intros sh Hsh. eapply elem_of_sublist in Hsh; [|exact Hsub].
    apply list_elem_of_fmap in Hsh as (i & -> & _). done. }
  destruct sub as [|x [|y sub]]; [unfold len in Hl; cbn in Hl; lia..|].
  apply Forall_cons in Hf as [[Hx Hne] _]. destruct x as [|c r]; [done|]. cbn in Hx. by subst r.
Qed.

End ToyShamir.
