(* ===== verification/Cli.v ===== *)
(** * The client's command line ([main], [handleEncrypt] and [handleDecrypt]'s
    flags in [client/main.go])

    From [os.Args] to the commands of [Client], with the exit status and what
    [main] itself prints; what the flag package and the commands print is not
    modelled. *)

From S2P Require Import Prelude GoStrings Encoding Json JsonStruct JsonIndent Flags Crypto.
From S2P Require Import ClientCrypto SorobanTx FileSystem Transaction Client.

(** ** The flag sets *)

Definition encrypt_defaults : EncryptFlags := mkEncryptFlags "" "" "" "" 3 2 "metadata.json".

Definition encrypt_flagset : FlagSet EncryptFlags :=
  [("file", StringVar (λ x f, mkEncryptFlags x (ef_out f) (ef_contract f) (ef_nodes f) (ef_n f) (ef_t f) (ef_meta f)));
   ("out", StringVar (λ x f, mkEncryptFlags (ef_file f) x (ef_contract f) (ef_nodes f) (ef_n f) (ef_t f) (ef_meta f)));
   ("contract", StringVar (λ x f, mkEncryptFlags (ef_file f) (ef_out f) x (ef_nodes f) (ef_n f) (ef_t f) (ef_meta f)));
   ("nodes", StringVar (λ x f, mkEncryptFlags (ef_file f) (ef_out f) (ef_contract f) x (ef_n f) (ef_t f) (ef_meta f)));
   ("n", IntVar (λ x f, mkEncryptFlags (ef_file f) (ef_out f) (ef_contract f) (ef_nodes f) x (ef_t f) (ef_meta f)));
   ("t", IntVar (λ x f, mkEncryptFlags (ef_file f) (ef_out f) (ef_contract f) (ef_nodes f) (ef_n f) x (ef_meta f)));
   ("meta", StringVar (λ x f, mkEncryptFlags (ef_file f) (ef_out f) (ef_contract f) (ef_nodes f) (ef_n f) (ef_t f) x))].

Definition decrypt_defaults : DecryptFlags := mkDecryptFlags "" "metadata.json" "" "".

Definition decrypt_flagset : FlagSet DecryptFlags :=
  [("file", StringVar (λ x f, mkDecryptFlags x (df_meta f) (df_seed f) (df_out f)));
   ("meta", StringVar (λ x f, mkDecryptFlags (df_file f) x (df_seed f) (df_out f)));
   ("seed", StringVar (λ x f, mkDecryptFlags (df_file f) (df_meta f) x (df_out f)));
   ("out", StringVar (λ x f, mkDecryptFlags (df_file f) (df_meta f) (df_seed f) x))].

(** ** main *)

(** How the process ends early. *)
Inductive cli_exit :=
| NoCommand
| UnknownCommand (command : string)
| FlagExit (e : flag_error)
| CommandExit (r : exit_reason).

(** The exit status: [flag.ExitOnError] exits with 2, or 0 for [-h]. *)
Definition exit_status (r : option cli_exit) : Z :=
  match r with
  | None | Some (FlagExit ErrHelp) => 0
  | Some (FlagExit _) => 2
  | Some _ => 1
  end.

(** What [printUsage] prints. *)
Definition printUsage : string :=
  "Usage:" +:+ newline +:+
  "  client encrypt -file <path> -out <path> -contract <id> -nodes <urls> -n <shares> -t <threshold> -meta <path>" +:+ newline +:+
  "  client decrypt -file <path> -meta <path> -seed <stellar-seed> -out <path>" +:+ newline.

(** What [main] prints before it exits. *)
Definition main_stdout (r : option cli_exit) : string :=
  match r with
  | Some NoCommand => printUsage
  | Some (UnknownCommand command) => "Unknown command: " +:+ command +:+ newline +:+ printUsage
  | _ => ""
  end.

Section main.
Context {C : Crypto} {X : Xdr} {XC : XdrCodec X} {O : Os} {Sh : Shamir} {W : Type} {N : Net W}.

(** A command, its flags parsed; further arguments are not looked at. *)
Definition with_flags {T} (fs : FlagSet T) (v : T) (args : list string)
    (run : T → M (World (W := W)) (option exit_reason)) : M (World (W := W)) (option cli_exit) :=
  match flag_Parse fs args v with
  | Err e => mret (Some (FlagExit e))
  | Ok (f, _) => r ← run f; mret (CommandExit <$> r)
  end.

(** [main], on [os.Args]. *)
Definition client_main (Args : list string) : M (World (W := W)) (option cli_exit) :=
  match Args with
  | _ :: command :: args =>
      if decide (command = "encrypt") then with_flags encrypt_flagset encrypt_defaults args handleEncrypt
      else if decide (command = "decrypt") then with_flags decrypt_flagset decrypt_defaults args handleDecrypt
      else mret (Some (UnknownCommand command))
  | _ => mret (Some NoCommand)
  end.

(** ** Properties *)

(** A command line of flags [-name value], as pairs. *)
Definition flag_args (l : list (string * string)) : list string :=
  l ≫= λ p, ["-" +:+ p.1; p.2].

(** The value given last under a name. *)
Definition given (name : string) (l : list (string * string)) : option string :=
  foldl (λ v p, if decide (p.1 = name) then Some p.2 else v) None l.

Definition given_string (d name : string) (l : list (string * string)) : string :=
  default d (given name l).
Definition given_int (d : Z) (name : string) (l : list (string * string)) : Z :=
  default d (given name l ≫= ParseInt0).

(** The options a command line stands for. *)
Definition encrypt_options (l : list (string * string)) : EncryptFlags :=
  mkEncryptFlags (given_string "" "file" l) (given_string "" "out" l) (given_string "" "contract" l)
    (given_string "" "nodes" l) (given_int 3 "n" l) (given_int 2 "t" l)
    (given_string "metadata.json" "meta" l).
Definition decrypt_options (l : list (string * string)) : DecryptFlags :=
  mkDecryptFlags (given_string "" "file" l) (given_string "metadata.json" "meta" l)
    (given_string "" "seed" l) (given_string "" "out" l).

Lemma given_snoc name l p :
  given name (l ++ [p]) = if decide (p.1 = name) then Some p.2 else given name l.
Proof. unfold given. by rewrite foldl_app. Qed.

(** A flag set that reads its options off the command line does so for every
    command line of flags it knows. *)
Lemma flag_Parse_options {T} (fs : FlagSet T) (opts : list (string * string) → T)
    (ok : string * string → Prop) :
  (∀ l p, ok p → read_arg ("-" +:+ p.1) = Named p.1 None ∧
     ∃ f, find_flag fs p.1 = Some f ∧ set_flag p.1 p.2 f (opts l) = Ok (opts (l ++ [p]))) →
  ∀ l2 l1, Forall ok l2 → flag_Parse fs (flag_args l2) (opts l1) = Ok (opts (l1 ++ l2), []).
Proof.
  intros Hok. induction l2 as [|p l2 IH]; intros l1 H; [by rewrite app_nil_r|].
  inversion_clear H as [|?? Hp Hl]. destruct (Hok l1 p Hp) as (Ha & f & Hf & Hs).
  cbn [flag_args mbind list_bind app]. erewrite flag_Parse_cons by done.
  change (list_bind _ _ _ _) with (flag_args l2). rewrite IH by done.
  by rewrite <- (assoc_L (++)).
Qed.

Definition encrypt_flag_ok (p : string * string) : Prop :=
  p.1 ∈ ["file"; "out"; "contract"; "nodes"; "meta"] ∨
  (p.1 ∈ ["n"; "t"] ∧ is_Some (ParseInt0 p.2)).
Definition decrypt_flag_ok (p : string * string) : Prop := p.1 ∈ ["file"; "meta"; "seed"; "out"].

(** Looks the flag up and reads its value back, for one name. *)
Ltac flag_step :=
  subst; split; [vm_compute; reflexivity|]; eexists; (split; [vm_compute; reflexivity|]);
  cbn [set_flag fst snd];
  try match goal with H : ParseInt0 _ = _ |- _ => rewrite H end;
  unfold encrypt_options, decrypt_options, given_string, given_int; rewrite !given_snoc;
  cbn [fst snd ef_file ef_out ef_contract ef_nodes ef_n ef_t ef_meta df_file df_meta df_seed df_out];
  repeat (first [rewrite decide_True by done|rewrite decide_False by done]);
  cbn [default mbind option_bind];
  try match goal with H : ParseInt0 _ = _ |- _ => rewrite H end; reflexivity.

Lemma encrypt_flags_read l p : encrypt_flag_ok p →
  read_arg ("-" +:+ p.1) = Named p.1 None ∧
  ∃ f, find_flag encrypt_flagset p.1 = Some f ∧
    set_flag p.1 p.2 f (encrypt_options l) = Ok (encrypt_options (l ++ [p])).
Proof.
  destruct p as [name x]. cbn [fst snd]. intros [Hn|[Hn [z Hz]]]; cbn [fst snd] in *.
  - repeat (apply elem_of_cons in Hn as [->|Hn]; [flag_step|]). by apply elem_of_nil in Hn.
  - repeat (apply elem_of_cons in Hn as [->|Hn]; [flag_step|]). by apply elem_of_nil in Hn.
Qed.

Lemma decrypt_flags_read l p : decrypt_flag_ok p →
  read_arg ("-" +:+ p.1) = Named p.1 None ∧
  ∃ f, find_flag decrypt_flagset p.1 = Some f ∧
    set_flag p.1 p.2 f (decrypt_options l) = Ok (decrypt_options (l ++ [p])).
Proof.
  destruct p as [name x]. unfold decrypt_flag_ok. cbn [fst snd]. intros Hn.
  repeat (apply elem_of_cons in Hn as [->|Hn]; [flag_step|]). by apply elem_of_nil in Hn.
Qed.

(** C35: the command line.  [client encrypt] with flags in any order, some given
    several times or not at all, runs the command with the last value given
    under each name, or its default, whatever the values look like (one that
    begins with a dash is still a value); an integer may be written in any of
    Go's bases.  The process exits with status 0 exactly when the command
    succeeds, and with 1 when it gives up. *)
Theorem encrypt_command_line prog l wd :
  Forall encrypt_flag_ok l →
  client_main (prog :: "encrypt" :: flag_args l) wd =
    (r ← handleEncrypt (encrypt_options l); mret (CommandExit <$> r)) wd ∧
  (∀ r wd', client_main (prog :: "encrypt" :: flag_args l) wd = (Ret r, wd') →
     (exit_status r = 0 ↔ handleEncrypt (encrypt_options l) wd = (Ret None, wd')) ∧
     (exit_status r = 0 ∨ exit_status r = 1)).
Proof.
  intros Hl. assert (client_main (prog :: "encrypt" :: flag_args l) wd =
    (r ← handleEncrypt (encrypt_options l); mret (CommandExit <$> r)) wd) as Hm.
  { cbn [client_main]. rewrite decide_True by done. unfold with_flags.
    change encrypt_defaults with (encrypt_options []).
    by rewrite (flag_Parse_options _ _ _ encrypt_flags_read l [] Hl). }
  split; [done|]. intros r wd'. rewrite Hm. unfold_M.
  destruct (handleEncrypt _ _) as [[[x|]|] wd1]; intros [= <- <-]; cbn; naive_solver.
Qed.

Lemma decrypt_command_line prog l wd :
  Forall decrypt_flag_ok l →
  client_main (prog :: "decrypt" :: flag_args l) wd =
    (r ← handleDecrypt (decrypt_options l); mret (CommandExit <$> r)) wd.
Proof.
  intros Hl. cbn [client_main]. rewrite decide_False, decide_True by done. unfold with_flags.
  change decrypt_defaults with (decrypt_options []).
  by rewrite (flag_Parse_options _ _ _ decrypt_flags_read l [] Hl).
Qed.

End main.

(** ** A command line *)
Module DemoCli.

#[local] Existing Instances ToyCrypto.crypto ToyXdr.xdr ToyXdr.codec ToyShamir.shamir healthy.

(** No node answers. *)
#[local] Instance no_net : Net unit := {|
  http_Get _ := mret (Err "connection refused");
  http_PostJSON _ _ _ := mret (Err "connection refused");
|}.

Definition line : list (string * string) :=
  [("t", "0b10"); ("out", "-out"); ("contract", "C"); ("nodes", "a,b"); ("file", "x"); ("n", "1_0");
   ("n", "2"); ("file", "in")].

Lemma encrypt_command_line_witness :
  encrypt_options line = mkEncryptFlags "in" "-out" "C" "a,b" 2 2 "metadata.json" ∧
  ∃ r wd', client_main ("client" :: "encrypt" :: flag_args line) (mkWorld (W := unit) ∅ [] tt) =
    (Ret r, wd') ∧ exit_status r = 1.
Proof.
  split; [vm_compute; reflexivity|].
  assert (Hl : Forall encrypt_flag_ok line).
  { unfold line. repeat apply Forall_cons_2; [..|by apply Forall_nil_2];
      unfold encrypt_flag_ok; cbn [fst snd];
      first [left; by apply (bool_decide_unpack (_ ∈ _))
            |right; split; [by apply (bool_decide_unpack (_ ∈ _))|eexists; vm_compute; reflexivity]]. }
  destruct (encrypt_command_line "client" line (mkWorld (W := unit) ∅ [] tt) Hl) as [Hm _].
  eexists _, _. split; [rewrite Hm; vm_compute; reflexivity|]. vm_compute. reflexivity.
Defined.

End DemoCli.
