(* ===== verification/Network.v ===== *)
(** * Client and nodes, over the network

    A network of node servers, as the client of [Client.v] sees it: each call
    of a helper becomes a request that a server handles from its logging
    middleware down to the handler and back.  One lemma for each of the three
    helpers says what a call that succeeds has done at the node. *)

From S2P Require Import Prelude GoStrings Encoding Json JsonStruct Bucket Store Crypto.
From S2P Require Import NodeCrypto Http SorobanTx RateLimit FileSystem Logger Node Middleware.
From S2P Require Import Handlers Config Pattern Mux Server Client.

Definition strip_suffix (suf s : string) : option string :=
  let k := (String.length s - String.length suf)%nat in
  let b := bytes_of s in
  if decide (drop k b = bytes_of suf) then Some (string_of (take k b)) else None.

Lemma strip_suffix_app b suf : strip_suffix suf (b +:+ suf) = Some b.
Proof.
  unfold strip_suffix. rewrite string_length_app, bytes_of_app.
  replace (String.length b + String.length suf - String.length suf)%nat with (length (bytes_of b))
    by (rewrite length_bytes_of; lia).
  by rewrite drop_app_length, take_app_length, decide_True, string_of_bytes_of.
Qed.

Lemma strip_suffix_other b suf suf' :
  (String.length suf' ≤ String.length suf)%nat →
  drop (String.length suf - String.length suf') (bytes_of suf) ≠ bytes_of suf' →
  strip_suffix suf' (b +:+ suf) = None.
Proof.
  intros Hl Hne. unfold strip_suffix. rewrite decide_False; [done|].
  rewrite string_length_app, bytes_of_app.
  replace (String.length b + String.length suf - String.length suf')%nat
    with (length (bytes_of b) + (String.length suf - String.length suf'))%nat
    by (rewrite length_bytes_of; lia).
  by rewrite drop_app_add.
Qed.

Lemma strip_suffix_last b suf suf' x y :
  last (bytes_of suf) = Some x → last (bytes_of suf') = Some y → x ≠ y →
  strip_suffix suf' (b +:+ suf) = None.
Proof.
  intros Hx Hy Hne. unfold strip_suffix. case_decide as H; [|done]. exfalso. apply Hne.
  set (k := (_ - _)%nat) in H. rewrite <- H in Hy.
  assert (last (bytes_of (b +:+ suf)) = Some y) as Hy'
    by (rewrite <- (take_drop k (bytes_of (b +:+ suf))), last_app; by rewrite Hy).
  rewrite bytes_of_app, last_app, Hx in Hy'. congruence.
Qed.

Section network.
Context {C : Crypto} {B : Bolt} {R : RateLimiter} {X : Xdr} {XC : XdrCodec X} {U : Unicode}.
Context {SS : ShareStore DB}.

(** The environment the nodes serve their requests in, and the configuration of
    the node at each base URL. *)
Context (e : Env) (cfg : string → Config).

(** The nodes by base URL. *)
Abbreviation Nodes := (gmap string Node).

(** The endpoints the client calls. *)
Definition endpoints : list string := ["/public-key"; "/store"; "/retrieve"].

(** The base URL and the path of a URL. *)
Fixpoint dispatch (eps : list string) (url : string) : option (string * string) :=
  match eps with
  | [] => None
  | p :: eps =>
      match strip_suffix p url with
      | Some base => Some (base, p)
      | None => dispatch eps url
      end
  end.

(** The requests of the client: a GET, and a POST of a JSON body. *)
Definition fetched (path : string) : Request :=
  mkRequest MethodGet path "" path ∅ "client" (Some (mkBody "" None)).

Definition posted (body path : string) : Request :=
  mkRequest MethodPost path "" path {["Content-Type" := ["application/json"]]} "client"
    (Some (mkBody body None)).

(** A call over the network: a node whose routes could not be registered does
    not listen, and a handler that panics drops the connection. *)
Definition node_call (url : string) (r : string → Request) : M Nodes (res error HttpResponse) := λ w,
  match dispatch endpoints url with
  | None => (Ret (Err "no route"), w)
  | Some (base, path) =>
      match w !! base, buildMux e (cfg base) with
      | Some n, Ret h =>
          let '(o, n', rw) := serve h (r path) n in
          (Ret (match o with
                | Ret _ => Ok (mkHttpResponse (final_code rw) (Ok (rw_body rw)))
                | Panic _ => Err "EOF"
                end), <[base := n']> w)
      | Some _, Panic _ => (Ret (Err "connection refused"), w)
      | None, _ => (Ret (Err "no such host"), w)
      end
  end.

#[export] Instance node_net : Net Nodes := {|
  http_Get url := node_call url fetched;
  http_PostJSON url _ body := node_call url (posted body);
|}.

(** The server at [base] listens. *)
Definition listens (base : string) : Prop := ∃ h, buildMux e (cfg base) = Ret h.

(** No server's health check takes one of its other routes. *)
Context (HR : ∀ base, health_apart (cfg base)).

(** A call that reaches a node without IP limiter is answered by the handler of
    its route. *)
Lemma node_call_served url r base path f g n (w : Nodes) :
  dispatch endpoints url = Some (base, path) → w !! base = Some n → listens base →
  (f, g) ∈ fixed_routes e (cfg base) → r_Path (r path) = "/" +:+ f →
  r_RequestURI (r path) ≠ "*" → globalIPLimiter n = None →
  let '(o, (n', w')) := g (routed_request (cfg base) (r path))
                          ((request_id (r path) n).2, id_resp (r path) n) in
  ∃ ls, node_call url r w =
    (Ret (match o with
          | Ret _ => Ok (mkHttpResponse (final_code w') (Ok (rw_body w')))
          | Panic _ => Err "EOF"
          end), <[base := set_loggers ls n']> w).
Proof.
  intros Hd En [h Hb] Hin Hp Hu Hi. unfold node_call. rewrite Hd, En, Hb.
  assert (health_takes (cfg base) (r_Path (r path)) = false) as Ht.
  { rewrite Hp. apply HR. change fixed_names with (fixed_routes e (cfg base)).*1.
    apply list_elem_of_fmap. by exists (f, g). }
  pose proof (server_serve e (cfg base) h (r path) n f g Hb Ht Hin Hp Hu Hi) as H.
  destruct (g _ _) as [o [n' w']]. destruct (serve h (r path) n) as [[o' n''] w''].
  destruct H as (ls & Ho & Hn & Hw). cbn [fst snd] in *. subst o' n''. exists ls.
  destruct o as [[]|]; [|done]. by destruct (Hw eq_refl) as [-> ->].
Qed.

(** A call to a node that is gone, or does not listen, fails. *)
Lemma node_call_lost url r base path (w : Nodes) :
  dispatch endpoints url = Some (base, path) → w !! base = None →
  ∃ err, node_call url r w = (Ret (Err err), w).
Proof. intros Hd En. unfold node_call. rewrite Hd, En. eauto. Qed.

Lemma node_call_listens url r base path (w w' : Nodes) resp :
  dispatch endpoints url = Some (base, path) → node_call url r w = (Ret (Ok resp), w') →
  is_Some (w !! base) ∧ listens base.
Proof.
  intros Hd. unfold node_call, listens. rewrite Hd. destruct (w !! base); [|done].
  destruct (buildMux e (cfg base)); [|done]. eauto.
Qed.

Lemma dispatch_public_key base :
  dispatch endpoints (base +:+ "/public-key") = Some (base, "/public-key").
Proof. unfold dispatch, endpoints. by rewrite strip_suffix_app. Qed.

Lemma dispatch_store base : dispatch endpoints (base +:+ "/store") = Some (base, "/store").
Proof.
  unfold dispatch, endpoints. rewrite (strip_suffix_last _ _ _ "e" "y") by done.
  by rewrite strip_suffix_app.
Qed.

Lemma dispatch_retrieve base :
  dispatch endpoints (base +:+ "/retrieve") = Some (base, "/retrieve").
Proof.
  unfold dispatch, endpoints. rewrite (strip_suffix_last _ _ _ "e" "y") by done.
  rewrite (strip_suffix_other base "/retrieve" "/store"); [|cbn; lia|by vm_compute].
  by rewrite strip_suffix_app.
Qed.

(** ** The bodies, read back *)

Lemma wf_store_json o c k ct nc :
  Utf8 o → Utf8 c → Utf8 k → Utf8 ct → Utf8 nc → wf (store_json o c k ct nc).
Proof. intros. cbn. repeat split; auto; apply (utf8b_sound 20); reflexivity. Qed.

Lemma decode_store_json b o c k ct nc :
  decode_body b = Some (store_json o c k ct nc) → decode_store b = Some (mkStoreReq o c k ct nc).
Proof. intros H. unfold decode_store. rewrite H. cbn -[find_field]. by eval_fields. Qed.

Lemma wf_retrieve_json o c a sg m tx :
  Utf8 o → Utf8 c → Utf8 a → Utf8 sg → Utf8 m → Utf8 tx → wf (retrieve_json o c a sg m tx).
Proof. intros. cbn. repeat split; auto; apply (utf8b_sound 20); reflexivity. Qed.

Lemma decode_retrieve_json b o c a sg m tx :
  decode_body b = Some (retrieve_json o c a sg m tx) →
  decode_retrieve b = Some (mkRetrieveReq o c a sg m tx).
Proof. intros H. unfold decode_retrieve. rewrite H. cbn -[find_field]. by eval_fields. Qed.

Lemma decode_reply_Encode tbl k x s :
  Utf8 k → Utf8 x → decode_struct tbl (JObj [(k, JStr x)]) "" = Some s →
  decode_reply tbl (Ok (Encode (JObj [(k, JStr x)]))) = Some s.
Proof.
  intros Hk Hx Hd. unfold decode_reply. destruct (decode_stream_Encode (JObj [(k, JStr x)]) AtEOF) as [-> _];
    [by cbn|done|done].
Qed.

(** ** One call of each helper *)

Context {CL : CryptoLaws C} {SL : ShareStoreLaws DB}.

Lemma fetchNodePublicKey_inv base k (w w' : Nodes) :
  (∀ n, w !! base = Some n → globalIPLimiter n = None) →
  fetchNodePublicKey base w = (Ret (Ok k), w') →
  ∃ n b ls, w !! base = Some n ∧ w' = <[base := set_loggers ls (set_rnd b n)]> w ∧
    listens base ∧ k = Hex.EncodeToString (pub_Bytes (nodePublicKey n)).
Proof.
  intros Hi. unfold fetchNodePublicKey, http_Get, node_net. unfold_M.
  destruct (node_call _ _ w) as [[[resp|err]|] w1] eqn:Ec; [|done..].
  destruct (node_call_listens _ _ _ _ _ _ _ (dispatch_public_key base) Ec) as [[n En] Hl].
  pose proof (node_call_served _ fetched _ _ "public-key" handleGetPublicKey _ _ (dispatch_public_key base) En Hl
    ltac:(do 2 right; left) eq_refl ltac:(done) (Hi _ En)) as H.
  destruct (request_id_eq (fetched "/public-key") n) as (id & b & Hid). rewrite Hid in H.
  unfold handleGetPublicKey in H. cbn [r_Method routed_request set_body fetched] in H.
  rewrite decide_False in H by tauto. unfold set_json in H.
  rewrite bind_on_resp, bind_get_state in H. cbn -[Encode node_call] in H.
  destruct H as [ls H]. rewrite Ec in H. injection H as -> ->. cbn -[decode_reply Encode].
  rewrite decide_False by (by intros []). rewrite string_app_nil_l.
  rewrite decode_reply_Encode with (s := Hex.EncodeToString (pub_Bytes (nodePublicKey n)));
    [|apply (utf8b_sound 20); reflexivity|auto with utf8|reflexivity].
  intros [= <- <-]. exists n, b, ls. done.
Qed.

(** A request without a key does not pass a key check: an answer 200 is the
    store handler's. *)
Lemma no_key_rejected key next r n w w' n' :
  key ≠ "" → Header_Get (r_Header r) "X-Api-Key" = "" → rw_code w = None →
  apiKeyMiddleware key next r (n, w) = (Ret tt, (n', w')) → final_code w' = StatusUnauthorized.
Proof.
  intros Hk Hh Hw. unfold apiKeyMiddleware. rewrite decide_False, Hh by done.
  destruct (secureStringEqual "" key) eqn:E; [by apply secureStringEqual_iff in E; subst|]. cbn [negb].
  rewrite (bind_on_state _ _ _ _ _ _ (log_eq _ _ _ _ _)). unfold unauthorizedResponse.
  rewrite !bind_on_resp. intros [= _ <-].
  unfold final_code, Write, WriteHeader, send_header. cbn. by rewrite Hw.
Qed.

(** The body of a POST of the client, as the handler decodes it. *)
Lemma posted_body cf v path :
  wf v → (depth v ≤ maxNestingDepth)%N →
  decode_body (r_Body (routed_request cf (posted (render v) path))) =
    if decide (slen (render v) ≤ Z.max 0 (maxBodyBytes cf)) then Some v else None.
Proof. intros W Hd. by apply (decode_body_capped v). Qed.

(** The share in a POST of the client; nothing, when it exceeds the cap. *)
Lemma posted_share cf o c ek ct nc path :
  o ≠ "" → c ≠ "" → Utf8 o → Utf8 c → ek ≠ [] → ct ≠ [] → nc ≠ [] →
  let v := store_json o c (Hex.EncodeToString ek) (Hex.EncodeToString ct) (Hex.EncodeToString nc) in
  store_payload (routed_request cf (posted (render v) path)) =
    if decide (slen (render v) ≤ Z.max 0 (maxBodyBytes cf))
    then Some (mkStoreReq o c (Hex.EncodeToString ek) (Hex.EncodeToString ct) (Hex.EncodeToString nc),
               mkShare (Some ek) (Some ct) (Some nc))
    else None.
Proof.
  intros Ho Hc Uo Uc Hek Hct Hnc v.
  assert (∀ b, b ≠ [] → Hex.EncodeToString b ≠ "") as Hhex by (by intros []).
  unfold store_payload. rewrite decide_True by done.
  pose proof (posted_body cf v path ltac:(apply wf_store_json; auto with utf8) ltac:(done)) as Hd.
  case_decide; [|unfold decode_store; by rewrite Hd].
  rewrite (decode_store_json _ _ _ _ _ _ Hd). cbn [mbind option_bind].
  rewrite decide_False by (cbn; intros [|[|[|[|]]]]; naive_solver).
  cbn -[Hex.DecodeString]. by rewrite !Hex.DecodeString_EncodeToString.
Qed.

(** A share the client could store is stored: the server wanted no key, and the
    body fitted. *)
Lemma storeShareOnNode_inv base c o ek ct nc (w w' : Nodes) n :
  w !! base = Some n → usable (db n) → globalIPLimiter n = None →
  o ≠ "" → c ≠ "" → Utf8 o → Utf8 c → ek ≠ [] → ct ≠ [] → nc ≠ [] →
  storeShareOnNode base c o ek ct nc w = (Ret None, w') →
  listens base ∧
  ∃ d b ls, w' = <[base := set_loggers ls (set_db d (set_rnd b n))]> w ∧ usable d ∧
    contents d !! share_key c o = Some (mkShare (Some ek) (Some ct) (Some nc)).
Proof.
  intros En Hu Hi Ho Hc Uo Uc Hek Hct Hnc. unfold storeShareOnNode, http_PostJSON, node_net. unfold_M.
  set (v := store_json _ _ _ _ _).
  destruct (node_call _ _ w) as [[[resp|err]|] w1] eqn:Ec; [|done..].
  destruct (node_call_listens _ _ _ _ _ _ _ (dispatch_store base) Ec) as [_ Hl].
  case_decide as Hcode; [done|]. intros [= <-]. split; [done|].
  pose proof (node_call_served _ (posted (render v)) _ _ "store"
    (apiKeyMiddleware (StoreAPIKey (cfg base)) (storeMux e)) _ _
    (dispatch_store base) En Hl ltac:(do 3 right; left) eq_refl ltac:(done) Hi) as H.
  set (r := routed_request (cfg base) (posted (render v) "/store")) in *.
  destruct (request_id_eq (posted (render v) "/store") n) as (id & b & Hid). rewrite Hid in H.
  cbn [snd] in H. set (rw := id_resp _ n) in H.
  destruct (apiKeyMiddleware _ _ _ _) as [[[]|] [n2 w2]] eqn:Eh; destruct H as [ls H];
    rewrite Ec in H; [|done]. injection H as -> ->.
  cbn [resp_StatusCode] in Hcode. destruct (decide (StoreAPIKey (cfg base) = "")) as [Hk|Hk].
  2: { rewrite (no_key_rejected _ _ r _ rw w2 n2 Hk eq_refl eq_refl Eh) in Hcode.
       discriminate Hcode. }
  unfold apiKeyMiddleware in Eh. rewrite decide_True in Eh by done.
  rewrite (storeMux_serve e r "store" handleStoreShare) in Eh by (by repeat constructor).
  destruct (handleStoreShare_frame r (set_rnd b n) rw Hu) as (d & ls' & Hf).
  destruct (handleStoreShare_outcome r (set_rnd b n) rw Hu eq_refl) as (n' & w' & Hrun & Hu' & H).
  rewrite Hrun in Eh, Hf. injection Eh as -> ->. cbn [fst snd] in Hf. subst n2.
  exists d, b, ls. split; [done|]. split; [done|].
  pose proof (posted_share (cfg base) o c ek ct nc "/store" Ho Hc Uo Uc Hek Hct Hnc) as Hpay.
  cbn zeta in Hpay. fold v r in Hpay. rewrite Hpay in H. unfold StatusOK in Hcode.
  case_decide; [|by destruct H as [Hc' _]; rewrite Hcode in Hc'; set_solver].
  destruct H as [(_ & _ & H & _)|[_ [[_ H]|[H _]]]]; [congruence| |congruence].
  cbn [db set_loggers set_db sr_ContractID sr_ObjectID] in H. by rewrite H, lookup_insert_eq.
Qed.

(** ** Retrieval *)

Context {RL : RateLimiterLaws R}.

Lemma fresh_object_allowed t o : ∃ m, checkObjectRateLimit t o ∅ = (Ret true, m).
Proof.
  unfold checkObjectRateLimit. rewrite lookup_empty. cbn [default from_option].
  pose proof (granted_burst objectLimit objectBurst t [t] ltac:(done) ltac:(done) ltac:(done)) as Hg.
  cbn [granted] in Hg. destruct (Allow t _) as [[] l]; [eauto|]. by vm_compute in Hg.
Qed.

(** What a caller shows is in order: the signature is its own, and the
    transaction is the [approve] call. *)
Definition credentials (tx c a : string) (m sg : bytes) : Prop :=
  VerifyStellarSignature a m sg = Ok true ∧ verifySorobanTx tx c "approve" a = Ok tt ∧
  a ≠ "" ∧ Utf8 a ∧ Utf8 tx.

(** The body of the client's POST to /retrieve. *)
Definition retrieve_body (o c a : string) (sg m : bytes) (tx : string) : string :=
  render (retrieve_json o c a (Hex.EncodeToString sg) (Hex.EncodeToString m) tx).

(** A server that listens and takes bodies that long hands out the share [p] of
    the object, when the caller's credentials are in order and the node's RPC
    approves. *)
Lemma retrieveShareFromNode_ok base o c a sg m tx ek ct nc p n (w : Nodes) :
  w !! base = Some n → listens base → usable (db n) → globalIPLimiter n = None →
  objectLimiters n = ∅ → simulateSorobanTx (http_Post e) (sorobanRPCURL n) tx = Ok true →
  contents (db n) !! share_key c o = Some (mkShare (Some ek) (Some ct) (Some nc)) →
  DecryptShare (nodePrivateKey n) ek ct nc = Ret (Ok p) →
  o ≠ "" → c ≠ "" → Utf8 o → Utf8 c → credentials tx c a m sg →
  slen (retrieve_body o c a sg m tx) ≤ maxBodyBytes (cfg base) →
  ∃ n', retrieveShareFromNode base o c a sg m tx w =
    (Ret (Ok (Hex.EncodeToString p)), <[base := n']> w).
Proof.
  intros En Hl Hu Hi Hlim Hs Hk Hd Ho Hc Uo Uc (Hv & Ht & Ha & Ua & Ut) Hcap.
  unfold retrieveShareFromNode, http_PostJSON, node_net. unfold_M.
  unfold retrieve_body in Hcap. set (v := retrieve_json _ _ _ _ _ _) in *.
  pose proof (node_call_served _ (posted (render v)) _ _ "retrieve"
    (rateLimitMiddleware e (storeMux e)) _ _
    (dispatch_retrieve base) En Hl ltac:(do 4 right; left) eq_refl ltac:(done) Hi) as H.
  set (r := routed_request (cfg base) (posted (render v) "/retrieve")) in *.
  destruct (request_id_eq (posted (render v) "/retrieve") n) as (id & b & Hid). rewrite Hid in H.
  cbn [snd] in H. set (rw := id_resp _ n) in H. unfold rateLimitMiddleware in H.
  rewrite bind_get_state in H. cbn [globalIPLimiter set_rnd] in H. rewrite Hi in H.
  rewrite (storeMux_serve e r "retrieve" (handleRetrieveShare e)) in H
    by (by repeat constructor).
  set (req := mkRetrieveReq o c a (Hex.EncodeToString sg) (Hex.EncodeToString m) tx).
  assert (releasable e r (set_rnd b n) req p) as Hr.
  { split; [|split].
    - destruct (fresh_object_allowed (now e) o) as [ml Hml]. exists ml. unfold admitted.
      cbn [objectLimiters set_rnd]. rewrite Hlim. split; [done|]. split; [|done].
      apply decode_retrieve_json. subst r. rewrite posted_body; [|apply wf_retrieve_json; auto with utf8|done].
      rewrite decide_True by lia. done.
    - exists m, sg. cbn [rr_Message rr_Signature rr_CallerAddress rr_TxXDR rr_ContractID req].
      by rewrite !Hex.DecodeString_EncodeToString.
    - eexists _, ct. split; [exact Hk|]. split; [done|exact Hd]. }
  destruct (retrieve_granted e r (set_rnd b n) rw req p Hu eq_refl Hr)
    as (n' & w' & Hserve & Hcode & Hbody & _).
  rewrite Hserve in H. destruct H as [ls ->]. cbn [resp_StatusCode resp_Body].
  rewrite Hcode, Hbody. rewrite decide_False by (by intros []). cbn [rw_body rw id_resp].
  rewrite string_app_nil_l. unfold retrieve_response.
  rewrite decode_reply_Encode with (s := Hex.EncodeToString p);
    [by eexists|apply (utf8b_sound 20); reflexivity|auto with utf8|reflexivity].
Qed.

(** A node whose RPC rejects the caller's transaction hands out nothing. *)
Lemma retrieveShareFromNode_denied base o c a sg m tx (w : Nodes) :
  Utf8 o → Utf8 c → Utf8 a → Utf8 tx →
  (∀ n, w !! base = Some n → usable (db n) ∧ globalIPLimiter n = None ∧
     simulateSorobanTx (http_Post e) (sorobanRPCURL n) tx = Ok false) →
  ∃ err w', retrieveShareFromNode base o c a sg m tx w = (Ret (Err err), w') ∧
    ∀ b, b ≠ base → w' !! b = w !! b.
Proof.
  intros Uo Uc Ua Ut Hn. unfold retrieveShareFromNode, http_PostJSON, node_net. unfold_M.
  set (v := retrieve_json _ _ _ _ _ _).
  destruct (w !! base) as [n|] eqn:En.
  2: { destruct (node_call_lost _ (posted (render v)) _ _ w (dispatch_retrieve base) En) as [err ->].
       by do 2 eexists. }
  destruct (Hn n eq_refl) as (Hu & Hi & Hs).
  destruct (buildMux e (cfg base)) as [h|msg] eqn:Hb.
  2: { unfold node_call. rewrite dispatch_retrieve, En, Hb. by do 2 eexists. }
  pose proof (node_call_served _ (posted (render v)) _ _ "retrieve"
    (rateLimitMiddleware e (storeMux e)) _ _
    (dispatch_retrieve base) En (ex_intro _ h Hb) ltac:(do 4 right; left) eq_refl ltac:(done) Hi) as H.
  set (r := routed_request (cfg base) (posted (render v) "/retrieve")) in *.
  destruct (request_id_eq (posted (render v) "/retrieve") n) as (id & b & Hid). rewrite Hid in H.
  cbn [snd] in H. set (rw := id_resp _ n) in H. unfold rateLimitMiddleware in H.
  rewrite bind_get_state in H. cbn [globalIPLimiter set_rnd] in H. rewrite Hi in H.
  rewrite (storeMux_serve e r "retrieve" (handleRetrieveShare e)) in H
    by (by repeat constructor).
  assert (∀ req p, ¬ releasable e r (set_rnd b n) req p) as Hno.
  { intros req p ((ml & _ & Hd & _) & (mb & sb & _ & _ & _ & _ & Hsim) & _).
    pose proof (posted_body (cfg base) v "/retrieve" ltac:(apply wf_retrieve_json; auto with utf8)
      ltac:(done)) as Hpb. fold r in Hpb.
    case_decide; [|unfold decode_retrieve in Hd; by rewrite Hpb in Hd].
    rewrite (decode_retrieve_json _ _ _ _ _ _ _ Hpb) in Hd. injection Hd as <-.
    cbn [rr_TxXDR sorobanRPCURL set_rnd] in Hsim. congruence. }
  assert (∀ n' b', b' ≠ base → (<[base := n']> w) !! b' = w !! b') as Hother
    by (intros; by apply lookup_insert_ne).
  destruct (handleRetrieveShare_outcome e r (set_rnd b n) rw Hu eq_refl)
    as [(req & p & ml & Hr & _)|[_ [(msg & code & n' & w' & Hrun & Hw & Hc & _)|(msg & n' & w' & Hrun & _)]]];
    [by apply Hno in Hr|..]; rewrite Hrun in H; destruct H as [ls ->]; [|by eauto].
  cbn [resp_StatusCode]. rewrite http_Error_code by done.
  rewrite decide_True by (intros ->; revert Hc; unfold StatusOK; set_solver). by eauto.
Qed.

Lemma retrieveShareFromNode_lost base o c a sg m t (w : Nodes) :
  w !! base = None →
  ∃ e, retrieveShareFromNode base o c a sg m t w = (Ret (Err e), w).
Proof.
  intros En. unfold retrieveShareFromNode, http_PostJSON, node_net. unfold_M.
  set (v := render _).
  destruct (node_call_lost _ (posted v) _ _ w (dispatch_retrieve base) En) as [err ->]. by eexists.
Qed.

End network.
