(* ===== verification/EndToEnd.v ===== *)
(** * Client and nodes together

    The network of [Network.v], from its servers' middleware down, and the
    theorem that ties the two programs together: what [encrypt] did, [decrypt]
    undoes. *)

From S2P Require Import Prelude GoStrings Encoding Json JsonStruct JsonIndent Bucket Store Crypto.
From S2P Require Import NodeCrypto ClientCrypto Http SorobanTx RateLimit FileSystem Logger Contract.
From S2P Require Import Node Middleware Handlers Config Pattern Mux Server Transaction Client Network.

Section network.
Context {C : Crypto} {B : Bolt} {R : RateLimiter} {X : Xdr} {XC : XdrCodec X} {U : Unicode}.
Context {SS : ShareStore DB}.

(** The environment the nodes serve their requests in, and their
    configurations. *)
Context (e : Env) (cfg : string → Config).

(** The nodes by base URL, in a network of their servers. *)
Abbreviation Nodes := (gmap string Node).
#[local] Instance net : Net Nodes := node_net e cfg.

(** No server's health check takes one of its other routes. *)
Context (HR : ∀ base, health_apart (cfg base)).

Context {CL : CryptoLaws C} {SL : ShareStoreLaws DB}.

(** ** Distribution *)

(** A node the client can use: its store works, its public key is its private
    key's, it limits no address and has not limited any object yet, and the RPC
    node it asks is as [P] says. *)
Definition good (P : string → Prop) (n : Node) : Prop :=
  usable (db n) ∧ nodePublicKey n = PublicKey (nodePrivateKey n) ∧ objectLimiters n = ∅ ∧
  globalIPLimiter n = None ∧ P (sorobanRPCURL n).

(** The node holds [p] under [k], sealed to its key. *)
Definition has_share (k : string) (p : bytes) (n : Node) : Prop :=
  ∃ ek ct nc, contents (db n) !! k = Some (mkShare (Some ek) (Some ct) (Some nc)) ∧
    DecryptShare (nodePrivateKey n) ek ct nc = Ret (Ok p).

Abbreviation World' := (World (W := Nodes)).

Lemma ECIES_opens priv p rnd ek c n rnd' :
  ECIESEncrypt (pub_Bytes (PublicKey priv)) p rnd = (Ret (Ok (ek, c, n)), rnd') →
  DecryptShare priv ek c n = Ret (Ok p) ∧ ek ≠ [] ∧ c ≠ [] ∧ n ≠ [].
Proof.
  intros H. split; [by eapply ECIESEncrypt_opens|].
  apply ECIESEncrypt_inv in H as (pub & k & s & _ & -> & _ & Hc & Hn & _).
  split; [apply pub_Bytes_nonempty|]. apply Seal_len in Hc. pose proof (len_nonneg p).
  split; intros ->; unfold len in *; cbn in *; lia.
Qed.

Lemma send_share_inv P c o u sh (wd wd' : World') :
  o ≠ "" → c ≠ "" → Utf8 o → Utf8 c → (∀ b n, w_net wd !! b = Some n → good P n) →
  send_share c o u sh wd = (Ret None, wd') →
  ∃ n, w_net wd' = <[TrimSpace u := n]> (w_net wd) ∧ listens e cfg (TrimSpace u) ∧ good P n ∧
    has_share (share_key c o) sh n ∧ w_fs wd' = w_fs wd.
Proof.
  intros Ho Hc Uo Uc Hg. unfold send_share, on_net, on_random. unfold_M. cbn [w_net w_rnd w_fs].
  destruct (fetchNodePublicKey _ _) as [[[k|]|] w1] eqn:Ef; [|done..].
  apply (fetchNodePublicKey_inv e cfg HR) in Ef as (n & b & ls & En & -> & _ & ->);
    [|intros n Hn; by destruct (Hg _ _ Hn) as (_ & _ & _ & ? & _)].
  rewrite Hex.DecodeString_EncodeToString. cbn [w_net w_rnd w_fs].
  destruct (Hg _ _ En) as (Hu & Hp & Hl & Hi & Hs). rewrite Hp.
  destruct (ECIESEncrypt _ sh _) as [[[[[ek ct] nc]|]|] r1] eqn:Ee; [|done..].
  apply ECIES_opens in Ee as (Hd & He1 & He2 & He3). cbn [w_net w_rnd w_fs].
  destruct (storeShareOnNode _ _ _ _ _ _ _) as [[[err|]|] w2] eqn:Es; [done| |done].
  intros [= <-]. cbn [w_net w_fs].
  destruct (storeShareOnNode_inv e cfg HR _ c o ek ct nc _ _ (set_loggers ls (set_rnd b n))
    (lookup_insert_eq _ _ _) Hu Hi Ho Hc Uo Uc He1 He2 He3 Es)
    as (Hlisten & d & b' & ls' & -> & Hud & Hk).
  rewrite insert_insert_eq. eexists. split; [done|]. split; [done|]. split; [done|].
  split; [|done]. by exists ek, ct, nc.
Qed.

(** The loop over indices is a loop over the pairs of a node and its share. *)
Fixpoint send_all (c o : string) (l : list (string * bytes)) : M World' (option exit_reason) :=
  match l with
  | [] => mret None
  | (u, sh) :: l =>
      err ← send_share c o u sh;
      match err with Some e => mret (Some e) | None => send_all c o l end
  end.

Lemma distribute_send_all c o nodes shares n i wd :
  (i + n ≤ length nodes)%nat → (i + n ≤ length shares)%nat →
  distribute i n c o nodes shares wd =
  send_all c o (take n (zip (drop i nodes) (drop i shares))) wd.
Proof.
  revert i wd. induction n as [|n IH]; intros i wd Hn Hs; [done|]. cbn [distribute].
  destruct (nodes !! i) as [u|] eqn:Eu; [|apply lookup_ge_None in Eu; lia].
  destruct (shares !! i) as [sh|] eqn:Es; [|apply lookup_ge_None in Es; lia].
  rewrite (drop_S _ _ _ Eu), (drop_S _ _ _ Es). cbn [zip zip_with take send_all]. unfold_M.
  destruct (send_share c o u sh wd) as [[[err|]|] wd']; [done| |done].
  rewrite IH by lia. done.
Qed.

Lemma send_all_inv P c o l (wd wd' : World') :
  o ≠ "" → c ≠ "" → Utf8 o → Utf8 c → (∀ b n, w_net wd !! b = Some n → good P n) →
  NoDup (TrimSpace <$> l.*1) → send_all c o l wd = (Ret None, wd') →
  (∀ b n, w_net wd' !! b = Some n → good P n) ∧ w_fs wd' = w_fs wd ∧
  (∀ b, b ∉ TrimSpace <$> l.*1 → w_net wd' !! b = w_net wd !! b) ∧
  Forall (λ us, listens e cfg (TrimSpace us.1) ∧
    ∃ n, w_net wd' !! TrimSpace us.1 = Some n ∧ has_share (share_key c o) us.2 n) l.
Proof.
  intros Ho Hc Uo Uc. revert wd. induction l as [|[u sh] l IH]; intros wd Hg Hd.
  { intros [= <-]. auto. }
  cbn [send_all fmap list_fmap fst] in *. apply NoDup_cons in Hd as [Hu Hd]. unfold_M.
  destruct (send_share c o u sh wd) as [[[err|]|] wd1] eqn:Es; [done| |done]. intros Ha.
  apply (send_share_inv P) in Es as (n & Hn & Hls & Hgn & Hsh & Hfs); [|done..].
  assert (∀ b m, w_net wd1 !! b = Some m → good P m) as Hg1.
  { intros b m. rewrite Hn, lookup_insert. case_decide; [by intros [= <-]|apply Hg]. }
  destruct (IH wd1 Hg1 Hd Ha) as (Hg2 & Hfs2 & Hother & Hall). split; [done|].
  split; [congruence|]. split.
  - intros b [Hb1 Hb2]%not_elem_of_cons. rewrite Hother by done. rewrite Hn.
    by rewrite lookup_insert_ne.
  - constructor; [|done]. split; [done|]. exists n. cbn [fst snd]. rewrite Hother by done. rewrite Hn.
    by rewrite lookup_insert_eq.
Qed.

(** ** Retrieval *)

Context {RL : RateLimiterLaws R}.

Lemma object_id_nonempty b : Hex.EncodeToString (sha256_Sum b) ≠ "".
Proof.
  pose proof (len_sha256_Sum b). destruct (sha256_Sum b); [done|by cbn].
Qed.

Lemma Forall_zip_Forall2 {A A'} (P : A → A' → Prop) l k :
  length l = length k → Forall (λ xy, P xy.1 xy.2) (zip l k) → Forall2 P l k.
Proof.
  revert k; induction l as [|x l IH]; intros [|y k] Hl Hf; try done.
  apply Forall_cons in Hf as [Hxy Hf]. constructor; [done|]. apply IH; [by injection Hl|done].
Qed.

(** What the node at [u] does for the caller: hand out [p], or not answer. *)
Definition answers (P : string → Prop) (k : string) (w : Nodes) (u : string) (a : option bytes) :
    Prop :=
  match a with
  | Some p => listens e cfg (TrimSpace u) ∧
      ∃ n, w !! TrimSpace u = Some n ∧ good P n ∧ has_share k p n
  | None => w !! TrimSpace u = None
  end.

(** The body of a request is within the cap of the node at [u]. *)
Definition fits (body u : string) : Prop := slen body ≤ maxBodyBytes (cfg (TrimSpace u)).

(** The retrieval loop collects, in order, the shares of the nodes that answer,
    until it has as many as it needs. *)
Lemma collect_answers P tx o c a sg m th us xs nodes acc (wd : World') needed :
  (∀ url, P url → simulateSorobanTx (http_Post e) url tx = Ok true) →
  o ≠ "" → c ≠ "" → Utf8 o → Utf8 c → credentials tx c a m sg →
  Forall2 (answers P (share_key c o) (w_net wd)) us xs →
  Forall (fits (retrieve_body o c a sg m tx)) us → NoDup (TrimSpace <$> us) → 0 ≤ needed →
  ∃ wd', collect needed us (mkMeta o c th nodes) a sg m tx acc wd =
    (Ret (acc ++ take (Z.to_nat (needed - len acc)) (omap id xs)), wd') ∧ w_fs wd' = w_fs wd.
Proof.
  intros HP Ho Hc Uo Uc Hcr Hf Hcap Hd Hn. revert acc wd xs Hf Hd Hcap.
  induction us as [|u us IH]; intros acc wd xs Hf Hd Hcap.
  { apply Forall2_nil_inv_l in Hf as ->. exists wd. cbn. by rewrite take_nil, app_nil_r. }
  apply Forall2_cons_inv_l in Hf as (x & xs' & Hx & Hf & ->).
  cbn [collect fmap list_fmap] in *. apply NoDup_cons in Hd as [Hu Hd].
  apply Forall_cons in Hcap as [Hcu Hcap].
  destruct (Z.leb_spec needed (len acc)) as [Hle|Hlt].
  { exists wd. replace (Z.to_nat (needed - len acc)) with 0%nat by lia. by rewrite app_nil_r. }
  unfold on_net. unfold_M. cbn [m_ObjectID m_ContractID]. destruct x as [p|]; cbn [answers] in Hx.
  - destruct Hx as (Hl & n & En & (Hus & _ & Hlim & Hip & Hsim%HP) & ek & ct & nc & Hk & Hdec).
    destruct (retrieveShareFromNode_ok e cfg HR (TrimSpace u) o c a sg m tx ek ct nc p n (w_net wd))
      as [n' Hr]; try done.
    change (node_net e cfg) with net in Hr. rewrite Hr, Hex.DecodeString_EncodeToString.
    destruct (IH (acc ++ [p]) (mkWorld (w_fs wd) (w_rnd wd) (<[TrimSpace u := n']> (w_net wd))) xs')
      as (wd' & -> & Hfs); [|done..|].
    + apply Forall2_same_length_lookup. split; [exact (Forall2_length _ _ _ Hf)|].
      intros i u' x' Hi Hp. pose proof (Forall2_lookup_lr _ _ _ _ _ _ Hf Hi Hp) as H.
      unfold answers in *. cbn [w_net]. rewrite lookup_insert_ne; [done|].
      intros Heq. apply Hu. rewrite Heq. apply list_elem_of_fmap. exists u'. split; [done|].
      by eapply list_elem_of_lookup_2.
    + exists wd'. split; [|done]. rewrite <- app_assoc. do 3 f_equal. cbn [app omap list_omap id].
      rewrite len_app. change (len [p]) with 1.
      replace (Z.to_nat (needed - len acc)) with (Datatypes.S (Z.to_nat (needed - (len acc + 1)))) by lia.
      done.
  - destruct (retrieveShareFromNode_lost e cfg (TrimSpace u) o c a sg m tx (w_net wd) Hx) as [e' Hr].
    change (node_net e cfg) with net in Hr. rewrite Hr.
    destruct wd as [fs rnd w]. exact (IH acc (mkWorld fs rnd w) xs' Hf Hd Hcap).
Qed.

(** Nodes whose RPC rejects the transaction hand out nothing. *)
Lemma collect_denied P tx o c a sg m th us nodes acc (wd : World') needed :
  (∀ url, P url → simulateSorobanTx (http_Post e) url tx = Ok false) →
  Utf8 o → Utf8 c → Utf8 a → Utf8 tx → NoDup (TrimSpace <$> us) →
  (∀ u n, u ∈ us → w_net wd !! TrimSpace u = Some n → good P n) →
  ∃ wd', collect needed us (mkMeta o c th nodes) a sg m tx acc wd = (Ret acc, wd') ∧ w_fs wd' = w_fs wd.
Proof.
  intros HP Uo Uc Ua Ut Hd Hg. revert wd Hg. induction us as [|u us IH]; intros wd Hg; [by exists wd|].
  cbn [collect fmap list_fmap] in *. apply NoDup_cons in Hd as [Hu Hd].
  destruct (needed <=? len acc); [by exists wd|].
  unfold on_net. unfold_M. cbn [m_ObjectID m_ContractID].
  destruct (retrieveShareFromNode_denied e cfg HR (TrimSpace u) o c a sg m tx (w_net wd)) as (err & w' & Hr & Hother);
    [done..| |].
  { intros n Hn. destruct (Hg u n ltac:(by left) Hn) as (? & _ & _ & ? & ?). auto. }
  change (node_net e cfg) with net in Hr. rewrite Hr.
  destruct (IH Hd (mkWorld (w_fs wd) (w_rnd wd) w')) as (wd' & -> & Hfs); [|by exists wd'].
  intros u' n Hu' Hn. cbn [w_net] in Hn. rewrite Hother in Hn; [by apply (Hg u'); [right|]|].
  intros Heq. apply Hu. rewrite <- Heq. by apply list_elem_of_fmap_2.
Qed.

(** ** The metadata file *)

Lemma Unmarshal_meta_MarshalIndent m :
  Utf8 (m_ObjectID m) → Utf8 (m_ContractID m) → in_int64 (m_Threshold m) → Forall Utf8 (m_Nodes m) →
  Unmarshal_meta (MarshalIndent (meta_json m)) = Some m.
Proof.
  intros Ho Hc Ht Hn. unfold Unmarshal_meta. rewrite Unmarshal_MarshalIndent.
  - cbn [mbind option_bind]. unfold meta_json, decode_struct, set_member. cbn [foldl fst snd].
    eval_fields. cbn [as_string mbind option_bind m_ObjectID m_ContractID m_Threshold m_Nodes].
    rewrite as_int_Itoa by done. cbn [as_list mbind option_bind m_ObjectID m_ContractID m_Threshold m_Nodes].
    rewrite mapM_as_string. by destruct m.
  - cbn. split_and!; try done; try (apply (utf8b_sound 20); reflexivity); [by eexists|].
    clear -Hn. induction Hn; cbn; auto.
  - cbn. assert (foldr (λ v k, depth v `max` k)%N 0%N (JStr <$> m_Nodes m) = 0%N) as ->; [|done].
    generalize (m_Nodes m). clear. intros l. induction l as [|x l IH]; [done|].
    cbn. by rewrite IH.
Qed.

(** ** What a successful [encrypt] leaves behind *)

Context {XL : XdrLaws C X XC} {O : Os} {Sh : Shamir} {ShL : ShamirLaws Sh}.

(** The files and the shares after [encrypt]: [sk] is the file key. *)
Lemma handleEncrypt_inv f P (wd wd' : World') data nodes :
  nodes = Split (ef_nodes f) "," → ef_out f ≠ ef_meta f → ef_contract f ≠ "" → Utf8 (ef_contract f) →
  Open_err (ef_file f) = None → w_fs wd !! ef_file f = Some data →
  NoDup (TrimSpace <$> take (Z.to_nat (ef_n f)) nodes) →
  (∀ b n, w_net wd !! b = Some n → good P n) →
  handleEncrypt f wd = (Ret None, wd') →
  ∃ sk ct nonce shares oid,
    oid = Hex.EncodeToString (sha256_Sum ct) ∧ len nonce = 12 ∧
    SymmetricDecrypt sk ct nonce = Ret (Ok data) ∧
    w_fs wd' !! ef_out f = Some (nonce ++ ct) ∧
    w_fs wd' !! ef_meta f = Some (bytes_of (MarshalIndent (meta_json
      (mkMeta oid (ef_contract f) (ef_t f) (take (Z.to_nat (ef_n f)) nodes))))) ∧
    len shares = ef_n f ∧ 2 ≤ ef_t f ≤ ef_n f ∧ ef_n f ≤ len nodes ∧
    (∀ sub, sub `sublist_of` shares → ef_t f ≤ len sub → shamir_Combine sub = Ok sk) ∧
    Forall2 (λ u p, listens e cfg (TrimSpace u) ∧ ∃ n, w_net wd' !! TrimSpace u = Some n ∧
      good P n ∧ has_share (share_key (ef_contract f) oid) p n) (take (Z.to_nat (ef_n f)) nodes) shares.
Proof.
  intros Hnodes Hne Hc Uc Hop Hf Hd Hg. unfold handleEncrypt.
  destruct (decide (_ ∨ _)) as [|Hflags]; [done|]. rewrite <- Hnodes.
  destruct (Z.ltb_spec (len nodes) (ef_n f)) as [|Hlen]; [done|].
  unfold on_files, on_random. unfold_M. rewrite os_ReadFile_spec, Hop, Hf. cbn [w_fs w_rnd w_net].
  destruct (GenerateAESKey _) as [[[sk|]|] r1] eqn:Ek; [|done..]. cbn [w_fs w_rnd w_net].
  destruct (SymmetricEncrypt sk data r1) as [[[[ct nonce]|]|] r2] eqn:Es; [|done..].
  cbn [w_fs w_rnd w_net].
  assert (len sk = 32) as Hsk.
  { unfold GenerateAESKey in Ek. unfold_M.
    destruct (rand_ReadFull 32 (w_rnd wd)) as [[[b|]|] rr] eqn:Er; [|done..].
    cbn in Ek. injection Ek as <- <-. by apply rand_ReadFull_Ok in Er as [? _]. }
  apply (SymmetricDecrypt_of_Encrypt sk data) in Es as (Hdec & Hnonce & _); [|done].
  destruct (os_WriteFile (ef_out f) _ _) as [[[err|]|] fs1] eqn:Ew; [done| |done].
  apply os_WriteFile_ok in Ew as ->. cbn [w_fs w_rnd w_net].
  destruct (shamir_Split sk _ _ r2) as [[[shares|]|] r3] eqn:Esh; [|done..]. cbn [w_fs w_rnd w_net].
  apply shamir_Split_spec in Esh as (Hl & Ht & _ & Hcomb).
  set (oid := Hex.EncodeToString (sha256_Sum ct)) in *.
  destruct (distribute _ _ _ _ _ _ _) as [[[err|]|] wd2] eqn:Ed; [done| |done].
  rewrite distribute_send_all in Ed by (unfold len in *; lia). rewrite !drop_0 in Ed.
  set (us := take (Z.to_nat (ef_n f)) nodes) in *.
  assert (take (Z.to_nat (ef_n f)) (zip nodes shares) = zip us shares) as Hzip.
  { subst us. rewrite zip_with_take. f_equal. apply take_ge. unfold len in *. lia. }
  assert (length us = length shares) as Hus
    by (subst us; rewrite length_take; unfold len in *; lia).
  rewrite Hzip in Ed.
  apply (send_all_inv P) in Ed as (Hg2 & Hfs2 & _ & Hall);
    [|by apply object_id_nonempty|done|by apply Utf8_hex|done|done|by rewrite fst_zip by lia].
  rewrite Hfs2. cbn [w_fs].
  destruct (os_WriteFile (ef_meta f) _ _) as [[[err|]|] fs2] eqn:Ew; [done| |done].
  apply os_WriteFile_ok in Ew as ->. intros [= <-]. cbn [w_fs w_net].
  exists sk, ct, nonce, shares, oid. do 3 (split; [done|]).
  split; [by rewrite lookup_insert_ne, lookup_insert_eq|].
  split; [by rewrite lookup_insert_eq|]. do 4 (split; [done|]).
  apply Forall_zip_Forall2; [done|]. eapply Forall_impl; [exact Hall|].
  cbn. intros [u p] (Hli & n & Hn & Hs). cbn [fst snd] in *. split; [done|]. exists n. eauto.
Qed.

(** ** Losing nodes *)

(** The nodes of a list that are still there. *)
Definition alive (w : Nodes) (us : list string) : list string :=
  filter (λ u, is_Some (w !! TrimSpace u)) us.

(** A network that has at most lost nodes. *)
Definition lost_only (w w' : Nodes) : Prop := ∀ b, w' !! b = w !! b ∨ w' !! b = None.

Lemma lost_only_refl w : lost_only w w.
Proof. intros b. by left. Qed.

Lemma answers_after_loss P k (w w' : Nodes) us ps :
  lost_only w w' → Forall2 (λ u p, answers P k w u (Some p)) us ps →
  ∃ xs, Forall2 (answers P k w') us xs ∧ omap id xs `sublist_of` ps ∧
    len (omap id xs) = len (alive w' us).
Proof.
  intros Hw. induction 1 as [|u p us ps (Hli & n & Hn & Hg & Hs) Hf (xs & Hx & Hsub & Hl)].
  { exists []. by repeat constructor. }
  unfold alive in *. rewrite filter_cons. destruct (Hw (TrimSpace u)) as [Hu|Hu].
  - exists (Some p :: xs). split; [constructor; [|done]; split; [done|]; exists n; by rewrite Hu|].
    rewrite decide_True by (rewrite Hu; eauto). cbn [omap list_omap id].
    split; [by constructor|]. rewrite !len_cons. lia.
  - exists (None :: xs). split; [by constructor|].
    rewrite decide_False by (rewrite Hu; by intros []). cbn [omap list_omap id].
    split; [by constructor|done].
Qed.

(** [encrypt] has run with success, from [wd] to [wd'], against working nodes of
    distinct URLs, whose RPC nodes simulate against [ledger], in which [st] is the
    state of the contract; since then nodes may have been lost ([wd2]). *)
Record after_encrypt f (wd wd' wd2 : World') data nodes cb ledger st : Prop := {
  ae_nodes : nodes = Split (ef_nodes f) ",";
  ae_NoDup : NoDup (TrimSpace <$> take (Z.to_nat (ef_n f)) nodes);
  ae_ne : ef_out f ≠ ef_meta f;
  ae_Utf8_contract : Utf8 (ef_contract f);
  ae_open : Open_err (ef_file f) = None;
  ae_data : w_fs wd !! ef_file f = Some data;
  ae_good b n : w_net wd !! b = Some n → good (λ url, RpcSimulates (http_Post e) url ledger) n;
  ae_run : handleEncrypt f wd = (Ret None, wd');
  ae_fs : w_fs wd2 = w_fs wd';
  ae_lost : lost_only (w_net wd') (w_net wd2);
  ae_contract : strkey_Decode VersionByteContract (ef_contract f) = Ok cb ∧ len cb = 32;
  ae_ledger : ledger !! ef_contract f = Some st;
}.

(** What a caller shows for the object of hash [h], and the body of its request;
    it is within the caps of the nodes for the object that was encrypted. *)
Definition payload (c : string) (h : bytes) : bytes := bytes_of (Hex.EncodeToString h +:+ "_" +:+ c).

Definition object_fits f (wd' : World') nodes caller (tx : bytes → string) (sg : bytes → bytes) : Prop :=
  ∀ nonce ct, w_fs wd' !! ef_out f = Some (nonce ++ ct) → len nonce = 12 →
    let h := sha256_Sum ct in
    Forall (fits (retrieve_body (Hex.EncodeToString h) (ef_contract f) caller (sg h)
      (payload (ef_contract f) h) (tx h))) nodes.

(** [decrypt] is then run on the file and the metadata, by a caller whose seed
    is valid; [tx h] and [sg h] are the transaction and the signature the client
    makes for the object of hash [h]. *)
Record decrypt_after_encrypt f g (wd wd' wd2 : World') data nodes cb caller tx sg ledger st : Prop := {
  dae_encrypt : after_encrypt f wd wd' wd2 data nodes cb ledger st;
  dae_Utf8_nodes : Forall Utf8 nodes;
  dae_t : in_int64 (ef_t f);
  dae_os p : Open_err p = None ∧ Create_err p = None ∧ ∀ b, Write_err p b = None;
  dae_file : df_file g = ef_out f;
  dae_meta : df_meta g = ef_meta f;
  dae_flags : df_meta g ≠ "" ∧ df_seed g ≠ "" ∧ df_out g ≠ "";
  dae_caller : GetAddressFromSeed (df_seed g) = Ok caller ∧ caller ≠ "" ∧ Utf8 caller;
  dae_tx h : BuildApproveTransaction (ef_contract f) (Hex.EncodeToString h) caller = Ok (tx h);
  dae_sig h : SignPayload (df_seed g) (payload (ef_contract f) h) = Ok (sg h);
  dae_cap : object_fits f wd' nodes caller tx sg;
}.

(** The address of a seed is a key of 32 bytes. *)
Lemma GetAddressFromSeed_key seed a :
  GetAddressFromSeed seed = Ok a → ∃ k, strkey_Decode VersionByteAccountID a = Ok k ∧ len k = 32.
Proof.
  unfold GetAddressFromSeed. destruct (keypair_ParseFull seed) as [kp|] eqn:E; [|done].
  intros [= <-]. destruct (keypair_Address_Decode _ _ E) as (k & Hk & Hl & _). by exists k.
Qed.

(** [handleDecrypt] up to the shares: what is left once the files are read and
    the nodes have been asked. *)
Lemma handleDecrypt_eq g (wd wd3 : World') nonce ct mb meta caller txXDR sig col :
  df_file g ≠ "" → df_meta g ≠ "" → df_seed g ≠ "" → df_out g ≠ "" →
  Open_err (df_file g) = None → Open_err (df_meta g) = None →
  w_fs wd !! df_file g = Some (nonce ++ ct) → len nonce = 12 →
  w_fs wd !! df_meta g = Some mb → Unmarshal_meta (string_of mb) = Some meta →
  GetAddressFromSeed (df_seed g) = Ok caller →
  BuildApproveTransaction (m_ContractID meta) (m_ObjectID meta) caller = Ok txXDR →
  SignPayload (df_seed g) (bytes_of (m_ObjectID meta +:+ "_" +:+ m_ContractID meta)) = Ok sig →
  collect (m_Threshold meta) (m_Nodes meta) meta caller sig
    (bytes_of (m_ObjectID meta +:+ "_" +:+ m_ContractID meta)) txXDR []
    (mkWorld (w_fs wd) (w_rnd wd) (w_net wd)) = (Ret col, wd3) →
  handleDecrypt g wd =
    (if len col <? m_Threshold meta then mret (Some (NotEnoughShares (len col) (m_Threshold meta)))
     else try sk := shamir_Combine col catch err => mret (Some (Combine_failed err)) in
       rp ← lift (SymmetricDecrypt sk ct nonce);
       try decryptedBytes := rp catch err => mret (Some (SymmetricDecrypt_failed err)) in
       err ← on_files (os_WriteFile (df_out g) decryptedBytes);
       match err with Some err => mret (Some (WriteOut_failed err)) | None => mret None end) wd3.
Proof.
  intros Hf0 Hm0 Hs0 Ho0 Hof Hom Hf Hn Hm Hp Ha Htx Hsg Hcol.
  unfold handleDecrypt. rewrite decide_False by tauto.
  unfold on_files. unfold_M. rewrite !os_ReadFile_spec, Hof, Hf. cbn [w_fs].
  rewrite (proj2 (Z.ltb_ge _ _)) by (rewrite len_app, Hn; pose proof (len_nonneg ct); lia).
  rewrite splitZ_exact by done. cbn [w_fs]. rewrite os_ReadFile_spec, Hom, Hm, Hp, Ha, Htx, Hsg.
  cbn [w_fs w_rnd w_net]. rewrite Hcol. by destruct (len col <? m_Threshold meta).
Qed.

(** What the retrieval loop collects for a caller [a] whose transactions name
    the account [u]: as many shares as needed and as there are nodes left, if
    [u] is on the list; nothing otherwise. *)
Lemma collect_outcome f wd wd' wd2 data nodes cb ledger st seed a u tx sg :
  after_encrypt f wd wd' wd2 data nodes cb ledger st →
  GetAddressFromSeed seed = Ok a → a ≠ "" → Utf8 a →
  (∀ h, ∃ ob, approve_tx a (ef_contract f) ob u (tx h)) →
  (∀ h, SignPayload seed (payload (ef_contract f) h) = Ok (sg h)) →
  object_fits f wd' nodes a tx sg →
  2 ≤ ef_t f ∧ ∃ sk ct nonce (col : list bytes) wd3,
    let us := take (Z.to_nat (ef_n f)) nodes in let h := sha256_Sum ct in
    let m := mkMeta (Hex.EncodeToString h) (ef_contract f) (ef_t f) us in
    w_fs wd' !! ef_out f = Some (nonce ++ ct) ∧ len nonce = 12 ∧
    w_fs wd' !! ef_meta f = Some (bytes_of (MarshalIndent (meta_json m))) ∧
    SymmetricDecrypt sk ct nonce = Ret (Ok data) ∧
    collect (ef_t f) us m a (sg h) (payload (ef_contract f) h) (tx h) [] wd2 = (Ret col, wd3) ∧
    w_fs wd3 = w_fs wd2 ∧
    len col = (if decide (allowed st u) then Z.min (ef_t f) (len (alive (w_net wd2) us)) else 0) ∧
    (ef_t f ≤ len col → shamir_Combine col = Ok sk).
Proof.
  intros [Hnodes Hd Hne Uc Hop Hf Hg He Hfs Hlost [Hcb Hl] Hst] Ha Hca Uca Htx Hsg Hcap.
  assert (ef_contract f ≠ "") as Hf3.
  { unfold handleEncrypt in He. destruct (decide (_ ∨ _)) as [|Hfl]; [done|]. tauto. }
  set (P := λ url, RpcSimulates (http_Post e) url ledger) in *.
  destruct (handleEncrypt_inv f P wd wd' data nodes)
    as (sk & ct & nonce & shares & oid & -> & Hn & Hdec & Hout & Hmeta & Hls & Ht & Hln & Hcomb & Hall);
    try done. split; [lia|]. exists sk, ct, nonce.
  set (h := sha256_Sum ct) in *. destruct (Htx h) as [ob Hap].
  pose proof (approve_tx_Utf8 _ _ _ _ _ Hap) as Uth.
  destruct (GetAddressFromSeed_key _ _ Ha) as (ab & Hab & _).
  assert (∀ url, P url → simulateSorobanTx (http_Post e) url (tx h) = Ok (bool_decide (allowed st u)))
    as Hrpc by (intros url Hr; by eapply approve_tx_verdict).
  set (us := take (Z.to_nat (ef_n f)) nodes) in *.
  destruct (decide (allowed st u)) as [Hal|Hal].
  - destruct (answers_after_loss P _ _ _ _ _ Hlost Hall) as (xs & Hx & Hsub & Hlen).
    assert (credentials (tx h) (ef_contract f) a (payload (ef_contract f) h) (sg h)) as Hcr.
    { split; [by eapply SignPayload_verifies; [apply Hsg|]|]. split; [by eapply approve_tx_verified|done]. }
    destruct (collect_answers P (tx h) (Hex.EncodeToString h) (ef_contract f) a (sg h)
      (payload (ef_contract f) h) (ef_t f) us xs us [] wd2 (ef_t f)) as (wd3 & Hcol & Hfs3);
      [intros url Hr; by rewrite (Hrpc _ Hr), bool_decide_eq_true_2|by apply object_id_nonempty|done
      |by apply Utf8_hex|done|done|done|by apply Forall_take, (Hcap nonce ct)|done|lia|].
    change (len (A := bytes) []) with 0 in Hcol. rewrite Z.sub_0_r in Hcol. cbn [app] in Hcol.
    do 2 eexists. do 4 (split; [done|]). split; [exact Hcol|]. split; [exact Hfs3|].
    rewrite <- Hlen. split; [unfold len; rewrite length_take; lia|].
    intros Hc. apply Hcomb; [|done]. etrans; [apply sublist_take|done].
  - destruct (collect_denied P (tx h) (Hex.EncodeToString h) (ef_contract f) a (sg h)
      (payload (ef_contract f) h) (ef_t f) us us [] wd2 (ef_t f)) as (wd3 & Hcol & Hfs3);
      [intros url Hr; by rewrite (Hrpc _ Hr), bool_decide_eq_false_2|by apply Utf8_hex|done..| |].
    + intros v n Hv Hnv. destruct (Hlost (TrimSpace v)) as [Hsame|Hgone]; [|congruence].
      apply list_elem_of_lookup in Hv as [i Hi].
      destruct (Forall2_lookup_l _ _ _ _ _ Hall Hi) as (p & _ & _ & n' & Hn' & Hgn & _). congruence.
    + exists [], wd3. do 4 (split; [done|]). split; [exact Hcol|]. split; [exact Hfs3|].
      split; [done|]. change (len (A := bytes) []) with 0. lia.
Qed.

(** What [decrypt] then does, by what it collects. *)
Lemma decrypt_collects f g wd wd' wd2 data nodes cb caller tx sg ledger st :
  decrypt_after_encrypt f g wd wd' wd2 data nodes cb caller tx sg ledger st →
  2 ≤ ef_t f ∧
  ∃ (col : list bytes) wd3, w_fs wd3 = w_fs wd2 ∧
    len col = (if decide (allowed st caller)
               then Z.min (ef_t f) (len (alive (w_net wd2) (take (Z.to_nat (ef_n f)) nodes))) else 0) ∧
    (len col < ef_t f →
       handleDecrypt g wd2 = (Ret (Some (NotEnoughShares (len col) (ef_t f))), wd3)) ∧
    (len col = ef_t f →
       handleDecrypt g wd2 =
         (Ret None, mkWorld (<[df_out g := data]> (w_fs wd3)) (w_rnd wd3) (w_net wd3))).
Proof.
  intros [Hae Un Ht64 Hos Hgf Hgm (Hm0 & Hs0 & Ho0) (Ha & Hca & Uca) Htx Hsg Hcap].
  pose proof (ae_contract _ _ _ _ _ _ _ _ _ Hae) as [Hcb Hl].
  destruct (GetAddressFromSeed_key _ _ Ha) as (ab & Hab & Hlab).
  destruct (collect_outcome f wd wd' wd2 data nodes cb ledger st (df_seed g) caller caller tx sg)
    as (Ht & sk & ct & nonce & col & wd3 & Hout & Hn & Hmeta & Hdec & Hcol & Hfs3 & Hlc & Hcomb); try done.
  { intros h. destruct (BuildApproveTransaction_approve_tx _ _ _ _ _ _ Hcb Hl Hab Hlab (Htx h)) as (ob & _ & Hap).
    by exists ob. }
  split; [done|]. exists col, wd3. split; [done|]. split; [done|].
  set (h := sha256_Sum ct) in *. set (us := take (Z.to_nat (ef_n f)) nodes) in *.
  pose (mm := mkMeta (Hex.EncodeToString h) (ef_contract f) (ef_t f) us).
  assert (ef_out f ≠ "") as Hf2.
  { pose proof (ae_run _ _ _ _ _ _ _ _ _ Hae) as He. unfold handleEncrypt in He.
    destruct (decide (_ ∨ _)) as [|Hfl]; [done|]. tauto. }
  pose proof (ae_fs _ _ _ _ _ _ _ _ _ Hae) as Hfs. destruct wd2 as [fs rr nn]. cbn [w_fs w_net] in *.
  rewrite (handleDecrypt_eq g _ wd3 nonce ct (bytes_of (MarshalIndent (meta_json mm))) mm caller
    (tx h) (sg h) col);
    [|by rewrite Hgf|done|done|done|by apply Hos|by apply Hos|by cbn; rewrite Hfs, Hgf|done
     |by cbn; rewrite Hfs, Hgm
     |rewrite string_of_bytes_of; apply Unmarshal_meta_MarshalIndent;
      [by apply Utf8_hex|by eapply ae_Utf8_contract|done|by apply Forall_take]|done|by apply Htx|by apply Hsg|exact Hcol].
  change (m_Threshold mm) with (ef_t f).
  split; intros Hc.
  - by rewrite (proj2 (Z.ltb_lt _ _)).
  - rewrite (proj2 (Z.ltb_ge _ _)) by lia. rewrite Hcomb by lia.
    rewrite Hdec. destruct (Hos (df_out g)) as (_ & Hcr' & Hw). unfold on_files. unfold_M.
    by rewrite os_WriteFile_eq.
Qed.

(** C1: end to end.  If [encrypt] succeeded against working nodes with distinct
    URLs, then [decrypt] - run on the file and the metadata it wrote, by a
    caller who is on the contract's allowlist - succeeds and writes the original
    file, even when nodes have been lost since, as long as the threshold of them
    is left. *)
Theorem decrypt_of_encrypt f g wd wd' wd2 data nodes cb caller tx sg ledger st :
  decrypt_after_encrypt f g wd wd' wd2 data nodes cb caller tx sg ledger st → allowed st caller →
  ef_t f ≤ len (alive (w_net wd2) (take (Z.to_nat (ef_n f)) nodes)) →
  ∃ wd'', handleDecrypt g wd2 = (Ret None, wd'') ∧ w_fs wd'' !! df_out g = Some data.
Proof.
  intros H Hal Ht. destruct (decrypt_collects _ _ _ _ _ _ _ _ _ _ _ _ _ H) as (_ & col & wd3 & _ & Hl & _ & Hok).
  rewrite decide_True in Hl by done.
  eexists. split; [apply Hok; lia|]. cbn [w_fs]. by rewrite lookup_insert_eq.
Qed.

(** C14: with fewer nodes left than the threshold, [decrypt] reports how many
    shares it got and how many it needs, and writes no file. *)
Theorem decrypt_below_threshold f g wd wd' wd2 data nodes cb caller tx sg ledger st :
  decrypt_after_encrypt f g wd wd' wd2 data nodes cb caller tx sg ledger st → allowed st caller →
  let k := len (alive (w_net wd2) (take (Z.to_nat (ef_n f)) nodes)) in
  k < ef_t f →
  ∃ wd'', handleDecrypt g wd2 = (Ret (Some (NotEnoughShares k (ef_t f))), wd'') ∧
    w_fs wd'' = w_fs wd2.
Proof.
  intros H Hal k Hk.
  destruct (decrypt_collects _ _ _ _ _ _ _ _ _ _ _ _ _ H) as (_ & col & wd3 & Hfs & Hl & Hno & _).
  rewrite decide_True in Hl by done. fold k in Hl. exists wd3. split; [|done].
  assert (len col = k) as <- by lia. apply Hno. lia.
Qed.

(** C15: the allowlist is enforced on the honest path.  A caller who is not on
    the contract's list - never added, or removed since - gets not a single
    share with the client: [decrypt] reports 0 shares and writes no file,
    however many nodes are left. *)
Theorem decrypt_not_allowed f g wd wd' wd2 data nodes cb caller tx sg ledger st :
  decrypt_after_encrypt f g wd wd' wd2 data nodes cb caller tx sg ledger st → ¬ allowed st caller →
  ∃ wd'', handleDecrypt g wd2 = (Ret (Some (NotEnoughShares 0 (ef_t f))), wd'') ∧
    w_fs wd'' = w_fs wd2.
Proof.
  intros H Hal.
  destruct (decrypt_collects _ _ _ _ _ _ _ _ _ _ _ _ _ H) as (Ht & col & wd3 & Hfs & Hl & Hno & _).
  rewrite decide_False in Hl by done. exists wd3. split; [|done]. rewrite <- Hl. apply Hno. lia.
Qed.

End network.

(** ** A run

    Three nodes, a file, and the caller; [st] is the state of the contract. *)

Module Demo.

#[local] Existing Instances AsciiNames.ascii_names ToyCrypto.crypto ToyCrypto.crypto_laws ToyRate.limiter_impl ToyRate.laws
  GmapBolt.bolt GmapBolt.bolt_laws ToyXdr.xdr ToyXdr.codec ToyXdr.laws ToyShamir.shamir
  ToyShamir.laws healthy.

Definition node (key : bytes) : Node :=
  mkNode fresh_db ∅ [] (ToyCrypto.priv key) (PublicKey (ToyCrypto.priv key)) "rpc" None None ∅ 0
    zero_loggers [].

Definition contract_bytes : bytes := replicate 32 "c"%char.
Definition contract : string := String "C" (Hex.EncodeToString contract_bytes).

Definition flags : EncryptFlags :=
  mkEncryptFlags "in" "out.enc" contract "http://a,http://b,http://c" 3 2 "meta.json".
Definition dflags : DecryptFlags := mkDecryptFlags "out.enc" "meta.json" "seed" "plain".

Definition world : World (W := gmap string Node) :=
  mkWorld {["in" := bytes_of "attack at dawn"]} (replicate 300 "r"%char)
    (<["http://a" := node (bytes_of "ka")]> (<["http://b" := node (bytes_of "kb")]>
      {["http://c" := node (bytes_of "kc")]})).

(** Every node runs with the default configuration, and asks an RPC node that
    simulates the contract. *)
Definition config (base : string) : Config := LoadConfig (λ _, "").
Definition ledger (st : Storage) : Ledger := {[contract := st]}.
Definition env (st : Storage) : Env :=
  mkEnv 0 None "1s" "2026-01-01T00:00:00Z" 100 (DemoTx.simulating (ledger st)).
Abbreviation demo_net st := (net (env st) config).

Definition encrypted (st : Storage) : World (W := gmap string Node) :=
  (handleEncrypt (N := demo_net st) flags world).2.

Definition caller : string :=
  match GetAddressFromSeed "seed" with Ok a => a | Err _ => "" end.
Definition tx (h : bytes) : string :=
  match BuildApproveTransaction contract (Hex.EncodeToString h) caller with Ok s => s | Err _ => "" end.
Definition sig (h : bytes) : bytes :=
  ToyCrypto.pad32 (bytes_of "seed") ++ bytes_of (Hex.EncodeToString h +:+ "_" +:+ contract).

(** The contract before and after its admin has added the caller. *)
Definition unlisted : Storage := exec (λ _, false, CallInit "GADMIN" []) empty_storage.
Definition listed : Storage := exec (λ a, bool_decide (a = "GADMIN"), CallAdd caller) unlisted.

Lemma encrypt_runs st : handleEncrypt (N := demo_net st) flags world = (Ret None, encrypted st).
Proof.
  assert (match (handleEncrypt (N := demo_net st) flags world).1 with
          | Ret None => true | _ => false end = true) as H by (vm_compute; reflexivity).
  revert H. unfold encrypted. by destruct (handleEncrypt _ _) as [[[e|]|] w].
Qed.

Lemma nodes_good st b n :
  w_net world !! b = Some n → good (λ url, RpcSimulates (http_Post (env st)) url (ledger st)) n.
Proof.
  cbn [world w_net]. rewrite !lookup_insert, lookup_singleton.
  repeat case_decide; intros [= <-]; (do 4 (split; [done|])); apply DemoTx.simulating_simulates.
Qed.

Lemma tx_built h :
  BuildApproveTransaction contract (Hex.EncodeToString h) caller = Ok (tx h).
Proof.
  assert (∃ s, BuildApproveTransaction contract (Hex.EncodeToString h) caller = Ok s) as [s Hs].
  { unfold BuildApproveTransaction.
    assert (∃ cb, strkey_Decode VersionByteContract contract = Ok cb) as [cb ->]
      by (eexists; vm_compute; reflexivity).
    assert (∃ ab, strkey_Decode VersionByteAccountID caller = Ok ab) as [ab ->]
      by (eexists; vm_compute; reflexivity).
    rewrite Hex.DecodeString_EncodeToString. cbn [NewTransaction ToyXdr.codec ToyXdr.build tx_Base64].
    by eexists. }
  unfold tx. by rewrite Hs.
Qed.

(** The file [encrypt] wrote, without its nonce. *)
Definition ciphertext (st : Storage) : bytes := drop 12 (default [] (w_fs (encrypted st) !! "out.enc")).

Lemma requests_fit st :
  object_fits config flags (encrypted st) (Split "http://a,http://b,http://c" ",") caller tx sig.
Proof.
  intros nonce ct Hf Hn. change (w_fs (encrypted st) !! "out.enc" = Some (nonce ++ ct)) in Hf.
  assert (ct = ciphertext st) as ->.
  { unfold ciphertext. rewrite Hf. cbn [default from_option id].
    replace 12%nat with (length nonce) by (unfold len in Hn; lia). by rewrite drop_app_length. }
  clear Hf Hn. cbv zeta. apply Forall_forall. intros u _. unfold fits.
  change (maxBodyBytes (config (TrimSpace u))) with (maxBodyBytes (LoadConfig (λ _, ""))).
  apply Z.leb_le. vm_compute. reflexivity.
Qed.

Lemma encrypted_setting st wd2 :
  w_fs wd2 = w_fs (encrypted st) → lost_only (w_net (encrypted st)) (w_net wd2) →
  after_encrypt (env st) config flags world (encrypted st) wd2 (bytes_of "attack at dawn")
    (Split "http://a,http://b,http://c" ",") contract_bytes (ledger st) st.
Proof.
  intros Hfs Hl. split; [| | | | | | | |exact Hfs|exact Hl|..]; clear Hfs Hl.
  - done.
  - by apply (bool_decide_unpack (NoDup _)).
  - done.
  - apply (utf8b_sound 100); reflexivity.
  - done.
  - done.
  - apply nodes_good.
  - apply encrypt_runs.
  - split; [vm_compute; reflexivity|done].
  - apply lookup_singleton_eq.
Qed.

Lemma setting st wd2 :
  w_fs wd2 = w_fs (encrypted st) → lost_only (w_net (encrypted st)) (w_net wd2) →
  decrypt_after_encrypt (env st) config flags dflags world (encrypted st) wd2 (bytes_of "attack at dawn")
    (Split "http://a,http://b,http://c" ",") contract_bytes caller tx sig (ledger st) st.
Proof.
  intros Hfs Hl. split; [exact (encrypted_setting st wd2 Hfs Hl)|..]; clear Hfs Hl.
  - repeat constructor; apply (utf8b_sound 20); reflexivity.
  - by vm_compute.
  - done.
  - done.
  - done.
  - done.
  - split; [done|]. split; [done|]. apply (utf8b_sound 100); reflexivity.
  - apply tx_built.
  - done.
  - apply requests_fit.
Qed.

(** The network without the nodes [gone]. *)
Definition without (st : Storage) (gone : list string) : World (W := gmap string Node) :=
  mkWorld (w_fs (encrypted st)) [] (foldr delete (w_net (encrypted st)) gone).

Lemma without_lost st gone : lost_only (w_net (encrypted st)) (w_net (without st gone)).
Proof.
  intros b. cbn [without w_net]. induction gone as [|x gone IH]; [by left|]. cbn [foldr].
  rewrite lookup_delete. case_decide; [by right|exact IH].
Qed.

Lemma decrypt_of_encrypt_witness :
  ∃ wd'', handleDecrypt (N := demo_net listed) dflags (without listed ["http://b"]) = (Ret None, wd'') ∧
    w_fs wd'' !! "plain" = Some (bytes_of "attack at dawn").
Proof.
  eapply (decrypt_of_encrypt (env listed) config (λ s, rooted_apart (config s) eq_refl) flags dflags world (encrypted listed)
    (without listed ["http://b"])).
  - exact (setting listed (without listed ["http://b"]) eq_refl (without_lost listed ["http://b"])).
  - apply (bool_decide_unpack _). vm_compute. exact I.
  - by vm_compute.
Defined.

Lemma decrypt_below_threshold_witness :
  ∃ wd'', handleDecrypt (N := demo_net listed) dflags (without listed ["http://a"; "http://b"]) =
      (Ret (Some (NotEnoughShares 1 2)), wd'') ∧
    w_fs wd'' = w_fs (encrypted listed).
Proof.
  assert (len (alive (w_net (without listed ["http://a"; "http://b"]))
    (take (Z.to_nat (ef_n flags)) (Split "http://a,http://b,http://c" ","))) = 1) as Hk
    by (vm_compute; reflexivity).
  rewrite <- Hk. eapply (decrypt_below_threshold (env listed) config (λ s, rooted_apart (config s) eq_refl) flags dflags world (encrypted listed)
    (without listed ["http://a"; "http://b"])).
  - exact (setting listed (without listed ["http://a"; "http://b"]) eq_refl
      (without_lost listed ["http://a"; "http://b"])).
  - apply (bool_decide_unpack _). vm_compute. exact I.
  - rewrite Hk. done.
Defined.

Lemma decrypt_not_allowed_witness :
  ∃ wd'', handleDecrypt (N := demo_net unlisted) dflags (encrypted unlisted) =
      (Ret (Some (NotEnoughShares 0 2)), wd'') ∧
    w_fs wd'' = w_fs (encrypted unlisted).
Proof.
  eapply (decrypt_not_allowed (env unlisted) config (λ s, rooted_apart (config s) eq_refl) flags dflags world (encrypted unlisted)
    (encrypted unlisted)).
  - exact (setting unlisted (encrypted unlisted) eq_refl (lost_only_refl _)).
  - intros [v H]. vm_compute in H. discriminate H.
Defined.

End Demo.
