(* ===== verification/Allowlist.v ===== *)
(** * What the allowlist guarantees

    The contract, the RPC nodes that simulate it, the node servers and the
    client, all together: a share is released only while some account is on the
    contract's list - but to anyone who names that account, since the node
    compares neither argument of the simulated call with the caller. *)

From S2P Require Import Prelude GoStrings Encoding Json JsonStruct JsonIndent Bucket Store Crypto.
From S2P Require Import NodeCrypto ClientCrypto Http SorobanTx Contract RateLimit FileSystem Logger.
From S2P Require Import Node Middleware Handlers Config Pattern Mux Server NodeSpec Transaction Client.
From S2P Require Import Network EndToEnd.

Section guarantee.
Context {C : Crypto} {B : Bolt} {R : RateLimiter} {X : Xdr} {XC : XdrCodec X} {U : Unicode}.
Context {SS : ShareStore DB} {SL : ShareStoreLaws DB}.

(** An authorised request is one whose transaction asks for an account on the
    list of the contract. *)
Lemma authorised_allowlist e url req ledger :
  RpcSimulates (http_Post e) url ledger → authorised e url req →
  ∃ st u, ledger !! rr_ContractID req = Some st ∧ asks_for (rr_TxXDR req) u ∧ allowed st u.
Proof.
  intros Hr (m & sg & _ & _ & _ & Hv & Hs).
  destruct (verified_approves ledger _ _ _ Hv) as (env & ok & He & Ha & Hok).
  rewrite (simulateSorobanTx_approve _ _ _ _ _ _ Hr He Ha) in Hs. injection Hs as ->. by apply Hok.
Qed.

(** C6: an empty list releases nothing.  When the RPC node simulates the
    ledger, the server answers 200 to a /retrieve only if the contract it names
    exists, and the transaction it carries calls [approve] for an account on the
    allowlist of that contract.  (Unless HEALTH_CHECK_PATH is a pattern that takes
    the route over.) *)
Theorem release_needs_allowlist e cfg h r n ledger :
  buildMux e cfg = Ret h → health_takes cfg "/retrieve" = false → node_ok n → r_Path r = "/retrieve" →
  RpcSimulates (http_Post e) (sorobanRPCURL n) ledger →
  reply_code h r n = Some 200 →
  ∃ req st u, decode_retrieve (r_Body (routed_request cfg r)) = Some req ∧
    ledger !! rr_ContractID req = Some st ∧ asks_for (rr_TxXDR req) u ∧ allowed st u.
Proof.
  intros Hb Ht Hn Hp Hr Hc. destruct (server_step e cfg h r n Hb Hn) as [_ Hs].
  unfold reply_code in Hc. destruct (serve h r n) as [[[[]|] n'] w] eqn:Es; [|done].
  injection Hc as Hc. unfold reply_of in Hs. cbn [fst snd] in Hs. rewrite Hc in Hs.
  assert (r_Path (routed_request cfg r) = "/retrieve") as Hp' by exact Hp.
  inversion Hs as [? ? ? ? Hq|? ? ? ? ? Hq|req sh c p ? _ Hd Hau|? Hq|? Hq|? ? Hq]; try congruence.
  - destruct (authorised_allowlist e _ req ledger Hr Hau) as (st & u & Hst). by exists req, st, u.
  - destruct Hq as [Hq|Hq]; [|by destruct (Hq (rw_body w))]. exfalso. apply Hq. rewrite Hp'.
    by apply (bool_decide_unpack ("/retrieve" ∈ guarded_paths)).
Qed.

End guarantee.

(** ** Around the list *)

Section bypass.
Context {C : Crypto} {B : Bolt} {R : RateLimiter} {X : Xdr} {XC : XdrCodec X} {U : Unicode}.
Context {SS : ShareStore DB}.
Context (e : Env) (cfg : string → Config).
#[local] Instance net' : Net (gmap string Node) := net e cfg.
Context (HR : ∀ base, health_apart (cfg base)).
Context {CL : CryptoLaws C} {SL : ShareStoreLaws DB} {RL : RateLimiterLaws R}.
Context {XL : XdrLaws C X XC} {O : Os} {Sh : Shamir} {ShL : ShamirLaws Sh}.

(** An attacker with a seed of its own, the address [a], builds transactions
    from its own account that call [approve] for another account, [u], which is
    on the list; it signs its requests with its own seed. *)
Record attack f (wd' : World (W := gmap string Node)) nodes st seed a u tx sg : Prop := {
  at_seed : GetAddressFromSeed seed = Ok a ∧ a ≠ "" ∧ Utf8 a;
  at_listed : allowed st u;
  at_tx h : approve_tx a (ef_contract f) h u (tx h);
  at_sig h : SignPayload seed (payload (ef_contract f) h) = Ok (sg h);
  at_fits : object_fits cfg f wd' nodes a tx sg;
}.

(** C3: the allowlist can be bypassed.  Whoever has the encrypted file and its
    metadata - on the list or not - obtains the shares from the nodes, as long as
    any account at all is on the list and the threshold of the nodes is left:
    the client's own retrieval loop, run with the attacker's credentials,
    collects shares that combine to the key of the file. *)
Theorem allowlist_bypassed f wd wd' wd2 data nodes cb ledger st seed a u tx sg :
  after_encrypt e cfg f wd wd' wd2 data nodes cb ledger st →
  attack f wd' nodes st seed a u tx sg →
  let us := take (Z.to_nat (ef_n f)) nodes in
  ef_t f ≤ len (alive (w_net wd2) us) →
  ∃ nonce ct (col : list bytes) sk wd3,
    let h := sha256_Sum ct in
    w_fs wd' !! ef_out f = Some (nonce ++ ct) ∧ len nonce = 12 ∧
    collect (ef_t f) us (mkMeta (Hex.EncodeToString h) (ef_contract f) (ef_t f) us) a (sg h)
      (payload (ef_contract f) h) (tx h) [] wd2 = (Ret col, wd3) ∧
    shamir_Combine col = Ok sk ∧ SymmetricDecrypt sk ct nonce = Ret (Ok data).
Proof.
  intros Hae [(Ha & Hca & Uca) Hu Htx Hsg Hfit] us Hal.
  destruct (collect_outcome e cfg HR f wd wd' wd2 data nodes cb ledger st seed a u tx sg)
    as (Ht & sk & ct & nonce & col & wd3 & Hout & Hn & _ & Hdec & Hcol & _ & Hlc & Hcomb); try done;
    [by eauto|].
  rewrite decide_True in Hlc by done. fold us in Hlc.
  exists nonce, ct, col, sk, wd3. do 2 (split; [done|]). split; [exact Hcol|].
  split; [|done]. apply Hcomb. lia.
Qed.

End bypass.

(** ** Runs *)

Module DemoAllowlist.

#[local] Existing Instances AsciiNames.ascii_names ToyCrypto.crypto ToyCrypto.crypto_laws ToyRate.limiter_impl ToyRate.laws
  GmapBolt.bolt GmapBolt.bolt_laws ToyXdr.xdr ToyXdr.codec ToyXdr.laws ToyShamir.shamir
  ToyShamir.laws healthy.

Import Demo.

(** Mallory is not on the list. *)
Definition mallory : string :=
  match GetAddressFromSeed "mallory" with Ok a => a | Err _ => "" end.
Definition mallory_tx (h : bytes) : string :=
  match NewTransaction mallory (approve_op contract_bytes h (ToyCrypto.pad32 (bytes_of "seed"))) with
  | Ok tx => match tx_Base64 tx with Ok s => s | Err _ => "" end
  | Err _ => ""
  end.
Definition mallory_sig (h : bytes) : bytes :=
  ToyCrypto.pad32 (bytes_of "mallory") ++ payload contract h.

Lemma mallory_unlisted : ¬ allowed listed mallory.
Proof. intros [v H]. vm_compute in H. discriminate H. Qed.

Lemma mallory_fits :
  object_fits config flags (encrypted listed) (Split "http://a,http://b,http://c" ",") mallory
    mallory_tx mallory_sig.
Proof.
  intros nonce ct Hf Hn. change (w_fs (encrypted listed) !! "out.enc" = Some (nonce ++ ct)) in Hf.
  assert (ct = ciphertext listed) as ->.
  { unfold ciphertext. rewrite Hf. cbn [default from_option id].
    replace 12%nat with (length nonce) by (unfold len in Hn; lia). by rewrite drop_app_length. }
  clear Hf Hn. cbv zeta. apply Forall_forall. intros u _. unfold fits.
  change (maxBodyBytes (config (TrimSpace u))) with (maxBodyBytes (LoadConfig (λ _, ""))).
  apply Z.leb_le. vm_compute. reflexivity.
Qed.

Lemma mallory_attacks :
  attack config flags (encrypted listed) (Split "http://a,http://b,http://c" ",") listed "mallory"
    mallory caller mallory_tx mallory_sig.
Proof.
  split.
  - split; [done|]. split; [done|]. apply (utf8b_sound 100); reflexivity.
  - apply (bool_decide_unpack _). vm_compute. exact I.
  - intros h. set (k := ToyCrypto.pad32 (bytes_of "seed")).
    assert (∃ t, NewTransaction mallory (approve_op contract_bytes h k) = Ok t) as [t Ht]
      by (generalize mallory, k; intros m k'; by eexists).
    exists contract_bytes, k, t. split; [vm_compute; reflexivity|]. split; [done|].
    split; [vm_compute; reflexivity|]. split; [by vm_compute|]. split; [exact Ht|].
    unfold mallory_tx. fold k. by rewrite Ht.
  - done.
  - apply mallory_fits.
Qed.

Lemma allowlist_bypassed_witness :
  ¬ allowed listed mallory ∧
  ∃ nonce ct (col : list bytes) sk wd3,
    let h := sha256_Sum ct in let us := Split "http://a,http://b,http://c" "," in
    w_fs (encrypted listed) !! "out.enc" = Some (nonce ++ ct) ∧ len nonce = 12 ∧
    collect (N := demo_net listed) 2 us (mkMeta (Hex.EncodeToString h) contract 2 us) mallory
      (mallory_sig h) (payload contract h) (mallory_tx h) [] (encrypted listed) = (Ret col, wd3) ∧
    shamir_Combine col = Ok sk ∧
    SymmetricDecrypt sk ct nonce = Ret (Ok (bytes_of "attack at dawn")).
Proof.
  split; [apply mallory_unlisted|].
  apply (allowlist_bypassed (env listed) config (λ s, rooted_apart (config s) eq_refl) flags world (encrypted listed) (encrypted listed)
    (bytes_of "attack at dawn") (Split "http://a,http://b,http://c" ",") contract_bytes (ledger listed)
    listed "mallory" mallory caller mallory_tx mallory_sig
    (encrypted_setting listed (encrypted listed) eq_refl (lost_only_refl _)) mallory_attacks).
  vm_compute. discriminate.
Defined.

End DemoAllowlist.

(** One node, as in [DemoServer], whose RPC node simulates the contract. *)
Module DemoRelease.

Import DemoShare DemoServer.

Definition book : Ledger :=
  {[contract := exec (λ a, bool_decide (a = "GADMIN"), CallAdd caller)
                  (exec (λ _, false, CallInit "GADMIN" []) empty_storage)]}.
Definition chain_env : Env := mkEnv 0 None "1s" "2026-01-01T00:00:00Z" 100 (DemoTx.simulating book).
Definition chain_served : Handler Node :=
  match buildMux chain_env cfg with Ret h => h | Panic _ => λ _, mret tt end.

Lemma stored_node_ok : node_ok (node stored).
Proof. split; [apply stored_usable|done]. Qed.

Lemma release_needs_allowlist_witness :
  ∃ req st u, decode_retrieve (r_Body (routed_request cfg retrieve_post)) = Some req ∧
    book !! rr_ContractID req = Some st ∧ asks_for (rr_TxXDR req) u ∧ allowed st u.
Proof.
  apply (release_needs_allowlist chain_env cfg chain_served retrieve_post (node stored) book);
    [done|done|apply stored_node_ok|done|apply DemoTx.simulating_simulates|].
  vm_compute. reflexivity.
Defined.

End DemoRelease.
