(* ===== verification/Sdk.v ===== *)
(** * The SDK ([pkg/sorobanencrypt])

    The Go package's client: its options, and its [Encrypt] and [Decrypt],
    which check their arguments and describe an object, but neither read the
    file nor talk to a node.  Also [pkg/sorobanencrypt/xdr]'s builder. *)

From S2P Require Import Prelude GoStrings Encoding Crypto FileSystem.

(** ** Options *)

Record clientOptions := mkOptions {
  nodes : list string;
  threshold : Z;
  contractID : string;
  sorobanRPC : string;
  apiKey : string;
}.

(** An [Option]: a function on the options. *)
Definition Option : Type := clientOptions → clientOptions.

Definition WithNodes (l : list string) : Option := λ o,
  mkOptions l (threshold o) (contractID o) (sorobanRPC o) (apiKey o).
Definition WithThreshold (t : Z) : Option := λ o,
  mkOptions (nodes o) t (contractID o) (sorobanRPC o) (apiKey o).
Definition WithContractID (id : string) : Option := λ o,
  mkOptions (nodes o) (threshold o) id (sorobanRPC o) (apiKey o).
Definition WithSorobanRPC (url : string) : Option := λ o,
  mkOptions (nodes o) (threshold o) (contractID o) url (apiKey o).
Definition WithAPIKey (key : string) : Option := λ o,
  mkOptions (nodes o) (threshold o) (contractID o) (sorobanRPC o) key.

(** [NewClient]: the options are applied in order to the defaults. *)
Definition NewClient (opts : list Option) : clientOptions :=
  foldl (λ o opt, opt o) (mkOptions [] 0 "" "https://soroban-testnet.stellar.org:443" "") opts.

(** ** Encrypt and Decrypt *)

Record EncryptOptions := mkEncOpts { OutputPath : string; Tags : gmap string string; Compress : bool }.
Record DecryptOptions := mkDecOpts { DOutputPath : string; CallerAddress : string; SeedPhrase : string }.

Inductive sdk_error := NoNodes | ContractRequired | MetadataRequired | CallerRequired.

(** [ObjectMetadata]; the time is given. *)
Record ObjectMetadata (Time : Type) := mkObjectMeta {
  om_ObjectID : string;
  om_ContractID : string;
  om_Nodes : list string;
  om_Threshold : Z;
  om_Tags : gmap string string;
  om_EncFile : string;
  om_CreatedAt : Time;
}.

Arguments mkObjectMeta {Time}.
Arguments om_ObjectID {Time}.
Arguments om_EncFile {Time}.

(** [generateObjectID]: the error of [rand.Read] is dropped, and leaves the
    buffer zero. *)
Definition generateObjectID : M (FS * bytes) string :=
  b ← on_rnd (rand_ReadFull 16);
  mret (Hex.EncodeToString (match b with Ok b => b | Err _ => replicate 16 "000"%char end)).

(** [c.Encrypt] at the time [now], on the files and the random source. *)
Definition Encrypt {Time} (now : Time) (c : clientOptions) (filePath : string)
    (opts : EncryptOptions) : M (FS * bytes) (res sdk_error (ObjectMetadata Time)) :=
  if decide (len (nodes c) = 0) then mret (Err NoNodes)
  else if decide (contractID c = "") then mret (Err ContractRequired)
  else
    objectID ← generateObjectID;
    let encFile := if decide (OutputPath opts ≠ "") then OutputPath opts else filePath +:+ ".enc" in
    mret (Ok (mkObjectMeta objectID (contractID c) (nodes c) (threshold c) (Tags opts) encFile now)).

(** [c.Decrypt]; [None] is a nil [meta]. *)
Definition Decrypt {Time} (c : clientOptions) (meta : option (ObjectMetadata Time))
    (opts : DecryptOptions) : M (FS * bytes) (option sdk_error) :=
  match meta with
  | None => mret (Some MetadataRequired)
  | Some _ =>
      if decide (CallerAddress opts = "") then mret (Some CallerRequired) else mret None
  end.

(** [xdr.BuildApproveTransaction]. *)
Definition xdr_BuildApproveTransaction (rpcURL contractID callerAddress : string) :
    res error string := Ok "".

(** ** The example programs ([examples/])

    What they print and whether they end with [log.Fatal]. *)

Definition example_nodes : list string := ["http://node1:8080"; "http://node2:8080"; "http://node3:8080"].
Definition example_client : clientOptions :=
  NewClient [WithNodes example_nodes; WithThreshold 2; WithContractID "CCONTRACT_ID_HERE"].

(** [examples/encrypt_file.go]. *)
Definition encrypt_file_main {Time} (now : Time) : M (FS * bytes) (res sdk_error string) :=
  r ← Encrypt now example_client "secret.txt"
        (mkEncOpts "secret.txt.enc" (list_to_map [("env", "production"); ("owner", "alice")]) false);
  match r with
  | Err err => mret (Err err)
  | Ok meta => mret (Ok ("Encrypted: object_id=" +:+ om_ObjectID meta +:+ " enc_file=" +:+
                         om_EncFile meta +:+ newline))
  end.

(** [examples/decrypt_file.go]; the time it leaves unset is [zero]. *)
Definition decrypt_file_main {Time} (zero : Time) : M (FS * bytes) (option sdk_error) :=
  let meta := mkObjectMeta "OBJECT_ID_FROM_ENCRYPT" "CCONTRACT_ID_HERE" example_nodes 2 ∅
                "secret.txt.enc" zero in
  Decrypt example_client (Some meta) (mkDecOpts "secret.txt" "GCALLER_ADDRESS" "").

(** ** Properties *)

Lemma NewClient_app opts opts' :
  NewClient (opts ++ opts') = foldl (λ o opt, opt o) (NewClient opts) opts'.
Proof. apply foldl_app. Qed.

(** of two options that set the same thing the later one counts, and an
    option changes nothing but what it names. *)
Theorem NewClient_last_wins opts l l' t id url key :
  NewClient (opts ++ [WithNodes l; WithNodes l']) = NewClient (opts ++ [WithNodes l']) ∧
  let o := NewClient opts in
  NewClient (opts ++ [WithNodes l; WithThreshold t; WithContractID id; WithSorobanRPC url; WithAPIKey key]) =
    mkOptions l t id url key ∧
  NewClient (opts ++ [WithNodes l]) = mkOptions l (threshold o) (contractID o) (sorobanRPC o) (apiKey o) ∧
  NewClient (opts ++ [WithThreshold t]) = mkOptions (nodes o) t (contractID o) (sorobanRPC o) (apiKey o) ∧
  NewClient (opts ++ [WithContractID id]) = mkOptions (nodes o) (threshold o) id (sorobanRPC o) (apiKey o).
Proof. rewrite !NewClient_app. done. Qed.

(** With nodes and a contract [Encrypt] succeeds, draws the 16 bytes of the
    identifier and touches no file. *)
Lemma Encrypt_writes_any {Time} (now : Time) c filePath opts fs rnd :
  nodes c ≠ [] → contractID c ≠ "" →
  ∃ meta, Encrypt now c filePath opts (fs, rnd) = (Ret (Ok meta), (fs, drop 16 rnd)) ∧
    om_EncFile meta = (if decide (OutputPath opts ≠ "") then OutputPath opts else filePath +:+ ".enc") ∧
    String.length (om_ObjectID meta) = 32%nat.
Proof.
  intros Hn Hc. unfold Encrypt. rewrite decide_False by (by intros ?%len_0_nil).
  rewrite decide_False by done. unfold generateObjectID, on_rnd, rand_ReadFull. unfold_M.
  cbn [fst snd]. rewrite splitZ_take_drop. change (Z.to_nat 16) with 16%nat. cbn [fst snd].
  case_decide as Hl; (eexists; split; [reflexivity|]; split; [done|]); cbn [om_ObjectID]; [|done].
  rewrite Hex.length_EncodeToString. unfold len in Hl. lia.
Qed.

(** the SDK's [Encrypt] and [Decrypt] are stubs.  With nodes and a contract
    configured [Encrypt] always succeeds, whether the file exists or not; it
    writes no file - so that the encrypted file it names is not made - and only
    draws the 16 bytes of the object ID.  [Decrypt] with a caller address
    reports success and does nothing at all. *)
Theorem Encrypt_writes_nothing {Time} (now : Time) c filePath opts dopts fs rnd :
  nodes c ≠ [] → contractID c ≠ "" → CallerAddress dopts ≠ "" →
  ∃ meta, Encrypt now c filePath opts (fs, rnd) = (Ret (Ok meta), (fs, drop 16 rnd)) ∧
    om_EncFile meta = (if decide (OutputPath opts ≠ "") then OutputPath opts else filePath +:+ ".enc") ∧
    String.length (om_ObjectID meta) = 32%nat ∧
    ∀ st, Decrypt c (Some meta) dopts st = (Ret None, st).
Proof.
  intros Hn Hc Ha. destruct (Encrypt_writes_any now c filePath opts fs rnd Hn Hc) as (meta & He & Hf & Hl).
  exists meta. do 3 (split; [done|]). intros st. unfold Decrypt. by rewrite decide_False.
Qed.

(** The example programs succeed on any files, none included, and make none. *)
Lemma examples_succeed {Time} (now zero : Time) fs rnd :
  (∃ out, encrypt_file_main now (fs, rnd) = (Ret (Ok out), (fs, drop 16 rnd))) ∧
  decrypt_file_main zero (fs, rnd) = (Ret None, (fs, rnd)).
Proof.
  destruct (Encrypt_writes_any now example_client "secret.txt" (mkEncOpts "secret.txt.enc"
    (list_to_map [("env", "production"); ("owner", "alice")]) false) fs rnd) as (meta & He & _); [done..|].
  split; [|done]. unfold encrypt_file_main. unfold mbind, M_bind. rewrite He. by eexists.
Qed.

(** ** A run *)

Lemma Encrypt_writes_nothing_witness : ∃ meta,
  Encrypt tt (NewClient [WithNodes ["http://a"]; WithContractID "CA"]) "missing.txt"
    (mkEncOpts "" ∅ false) (∅, replicate 20 "r"%char) = (Ret (Ok meta), (∅, replicate 4 "r"%char)) ∧
  om_EncFile meta = "missing.txt.enc" ∧ String.length (om_ObjectID meta) = 32%nat ∧
  ∀ st, Decrypt (NewClient [WithNodes ["http://a"]; WithContractID "CA"]) (Some meta)
    (mkDecOpts "out" "GA" "") st = (Ret None, st).
Proof.
  by apply (Encrypt_writes_nothing tt (NewClient [WithNodes ["http://a"]; WithContractID "CA"])
    "missing.txt" (mkEncOpts "" ∅ false) (mkDecOpts "out" "GA" "") ∅ (replicate 20 "r"%char)).
Defined.
